(** * CastXML [Output.cxx]: the gccxml dump of a Clang AST

    A shallow embedding of [ASTVisitor] (src/Output.cxx): the node and file
    registries, the traversal queues, the reference printers, the node
    dispatcher and the two-phase driver, followed by the properties of the
    natural-language specification.

    Conventions of the embedding:
    - a pointer ([clang::Decl const*], [clang::FileEntry const*]) and the
      opaque value of a [clang::QualType] are integers ([Z]); the three
      [std::map]s are ordered by these values, as [std::less] on pointers
      and [QualTypeCompare] order them;
    - [unsigned int] is a [Z] reduced modulo [2^32] where the code
      increments it;
    - the members of [ASTVisitor] are the fields of a record that every
      method threads through the state monad [M];
    - [llvm::raw_ostream] is the list of the operands written with [<<],
      in writing order ([Chunk]); [render] gives the text. *)

From Stdlib Require Import ZArith List String Ascii Bool Lia Sorted Permutation.
From Stdlib Require Import DecimalString.
Import ListNotations.

Local Open Scope string_scope.
Local Open Scope list_scope.
Local Open Scope Z_scope.

(* ------------------------------------------------------------------------- *)
(** ** [std::map] and [std::set] over integer keys *)

Module ZMap.

(** A [std::map<K,V>] whose keys are ordered integers: the association
    list of its entries in iteration (ascending key) order. *)
Definition t (V : Type) : Type := list (Z * V).

Definition empty {V : Type} : t V := [].

(** [m.find(k)]. *)
Fixpoint find {V : Type} (k : Z) (m : t V) : option V :=
  match m with
  | [] => None
  | (k', v) :: m' =>
      if k <? k' then None
      else if k =? k' then Some v
      else find k m'
  end.

(** [m[k] = v]. *)
Fixpoint add {V : Type} (k : Z) (v : V) (m : t V) : t V :=
  match m with
  | [] => [(k, v)]
  | (k', v') :: m' =>
      if k <? k' then (k, v) :: (k', v') :: m'
      else if k =? k' then (k, v) :: m'
      else (k', v') :: add k v m'
  end.

Definition keys {V : Type} (m : t V) : list Z := map fst m.

Definition sorted {V : Type} (m : t V) : Prop := StronglySorted Z.lt (keys m).

End ZMap.

(** [std::set<unsigned int>::insert]: the set is the ascending list of its
    elements. *)
Fixpoint set_insert (x : Z) (l : list Z) : list Z :=
  match l with
  | [] => [x]
  | y :: l' =>
      if x <? y then x :: y :: l'
      else if x =? y then y :: l'
      else y :: set_insert x l'
  end.

(* ------------------------------------------------------------------------- *)
(** ** The Clang AST, as far as [Output.cxx] reads it *)

Definition Decl := Z.
Definition DeclContext := Z.
Definition FileEntry := Z.

(** The opaque value of a [clang::QualType]: the address of the type with
    the fast qualifiers in its three low-order bits ([Qualifiers::Const =
    0x1], [Restrict = 0x2], [Volatile = 0x4]); [QualTypeCompare] orders
    these values without discarding the low-order bits that encode the
    qualifiers. *)
Definition QualType := Z.

Definition isLocalConstQualified (t : QualType) : bool := Z.testbit t 0.
Definition isLocalRestrictQualified (t : QualType) : bool := Z.testbit t 1.
Definition isLocalVolatileQualified (t : QualType) : bool := Z.testbit t 2.
Definition hasLocalQualifiers (t : QualType) : bool := negb (Z.land t 7 =? 0).
Definition getLocalUnqualifiedType (t : QualType) : QualType := Z.ldiff t 7.
Definition getTypePtr (t : QualType) : Z := Z.ldiff t 7.

(** [clang::Decl::Kind]: the enumerators that [Output.cxx] names, and
    [OtherDecl n] for each of the remaining concrete enumerators that
    [clang/AST/DeclNodes.inc] lists through [DECL(CLASS, BASE)]. *)
Inductive DeclKind : Type :=
| TranslationUnit
| Namespace
| Typedef
| CXXRecord
| AccessSpec
| OtherDecl (n : nat).

Inductive AccessSpecifier : Type := AS_public | AS_protected | AS_private | AS_none.

(** What the visitor asks of [clang::ASTContext], [clang::CompilerInstance]
    and the AST nodes. *)
Record ASTContext : Type := {
  getCanonicalDecl : Decl -> Decl;
  getKind : Decl -> DeclKind;
  getDeclKindName : Decl -> string;
  getName : Decl -> string;
  getDeclContext : Decl -> DeclContext;
  getAccess : Decl -> AccessSpecifier;
  isInjectedClassName : Decl -> bool;
  (** [d->getTypeSourceInfo()->getType()] of a typedef *)
  getTypedefType : Decl -> QualType;
  (** [d->getLocation().isValid()] *)
  locationIsValid : Decl -> bool;
  (** [getFileEntryForID] of the expansion location; [None] is the null
      pointer *)
  getFileEntry : Decl -> option FileEntry;
  getExpansionLineNumber : Decl -> Z;
  (** [f->getName()] *)
  getFileName : FileEntry -> string;
  (** [decls_begin() .. decls_end()] *)
  decls : DeclContext -> list Decl;
  (** [dc->lookup(DeclarationName(&ids.get(name)))] *)
  lookup : DeclContext -> string -> list Decl;
  isRecord : DeclContext -> bool;
  (** [clang::dyn_cast<clang::Decl>(dc)] *)
  dyn_cast_Decl : DeclContext -> option Decl;
  (** [clang::dyn_cast<clang::DeclContext>(d)] *)
  dyn_cast_DeclContext : Decl -> option DeclContext;
  (** [t->getTypeClassName()] *)
  getTypeClassName : Z -> string
}.

(* ------------------------------------------------------------------------- *)
(** ** The output stream *)

(** One operand of [<<]. *)
Inductive Chunk : Type :=
| Str (s : string)   (** a string literal *)
| Num (n : Z)        (** an [unsigned int], printed in decimal *)
| Xml (s : string).  (** [encodeXML(s)] *)

(** The double quote and the line feed of the C++ literals. *)
Definition dq : string := String (ascii_of_nat 34) EmptyString.
Definition nl : string := String (ascii_of_nat 10) EmptyString.

Definition decimal (n : Z) : string := NilEmpty.string_of_uint (N.to_uint (Z.to_N n)).

Section Render.
Variable encodeXML : string -> string.

Definition render_chunk (c : Chunk) : string :=
  match c with
  | Str s => s
  | Num n => decimal n
  | Xml s => encodeXML s
  end.

Definition render (os : list Chunk) : string :=
  fold_right (fun c acc => (render_chunk c ++ acc)%string) "" os.
End Render.

(* ------------------------------------------------------------------------- *)
(** ** [ASTVisitorBase] and [ASTVisitor]: data *)

Definition wrap32 (z : Z) : Z := z mod 2 ^ 32.

(** [struct DumpNode]. *)
Record DumpNode : Type := { Index : Z; Complete : bool }.

(** [DumpNode(): Index(0), Complete(false)]. *)
Definition DumpNode0 : DumpNode := {| Index := 0; Complete := false |}.

(** [struct QueueEntry].  Both places that build an entry pass, as [DN],
    the address of the registry entry of the entry's own declaration or
    type ([GetDumpNode(k)] in [AddDumpNodeImpl], [&i->second] in
    [QueueIncompleteDumpNodes]); an entry is therefore its kind and key,
    and [DN] is read in the registry when the entry is dispatched. *)
Inductive QueueEntry : Type :=
| KindDecl (d : Decl)
| KindType (t : QualType).

(** A [DumpNode*]: the registry entry it points to. *)
Definition DumpNodePtr : Type := QueueEntry.

(** The data members of [ASTVisitor] (with [OS] of its base class). *)
Record ASTVisitor : Type := {
  OS : list Chunk;
  NodeCount : Z;
  FileCount : Z;
  RequireComplete : bool;
  DeclNodes : ZMap.t DumpNode;
  TypeNodes : ZMap.t DumpNode;
  FileNodes : ZMap.t Z;
  Queue : list QueueEntry;
  FileQueue : list FileEntry
}.

(** The state the constructor leaves. *)
Definition ASTVisitor_init : ASTVisitor := {|
  OS := [];
  NodeCount := 0;
  FileCount := 0;
  RequireComplete := true;
  DeclNodes := ZMap.empty;
  TypeNodes := ZMap.empty;
  FileNodes := ZMap.empty;
  Queue := [];
  FileQueue := []
|}.

(* ------------------------------------------------------------------------- *)
(** ** The state monad of the visitor's methods *)

Definition M (A : Type) : Type := ASTVisitor -> A * ASTVisitor.

Definition ret {A : Type} (a : A) : M A := fun s => (a, s).

Definition bind {A B : Type} (m : M A) (k : A -> M B) : M B :=
  fun s => let '(a, s') := m s in k a s'.

Notation "x <- m ;; k" := (bind m (fun x => k))
  (at level 61, m at next level, right associativity).
Notation "m ;;; k" := (bind m (fun _ => k))
  (at level 61, right associativity).

(** Reading a member. *)
Definition gets {A : Type} (f : ASTVisitor -> A) : M A := fun s => (f s, s).

(** [this->OS << c1 << c2 << ...]. *)
Definition out (cs : list Chunk) : M unit := fun s =>
  (tt, {| OS := OS s ++ cs; NodeCount := NodeCount s; FileCount := FileCount s;
          RequireComplete := RequireComplete s; DeclNodes := DeclNodes s;
          TypeNodes := TypeNodes s; FileNodes := FileNodes s;
          Queue := Queue s; FileQueue := FileQueue s |}).

Definition set_NodeCount (n : Z) : M unit := fun s =>
  (tt, {| OS := OS s; NodeCount := n; FileCount := FileCount s;
          RequireComplete := RequireComplete s; DeclNodes := DeclNodes s;
          TypeNodes := TypeNodes s; FileNodes := FileNodes s;
          Queue := Queue s; FileQueue := FileQueue s |}).

Definition set_FileCount (n : Z) : M unit := fun s =>
  (tt, {| OS := OS s; NodeCount := NodeCount s; FileCount := n;
          RequireComplete := RequireComplete s; DeclNodes := DeclNodes s;
          TypeNodes := TypeNodes s; FileNodes := FileNodes s;
          Queue := Queue s; FileQueue := FileQueue s |}).

Definition set_RequireComplete (b : bool) : M unit := fun s =>
  (tt, {| OS := OS s; NodeCount := NodeCount s; FileCount := FileCount s;
          RequireComplete := b; DeclNodes := DeclNodes s;
          TypeNodes := TypeNodes s; FileNodes := FileNodes s;
          Queue := Queue s; FileQueue := FileQueue s |}).

Definition set_DeclNodes (m : ZMap.t DumpNode) : M unit := fun s =>
  (tt, {| OS := OS s; NodeCount := NodeCount s; FileCount := FileCount s;
          RequireComplete := RequireComplete s; DeclNodes := m;
          TypeNodes := TypeNodes s; FileNodes := FileNodes s;
          Queue := Queue s; FileQueue := FileQueue s |}).

Definition set_TypeNodes (m : ZMap.t DumpNode) : M unit := fun s =>
  (tt, {| OS := OS s; NodeCount := NodeCount s; FileCount := FileCount s;
          RequireComplete := RequireComplete s; DeclNodes := DeclNodes s;
          TypeNodes := m; FileNodes := FileNodes s;
          Queue := Queue s; FileQueue := FileQueue s |}).

Definition set_FileNodes (m : ZMap.t Z) : M unit := fun s =>
  (tt, {| OS := OS s; NodeCount := NodeCount s; FileCount := FileCount s;
          RequireComplete := RequireComplete s; DeclNodes := DeclNodes s;
          TypeNodes := TypeNodes s; FileNodes := m;
          Queue := Queue s; FileQueue := FileQueue s |}).

Definition set_Queue (q : list QueueEntry) : M unit := fun s =>
  (tt, {| OS := OS s; NodeCount := NodeCount s; FileCount := FileCount s;
          RequireComplete := RequireComplete s; DeclNodes := DeclNodes s;
          TypeNodes := TypeNodes s; FileNodes := FileNodes s;
          Queue := q; FileQueue := FileQueue s |}).

Definition set_FileQueue (q : list FileEntry) : M unit := fun s =>
  (tt, {| OS := OS s; NodeCount := NodeCount s; FileCount := FileCount s;
          RequireComplete := RequireComplete s; DeclNodes := DeclNodes s;
          TypeNodes := TypeNodes s; FileNodes := FileNodes s;
          Queue := Queue s; FileQueue := q |}).

(** [this->Queue.push(qe)]. *)
Definition Queue_push (qe : QueueEntry) : M unit :=
  q <- gets Queue ;; set_Queue (q ++ [qe]).

(** [this->FileQueue.push(f)]. *)
Definition FileQueue_push (f : FileEntry) : M unit :=
  q <- gets FileQueue ;; set_FileQueue (q ++ [f]).

(** A [for] loop over a sequence that the body does not change. *)
Fixpoint for_each {A : Type} (l : list A) (body : A -> M unit) : M unit :=
  match l with
  | [] => ret tt
  | x :: l' => body x ;;; for_each l' body
  end.

(** [*dn], read in the current registries; a pointer obtained from
    [GetDumpNode] always finds its entry. *)
Definition deref (dn : DumpNodePtr) (s : ASTVisitor) : DumpNode :=
  match dn with
  | KindDecl d =>
      match ZMap.find d (DeclNodes s) with Some n => n | None => DumpNode0 end
  | KindType t =>
      match ZMap.find t (TypeNodes s) with Some n => n | None => DumpNode0 end
  end.

(** [*dn = n]. *)
Definition assign (dn : DumpNodePtr) (n : DumpNode) : M unit :=
  match dn with
  | KindDecl d => m <- gets DeclNodes ;; set_DeclNodes (ZMap.add d n m)
  | KindType t => m <- gets TypeNodes ;; set_TypeNodes (ZMap.add t n m)
  end.

(** [dn->Index = i]. *)
Definition assign_Index (dn : DumpNodePtr) (i : Z) : M unit :=
  n <- gets (deref dn) ;; assign dn {| Index := i; Complete := Complete n |}.

(** [dn->Complete = c]. *)
Definition assign_Complete (dn : DumpNodePtr) (c : bool) : M unit :=
  n <- gets (deref dn) ;; assign dn {| Index := Index n; Complete := c |}.

(** [GetDumpNode(d)] and [GetDumpNode(t)]: [&this->DeclNodes[d]] and
    [&this->TypeNodes[t]]; [operator[]] enters a default [DumpNode] for a
    key the map does not hold. *)
Definition GetDumpNode (k : QueueEntry) : M DumpNodePtr :=
  match k with
  | KindDecl d =>
      m <- gets DeclNodes ;;
      match ZMap.find d m with
      | Some _ => ret k
      | None => set_DeclNodes (ZMap.add d DumpNode0 m) ;;; ret k
      end
  | KindType t =>
      m <- gets TypeNodes ;;
      match ZMap.find t m with
      | Some _ => ret k
      | None => set_TypeNodes (ZMap.add t DumpNode0 m) ;;; ret k
      end
  end.

(** [template <typename K> AddDumpNodeImpl(K k, bool complete)], for its
    two instances [K = clang::Decl const*] ([KindDecl]) and
    [K = clang::QualType] ([KindType]). *)
Definition AddDumpNodeImpl (k : QueueEntry) (complete : bool) : M Z :=
  dn <- GetDumpNode k ;;
  n <- gets (deref dn) ;;
  (if negb (Index n =? 0) then
     if complete && negb (Complete n) then
       assign_Complete dn true ;;;
       Queue_push k
     else ret tt
   else
     c <- gets NodeCount ;;
     set_NodeCount (wrap32 (c + 1)) ;;;
     assign_Index dn (wrap32 (c + 1)) ;;;
     assign_Complete dn complete ;;;
     rc <- gets RequireComplete ;;
     if complete || negb rc then Queue_push k else ret tt) ;;;
  gets (fun s => Index (deref dn s)).

(** [AddDumpFile]. *)
Definition AddDumpFile (f : FileEntry) : M Z :=
  m <- gets FileNodes ;;
  (match ZMap.find f m with
   | Some _ => ret tt
   | None => set_FileNodes (ZMap.add f 0 m)
   end) ;;;
  m <- gets FileNodes ;;
  let index := match ZMap.find f m with Some i => i | None => 0 end in
  if index =? 0 then
    c <- gets FileCount ;;
    set_FileCount (wrap32 (c + 1)) ;;;
    set_FileNodes (ZMap.add f (wrap32 (c + 1)) m) ;;;
    FileQueue_push f ;;;
    ret (wrap32 (c + 1))
  else ret index.

(** [QueueIncompleteDumpNodes]. *)
Definition QueueIncompleteDumpNodes : M unit :=
  ds <- gets DeclNodes ;;
  for_each ds (fun i =>
    if negb (Complete (snd i)) then Queue_push (KindDecl (fst i)) else ret tt) ;;;
  ts <- gets TypeNodes ;;
  for_each ts (fun i =>
    if negb (Complete (snd i)) then Queue_push (KindType (fst i)) else ret tt).

(* ------------------------------------------------------------------------- *)
(** ** [ASTVisitor]: methods that read the AST *)

Section Visitor.

Variable ast : ASTContext.

(** [AddDumpNode(clang::Decl const* d, bool complete)]. *)
Definition AddDumpNode_Decl (d : Decl) (complete : bool) : M Z :=
  AddDumpNodeImpl (KindDecl (getCanonicalDecl ast d)) complete.

(** [AddDumpNode(clang::QualType t, bool complete)]. *)
Definition AddDumpNode_QualType (t : QualType) (complete : bool) : M Z :=
  AddDumpNodeImpl (KindType t) complete.

(** [ASTVisitorBase::OutputUnimplementedDecl]. *)
Definition OutputUnimplementedDecl (d : Decl) (dn : DumpNodePtr) : M unit :=
  i <- gets (fun s => Index (deref dn s)) ;;
  out [Str ("  <Unimplemented id=" ++ dq ++ "_"); Num i;
       Str (dq ++ " kind=" ++ dq); Xml (getDeclKindName ast d);
       Str (dq ++ "/>" ++ nl)].

(** [ASTVisitorBase::OutputUnimplementedType]. *)
Definition OutputUnimplementedType (t : Z) (dn : DumpNodePtr) : M unit :=
  i <- gets (fun s => Index (deref dn s)) ;;
  out [Str ("  <Unimplemented id=" ++ dq ++ "_"); Num i;
       Str (dq ++ " type_class=" ++ dq); Xml (getTypeClassName ast t);
       Str (dq ++ "/>" ++ nl)].

(** [OutputCvQualifiedType]: the body only discards its arguments. *)
Definition OutputCvQualifiedType (t : QualType) (dn : DumpNodePtr) : M unit :=
  ret tt.

(** [OutputType]: every [TYPE(CLASS, BASE)] case of the switch calls the
    [Output##CLASS##Type] of [ASTVisitorBase], that is
    [OutputUnimplementedType] on [t.getTypePtr()]. *)
Definition OutputType (t : QualType) (dn : DumpNodePtr) : M unit :=
  if hasLocalQualifiers t then OutputCvQualifiedType t dn
  else OutputUnimplementedType (getTypePtr t) dn.

(** [GetContextIdRef]. *)
Definition GetContextIdRef (dc : DeclContext) : M Z :=
  match dyn_cast_Decl ast dc with
  | Some d => AddDumpNode_Decl d false
  | None => ret 0
  end.

(** [GetTypeIdRef]; the reference parameters [qc], [qv], [qr] are
    returned with the id. *)
Definition GetTypeIdRef (t : QualType) (complete : bool)
  : M (Z * bool * bool * bool) :=
  id <- AddDumpNode_QualType t complete ;;
  let qc := isLocalConstQualified t in
  let qv := isLocalVolatileQualified t in
  let qr := isLocalRestrictQualified t in
  id <- (if hasLocalQualifiers t
         then AddDumpNode_QualType (getLocalUnqualifiedType t) complete
         else ret id) ;;
  ret (id, qc, qv, qr).

(** [PrintTypeIdRef]. *)
Definition PrintTypeIdRef (t : QualType) (complete : bool) : M unit :=
  r <- GetTypeIdRef t complete ;;
  let '(id, qc, qv, qr) := r in
  let c := if qc then "c" else "" in
  let v := if qv then "v" else "" in
  let r := if qr then "r" else "" in
  out [Str "_"; Num id; Str c; Str v; Str r].

(** [PrintIdAttribute]. *)
Definition PrintIdAttribute (dn : DumpNodePtr) : M unit :=
  i <- gets (fun s => Index (deref dn s)) ;;
  out [Str (" id=" ++ dq ++ "_"); Num i; Str dq].

(** [PrintNameAttribute]. *)
Definition PrintNameAttribute (name : string) : M unit :=
  out [Str (" name=" ++ dq); Xml name; Str dq].

(** [PrintTypeAttribute]. *)
Definition PrintTypeAttribute (t : QualType) (complete : bool) : M unit :=
  out [Str (" type=" ++ dq)] ;;;
  PrintTypeIdRef t complete ;;;
  out [Str dq].

(** [PrintLocationAttribute]. *)
Definition PrintLocationAttribute (d : Decl) : M unit :=
  if negb (locationIsValid ast d) then ret tt
  else
    match getFileEntry ast d with
    | Some f =>
        id <- AddDumpFile f ;;
        let line := getExpansionLineNumber ast d in
        out [Str (" location=" ++ dq ++ "f"); Num id; Str ":"; Num line;
             Str (dq ++ " file=" ++ dq ++ "f"); Num id;
             Str (dq ++ " line=" ++ dq); Num line; Str dq]
    | None => ret tt
    end.

(** [PrintContextAttribute]. *)
Definition PrintContextAttribute (d : Decl) : M unit :=
  let dc := getDeclContext ast d in
  id <- GetContextIdRef dc ;;
  if negb (id =? 0) then
    out [Str (" context=" ++ dq ++ "_"); Num id; Str dq] ;;;
    if isRecord ast dc then
      match getAccess ast d with
      | AS_private => out [Str (" access=" ++ dq ++ "private" ++ dq)]
      | AS_protected => out [Str (" access=" ++ dq ++ "protected" ++ dq)]
      | _ => out [Str (" access=" ++ dq ++ "public" ++ dq)]
      end
    else ret tt
  else ret tt.

(** The [switch] of [PrintMembersAttribute] that ignores certain
    members: [true] where it reaches [continue]. *)
Definition ignored_member (d : Decl) : bool :=
  match getKind ast d with
  | CXXRecord => isInjectedClassName ast d
  | AccessSpec => true
  | _ => false
  end.

(** The first loop of [PrintMembersAttribute], over the declarations of
    the context, with the set [emitted] it fills. *)
Fixpoint PrintMembersAttribute_collect (ds : list Decl) (emitted : list Z)
  : M (list Z) :=
  match ds with
  | [] => ret emitted
  | d :: ds' =>
      if ignored_member d then PrintMembersAttribute_collect ds' emitted
      else
        id <- AddDumpNode_Decl d true ;;
        PrintMembersAttribute_collect ds'
          (if negb (id =? 0) then set_insert id emitted else emitted)
  end.

(** The second loop of [PrintMembersAttribute], over [emitted], with the
    current value of [sep]. *)
Fixpoint PrintMembersAttribute_print (emitted : list Z) (sep : string)
  : M unit :=
  match emitted with
  | [] => ret tt
  | i :: rest =>
      out [Str sep; Str "_"; Num i] ;;;
      PrintMembersAttribute_print rest " "
  end.

(** [PrintMembersAttribute]. *)
Definition PrintMembersAttribute (dc : DeclContext) : M unit :=
  emitted <- PrintMembersAttribute_collect (decls ast dc) [] ;;
  match emitted with
  | [] => ret tt
  | _ :: _ =>
      out [Str (" members=" ++ dq)] ;;;
      PrintMembersAttribute_print emitted "" ;;;
      out [Str dq]
  end.

(** [OutputTranslationUnitDecl]. *)
Definition OutputTranslationUnitDecl (d : Decl) (dn : DumpNodePtr) : M unit :=
  out [Str "  <Namespace"] ;;;
  PrintIdAttribute dn ;;;
  PrintNameAttribute "::" ;;;
  c <- gets (fun s => Complete (deref dn s)) ;;
  (if c then PrintMembersAttribute d else ret tt) ;;;
  out [Str ("/>" ++ nl)].

(** [OutputNamespaceDecl]. *)
Definition OutputNamespaceDecl (d : Decl) (dn : DumpNodePtr) : M unit :=
  out [Str "  <Namespace"] ;;;
  PrintIdAttribute dn ;;;
  PrintNameAttribute (getName ast d) ;;;
  PrintContextAttribute d ;;;
  c <- gets (fun s => Complete (deref dn s)) ;;
  (if c then PrintMembersAttribute d else ret tt) ;;;
  out [Str ("/>" ++ nl)].

(** [OutputTypedefDecl]. *)
Definition OutputTypedefDecl (d : Decl) (dn : DumpNodePtr) : M unit :=
  out [Str "  <Typedef"] ;;;
  PrintIdAttribute dn ;;;
  PrintNameAttribute (getName ast d) ;;;
  c <- gets (fun s => Complete (deref dn s)) ;;
  PrintTypeAttribute (getTypedefType ast d) c ;;;
  PrintContextAttribute d ;;;
  PrintLocationAttribute d ;;;
  out [Str ("/>" ++ nl)].

(** [OutputDecl]: the switch has one case for each concrete kind;
    [ASTVisitor] declares the three routines named here, every other
    [Output##CLASS##Decl] is the one of [ASTVisitorBase], which calls
    [OutputUnimplementedDecl]. *)
Definition OutputDecl (d : Decl) (dn : DumpNodePtr) : M unit :=
  match getKind ast d with
  | TranslationUnit => OutputTranslationUnitDecl d dn
  | Namespace => OutputNamespaceDecl d dn
  | Typedef => OutputTypedefDecl d dn
  | CXXRecord | AccessSpec | OtherDecl _ => OutputUnimplementedDecl d dn
  end.

(** The body of the loop of [ProcessQueue]: [front], [pop], dispatch. *)
Definition ProcessQueue_entry (qe : QueueEntry) (rest : list QueueEntry)
  : M unit :=
  set_Queue rest ;;;
  match qe with
  | KindDecl d => OutputDecl d qe
  | KindType t => OutputType t qe
  end.

(** [ProcessQueue]: the [while] loop, with a bound on its iterations;
    [None] when the bound is reached with entries left. *)
Fixpoint ProcessQueue (fuel : nat) (s : ASTVisitor) : option ASTVisitor :=
  match Queue s with
  | [] => Some s
  | qe :: rest =>
      match fuel with
      | O => None
      | S fuel' => ProcessQueue fuel' (snd (ProcessQueue_entry qe rest s))
      end
  end.

(** [ProcessFileQueue]: nothing is pushed while the queue is emptied, so
    the loop runs over the entries the queue holds.  [this->FileNodes[f]]
    is [operator[]] of the map, which enters the index 0 for a file that
    the map does not hold before it is read. *)
Definition ProcessFileQueue : M unit :=
  q <- gets FileQueue ;;
  for_each q (fun f =>
    q' <- gets FileQueue ;;
    set_FileQueue (tl q') ;;;
    m <- gets FileNodes ;;
    (match ZMap.find f m with
     | Some _ => ret tt
     | None => set_FileNodes (ZMap.add f 0 m)
     end) ;;;
    m <- gets FileNodes ;;
    out [Str ("  <File id=" ++ dq ++ "f");
         Num (match ZMap.find f m with Some i => i | None => 0 end);
         Str (dq ++ " name=" ++ dq); Xml (getFileName ast f);
         Str (dq ++ "/>" ++ nl)]).

(** [name.find("::")]; [None] is [npos]. *)
Definition find_scope (name : string) : option nat := index 0 "::" name.

(** [LookupStart]; the recursion is on a proper suffix of [name], and
    [fuel], at least the length of [name], bounds its depth. *)
Fixpoint LookupStart_rec (fuel : nat) (dc : DeclContext) (name : string)
  : M unit :=
  match find_scope name with
  | None =>
      for_each (lookup ast dc name) (fun i =>
        AddDumpNode_Decl i true ;;; ret tt)
  | Some pos =>
      let cur := substring 0 pos name in
      let rest := substring (pos + 2) (String.length name - (pos + 2)) name in
      match fuel with
      | O => ret tt
      | S fuel' =>
          for_each (lookup ast dc cur) (fun i =>
            match dyn_cast_DeclContext ast i with
            | Some idc => LookupStart_rec fuel' idc rest
            | None => ret tt
            end)
      end
  end.

Definition LookupStart (dc : DeclContext) (name : string) : M unit :=
  LookupStart_rec (String.length name) dc name.

(** The two literals of the document envelope. *)
Definition prolog : string :=
  "<?xml version=" ++ dq ++ "1.0" ++ dq ++ "?>" ++ nl ++
  "<GCC_XML version=" ++ dq ++ "0.9.0" ++ dq ++
  " cvs_revision=" ++ dq ++ "1.136" ++ dq ++ ">" ++ nl.

Definition epilog : string := "</GCC_XML>" ++ nl.

(** [HandleTranslationUnit], up to the first [ProcessQueue]: the start
    nodes and the opening of the document. *)
Definition HandleTranslationUnit_start (StartNames : list string) (tu : Decl)
  : M unit :=
  (match StartNames with
   | _ :: _ => for_each StartNames (fun i => LookupStart tu i)
   | [] => AddDumpNode_Decl tu true ;;; ret tt
   end) ;;;
  out [Str prolog].

(** [HandleTranslationUnit], between the two calls of [ProcessQueue]. *)
Definition HandleTranslationUnit_incomplete : M unit :=
  set_RequireComplete false ;;;
  QueueIncompleteDumpNodes.

(** [HandleTranslationUnit], after the second [ProcessQueue]. *)
Definition HandleTranslationUnit_finish : M unit :=
  ProcessFileQueue ;;;
  out [Str epilog].

(** [HandleTranslationUnit]; [fuel] bounds each of the two runs of
    [ProcessQueue]. *)
Definition HandleTranslationUnit (fuel : nat) (StartNames : list string)
  (tu : Decl) (s : ASTVisitor) : option ASTVisitor :=
  match ProcessQueue fuel (snd (HandleTranslationUnit_start StartNames tu s)) with
  | None => None
  | Some s1 =>
      match ProcessQueue fuel (snd (HandleTranslationUnit_incomplete s1)) with
      | None => None
      | Some s2 => Some (snd (HandleTranslationUnit_finish s2))
      end
  end.


End Visitor.

(* ------------------------------------------------------------------------- *)
(** ** Vocabulary of the specification *)

(** An identity has been seen when its registry entry holds an index:
    the test [if (dn->Index)] of [AddDumpNodeImpl]. *)
Definition seen (k : QueueEntry) (s : ASTVisitor) : bool :=
  negb (Index (deref k s) =? 0).

(** An identity is registered when its registry holds an entry for it. *)
Definition registered (k : QueueEntry) (s : ASTVisitor) : bool :=
  match k with
  | KindDecl d => match ZMap.find d (DeclNodes s) with Some _ => true | None => false end
  | KindType t => match ZMap.find t (TypeNodes s) with Some _ => true | None => false end
  end.

(** The state [s] with [n] stored in the registry entry of [k]. *)
Definition with_node (k : QueueEntry) (n : DumpNode) (s : ASTVisitor) : ASTVisitor :=
  snd (assign k n s).

Definition with_Queue (q : list QueueEntry) (s : ASTVisitor) : ASTVisitor :=
  snd (set_Queue q s).

Definition with_NodeCount (n : Z) (s : ASTVisitor) : ASTVisitor :=
  snd (set_NodeCount n s).

(** What [AddDumpNodeImpl] does, branch by branch as section 4.1 of the
    specification words it. *)
Definition Register (k : QueueEntry) (requestComplete : bool) (s : ASTVisitor)
  : Z * ASTVisitor :=
  let n := deref k s in
  if seen k s then
    if requestComplete && negb (Complete n) then
      (Index n,
       with_Queue (Queue s ++ [k])
         (with_node k {| Index := Index n; Complete := true |} s))
    else (Index n, s)
  else
    let i := wrap32 (NodeCount s + 1) in
    let s1 := with_node k {| Index := i; Complete := requestComplete |}
                (with_NodeCount i s) in
    (i, if requestComplete || negb (RequireComplete s)
        then with_Queue (Queue s ++ [k]) s1 else s1).

Definition QueueEntry_eq_dec (a b : QueueEntry) : {a = b} + {a <> b}.
Proof. decide equality; apply Z.eq_dec. Defined.

(** The identities whose dispatch writes an element: every declaration,
    and every type without local qualifiers ([OutputCvQualifiedType]
    writes nothing). *)
Definition emitting (k : QueueEntry) : bool :=
  match k with
  | KindDecl _ => true
  | KindType t => negb (hasLocalQualifiers t)
  end.

(** [ends_with suf s]: the text [s] ends with [suf]. *)
Definition ends_with (suf s : string) : bool :=
  String.eqb (substring (String.length s - String.length suf) (String.length suf) s) suf.

(** The literal that opens an [id] attribute of a node element. *)
Definition id_open : string := " id=" ++ dq ++ "_".

(** The literal that opens a [File] element with its [id] attribute. *)
Definition file_open : string := "  <File id=" ++ dq ++ "f".

(** The numbers that the stream carries in the id attributes of node
    elements (an [id_open] literal followed by the number), one for each
    such attribute, in stream order. *)
Fixpoint ids_of (os : list Chunk) : list Z :=
  match os with
  | [] => []
  | c :: rest =>
      match c, rest with
      | Str s, Num n :: _ => if ends_with id_open s then n :: ids_of rest else ids_of rest
      | _, _ => ids_of rest
      end
  end.

(** The numbers of the [File] elements of the stream, in stream order. *)
Fixpoint file_ids_of (os : list Chunk) : list Z :=
  match os with
  | [] => []
  | c :: rest =>
      match c, rest with
      | Str s, Num n :: _ => if String.eqb s file_open then n :: file_ids_of rest else file_ids_of rest
      | _, _ => file_ids_of rest
      end
  end.

(** A block of chunks that a method writes: it does not begin with a
    number. *)
Definition block (b : list Chunk) : Prop :=
  match b with
  | Num _ :: _ => False
  | _ => True
  end.

(** The ids that the entries of a queue will carry, in queue order. *)
Definition queue_ids (q : list QueueEntry) (s : ASTVisitor) : list Z :=
  map (fun k => Index (deref k s)) (filter emitting q).

(** The qualifier suffix of a type reference. *)
Definition cvr_suffix (t : QualType) : string :=
  (if isLocalConstQualified t then "c" else "") ++
  (if isLocalVolatileQualified t then "v" else "") ++
  (if isLocalRestrictQualified t then "r" else "").

(** The chunks of a [members] attribute value. *)
Fixpoint members_chunks (ids : list Z) (sep : string) : list Chunk :=
  match ids with
  | [] => []
  | i :: rest => Str sep :: Str "_" :: Num i :: members_chunks rest " "
  end.

(** The text of a [members] attribute value: the ids, each after an
    underscore, separated by single spaces. *)
Fixpoint members_text (ids : list Z) : string :=
  match ids with
  | [] => ""
  | [i] => "_" ++ decimal i
  | i :: rest => "_" ++ decimal i ++ " " ++ members_text rest
  end.

(** The index that the file registry holds for [f]; 0 when it holds
    none. *)
Definition file_index (f : FileEntry) (s : ASTVisitor) : Z :=
  match ZMap.find f (FileNodes s) with Some i => i | None => 0 end.

(** What [AddDumpFile] does: a file without index gets the next value of
    the file counter and joins the file queue. *)
Definition RegisterFile (f : FileEntry) (s : ASTVisitor) : Z * ASTVisitor :=
  if file_index f s =? 0 then
    let i := wrap32 (FileCount s + 1) in
    (i, {| OS := OS s; NodeCount := NodeCount s; FileCount := i;
           RequireComplete := RequireComplete s; DeclNodes := DeclNodes s;
           TypeNodes := TypeNodes s; FileNodes := ZMap.add f i (FileNodes s);
           Queue := Queue s; FileQueue := FileQueue s ++ [f] |})
  else (file_index f s, s).

(** The direct children of a container that the members attribute
    keeps: all but a class's injected name and the access specifiers. *)
Definition kept_members (ast : ASTContext) (dc : DeclContext) : list Decl :=
  filter (fun d => negb (ignored_member ast d)) (decls ast dc).

(** Registering each declaration of a list, in order, with a full
    completeness request; the ids are returned in list order. *)
Fixpoint register_all (ast : ASTContext) (ds : list Decl) (s : ASTVisitor)
  : list Z * ASTVisitor :=
  match ds with
  | [] => ([], s)
  | d :: ds' =>
      let r := AddDumpNode_Decl ast d true s in
      let r' := register_all ast ds' (snd r) in
      (fst r :: fst r', snd r')
  end.

(** [if (id) emitted.insert(id)]. *)
Definition insert_id (emitted : list Z) (i : Z) : list Z :=
  if negb (i =? 0) then set_insert i emitted else emitted.

(** The ascending set of the non-zero numbers of a list. *)
Definition id_set (ids : list Z) : list Z := fold_left insert_id ids [].

(** The start set of a qualified name, as section 4.5 of the
    specification words it: the name is split at its first scope
    separator and the leading segment is looked up in the container; with
    no further segment the matches are the start set, otherwise the start
    sets of the remaining suffix in every match that is a container are
    joined. *)
Fixpoint StartSet_rec (ast : ASTContext) (fuel : nat) (dc : DeclContext)
  (name : string) : list Decl :=
  match find_scope name with
  | None => lookup ast dc name
  | Some pos =>
      match fuel with
      | O => []
      | S fuel' =>
          flat_map (fun i =>
            match dyn_cast_DeclContext ast i with
            | Some idc =>
                StartSet_rec ast fuel' idc
                  (substring (pos + 2) (String.length name - (pos + 2)) name)
            | None => []
            end) (lookup ast dc (substring 0 pos name))
      end
  end.

Definition StartSet (ast : ASTContext) (dc : DeclContext) (name : string)
  : list Decl :=
  StartSet_rec ast (String.length name) dc name.

(** The state [s] after [cs] was written to the stream. *)
Definition with_out (cs : list Chunk) (s : ASTVisitor) : ASTVisitor :=
  snd (out cs s).

(** The placeholder element of a declaration and of a type. *)
Definition unimplemented_decl (i : Z) (kind : string) : list Chunk :=
  [Str ("  <Unimplemented id=" ++ dq ++ "_"); Num i;
   Str (dq ++ " kind=" ++ dq); Xml kind; Str (dq ++ "/>" ++ nl)].

Definition unimplemented_type (i : Z) (type_class : string) : list Chunk :=
  [Str ("  <Unimplemented id=" ++ dq ++ "_"); Num i;
   Str (dq ++ " type_class=" ++ dq); Xml type_class; Str (dq ++ "/>" ++ nl)].

(** The kinds for which [ASTVisitor] declares no output routine of its
    own. *)
Definition no_dedicated_routine (k : DeclKind) : bool :=
  match k with
  | TranslationUnit | Namespace | Typedef => false
  | CXXRecord | AccessSpec | OtherDecl _ => true
  end.

(** [const T] and [volatile const T] for a type [T]: the qualifier bits
    [Const = 0x1] and [Volatile = 0x4] set in the opaque value. *)
Definition const_qualified (t : QualType) : QualType := Z.lor t 1.
Definition volatile_const_qualified (t : QualType) : QualType := Z.lor t 5.

(* ------------------------------------------------------------------------- *)
(** ** Two small translation units *)

(** [typedef const int CI; class C { };] in the file at address 50: the
    translation unit is at address 100, the typedef at 200, the class at
    300 with its injected class name at 301 and an access specifier at
    302; [int] is the type at address 4096, so [const int] has the opaque
    value 4097. *)
Definition ex_ast : ASTContext := {|
  getCanonicalDecl := fun d => d;
  getKind := fun d =>
    if d =? 100 then TranslationUnit
    else if d =? 200 then Typedef
    else if d =? 300 then CXXRecord
    else if d =? 301 then CXXRecord
    else if d =? 302 then AccessSpec
    else OtherDecl 0;
  getDeclKindName := fun d =>
    if d =? 100 then "TranslationUnit"
    else if d =? 200 then "Typedef"
    else if d =? 302 then "AccessSpec"
    else "CXXRecord";
  getName := fun d => if d =? 200 then "CI" else if d =? 100 then "" else "C";
  getDeclContext := fun d => if (d =? 301) || (d =? 302) then 300 else 100;
  getAccess := fun d => if d =? 301 then AS_public else AS_none;
  isInjectedClassName := fun d => d =? 301;
  getTypedefType := fun d => 4097;
  locationIsValid := fun d => negb (d =? 100);
  getFileEntry := fun d => Some 50;
  getExpansionLineNumber := fun d => if d =? 200 then 1 else 2;
  getFileName := fun f => "t.cxx";
  decls := fun dc =>
    if dc =? 100 then [200; 300]
    else if dc =? 300 then [301; 302]
    else [];
  lookup := fun dc n =>
    if dc =? 100 then
      if String.eqb n "CI" then [200]
      else if String.eqb n "C" then [300] else []
    else [];
  isRecord := fun dc => dc =? 300;
  dyn_cast_Decl := fun dc => Some dc;
  dyn_cast_DeclContext := fun d => if (d =? 100) || (d =? 300) then Some d else None;
  getTypeClassName := fun t => "Builtin"
|}.

(** [namespace A { typedef int x; } namespace B { typedef int y; }] with
    the translation unit at address 100, [A] at 300, [x] at 310, [B] at
    the lower address 250, [y] at 260, and [int] at 4096. *)
Definition order_ast : ASTContext := {|
  getCanonicalDecl := fun d => d;
  getKind := fun d =>
    if d =? 100 then TranslationUnit
    else if (d =? 300) || (d =? 250) then Namespace
    else Typedef;
  getDeclKindName := fun d =>
    if d =? 100 then "TranslationUnit"
    else if (d =? 300) || (d =? 250) then "Namespace"
    else "Typedef";
  getName := fun d =>
    if d =? 300 then "A" else if d =? 250 then "B"
    else if d =? 310 then "x" else if d =? 260 then "y" else "";
  getDeclContext := fun d =>
    if d =? 310 then 300 else if d =? 260 then 250 else 100;
  getAccess := fun d => AS_none;
  isInjectedClassName := fun d => false;
  getTypedefType := fun d => 4096;
  locationIsValid := fun d => negb (d =? 100);
  getFileEntry := fun d => Some 50;
  getExpansionLineNumber := fun d => if d =? 300 then 1 else if d =? 310 then 1 else 2;
  getFileName := fun f => "t.cxx";
  decls := fun dc =>
    if dc =? 100 then [300; 250]
    else if dc =? 300 then [310]
    else if dc =? 250 then [260]
    else [];
  lookup := fun dc n =>
    if dc =? 100 then
      if String.eqb n "A" then [300]
      else if String.eqb n "B" then [250] else []
    else if dc =? 300 then (if String.eqb n "x" then [310] else [])
    else if dc =? 250 then (if String.eqb n "y" then [260] else [])
    else [];
  isRecord := fun dc => false;
  dyn_cast_Decl := fun dc => Some dc;
  dyn_cast_DeclContext := fun d =>
    if (d =? 100) || (d =? 300) || (d =? 250) then Some d else None;
  getTypeClassName := fun t => "Builtin"
|}.


(* ------------------------------------------------------------------------- *)
(** ** The three effects of the visitor's methods *)

(** Apart from the reads, every method is a sequence of writes to the
    stream, node registrations and file registrations. *)
Inductive Event : Type :=
| EOut (cs : list Chunk)
| ERegister (k : QueueEntry) (complete : bool)
| ERegisterFile (f : FileEntry).

Definition step (e : Event) (s : ASTVisitor) : ASTVisitor :=
  match e with
  | EOut cs => with_out cs s
  | ERegister k c => snd (Register k c s)
  | ERegisterFile f => snd (RegisterFile f s)
  end.

Definition run (es : list Event) (s : ASTVisitor) : ASTVisitor :=
  fold_left (fun s e => step e s) es s.

(** An event of a method that writes no id attribute of its own: the
    chunks are a block without node or file id, a registered identity
    satisfies [PK] and is requested complete only when [allow] holds, a
    registered file satisfies [PF]. *)
Definition event_ok (PK : QueueEntry -> Prop) (PF : FileEntry -> Prop)
  (allow : bool) (e : Event) : Prop :=
  match e with
  | EOut cs => block cs /\ ids_of cs = [] /\ file_ids_of cs = []
  | ERegister k c => PK k /\ (c = true -> allow = true)
  | ERegisterFile f => PF f
  end.

(** [s'] is reached from [s] by such events. *)
Definition traced (PK : QueueEntry -> Prop) (PF : FileEntry -> Prop)
  (allow : bool) (s s' : ASTVisitor) : Prop :=
  exists es, s' = run es s /\ Forall (event_ok PK PF allow) es.

(** The identities that the dispatch of a queue entry may register: the
    container of the declaration, its direct children, the type of the
    typedef and the unqualified form of that type. *)
Definition requests (ast : ASTContext) (qe k : QueueEntry) : Prop :=
  match qe with
  | KindDecl d =>
      (exists p, dyn_cast_Decl ast (getDeclContext ast d) = Some p /\
                 k = KindDecl (getCanonicalDecl ast p)) \/
      (exists x, In x (decls ast d) /\ k = KindDecl (getCanonicalDecl ast x)) \/
      k = KindType (getTypedefType ast d) \/
      k = KindType (getLocalUnqualifiedType (getTypedefType ast d))
  | KindType _ => False
  end.

(** The file that the dispatch of a queue entry may register. *)
Definition file_requests (ast : ASTContext) (qe : QueueEntry) (f : FileEntry) : Prop :=
  match qe with
  | KindDecl d => getFileEntry ast d = Some f
  | KindType _ => False
  end.

(** The chunks that the dispatch of an entry writes up to and including
    the id attribute; nothing for a type with local qualifiers. *)
Definition entry_header (ast : ASTContext) (qe : QueueEntry) (i : Z) : list Chunk :=
  match qe with
  | KindDecl d =>
      match getKind ast d with
      | TranslationUnit | Namespace => [Str "  <Namespace"; Str id_open; Num i; Str dq]
      | Typedef => [Str "  <Typedef"; Str id_open; Num i; Str dq]
      | CXXRecord | AccessSpec | OtherDecl _ =>
          unimplemented_decl i (getDeclKindName ast d)
      end
  | KindType t =>
      if hasLocalQualifiers t then []
      else unimplemented_type i (getTypeClassName ast (getTypePtr t))
  end.

(* ------------------------------------------------------------------------- *)
(** ** Finite translation units and the invariants of a dump *)

(** The declarations [D], the types [T] and the files [F] of a
    translation unit: finite lists that hold the root and everything the
    visitor can reach from a member, with room for all of them in the two
    counters. *)
Record ASTFinite (ast : ASTContext) (tu : Decl) (D T F : list Z) : Prop := {
  fin_tu : In tu D;
  fin_canonical : forall d, In d D -> In (getCanonicalDecl ast d) D;
  fin_decls : forall d x, In d D -> In x (decls ast d) -> In x D;
  fin_lookup : forall d n x, In d D -> In x (lookup ast d n) -> In x D;
  fin_context : forall d p,
    In d D -> dyn_cast_Decl ast (getDeclContext ast d) = Some p -> In p D;
  fin_container : forall d dc,
    In d D -> dyn_cast_DeclContext ast d = Some dc -> In dc D;
  fin_type : forall d, In d D -> In (getTypedefType ast d) T;
  fin_unqualified : forall t, In t T -> In (getLocalUnqualifiedType t) T;
  fin_file : forall d f, In d D -> getFileEntry ast d = Some f -> In f F;
  fin_nodes : Z.of_nat (List.length D + List.length T) < 2 ^ 32 - 1;
  fin_files : Z.of_nat (List.length F) < 2 ^ 32 - 1
}.

Definition in_universe (D T : list Z) (k : QueueEntry) : Prop :=
  match k with
  | KindDecl d => In d D
  | KindType t => In t T
  end.

(** The node registries are well formed: ordered maps over identities of
    the translation unit, one index between 1 and [NodeCount] for each
    identity, no index twice, [NodeCount] the number of identities; and
    the queue holds registered identities. *)
Record NodeInv (D T : list Z) (s : ASTVisitor) : Prop := {
  inv_sorted_decl : ZMap.sorted (DeclNodes s);
  inv_sorted_type : ZMap.sorted (TypeNodes s);
  inv_universe : forall k, registered k s = true -> in_universe D T k;
  inv_count :
    NodeCount s = Z.of_nat (List.length (DeclNodes s) + List.length (TypeNodes s));
  inv_index : forall k, registered k s = true -> 1 <= Index (deref k s) <= NodeCount s;
  inv_inj : forall k k',
    registered k s = true -> registered k' s = true ->
    Index (deref k s) = Index (deref k' s) -> k = k';
  inv_queue : forall k, In k (Queue s) -> registered k s = true
}.

(** The file registry is well formed, and the file queue holds the files
    in the order of their indices 1, 2, ... *)
Record FileInv (F : list Z) (s : ASTVisitor) : Prop := {
  finv_sorted : ZMap.sorted (FileNodes s);
  finv_universe : forall f, In f (ZMap.keys (FileNodes s)) -> In f F;
  finv_count : FileCount s = Z.of_nat (List.length (FileNodes s));
  finv_index : forall f, In f (ZMap.keys (FileNodes s)) -> file_index f s <> 0;
  finv_queue :
    map (fun f => file_index f s) (FileQueue s) =
    map Z.of_nat (seq 1 (List.length (FileNodes s)))
}.

(** What is left to do for an identity: 2 before it is registered, 1
    while it is registered incomplete, 0 once it is complete. *)
Definition weight (s : ASTVisitor) (k : QueueEntry) : nat :=
  if registered k s then (if Complete (deref k s) then 0 else 1) else 2.

Definition universe (D T : list Z) : list QueueEntry :=
  map KindDecl D ++ map KindType T.

(** A bound on the iterations that [ProcessQueue] has left. *)
Definition pending_work (D T : list Z) (s : ASTVisitor) : nat :=
  (list_sum (map (weight s) (universe D T)) + List.length (Queue s))%nat.

(** Every emitted id is the index of a registered identity; an identity
    that writes an element is in the queue or in the stream once when it
    is due (complete, in the first phase; registered, in the second) and
    not at all before; the queue holds complete nodes in the first phase
    and incomplete nodes in the second. *)
Record EmitInv (s : ASTVisitor) : Prop := {
  emit_bound : forall i, In i (ids_of (OS s)) -> 1 <= i <= NodeCount s;
  emit_once : forall k,
    registered k s = true -> emitting k = true ->
    (count_occ QueueEntry_eq_dec (Queue s) k +
     count_occ Z.eq_dec (ids_of (OS s)) (Index (deref k s)))%nat =
    if RequireComplete s then (if Complete (deref k s) then 1%nat else 0%nat) else 1%nat;
  emit_complete : forall k,
    In k (Queue s) -> Complete (deref k s) = RequireComplete s
}.

(** The queue entries that [QueueIncompleteDumpNodes] pushes for one
    registry. *)
Definition incomplete_keys (m : ZMap.t DumpNode) : list Z :=
  map fst (filter (fun i => negb (Complete (snd i))) m).

(** The invariants of a dump together. *)
Record DumpInv (D T F : list Z) (s : ASTVisitor) : Prop := {
  dinv_node : NodeInv D T s;
  dinv_file : FileInv F s;
  dinv_emit : EmitInv s
}.

(** What every sequence of events keeps: the phase, the stream up to a
    block without ids appended to it, the seen identities with their
    indices, the queues up to entries appended to them, and the file
    indices. *)
Record Stable (s s' : ASTVisitor) : Prop := {
  st_rc : RequireComplete s' = RequireComplete s;
  st_os : exists blk,
    OS s' = OS s ++ blk /\ block blk /\ ids_of blk = [] /\ file_ids_of blk = [];
  st_seen : forall k,
    seen k s = true -> seen k s' = true /\ Index (deref k s') = Index (deref k s);
  st_queue : exists pushed, Queue s' = Queue s ++ pushed
}.

(** The [File] element of [f], written with the index that the file
    registry of [s] holds for it. *)
Definition file_element (ast : ASTContext) (s : ASTVisitor) (f : FileEntry)
  : list Chunk :=
  [Str file_open; Num (file_index f s); Str (dq ++ " name=" ++ dq);
   Xml (getFileName ast f); Str (dq ++ "/>" ++ nl)].

(** The queue that [QueueIncompleteDumpNodes] leaves when it starts from
    an empty queue: the incomplete declarations, then the incomplete
    types, each in the order of their registry. *)
Definition sweep_queue (s : ASTVisitor) : list QueueEntry :=
  map KindDecl (incomplete_keys (DeclNodes s)) ++
  map KindType (incomplete_keys (TypeNodes s)).

(** The bound on the iterations of [ProcessQueue] that is enough for a
    translation unit with the declarations [D] and the types [T]. *)
Definition enough_fuel (D T : list Z) : nat :=
  (3 * (List.length D + List.length T))%nat.

(* ------------------------------------------------------------------------- *)
(** ** The properties of a whole dump *)

(** The declarations, types and files of the two small translation
    units. *)
Definition ex_decls : list Z := [100; 200; 300; 301; 302].
Definition ex_types : list Z := [4097; 4096].
Definition ex_files : list Z := [50].
Definition order_decls : list Z := [100; 300; 250; 310; 260].
Definition order_types : list Z := [4096].

(** The dump as a machine with two phases: the first one starts with
    [RequireComplete] set and a queue of complete nodes, and runs until the
    queue is empty; then [RequireComplete] is cleared, once, and every
    registered identity whose node is still incomplete is queued once; the
    second phase runs until the queue is empty again, after which the file
    list and the closing tag end the dump.  Any bound on the loops from
    [enough_fuel] on gives this result. *)
Definition two_phase_run (ast : ASTContext) (tu : Decl) (D T : list Z)
  (StartNames : list string) : Prop :=
  let s0 := snd (HandleTranslationUnit_start ast StartNames tu ASTVisitor_init) in
  exists s1 s2,
    RequireComplete s0 = true /\
    (forall k, In k (Queue s0) -> Complete (deref k s0) = true) /\
    ProcessQueue ast (enough_fuel D T) s0 = Some s1 /\
    Queue s1 = [] /\ RequireComplete s1 = true /\
    (let sw := snd (HandleTranslationUnit_incomplete s1) in
     RequireComplete sw = false /\
     Queue sw = sweep_queue s1 /\ NoDup (Queue sw) /\
     (forall k, In k (Queue sw) <->
                registered k s1 = true /\ Complete (deref k s1) = false) /\
     (forall k, deref k sw = deref k s1) /\ OS sw = OS s1 /\
     ProcessQueue ast (enough_fuel D T) sw = Some s2) /\
    Queue s2 = [] /\ RequireComplete s2 = false /\
    (forall fuel, (enough_fuel D T <= fuel)%nat ->
       HandleTranslationUnit ast fuel StartNames tu ASTVisitor_init =
       Some (snd (HandleTranslationUnit_finish ast s2))).


(** The order of the document of a dump.  The stream is the opening
    literal, the output [out1] of the first phase, the output [out2] of
    the second phase, the [File] elements and the closing literal.  The
    first phase emits the nodes of the start queue first, in queue order.
    The second phase emits first the nodes that the first phase left
    incomplete, in the order of the sweep (declarations before types, each
    in ascending order of their registry keys), then the nodes that it
    registers itself, in ascending order of their indices.  No [File]
    element precedes a node element, and the [File] elements carry the
    file indices 1, 2, ... in this order. *)
Definition output_order (ast : ASTContext) (tu : Decl) (D T : list Z)
  (StartNames : list string) : Prop :=
  let s0 := snd (HandleTranslationUnit_start ast StartNames tu ASTVisitor_init) in
  exists s1 s2 sf out1 out2 later news,
    ProcessQueue ast (enough_fuel D T) s0 = Some s1 /\
    ProcessQueue ast (enough_fuel D T) (snd (HandleTranslationUnit_incomplete s1)) = Some s2 /\
    HandleTranslationUnit ast (enough_fuel D T) StartNames tu ASTVisitor_init = Some sf /\
    let files := flat_map (file_element ast s2) (FileQueue s2) in
    OS s1 = [Str prolog] ++ out1 /\
    OS s2 = OS s1 ++ out2 /\
    OS sf = [Str prolog] ++ out1 ++ out2 ++ files ++ [Str epilog] /\
    ids_of out1 = queue_ids (Queue s0) s0 ++ later /\
    ids_of out2 = queue_ids (sweep_queue s1) s1 ++ news /\
    StronglySorted Z.lt (incomplete_keys (DeclNodes s1)) /\
    StronglySorted Z.lt (incomplete_keys (TypeNodes s1)) /\
    StronglySorted Z.lt news /\
    (forall i, In i news -> NodeCount s1 < i <= NodeCount s2) /\
    ids_of (OS sf) = ids_of out1 ++ ids_of out2 /\
    file_ids_of out1 = [] /\ file_ids_of out2 = [] /\ ids_of files = [] /\
    file_ids_of (OS sf) = map Z.of_nat (seq 1 (Z.to_nat (FileCount s2))).

(** What the second phase keeps: the ids emitted and the ids queued are,
    together and in this order, the list [base] fixed by the sweep
    followed by ascending indices of nodes newer than [n1]. *)
Definition Phase2Order (base : list Z) (n1 : Z) (s : ASTVisitor) : Prop :=
  n1 <= NodeCount s /\
  exists news,
    ids_of (OS s) ++ queue_ids (Queue s) s = base ++ news /\
    StronglySorted Z.lt news /\
    (forall i, In i news -> n1 < i <= NodeCount s).

(** The dump of [order_ast] from the start names [A::x] and [B::y]: the
    state after the start nodes are registered, and the state at the end
    of phase 1. *)
Definition order_names : list string := ["A::x"; "B::y"].

Definition order_start : ASTVisitor :=
  snd (HandleTranslationUnit_start order_ast order_names 100 ASTVisitor_init).

Definition order_phase1 : ASTVisitor :=
  match ProcessQueue order_ast (enough_fuel order_decls order_types) order_start with
  | Some s1 => s1
  | None => order_start
  end.

(* ------------------------------------------------------------------------- *)
(** ** Further vocabulary: attributes and elements *)

(** The value of an [access] attribute, as the [if] chain of
    [PrintContextAttribute] chooses it. *)
Definition access_text (a : AccessSpecifier) : string :=
  match a with
  | AS_private => "private"
  | AS_protected => "protected"
  | AS_public | AS_none => "public"
  end.

(** The text of the [context] attribute with the id [id], and of the
    [access] attribute that follows it inside a record. *)
Definition context_text (id : Z) (record : bool) (a : AccessSpecifier) : string :=
  (" context=" ++ dq ++ "_" ++ decimal id ++ dq ++
   (if record then " access=" ++ dq ++ access_text a ++ dq else ""))%string.

(** The text of the three location attributes for the file index [id]
    and the line [line]. *)
Definition location_text (id line : Z) : string :=
  (" location=" ++ dq ++ "f" ++ decimal id ++ ":" ++ decimal line ++ dq ++
   " file=" ++ dq ++ "f" ++ decimal id ++ dq ++
   " line=" ++ dq ++ decimal line ++ dq)%string.

(** The text of a [File] element. *)
Definition file_text (encodeXML : string -> string) (id : Z) (name : string) : string :=
  ("  <File id=" ++ dq ++ "f" ++ decimal id ++ dq ++
   " name=" ++ dq ++ encodeXML name ++ dq ++ "/>" ++ nl)%string.

(* ------------------------------------------------------------------------- *)
(** ** The compiler stand-in of the test suite *)

(** The C program that follows [Output.cxx] in the source file: the
    stand-in for a compiler that the test suite asks for its predefined
    macros.  A C string is the [string] of its characters before the
    terminating NUL, and [stdout] is the text written so far. *)
Module cc_msvc.

(** [strncmp(s1, s2, n)]: the difference of the first two characters
    that differ among the first [n], as [unsigned char]; the end of a
    string is its NUL. *)
Fixpoint strncmp (s1 s2 : string) (n : nat) {struct n} : Z :=
  match n with
  | O => 0
  | S n' =>
      match s1, s2 with
      | EmptyString, EmptyString => 0
      | EmptyString, String c2 _ => 0 - Z.of_nat (nat_of_ascii c2)
      | String c1 _, EmptyString => Z.of_nat (nat_of_ascii c1) - 0
      | String c1 r1, String c2 r2 =>
          if Ascii.eqb c1 c2 then strncmp r1 r2 n'
          else Z.of_nat (nat_of_ascii c1) - Z.of_nat (nat_of_ascii c2)
      end
  end.

(** [s + n], for a pointer [s] to a string. *)
Fixpoint advance (s : string) (n : nat) {struct n} : string :=
  match n, s with
  | O, _ => s
  | S n', String _ r => advance r n'
  | S _, EmptyString => EmptyString
  end.

(** The body of the [for] loop of [main], for [argv[i]]. *)
Definition main_body (arg : string) (stdout : string) : string :=
  if strncmp arg "--cc-define=" 12 =? 0
  then (stdout ++ nl ++ "#define " ++ advance arg 12 ++ " 1")%string
  else stdout.

(** The [for] loop of [main] over [argv[i]], [argv[i+1]], ... *)
Fixpoint main_loop (args : list string) (stdout : string) : string :=
  match args with
  | [] => stdout
  | arg :: rest => main_loop rest (main_body arg stdout)
  end.

(** The literal of the last [fprintf]. *)
Definition predefined : string :=
  (nl ++ "#define __cc_msvc__ 1" ++ nl ++
   "#define __has_include(x) x" ++ nl ++
   "#define __has_include_next(x) x" ++ nl ++
   "#define __cc_msvc_minor__ 1" ++ nl ++
   "#define __has_last(x) x")%string.

(** [main(argc, argv)] with [argc] the length of [argv]: what it writes
    to [stdout] and what it returns.  The loop starts at [i = 1]. *)
Definition main (argv : list string) : string * Z :=
  let stdout := main_loop (tl argv) "" in
  ((stdout ++ predefined)%string, 0).

End cc_msvc.

(** The option that defines the macro [name], and the line that the
    stand-in writes for it. *)
Definition cc_define (name : string) : string := ("--cc-define=" ++ name)%string.

Definition define_line (name : string) : string :=
  (nl ++ "#define " ++ name ++ " 1")%string.

(** The lines of a list of macro names, in order. *)
Fixpoint define_lines (names : list string) : string :=
  match names with
  | [] => ""
  | n :: rest => (define_line n ++ define_lines rest)%string
  end.

(** [ex_ast] with a second declaration of the typedef at address 201,
    whose canonical declaration is the first one at address 200. *)
Definition redecl_ast : ASTContext := {|
  getCanonicalDecl := fun d => if d =? 201 then 200 else d;
  getKind := fun d => if d =? 201 then Typedef else getKind ex_ast d;
  getDeclKindName := fun d => if d =? 201 then "Typedef" else getDeclKindName ex_ast d;
  getName := fun d => if d =? 201 then "CI" else getName ex_ast d;
  getDeclContext := getDeclContext ex_ast;
  getAccess := getAccess ex_ast;
  isInjectedClassName := isInjectedClassName ex_ast;
  getTypedefType := getTypedefType ex_ast;
  locationIsValid := locationIsValid ex_ast;
  getFileEntry := getFileEntry ex_ast;
  getExpansionLineNumber := getExpansionLineNumber ex_ast;
  getFileName := getFileName ex_ast;
  decls := fun dc => if dc =? 100 then [200; 201; 300] else decls ex_ast dc;
  lookup := fun dc n =>
    if (dc =? 100) && String.eqb n "CI" then [200; 201] else lookup ex_ast dc n;
  isRecord := isRecord ex_ast;
  dyn_cast_Decl := dyn_cast_Decl ex_ast;
  dyn_cast_DeclContext := dyn_cast_DeclContext ex_ast;
  getTypeClassName := getTypeClassName ex_ast
|}.

(** The chunks of the [context] and [access] attributes. *)
Definition context_chunks (id : Z) (record : bool) (a : AccessSpecifier) : list Chunk :=
  [Str (" context=" ++ dq ++ "_"); Num id; Str dq] ++
  (if record then [Str (" access=" ++ dq ++ access_text a ++ dq)] else []).

(* ------------------------------------------------------------------------- *)
(** ** Further properties of a whole dump *)

(** The numbers 1, ..., [n]. *)
Definition numbers (n : Z) : list Z := map Z.of_nat (seq 1 (Z.to_nat n)).

(** The indices of a dump have no gap: every number from 1 to
    [NodeCount] is the index of a registered identity; it is the id of
    exactly one element of the document, unless it is the index of a type
    with local qualifiers; and the document carries no other id. *)
Definition dense_ids (ast : ASTContext) (tu : Decl) (D T : list Z)
  (StartNames : list string) : Prop :=
  exists sf,
    HandleTranslationUnit ast (enough_fuel D T) StartNames tu ASTVisitor_init = Some sf /\
    NodeCount sf = Z.of_nat (List.length (DeclNodes sf) + List.length (TypeNodes sf)) /\
    (forall i, 1 <= i <= NodeCount sf ->
               exists k, registered k sf = true /\ Index (deref k sf) = i) /\
    (forall i, In i (ids_of (OS sf)) -> 1 <= i <= NodeCount sf) /\
    (forall i, 1 <= i <= NodeCount sf ->
       count_occ Z.eq_dec (ids_of (OS sf)) i = 1%nat \/
       exists t, hasLocalQualifiers t = true /\ registered (KindType t) sf = true /\
                 Index (deref (KindType t) sf) = i) /\
    ((forall t, In t T -> hasLocalQualifiers t = false) ->
     Permutation (ids_of (OS sf)) (numbers (NodeCount sf))).

(** The elements of [l] that are not in [seen], without repetitions:
    the first occurrences, in the order of [l]. *)
Fixpoint first_occurrences (seen : list Z) (l : list Z) : list Z :=
  match l with
  | [] => []
  | x :: rest =>
      if existsb (Z.eqb x) seen then first_occurrences seen rest
      else x :: first_occurrences (seen ++ [x]) rest
  end.

(** The declarations that [HandleTranslationUnit] hands to
    [AddDumpNode] before it writes: the start sets of the start names, in
    order, or the translation unit when there is no start name. *)
Definition start_decls (ast : ASTContext) (StartNames : list string) (tu : Decl)
  : list Decl :=
  match StartNames with
  | [] => [tu]
  | _ :: _ => flat_map (StartSet ast tu) StartNames
  end.

(** The start nodes: the canonical declarations of the start
    declarations, each once, in the order of their first occurrence. *)
Definition start_nodes (ast : ASTContext) (StartNames : list string) (tu : Decl)
  : list Decl :=
  first_occurrences [] (map (getCanonicalDecl ast) (start_decls ast StartNames tu)).

(** What holds while the start nodes are registered: the queue is the
    list [q] of the declarations seen so far, in the order of their
    indices 1, 2, ..., and all of them are complete. *)
Record StartInv (D : list Z) (q : list Decl) (s : ASTVisitor) : Prop := {
  sti_nodup : NoDup q;
  sti_incl : incl q D;
  sti_rc : RequireComplete s = true;
  sti_queue : Queue s = map KindDecl q;
  sti_count : NodeCount s = Z.of_nat (List.length q);
  sti_seen : forall d, seen (KindDecl d) s = true <-> In d q;
  sti_complete : forall d, In d q -> Complete (deref (KindDecl d) s) = true;
  sti_index :
    map (fun d => Index (deref (KindDecl d) s)) q = numbers (Z.of_nat (List.length q))
}.

(** The document begins with the start nodes: they are queued in the
    order of their first lookup, numbered 1, 2, ... in this order and
    complete, and their elements are the first node elements of the
    document, in this order. *)
Definition start_nodes_first (ast : ASTContext) (tu : Decl) (D T : list Z)
  (StartNames : list string) : Prop :=
  let s0 := snd (HandleTranslationUnit_start ast StartNames tu ASTVisitor_init) in
  let starts := start_nodes ast StartNames tu in
  Queue s0 = map KindDecl starts /\
  NodeCount s0 = Z.of_nat (List.length starts) /\
  map (fun d => Index (deref (KindDecl d) s0)) starts = numbers (NodeCount s0) /\
  (forall d, In d starts -> Complete (deref (KindDecl d) s0) = true) /\
  exists sf rest,
    HandleTranslationUnit ast (enough_fuel D T) StartNames tu ASTVisitor_init = Some sf /\
    ids_of (OS sf) = numbers (NodeCount s0) ++ rest.

(* ------------------------------------------------------------------------- *)
(** ** References between the elements *)

(** The literals that precede the number of a reference: the underscore
    that [PrintTypeIdRef] and [PrintMembersAttribute] write, the opening
    of a [context] attribute, and the openings of the [location] and
    [file] attributes. *)
Definition context_open : string := " context=" ++ dq ++ "_".
Definition location_open : string := " location=" ++ dq ++ "f".
Definition file_attr_open : string := dq ++ " file=" ++ dq ++ "f".

(** The numbers that the stream carries in references to node elements
    (in [type], [members] and [context] attributes), in stream order. *)
Fixpoint node_refs_of (os : list Chunk) : list Z :=
  match os with
  | [] => []
  | c :: rest =>
      match c, rest with
      | Str s, Num n :: _ =>
          if String.eqb s "_" || String.eqb s context_open
          then n :: node_refs_of rest else node_refs_of rest
      | _, _ => node_refs_of rest
      end
  end.

(** The numbers that the stream carries in references to [File]
    elements (in [location] and [file] attributes), in stream order. *)
Fixpoint file_refs_of (os : list Chunk) : list Z :=
  match os with
  | [] => []
  | c :: rest =>
      match c, rest with
      | Str s, Num n :: _ =>
          if String.eqb s location_open || String.eqb s file_attr_open
          then n :: file_refs_of rest else file_refs_of rest
      | _, _ => file_refs_of rest
      end
  end.

(** A number refers to a node when it is the index of a seen identity
    whose dispatch writes an element, and to a file when it is the index
    of a file. *)
Definition valid_ref (s : ASTVisitor) (i : Z) : Prop :=
  exists k, seen k s = true /\ emitting k = true /\ Index (deref k s) = i.

Definition valid_file_ref (s : ASTVisitor) (i : Z) : Prop :=
  i <> 0 /\ exists f, file_index f s = i.

(** Every reference written so far refers to a node or to a file, and
    every file with an index is in the file queue. *)
Record RefInv (s : ASTVisitor) : Prop := {
  ref_node : forall i, In i (node_refs_of (OS s)) -> valid_ref s i;
  ref_file : forall i, In i (file_refs_of (OS s)) -> valid_file_ref s i;
  ref_queued : forall f, file_index f s <> 0 -> In f (FileQueue s)
}.

(** The invariants of a dump with [RefInv], while an entry is dispatched
    that may ask for complete nodes only when [allow] holds. *)
Definition Good (D T F : list Z) (allow : bool) (s : ASTVisitor) : Prop :=
  DumpInv D T F s /\ RefInv s /\ (allow = true -> RequireComplete s = true).

(** No reference of the document dangles: every number in a [type],
    [members] or [context] attribute is the id of exactly one node
    element, and every number in a [location] or [file] attribute is the
    id of exactly one [File] element. *)
Definition references_resolve (ast : ASTContext) (tu : Decl) (D T : list Z)
  (StartNames : list string) : Prop :=
  exists sf,
    HandleTranslationUnit ast (enough_fuel D T) StartNames tu ASTVisitor_init = Some sf /\
    (forall i, In i (node_refs_of (OS sf)) ->
               count_occ Z.eq_dec (ids_of (OS sf)) i = 1%nat) /\
    (forall i, In i (file_refs_of (OS sf)) ->
               count_occ Z.eq_dec (file_ids_of (OS sf)) i = 1%nat).

(* ------------------------------------------------------------------------- *)
(** ** The text of the elements *)

(** The [context] and [access] attributes of [d], with the index that
    the registry of [s] holds for the context; nothing when the context
    is not a declaration. *)
Definition context_attribute (ast : ASTContext) (d : Decl) (s : ASTVisitor) : string :=
  match dyn_cast_Decl ast (getDeclContext ast d) with
  | None => ""
  | Some p =>
      context_text (Index (deref (KindDecl (getCanonicalDecl ast p)) s))
        (isRecord ast (getDeclContext ast d)) (getAccess ast d)
  end.

(** The [members] attribute of the container [dc], with the indices
    that the registry of [s] holds for the kept members; nothing when
    there is none. *)
Definition members_attribute (ast : ASTContext) (dc : DeclContext) (s : ASTVisitor)
  : string :=
  match id_set (map (fun y => Index (deref (KindDecl (getCanonicalDecl ast y)) s))
                  (kept_members ast dc)) with
  | [] => ""
  | i :: ids => (" members=" ++ dq ++ members_text (i :: ids) ++ dq)%string
  end.

(** The three location attributes of [d], with the index that the file
    registry of [s] holds for its file; nothing without a valid location
    or without a file entry. *)
Definition location_attribute (ast : ASTContext) (d : Decl) (s : ASTVisitor) : string :=
  match (if locationIsValid ast d then getFileEntry ast d else None) with
  | None => ""
  | Some f => location_text (file_index f s) (getExpansionLineNumber ast d)
  end.

(** The [id] and [name] attributes. *)
Definition id_name_text (encodeXML : string -> string) (i : Z) (name : string) : string :=
  (" id=" ++ dq ++ "_" ++ decimal i ++ dq ++ " name=" ++ dq ++ encodeXML name ++ dq)%string.

(** The [type] attribute of a reference to [t], with the index that the
    registry of [s] holds for the unqualified form of [t]. *)
Definition type_attribute (t : QualType) (s : ASTVisitor) : string :=
  (" type=" ++ dq ++ "_" ++
   decimal (Index (deref (KindType (getLocalUnqualifiedType t)) s)) ++
   cvr_suffix t ++ dq)%string.

(** Every identity seen in [s] is seen in [s'] with the same index. *)
Definition keeps_indices (s s' : ASTVisitor) : Prop :=
  forall k, seen k s = true ->
            seen k s' = true /\ Index (deref k s') = Index (deref k s).

(** The nodes of [s] are complete exactly where the nodes of [base]
    are. *)
Definition same_completeness (base s : ASTVisitor) : Prop :=
  forall k, Complete (deref k s) = Complete (deref k base).

(** The first phase writes the complete nodes, the second phase the
    others: a node is complete at the end of the dump exactly when it
    was complete at the end of the first phase, the element of a complete
    node is written once in the first phase and not in the second, and
    the element of an incomplete node is written once in the second phase
    and not in the first. *)
Definition complete_nodes_in_first_phase (ast : ASTContext) (tu : Decl) (D T : list Z)
  (StartNames : list string) : Prop :=
  let s0 := snd (HandleTranslationUnit_start ast StartNames tu ASTVisitor_init) in
  exists s1 sf out1 out2,
    ProcessQueue ast (enough_fuel D T) s0 = Some s1 /\
    HandleTranslationUnit ast (enough_fuel D T) StartNames tu ASTVisitor_init = Some sf /\
    OS s1 = [Str prolog] ++ out1 /\ OS sf = OS s1 ++ out2 /\
    same_completeness s1 sf /\
    (forall k, registered k sf = true -> emitting k = true ->
       count_occ Z.eq_dec (ids_of out1) (Index (deref k sf)) =
       (if Complete (deref k sf) then 1 else 0)%nat /\
       count_occ Z.eq_dec (ids_of out2) (Index (deref k sf)) =
       (if Complete (deref k sf) then 0 else 1)%nat).

(* ------------------------------------------------------------------------- *)
(** ** Complete containers *)

(** The declarations whose element lists members: the translation unit
    and the namespaces. *)
Definition container (ast : ASTContext) (d : Decl) : bool :=
  match getKind ast d with
  | TranslationUnit | Namespace => true
  | _ => false
  end.

(** Every kept member of [d] has been seen and is complete. *)
Definition members_done (ast : ASTContext) (d : Decl) (s : ASTVisitor) : Prop :=
  forall y, In y (kept_members ast d) ->
    seen (KindDecl (getCanonicalDecl ast y)) s = true /\
    Complete (deref (KindDecl (getCanonicalDecl ast y)) s) = true.

(** Every complete container that has been seen is exempted by [E], is
    waiting in the queue, or has all its kept members complete. *)
Definition ClosedBut (ast : ASTContext) (E : QueueEntry -> Prop) (s : ASTVisitor) : Prop :=
  forall d, container ast d = true ->
    seen (KindDecl d) s = true -> Complete (deref (KindDecl d) s) = true ->
    E (KindDecl d) \/ In (KindDecl d) (Queue s) \/ members_done ast d s.

(** Every identity seen in [s] is seen in [s'], and complete there when
    it was complete in [s]. *)
Definition grows (s s' : ASTVisitor) : Prop :=
  forall k, seen k s = true ->
            seen k s' = true /\
            (Complete (deref k s) = true -> Complete (deref k s') = true).

(** Completeness reaches the members: at the end of the dump every kept
    member of every complete namespace, and of the translation unit when
    it is complete, is registered and complete. *)
Definition complete_members (ast : ASTContext) (tu : Decl) (D T : list Z)
  (StartNames : list string) : Prop :=
  exists sf,
    HandleTranslationUnit ast (enough_fuel D T) StartNames tu ASTVisitor_init = Some sf /\
    forall d, container ast d = true ->
      registered (KindDecl d) sf = true -> Complete (deref (KindDecl d) sf) = true ->
      forall y, In y (kept_members ast d) ->
        registered (KindDecl (getCanonicalDecl ast y)) sf = true /\
        Complete (deref (KindDecl (getCanonicalDecl ast y)) sf) = true.

(* ------------------------------------------------------------------------- *)
(** ** Reading the file registry with [operator[]] *)

(** The file registry after [m[f]] was read: a file without entry has
    the entry 0. *)
Definition touch (f : FileEntry) (m : ZMap.t Z) : ZMap.t Z :=
  match ZMap.find f m with
  | Some _ => m
  | None => ZMap.add f 0 m
  end.

(** The file registry after [m[f]] was read for each file of [q], in
    order. *)
Definition touch_all (q : list FileEntry) (m : ZMap.t Z) : ZMap.t Z :=
  fold_left (fun m f => touch f m) q m.

(** The state [s] with the file registry [m]. *)
Definition with_FileNodes (m : ZMap.t Z) (s : ASTVisitor) : ASTVisitor :=
  snd (set_FileNodes m s).

(** A state with the registered file 7 and the queued files 7 and 9, of
    which 9 has no entry of the file registry. *)
Definition files_state : ASTVisitor :=
  let s := snd (AddDumpFile 7 ASTVisitor_init) in
  snd (set_FileQueue (FileQueue s ++ [9]) s).

(* ------------------------------------------------------------------------- *)
(** ** The children that a members attribute lists, in the words of the
       specification *)

Definition DeclKind_eq_dec (a b : DeclKind) : {a = b} + {a <> b}.
Proof. decide equality; apply PeanoNat.Nat.eq_dec. Defined.

(** The self-referential injected name of a class: a class declaration
    that is the name of the class injected into its own scope. *)
Definition injected_name (ast : ASTContext) (d : Decl) : Prop :=
  getKind ast d = CXXRecord /\ isInjectedClassName ast d = true.

(** A pure access-specifier marker ([public:], [protected:],
    [private:]). *)
Definition access_marker (ast : ASTContext) (d : Decl) : Prop :=
  getKind ast d = AccessSpec.

(** The children that the specification has the members attribute skip:
    the injected names and the access-specifier markers. *)
Definition skipped_member (ast : ASTContext) (d : Decl) : bool :=
  (if DeclKind_eq_dec (getKind ast d) CXXRecord
   then isInjectedClassName ast d else false) ||
  (if DeclKind_eq_dec (getKind ast d) AccessSpec then true else false).

(** The direct children of a container that the specification has the
    members attribute list, in the order of the container. *)
Definition listed_members (ast : ASTContext) (dc : DeclContext) : list Decl :=
  filter (fun d => negb (skipped_member ast d)) (decls ast dc).

(** [class C { class N; int f; class N {}; };] with [C] at address 300,
    its injected name at 301, an access specifier at 302, the nested
    class [N] declared at 320 and defined at 321 (canonical declaration
    320), and the field [f] at 310; the children of [C] are in the order
    301, 302, 320, 310, 321. *)
Definition members_ast : ASTContext := {|
  getCanonicalDecl := fun d => if d =? 321 then 320 else d;
  getKind := fun d =>
    if (d =? 320) || (d =? 321) then CXXRecord else getKind ex_ast d;
  getDeclKindName := fun d =>
    if d =? 310 then "Field" else getDeclKindName ex_ast d;
  getName := fun d =>
    if d =? 310 then "f" else if (d =? 320) || (d =? 321) then "N"
    else getName ex_ast d;
  getDeclContext := fun d =>
    if (d =? 310) || (d =? 320) || (d =? 321) then 300 else getDeclContext ex_ast d;
  getAccess := getAccess ex_ast;
  isInjectedClassName := isInjectedClassName ex_ast;
  getTypedefType := getTypedefType ex_ast;
  locationIsValid := locationIsValid ex_ast;
  getFileEntry := getFileEntry ex_ast;
  getExpansionLineNumber := getExpansionLineNumber ex_ast;
  getFileName := getFileName ex_ast;
  decls := fun dc =>
    if dc =? 300 then [301; 302; 320; 310; 321] else decls ex_ast dc;
  lookup := lookup ex_ast;
  isRecord := isRecord ex_ast;
  dyn_cast_Decl := dyn_cast_Decl ex_ast;
  dyn_cast_DeclContext := dyn_cast_DeclContext ex_ast;
  getTypeClassName := getTypeClassName ex_ast
|}.

(** The state in which the field of [members_ast] is registered, as a
    reference to it from elsewhere leaves it, before the members of the
    class are written. *)
Definition members_state : ASTVisitor :=
  snd (AddDumpNode_Decl members_ast 310 false ASTVisitor_init).

(** The state in which the class at address 300 of [ex_ast] is
    registered with a full completeness request and waits in the queue,
    and the like state for the type [int]. *)
Definition unimplemented_decl_state : ASTVisitor :=
  snd (AddDumpNode_Decl ex_ast 300 true ASTVisitor_init).

Definition unimplemented_type_state : ASTVisitor :=
  snd (AddDumpNode_QualType 4096 true ASTVisitor_init).
From Stdlib Require Import ZArith List String Ascii Bool Lia Sorted Permutation.
Import ListNotations.
Local Open Scope string_scope.
Local Open Scope list_scope.
Local Open Scope Z_scope.

(* ------------------------------------------------------------------------- *)
(** ** The ordered map *)

Section ZMapFacts.
Context {V : Type}.
Implicit Types (m : ZMap.t V) (k : Z) (v : V).

Lemma find_add_eq k v m : ZMap.find k (ZMap.add k v m) = Some v.
Proof.
  induction m as [|[k' v'] m IH]; simpl.
  - rewrite Z.ltb_irrefl, Z.eqb_refl. reflexivity.
  - destruct (k <? k') eqn:Hlt; simpl.
    + rewrite Z.ltb_irrefl, Z.eqb_refl. reflexivity.
    + destruct (k =? k') eqn:Heq; simpl.
      * rewrite Z.ltb_irrefl, Z.eqb_refl. reflexivity.
      * rewrite Hlt, Heq. exact IH.
Qed.

Lemma find_add_neq k k' v m :
  k <> k' -> ZMap.find k' (ZMap.add k v m) = ZMap.find k' m.
Proof.
  intros Hne. induction m as [|[k1 v1] m IH]; simpl.
  - destruct (k' <? k) eqn:H1; [reflexivity|].
    destruct (k' =? k) eqn:H2; [|reflexivity].
    apply Z.eqb_eq in H2. congruence.
  - destruct (k <? k1) eqn:Hlt; simpl.
    + destruct (k' <? k) eqn:H1.
      * assert ((k' <? k1) = true) as -> by (apply Z.ltb_lt; apply Z.ltb_lt in Hlt, H1; lia).
        reflexivity.
      * destruct (k' =? k) eqn:H2; [apply Z.eqb_eq in H2; congruence|reflexivity].
    + destruct (k =? k1) eqn:Heq; simpl.
      * apply Z.eqb_eq in Heq. subst k1.
        destruct (k' <? k); [reflexivity|].
        destruct (k' =? k) eqn:H2; [apply Z.eqb_eq in H2; congruence|reflexivity].
      * rewrite IH. reflexivity.
Qed.

Lemma add_add k v v' m : ZMap.add k v (ZMap.add k v' m) = ZMap.add k v m.
Proof.
  induction m as [|[k1 v1] m IH]; simpl.
  - rewrite Z.ltb_irrefl, Z.eqb_refl. reflexivity.
  - destruct (k <? k1) eqn:Hlt; simpl.
    + rewrite Z.ltb_irrefl, Z.eqb_refl. reflexivity.
    + destruct (k =? k1) eqn:Heq; simpl.
      * rewrite Z.ltb_irrefl, Z.eqb_refl. reflexivity.
      * rewrite Hlt, Heq, IH. reflexivity.
Qed.

Lemma add_find_same k v m : ZMap.find k m = Some v -> ZMap.add k v m = m.
Proof.
  induction m as [|[k1 v1] m IH]; simpl; [discriminate|].
  destruct (k <? k1) eqn:Hlt; [discriminate|].
  destruct (k =? k1) eqn:Heq.
  - apply Z.eqb_eq in Heq. intros [= ->]. subst. reflexivity.
  - intros H. rewrite (IH H). reflexivity.
Qed.

Lemma keys_add_found k v v0 m :
  ZMap.find k m = Some v0 -> ZMap.keys (ZMap.add k v m) = ZMap.keys m.
Proof.
  unfold ZMap.keys.
  induction m as [|[k1 v1] m IH]; simpl; [discriminate|].
  destruct (k <? k1) eqn:Hlt; [discriminate|].
  destruct (k =? k1) eqn:Heq; simpl.
  - apply Z.eqb_eq in Heq. subst. reflexivity.
  - intros H. rewrite (IH H). reflexivity.
Qed.

Lemma length_add_found k v v0 m :
  ZMap.find k m = Some v0 -> List.length (ZMap.add k v m) = List.length m.
Proof.
  intros H. rewrite <- (length_map fst (ZMap.add k v m)), <- (length_map fst m).
  change (List.length (ZMap.keys (ZMap.add k v m)) = List.length (ZMap.keys m)).
  rewrite (keys_add_found _ _ _ _ H). reflexivity.
Qed.

Lemma in_keys_add k k' v m :
  In k' (ZMap.keys (ZMap.add k v m)) <-> k' = k \/ In k' (ZMap.keys m).
Proof.
  unfold ZMap.keys.
  induction m as [|[k1 v1] m IH]; simpl.
  - intuition.
  - destruct (k <? k1) eqn:Hlt; simpl; [intuition|].
    destruct (k =? k1) eqn:Heq; simpl.
    + apply Z.eqb_eq in Heq. subst. intuition.
    + rewrite IH. intuition.
Qed.

Lemma sorted_add k v m : ZMap.sorted m -> ZMap.sorted (ZMap.add k v m).
Proof.
  unfold ZMap.sorted.
  induction m as [|[k1 v1] m IH]; simpl; intros Hs.
  - repeat constructor.
  - inversion Hs as [|? ? Hs' Hall]; subst.
    destruct (k <? k1) eqn:Hlt; simpl.
    + apply Z.ltb_lt in Hlt. constructor; [exact Hs|].
      constructor; [exact Hlt|].
      eapply Forall_impl; [|exact Hall]. simpl. intros; lia.
    + destruct (k =? k1) eqn:Heq; simpl.
      * apply Z.eqb_eq in Heq. subst. exact Hs.
      * apply Z.ltb_ge in Hlt. apply Z.eqb_neq in Heq.
        constructor; [apply IH; exact Hs'|].
        apply Forall_forall. intros x Hx.
        apply (in_keys_add k x v m) in Hx. destruct Hx as [->|Hx]; [lia|].
        rewrite Forall_forall in Hall. apply Hall. exact Hx.
Qed.

Lemma find_None_not_in k m :
  ZMap.sorted m -> (ZMap.find k m = None <-> ~ In k (ZMap.keys m)).
Proof.
  unfold ZMap.sorted, ZMap.keys.
  induction m as [|[k1 v1] m IH]; simpl; intros Hs.
  - intuition.
  - inversion Hs as [|? ? Hs' Hall]; subst.
    rewrite Forall_forall in Hall.
    destruct (k <? k1) eqn:Hlt.
    + apply Z.ltb_lt in Hlt. split; [|reflexivity].
      intros _ [H|H]; [lia|]. apply Hall in H. lia.
    + destruct (k =? k1) eqn:Heq.
      * apply Z.eqb_eq in Heq. split; [discriminate|]. intros H. exfalso. apply H. left. congruence.
      * apply Z.eqb_neq in Heq. rewrite (IH Hs'). intuition.
Qed.

Lemma find_Some_in k v m :
  ZMap.sorted m -> (ZMap.find k m = Some v <-> In (k, v) m).
Proof.
  unfold ZMap.sorted, ZMap.keys.
  induction m as [|[k1 v1] m IH]; simpl; intros Hs.
  - split; [discriminate|tauto].
  - inversion Hs as [|? ? Hs' Hall]; subst.
    rewrite Forall_forall in Hall.
    destruct (k <? k1) eqn:Hlt.
    + apply Z.ltb_lt in Hlt. split; [discriminate|].
      intros [H|H]; [inversion H; lia|].
      apply (in_map fst) in H. apply Hall in H. simpl in H. lia.
    + destruct (k =? k1) eqn:Heq.
      * apply Z.eqb_eq in Heq. subst. split.
        -- intros [= ->]. left. reflexivity.
        -- intros [H|H]; [inversion H; reflexivity|].
           apply (in_map fst) in H. apply Hall in H. simpl in H. lia.
      * apply Z.eqb_neq in Heq. rewrite (IH Hs'). split; [tauto|].
        intros [H|H]; [inversion H; congruence|exact H].
Qed.

Lemma sorted_NoDup m : ZMap.sorted m -> NoDup (ZMap.keys m).
Proof.
  unfold ZMap.sorted. generalize (ZMap.keys m). intros l Hs.
  induction Hs as [|a l Hs IH Hall]; constructor; [|exact IH].
  intros Hin. rewrite Forall_forall in Hall. apply Hall in Hin. lia.
Qed.

Lemma length_add_new k v m :
  ZMap.find k m = None -> List.length (ZMap.add k v m) = S (List.length m).
Proof.
  induction m as [|[k1 v1] m IH]; simpl; [reflexivity|].
  destruct (k <? k1) eqn:Hlt; [reflexivity|].
  destruct (k =? k1) eqn:Heq; [discriminate|].
  intros H. simpl. rewrite (IH H). reflexivity.
Qed.

Lemma in_add k v k' v' m :
  ZMap.sorted m ->
  (In (k', v') (ZMap.add k v m) <-> (k' = k /\ v' = v) \/ (k' <> k /\ In (k', v') m)).
Proof.
  intros Hs.
  rewrite <- (find_Some_in k' v' _ (sorted_add k v m Hs)).
  rewrite <- (find_Some_in k' v' m Hs).
  destruct (Z.eq_dec k k') as [->|Hne].
  - rewrite find_add_eq. split.
    + intros [= ->]. left. tauto.
    + intros [[_ ->]|[H _]]; [reflexivity|congruence].
  - rewrite (find_add_neq _ _ _ _ Hne). split.
    + intros H. right. split; [congruence|exact H].
    + intros [[H _]|[_ H]]; [congruence|exact H].
Qed.

End ZMapFacts.

(* ------------------------------------------------------------------------- *)
(** ** [std::set] insertion *)

Lemma set_insert_In x y l : In y (set_insert x l) <-> y = x \/ In y l.
Proof.
  induction l as [|a l IH]; simpl.
  - intuition.
  - destruct (x <? a) eqn:Hlt; simpl; [intuition|].
    destruct (x =? a) eqn:Heq; simpl.
    + apply Z.eqb_eq in Heq. subst. intuition.
    + rewrite IH. intuition.
Qed.

Lemma set_insert_sorted x l :
  StronglySorted Z.lt l -> StronglySorted Z.lt (set_insert x l).
Proof.
  induction l as [|a l IH]; simpl; intros Hs.
  - repeat constructor.
  - inversion Hs as [|? ? Hs' Hall]; subst.
    destruct (x <? a) eqn:Hlt.
    + apply Z.ltb_lt in Hlt. constructor; [exact Hs|].
      constructor; [exact Hlt|]. eapply Forall_impl; [|exact Hall]. simpl; intros; lia.
    + destruct (x =? a) eqn:Heq; [exact Hs|].
      apply Z.ltb_ge in Hlt. apply Z.eqb_neq in Heq.
      constructor; [apply IH; exact Hs'|].
      apply Forall_forall. intros y Hy. apply set_insert_In in Hy.
      destruct Hy as [->|Hy]; [lia|]. rewrite Forall_forall in Hall. auto.
Qed.

Lemma sorted_lt_NoDup l : StronglySorted Z.lt l -> NoDup l.
Proof.
  induction 1 as [|a l Hs IH Hall]; constructor; [|exact IH].
  intros Hin. rewrite Forall_forall in Hall. apply Hall in Hin. lia.
Qed.

(* ------------------------------------------------------------------------- *)
(** ** [AddDumpNodeImpl] *)

Ltac run_monad :=
  cbv [bind gets ret out set_NodeCount set_FileCount set_RequireComplete
       set_DeclNodes set_TypeNodes set_FileNodes set_Queue set_FileQueue
       Queue_push FileQueue_push assign assign_Index assign_Complete
       GetDumpNode with_Queue with_node with_NodeCount fst snd
       OS NodeCount FileCount RequireComplete DeclNodes TypeNodes FileNodes
       Queue FileQueue].

Lemma AddDumpNodeImpl_Register k c s : AddDumpNodeImpl k c s = Register k c s.
Proof.
  destruct s as [os nc fc rc dns tns fns q fq].
  destruct k as [d|t]; unfold AddDumpNodeImpl, Register, seen, deref; run_monad.
  - destruct (ZMap.find d dns) as [n|] eqn:Hf; simpl.
    + destruct (Index n =? 0) eqn:Hi; simpl.
      * repeat (rewrite ?Hf, ?Hi, ?find_add_eq, ?add_add; simpl).
        destruct (c || negb rc); simpl;
          repeat (rewrite ?find_add_eq, ?add_add; simpl); reflexivity.
      * repeat (rewrite ?Hf, ?Hi; simpl).
        destruct (c && negb (Complete n)); simpl;
          repeat (rewrite ?find_add_eq, ?add_add, ?Hf; simpl); reflexivity.
    + repeat (rewrite ?Hf, ?find_add_eq, ?add_add; simpl).
      destruct (c || negb rc); simpl;
        repeat (rewrite ?find_add_eq, ?add_add; simpl); reflexivity.
  - destruct (ZMap.find t tns) as [n|] eqn:Hf; simpl.
    + destruct (Index n =? 0) eqn:Hi; simpl.
      * repeat (rewrite ?Hf, ?Hi, ?find_add_eq, ?add_add; simpl).
        destruct (c || negb rc); simpl;
          repeat (rewrite ?find_add_eq, ?add_add; simpl); reflexivity.
      * repeat (rewrite ?Hf, ?Hi; simpl).
        destruct (c && negb (Complete n)); simpl;
          repeat (rewrite ?find_add_eq, ?add_add, ?Hf; simpl); reflexivity.
    + repeat (rewrite ?Hf, ?find_add_eq, ?add_add; simpl).
      destruct (c || negb rc); simpl;
        repeat (rewrite ?find_add_eq, ?add_add; simpl); reflexivity.
Qed.

(** *** Reading the registries after an update *)

Lemma deref_with_node_eq k n s : deref k (with_node k n s) = n.
Proof.
  destruct k; unfold with_node, deref; run_monad; simpl; rewrite find_add_eq; reflexivity.
Qed.

Lemma deref_with_node_neq k k' n s : k <> k' -> deref k' (with_node k n s) = deref k' s.
Proof.
  intros Hne. destruct k as [d|t], k' as [d'|t']; unfold with_node, deref; run_monad; simpl;
    try reflexivity; rewrite find_add_neq; congruence.
Qed.

Lemma deref_with_Queue k q s : deref k (with_Queue q s) = deref k s.
Proof. destruct k; reflexivity. Qed.

Lemma deref_with_NodeCount k n s : deref k (with_NodeCount n s) = deref k s.
Proof. destruct k; reflexivity. Qed.

Lemma registered_with_node k k' n s :
  registered k' (with_node k n s) =
  if QueueEntry_eq_dec k k' then true else registered k' s.
Proof.
  destruct (QueueEntry_eq_dec k k') as [<-|Hne].
  - destruct k; unfold with_node, registered; run_monad; simpl; rewrite find_add_eq; reflexivity.
  - destruct k as [d|t], k' as [d'|t']; unfold with_node, registered; run_monad; simpl;
      try reflexivity; rewrite find_add_neq; congruence.
Qed.

Lemma seen_registered k s : seen k s = true -> registered k s = true.
Proof.
  unfold seen, registered, deref. destruct k as [d|t].
  - destruct (ZMap.find d (DeclNodes s)); [reflexivity|discriminate].
  - destruct (ZMap.find t (TypeNodes s)); [reflexivity|discriminate].
Qed.

(** The members that a registration leaves alone. *)
Lemma Register_frame k c s :
  let s' := snd (Register k c s) in
  OS s' = OS s /\ FileCount s' = FileCount s /\ FileNodes s' = FileNodes s /\
  FileQueue s' = FileQueue s /\ RequireComplete s' = RequireComplete s.
Proof.
  unfold Register.
  destruct (seen k s); [destruct (c && negb (Complete (deref k s)))|
                        destruct (c || negb (RequireComplete s))];
    destruct k; simpl; repeat split; reflexivity.
Qed.

Lemma Register_other k k' c s :
  k <> k' -> deref k' (snd (Register k c s)) = deref k' s.
Proof.
  intros Hne. unfold Register.
  destruct (seen k s); [destruct (c && negb (Complete (deref k s)))|
                        destruct (c || negb (RequireComplete s))]; simpl;
    rewrite ?deref_with_Queue, ?deref_with_node_neq, ?deref_with_NodeCount by exact Hne;
    reflexivity.
Qed.

Lemma Queue_with_node k n s : Queue (with_node k n s) = Queue s.
Proof. destruct k; reflexivity. Qed.

Lemma NodeCount_with_node k n s : NodeCount (with_node k n s) = NodeCount s.
Proof. destruct k; reflexivity. Qed.

Lemma Register_seen k c s :
  seen k s = true ->
  let n := deref k s in
  let s' := snd (Register k c s) in
  fst (Register k c s) = Index n /\
  deref k s' = {| Index := Index n; Complete := Complete n || c |} /\
  NodeCount s' = NodeCount s /\
  Queue s' = Queue s ++ (if c && negb (Complete n) then [k] else []).
Proof.
  intros Hs. unfold Register. rewrite Hs.
  destruct (deref k s) as [i cm] eqn:Hd. simpl.
  destruct c, cm; simpl;
    rewrite ?deref_with_Queue, ?deref_with_node_eq, ?Hd, ?app_nil_r;
    repeat split; try reflexivity.
  - destruct k; reflexivity.
Qed.

Lemma Register_unseen k c s :
  seen k s = false ->
  let i := wrap32 (NodeCount s + 1) in
  let s' := snd (Register k c s) in
  fst (Register k c s) = i /\
  deref k s' = {| Index := i; Complete := c |} /\
  NodeCount s' = i /\
  Queue s' = Queue s ++ (if c || negb (RequireComplete s) then [k] else []).
Proof.
  intros Hs. unfold Register. rewrite Hs.
  destruct (c || negb (RequireComplete s)); simpl;
    rewrite ?deref_with_Queue, ?deref_with_node_eq, ?app_nil_r;
    repeat split; try reflexivity; destruct k; reflexivity.
Qed.

(** A registration returns the index that the registry then holds. *)
Lemma Register_returns k c s :
  fst (Register k c s) = Index (deref k (snd (Register k c s))).
Proof.
  destruct (seen k s) eqn:Hs.
  - destruct (Register_seen k c s Hs) as (-> & -> & _). reflexivity.
  - destruct (Register_unseen k c s Hs) as (-> & -> & _). reflexivity.
Qed.

(** A seen identity keeps its index, and its completeness only grows. *)
Lemma Register_stable k c s k' :
  seen k' s = true ->
  let s' := snd (Register k c s) in
  seen k' s' = true /\
  Index (deref k' s') = Index (deref k' s) /\
  (Complete (deref k' s) = true -> Complete (deref k' s') = true).
Proof.
  intros Hs'. simpl. destruct (QueueEntry_eq_dec k k') as [->|Hne].
  - destruct (Register_seen k' c s Hs') as (_ & Hd & _).
    unfold seen in *. rewrite Hd. simpl. repeat split; auto.
    intros ->. reflexivity.
  - unfold seen in *. rewrite (Register_other k k' c s Hne). auto.
Qed.

(** C2.  [AddDumpNodeImpl(k, requestComplete)] is the [Register] operation
    of the specification.  For an identity not yet seen it allocates the
    next value of the global counter as index, stores
    [Complete = requestComplete], and enqueues the identity exactly when
    [requestComplete] holds or [RequireComplete] is false.  For a seen
    identity it sets [Complete] and enqueues exactly when [requestComplete]
    holds and the stored node is not complete, and otherwise leaves the
    whole state as it is.  In every branch it returns the index that the
    registry holds for the identity, no other node is touched, and every
    seen identity keeps its index and, once complete, stays complete. *)
Theorem AddDumpNodeImpl_contract (k : QueueEntry) (requestComplete : bool)
  (s : ASTVisitor) :
  let r := AddDumpNodeImpl k requestComplete s in
  let n := deref k s in
  let s' := snd r in
  r = Register k requestComplete s /\
  fst r = Index (deref k s') /\
  (if seen k s then
     fst r = Index n /\
     NodeCount s' = NodeCount s /\
     (if requestComplete && negb (Complete n) then
        deref k s' = {| Index := Index n; Complete := true |} /\
        Queue s' = Queue s ++ [k]
      else s' = s)
   else
     fst r = wrap32 (NodeCount s + 1) /\
     NodeCount s' = wrap32 (NodeCount s + 1) /\
     deref k s' = {| Index := wrap32 (NodeCount s + 1); Complete := requestComplete |} /\
     Queue s' = (if requestComplete || negb (RequireComplete s)
                 then Queue s ++ [k] else Queue s)) /\
  (forall k' : QueueEntry,
     if QueueEntry_eq_dec k k' then True else deref k' s' = deref k' s) /\
  (forall k' : QueueEntry,
     if seen k' s then
       seen k' s' = true /\
       Index (deref k' s') = Index (deref k' s) /\
       Bool.le (Complete (deref k' s)) (Complete (deref k' s'))
     else True).
Proof.
  cbv zeta. rewrite AddDumpNodeImpl_Register.
  split; [reflexivity|]. split; [apply Register_returns|]. split; [|split].
  - destruct (seen k s) eqn:Hs.
    + destruct (Register_seen k requestComplete s Hs) as (H1 & H2 & H3 & H4).
      split; [exact H1|]. split; [exact H3|].
      destruct (requestComplete && negb (Complete (deref k s))) eqn:Hc.
      * apply andb_prop in Hc. destruct Hc as [-> Hc].
        rewrite H2, H4, orb_true_r. split; reflexivity.
      * unfold Register. rewrite Hs, Hc. reflexivity.
    + destruct (Register_unseen k requestComplete s Hs) as (H1 & H2 & H3 & H4).
      repeat split; try assumption.
      rewrite H4. destruct (requestComplete || negb (RequireComplete s));
        [reflexivity|apply app_nil_r].
  - intros k'. destruct (QueueEntry_eq_dec k k') as [|Hne]; [exact I|].
    apply Register_other. exact Hne.
  - intros k'. destruct (seen k' s) eqn:Hs; [|exact I].
    destruct (Register_stable k requestComplete s k' Hs) as (H1 & H2 & H3).
    repeat split; try assumption.
    unfold Bool.le. destruct (Complete (deref k' s)); [apply H3; reflexivity|exact I].
Qed.

(* ------------------------------------------------------------------------- *)
(** ** [AddDumpFile] *)

Lemma AddDumpFile_RegisterFile f s : AddDumpFile f s = RegisterFile f s.
Proof.
  destruct s as [os nc fc rc dns tns fns q fq].
  unfold AddDumpFile, RegisterFile, file_index; run_monad.
  destruct (ZMap.find f fns) as [i|] eqn:Hf; simpl.
  - rewrite Hf. destruct (i =? 0); reflexivity.
  - rewrite find_add_eq. simpl. rewrite add_add. reflexivity.
Qed.

(** C5.  One counter numbers declarations and types alike: from the state
    the constructor leaves, a declaration registered first and a type
    registered next get the ids 1 and 2, and so do a type registered first
    and a declaration registered next; in any state two distinct unseen
    identities of any kind registered in a row get consecutive values of
    [NodeCount], which are [NodeCount + 1] and [NodeCount + 2] while the
    counter has room.  The files have a counter of their own: the first
    file gets the index 1 whatever nodes were registered before, a node
    registration leaves [FileCount] as it is, and a file registration
    leaves [NodeCount] and both node registries as they are. *)
Theorem shared_node_counter_separate_file_counter
  (ast : ASTContext) (d : Decl) (t : QualType) (c1 c2 : bool) (f : FileEntry) :
  (let r1 := AddDumpNode_Decl ast d c1 ASTVisitor_init in
   let r2 := AddDumpNode_QualType t c2 (snd r1) in
   let r3 := AddDumpFile f (snd r2) in
   fst r1 = 1 /\ fst r2 = 2 /\ fst r3 = 1 /\
   NodeCount (snd r3) = 2 /\ FileCount (snd r3) = 1) /\
  (let r1 := AddDumpNode_QualType t c1 ASTVisitor_init in
   let r2 := AddDumpNode_Decl ast d c2 (snd r1) in
   let r3 := AddDumpFile f (snd r2) in
   fst r1 = 1 /\ fst r2 = 2 /\ fst r3 = 1 /\
   NodeCount (snd r3) = 2 /\ FileCount (snd r3) = 1) /\
  (forall (k1 k2 : QueueEntry) (s : ASTVisitor),
     let r1 := AddDumpNodeImpl k1 c1 s in
     let r2 := AddDumpNodeImpl k2 c2 (snd r1) in
     if seen k1 s || seen k2 s || (if QueueEntry_eq_dec k1 k2 then true else false)
     then True
     else
       fst r1 = wrap32 (NodeCount s + 1) /\
       fst r2 = wrap32 (fst r1 + 1) /\
       NodeCount (snd r2) = fst r2 /\
       FileCount (snd r2) = FileCount s /\
       (if (0 <=? NodeCount s) && (NodeCount s + 2 <? 2 ^ 32)
        then fst r1 = NodeCount s + 1 /\ fst r2 = NodeCount s + 2
        else True)) /\
  (forall s : ASTVisitor,
     let r := AddDumpFile f s in
     NodeCount (snd r) = NodeCount s /\
     DeclNodes (snd r) = DeclNodes s /\ TypeNodes (snd r) = TypeNodes s /\
     Queue (snd r) = Queue s /\
     (if file_index f s =? 0
      then fst r = wrap32 (FileCount s + 1) /\ FileCount (snd r) = fst r
      else fst r = file_index f s /\ FileCount (snd r) = FileCount s)).
Proof.
  split; [|split; [|split]].
  - unfold AddDumpNode_Decl, AddDumpNode_QualType. cbv zeta.
    rewrite !AddDumpNodeImpl_Register, AddDumpFile_RegisterFile.
    destruct c1, c2; repeat split; reflexivity.
  - unfold AddDumpNode_Decl, AddDumpNode_QualType. cbv zeta.
    rewrite !AddDumpNodeImpl_Register, AddDumpFile_RegisterFile.
    destruct c1, c2; repeat split; reflexivity.
  - intros k1 k2 s. cbv zeta. rewrite !AddDumpNodeImpl_Register.
    destruct (seen k1 s) eqn:H1; [exact I|].
    destruct (seen k2 s) eqn:H2; [exact I|].
    destruct (QueueEntry_eq_dec k1 k2) as [|Hne]; [exact I|]. cbv [orb].
    destruct (Register_unseen k1 c1 s H1) as (E1 & _ & N1 & _).
    assert (H2' : seen k2 (snd (Register k1 c1 s)) = false).
    { unfold seen in *. rewrite (Register_other k1 k2 c1 s Hne). exact H2. }
    destruct (Register_unseen k2 c2 _ H2') as (E2 & _ & N2 & _).
    destruct (Register_frame k1 c1 s) as (_ & F1 & _).
    destruct (Register_frame k2 c2 (snd (Register k1 c1 s))) as (_ & F2 & _).
    rewrite E1, E2, N2, N1, F2, F1. repeat split.
    destruct ((0 <=? NodeCount s) && (NodeCount s + 2 <? 2 ^ 32)) eqn:Hb; [|exact I].
    apply andb_prop in Hb. destruct Hb as [Hb1 Hb2].
    apply Z.leb_le in Hb1. apply Z.ltb_lt in Hb2.
    unfold wrap32. rewrite (Z.mod_small (NodeCount s + 1)) by lia.
    rewrite Z.mod_small by lia. split; lia.
  - intros s. cbv zeta. rewrite AddDumpFile_RegisterFile. unfold RegisterFile.
    destruct (file_index f s =? 0); simpl; repeat split; reflexivity.
Qed.
From Stdlib Require Import ZArith List String Ascii Bool Lia Sorted Permutation.
Import ListNotations.
Local Open Scope string_scope.
Local Open Scope list_scope.
Local Open Scope Z_scope.

(* ------------------------------------------------------------------------- *)
(** ** The monad and the stream *)

Lemma bind_eq {A B : Type} (m : M A) (k : A -> M B) (s : ASTVisitor) :
  bind m k s = k (fst (m s)) (snd (m s)).
Proof. unfold bind. destruct (m s). reflexivity. Qed.

Lemma for_each_ext {A : Type} (l : list A) (b1 b2 : A -> M unit) :
  (forall x s, In x l -> b1 x s = b2 x s) ->
  forall s, for_each l b1 s = for_each l b2 s.
Proof.
  induction l as [|x l IH]; intros H s; simpl; [reflexivity|].
  rewrite !bind_eq, (H x s) by (left; reflexivity).
  apply IH. intros y s' Hy. apply H. right. exact Hy.
Qed.

Lemma for_each_app {A : Type} (l1 l2 : list A) (b : A -> M unit) s :
  for_each (l1 ++ l2) b s = for_each l2 b (snd (for_each l1 b s)).
Proof.
  revert s. induction l1 as [|x l1 IH]; intros s; simpl; [reflexivity|].
  rewrite !bind_eq. apply IH.
Qed.

Lemma for_each_unit {A : Type} (l : list A) (b : A -> M unit) s :
  for_each l b s = (tt, snd (for_each l b s)).
Proof. destruct (for_each l b s) as [[] s']. reflexivity. Qed.

Lemma for_each_flat_map {A B : Type} (f : A -> list B) (l : list A)
  (b : B -> M unit) s :
  for_each (flat_map f l) b s = for_each l (fun x => for_each (f x) b) s.
Proof.
  revert s. induction l as [|x l IH]; intros s; simpl; [reflexivity|].
  rewrite for_each_app, bind_eq. apply IH.
Qed.

Lemma OS_with_out cs s : OS (with_out cs s) = OS s ++ cs.
Proof. reflexivity. Qed.

Lemma deref_with_out k cs s : deref k (with_out cs s) = deref k s.
Proof. destruct k; reflexivity. Qed.

Lemma out_with_out cs s : out cs s = (tt, with_out cs s).
Proof. reflexivity. Qed.

Lemma with_out_nil s : with_out [] s = s.
Proof. destruct s. unfold with_out. simpl. rewrite app_nil_r. reflexivity. Qed.

Lemma with_out_app a b s : with_out b (with_out a s) = with_out (a ++ b) s.
Proof. unfold with_out. simpl. rewrite app_assoc. reflexivity. Qed.

(* ------------------------------------------------------------------------- *)
(** ** Text *)

Lemma append_assoc (a b c : string) : ((a ++ b) ++ c = a ++ (b ++ c))%string.
Proof. induction a as [|x a IH]; simpl; [reflexivity|]. rewrite IH. reflexivity. Qed.

Lemma append_nil_r (a : string) : (a ++ "" = a)%string.
Proof. induction a as [|x a IH]; simpl; [reflexivity|]. rewrite IH. reflexivity. Qed.

(* ------------------------------------------------------------------------- *)
(** ** Qualifier bits *)

Lemma land7_bits (t : Z) :
  Z.land t 7 = 0 <->
  Z.testbit t 0 = false /\ Z.testbit t 1 = false /\ Z.testbit t 2 = false.
Proof.
  split.
  - intros H.
    assert (Hb : forall n, Z.testbit (Z.land t 7) n = false)
      by (intros n; rewrite H; apply Z.bits_0).
    pose proof (Hb 0) as H0. pose proof (Hb 1) as H1. pose proof (Hb 2) as H2.
    rewrite Z.land_spec in H0, H1, H2.
    change (Z.testbit 7 0) with true in H0. change (Z.testbit 7 1) with true in H1.
    change (Z.testbit 7 2) with true in H2.
    rewrite andb_true_r in H0, H1, H2. auto.
  - intros (H0 & H1 & H2). apply Z.bits_inj'. intros n Hn.
    rewrite Z.land_spec, Z.bits_0.
    destruct (Z.eq_dec n 0) as [->|]; [rewrite H0; reflexivity|].
    destruct (Z.eq_dec n 1) as [->|]; [rewrite H1; reflexivity|].
    destruct (Z.eq_dec n 2) as [->|]; [rewrite H2; reflexivity|].
    replace (Z.testbit 7 n) with false; [apply andb_false_r|].
    symmetry. change 7 with (Z.ones 3). apply Z.ones_spec_high. lia.
Qed.

Lemma unqualified_bits (t : QualType) :
  hasLocalQualifiers t = false ->
  isLocalConstQualified t = false /\ isLocalVolatileQualified t = false /\
  isLocalRestrictQualified t = false.
Proof.
  unfold hasLocalQualifiers, isLocalConstQualified, isLocalVolatileQualified,
    isLocalRestrictQualified.
  intros H. apply negb_false_iff, Z.eqb_eq, land7_bits in H. tauto.
Qed.

Lemma unqualified_fixed (t : QualType) :
  hasLocalQualifiers t = false -> getLocalUnqualifiedType t = t.
Proof.
  unfold hasLocalQualifiers, getLocalUnqualifiedType.
  intros H. apply negb_false_iff, Z.eqb_eq, land7_bits in H.
  destruct H as (H0 & H1 & H2).
  apply Z.bits_inj'. intros n Hn. rewrite Z.ldiff_spec.
  destruct (Z.eq_dec n 0) as [->|]; [rewrite H0; reflexivity|].
  destruct (Z.eq_dec n 1) as [->|]; [rewrite H1; reflexivity|].
  destruct (Z.eq_dec n 2) as [->|]; [rewrite H2; reflexivity|].
  replace (Z.testbit 7 n) with false; [simpl; apply andb_true_r|].
  symmetry. change 7 with (Z.ones 3). apply Z.ones_spec_high. lia.
Qed.

Lemma getLocalUnqualifiedType_unqualified (t : QualType) :
  hasLocalQualifiers (getLocalUnqualifiedType t) = false.
Proof.
  unfold hasLocalQualifiers, getLocalUnqualifiedType.
  apply negb_false_iff, Z.eqb_eq, land7_bits.
  rewrite !Z.ldiff_spec. change (Z.testbit 7 0) with true.
  change (Z.testbit 7 1) with true. change (Z.testbit 7 2) with true.
  simpl. rewrite !andb_false_r. auto.
Qed.

Lemma ldiff_lor_low (t m : Z) :
  Z.land t 7 = 0 -> Z.land m 7 = m -> Z.ldiff (Z.lor t m) 7 = t.
Proof.
  intros Ht Hm. apply Z.bits_inj'. intros n Hn.
  rewrite Z.ldiff_spec, Z.lor_spec.
  assert (Hmn : Z.testbit m n = Z.testbit m n && Z.testbit 7 n)
    by (rewrite <- Z.land_spec, Hm; reflexivity).
  assert (Htn : Z.testbit t n && Z.testbit 7 n = false)
    by (rewrite <- Z.land_spec, Ht; apply Z.bits_0).
  destruct (Z.testbit t n), (Z.testbit m n), (Z.testbit 7 n); simpl in *; congruence.
Qed.

Lemma const_qualified_spec (t : QualType) :
  hasLocalQualifiers t = false ->
  hasLocalQualifiers (const_qualified t) = true /\
  getLocalUnqualifiedType (const_qualified t) = t /\
  cvr_suffix (const_qualified t) = "c".
Proof.
  intros H. pose proof (unqualified_bits t H) as (H0 & H2 & H1).
  unfold hasLocalQualifiers in H. apply negb_false_iff, Z.eqb_eq in H.
  unfold isLocalConstQualified, isLocalVolatileQualified, isLocalRestrictQualified in *.
  assert (B0 : Z.testbit (const_qualified t) 0 = true)
    by (unfold const_qualified; rewrite Z.lor_spec, H0; reflexivity).
  assert (B1 : Z.testbit (const_qualified t) 1 = false)
    by (unfold const_qualified; rewrite Z.lor_spec, H1; reflexivity).
  assert (B2 : Z.testbit (const_qualified t) 2 = false)
    by (unfold const_qualified; rewrite Z.lor_spec, H2; reflexivity).
  split; [|split].
  - unfold hasLocalQualifiers. apply negb_true_iff, Z.eqb_neq. intros E.
    apply land7_bits in E. destruct E as (E & _). congruence.
  - unfold getLocalUnqualifiedType, const_qualified. apply ldiff_lor_low; [exact H|reflexivity].
  - unfold cvr_suffix, isLocalConstQualified, isLocalVolatileQualified,
      isLocalRestrictQualified. rewrite B0, B1, B2. reflexivity.
Qed.

Lemma volatile_const_qualified_spec (t : QualType) :
  hasLocalQualifiers t = false ->
  hasLocalQualifiers (volatile_const_qualified t) = true /\
  getLocalUnqualifiedType (volatile_const_qualified t) = t /\
  cvr_suffix (volatile_const_qualified t) = "cv".
Proof.
  intros H. pose proof (unqualified_bits t H) as (H0 & H2 & H1).
  unfold hasLocalQualifiers in H. apply negb_false_iff, Z.eqb_eq in H.
  unfold isLocalConstQualified, isLocalVolatileQualified, isLocalRestrictQualified in *.
  assert (B0 : Z.testbit (volatile_const_qualified t) 0 = true)
    by (unfold volatile_const_qualified; rewrite Z.lor_spec, H0; reflexivity).
  assert (B1 : Z.testbit (volatile_const_qualified t) 1 = false)
    by (unfold volatile_const_qualified; rewrite Z.lor_spec, H1; reflexivity).
  assert (B2 : Z.testbit (volatile_const_qualified t) 2 = true)
    by (unfold volatile_const_qualified; rewrite Z.lor_spec, H2; reflexivity).
  split; [|split].
  - unfold hasLocalQualifiers. apply negb_true_iff, Z.eqb_neq. intros E.
    apply land7_bits in E. destruct E as (E & _). congruence.
  - unfold getLocalUnqualifiedType, volatile_const_qualified.
    apply ldiff_lor_low; [exact H|reflexivity].
  - unfold cvr_suffix, isLocalConstQualified, isLocalVolatileQualified,
      isLocalRestrictQualified. rewrite B0, B1, B2. reflexivity.
Qed.

(* ------------------------------------------------------------------------- *)
(** ** Type references *)

Lemma GetTypeIdRef_Register t c s :
  GetTypeIdRef t c s =
  let r1 := Register (KindType t) c s in
  let r2 := if hasLocalQualifiers t
            then Register (KindType (getLocalUnqualifiedType t)) c (snd r1)
            else r1 in
  ((fst r2, isLocalConstQualified t, isLocalVolatileQualified t,
    isLocalRestrictQualified t), snd r2).
Proof.
  unfold GetTypeIdRef, AddDumpNode_QualType. rewrite !bind_eq.
  rewrite AddDumpNodeImpl_Register. cbv zeta.
  destruct (hasLocalQualifiers t).
  - rewrite ?bind_eq, AddDumpNodeImpl_Register. reflexivity.
  - rewrite ?bind_eq. reflexivity.
Qed.

Lemma OS_Register k c s : OS (snd (Register k c s)) = OS s.
Proof. apply (Register_frame k c s). Qed.

(** With room in the counter, a registration leaves its identity seen. *)
Lemma Register_room k c s :
  0 <= NodeCount s -> NodeCount s + 1 < 2 ^ 32 ->
  let s' := snd (Register k c s) in
  seen k s' = true /\ NodeCount s <= NodeCount s' <= NodeCount s + 1.
Proof.
  intros H0 H1. cbv zeta. destruct (seen k s) eqn:Hs.
  - destruct (Register_seen k c s Hs) as (_ & Hd & Hn & _).
    unfold seen in *. rewrite Hd, Hn. simpl. split; [exact Hs|lia].
  - destruct (Register_unseen k c s Hs) as (_ & Hd & Hn & _).
    unfold seen. rewrite Hd, Hn. simpl. unfold wrap32.
    rewrite Z.mod_small by lia. split; [|lia].
    apply negb_true_iff, Z.eqb_neq. lia.
Qed.

Lemma GetTypeIdRef_id t c s :
  let r := GetTypeIdRef t c s in
  fst r = (Index (deref (KindType (getLocalUnqualifiedType t)) (snd r)),
           isLocalConstQualified t, isLocalVolatileQualified t,
           isLocalRestrictQualified t).
Proof.
  cbv zeta. rewrite GetTypeIdRef_Register. cbv zeta. cbn [fst snd].
  destruct (hasLocalQualifiers t) eqn:Hq.
  - rewrite <- Register_returns. reflexivity.
  - rewrite (unqualified_fixed t Hq), <- Register_returns. reflexivity.
Qed.

Lemma PrintTypeIdRef_out t c s :
  let r := GetTypeIdRef t c s in
  PrintTypeIdRef t c s =
  (tt, with_out [Str "_";
                 Num (Index (deref (KindType (getLocalUnqualifiedType t)) (snd r)));
                 Str (if isLocalConstQualified t then "c" else "");
                 Str (if isLocalVolatileQualified t then "v" else "");
                 Str (if isLocalRestrictQualified t then "r" else "")] (snd r)).
Proof.
  cbv zeta. unfold PrintTypeIdRef. rewrite bind_eq.
  rewrite (GetTypeIdRef_id t c s). reflexivity.
Qed.

Lemma cvr_suffix_empty t : cvr_suffix t = "" <-> hasLocalQualifiers t = false.
Proof.
  split.
  - intros H. unfold hasLocalQualifiers. apply negb_false_iff, Z.eqb_eq, land7_bits.
    unfold cvr_suffix, isLocalConstQualified, isLocalVolatileQualified,
      isLocalRestrictQualified in H.
    destruct (Z.testbit t 0), (Z.testbit t 1), (Z.testbit t 2); try discriminate; auto.
  - intros H. destruct (unqualified_bits t H) as (H0 & H1 & H2).
    unfold cvr_suffix. rewrite H0, H1, H2. reflexivity.
Qed.

Lemma render_type_ref (encodeXML : string -> string) (id : Z) (t : QualType) :
  render encodeXML [Str "_"; Num id;
                    Str (if isLocalConstQualified t then "c" else "");
                    Str (if isLocalVolatileQualified t then "v" else "");
                    Str (if isLocalRestrictQualified t then "r" else "")]
  = ("_" ++ decimal id ++ cvr_suffix t)%string.
Proof.
  unfold render, cvr_suffix. simpl. rewrite append_nil_r. reflexivity.
Qed.

Lemma GetTypeIdRef_stable t c s k :
  seen k s = true ->
  let s' := snd (GetTypeIdRef t c s) in
  seen k s' = true /\ Index (deref k s') = Index (deref k s).
Proof.
  intros Hs. cbv zeta. rewrite GetTypeIdRef_Register. cbv zeta. cbn [fst snd].
  destruct (Register_stable (KindType t) c s k Hs) as (H1 & H2 & _).
  destruct (hasLocalQualifiers t); [|split; assumption].
  destruct (Register_stable (KindType (getLocalUnqualifiedType t)) c _ k H1) as (H3 & H4 & _).
  split; [exact H3|congruence].
Qed.

Lemma GetTypeIdRef_room t c s :
  0 <= NodeCount s -> NodeCount s + 2 < 2 ^ 32 ->
  seen (KindType (getLocalUnqualifiedType t)) (snd (GetTypeIdRef t c s)) = true.
Proof.
  intros H0 H2. rewrite GetTypeIdRef_Register. cbv zeta. cbn [fst snd].
  destruct (Register_room (KindType t) c s H0 ltac:(lia)) as (S1 & N1).
  destruct (hasLocalQualifiers t) eqn:Hq.
  - apply Register_room; lia.
  - rewrite (unqualified_fixed t Hq). exact S1.
Qed.

Lemma OS_GetTypeIdRef t c s : OS (snd (GetTypeIdRef t c s)) = OS s.
Proof.
  rewrite GetTypeIdRef_Register. cbv zeta. cbn [fst snd].
  destruct (hasLocalQualifiers t); rewrite ?OS_Register; reflexivity.
Qed.

(** C4.  [PrintTypeIdRef] registers the type and, when the type has local
    qualifiers, its unqualified form, and writes the index of the
    unqualified form after an underscore, followed by the letters [c],
    [v], [r], in this order, for the const, volatile and restrict
    qualifiers that the type has; the suffix is empty exactly when the
    type has no local qualifier.  In particular, with room for two more
    nodes in the counter, the references to [const T] and to
    [volatile const T], printed one after the other, are [_<id>c] and
    [_<id>cv] for the one index [id] of [T]. *)
Theorem PrintTypeIdRef_reference
  (encodeXML : string -> string) (t : QualType) (complete : bool) (s : ASTVisitor) :
  let r := GetTypeIdRef t complete s in
  let id := Index (deref (KindType (getLocalUnqualifiedType t)) (snd r)) in
  let ref := [Str "_"; Num id;
              Str (if isLocalConstQualified t then "c" else "");
              Str (if isLocalVolatileQualified t then "v" else "");
              Str (if isLocalRestrictQualified t then "r" else "")] in
  fst r = (id, isLocalConstQualified t, isLocalVolatileQualified t,
           isLocalRestrictQualified t) /\
  PrintTypeIdRef t complete s = (tt, with_out ref (snd r)) /\
  render encodeXML ref = ("_" ++ decimal id ++ cvr_suffix t)%string /\
  (cvr_suffix t = "" <-> hasLocalQualifiers t = false) /\
  (forall (T : QualType) (c1 c2 : bool),
     hasLocalQualifiers T = false ->
     0 <= NodeCount s -> NodeCount s + 2 < 2 ^ 32 ->
     let s1 := snd (PrintTypeIdRef (const_qualified T) c1 s) in
     let s2 := snd (PrintTypeIdRef (volatile_const_qualified T) c2 s1) in
     let i := Index (deref (KindType T) s2) in
     i <> 0 /\
     (exists ref1 ref2,
        OS s1 = OS s ++ ref1 /\ OS s2 = OS s1 ++ ref2 /\
        render encodeXML ref1 = ("_" ++ decimal i ++ "c")%string /\
        render encodeXML ref2 = ("_" ++ decimal i ++ "cv")%string)).
Proof.
  cbv zeta. split; [apply GetTypeIdRef_id|]. split; [apply PrintTypeIdRef_out|].
  split; [apply render_type_ref|]. split; [apply cvr_suffix_empty|].
  intros T c1 c2 HT H0 H2.
  destruct (const_qualified_spec T HT) as (Q1 & U1 & S1).
  destruct (volatile_const_qualified_spec T HT) as (Q2 & U2 & S2).
  rewrite (PrintTypeIdRef_out (const_qualified T) c1 s). cbv zeta. cbn [snd].
  rewrite (PrintTypeIdRef_out (volatile_const_qualified T) c2). cbv zeta. cbn [snd].
  rewrite U1, U2, !deref_with_out, !OS_with_out, !OS_GetTypeIdRef, OS_with_out,
    OS_GetTypeIdRef.
  pose proof (GetTypeIdRef_room (const_qualified T) c1 s H0 H2) as Sa. rewrite U1 in Sa.
  set (a := snd (GetTypeIdRef (const_qualified T) c1 s)) in *.
  set (w := with_out _ a).
  assert (Sw : seen (KindType T) w = true)
    by (unfold seen, w; rewrite deref_with_out; exact Sa).
  destruct (GetTypeIdRef_stable (volatile_const_qualified T) c2 w (KindType T) Sw)
    as (Sb & Ib).
  unfold w in Ib at 2. rewrite deref_with_out in Ib. rewrite Ib.
  split.
  - unfold seen in Sa. apply negb_true_iff, Z.eqb_neq in Sa. exact Sa.
  - eexists _, _. split; [reflexivity|]. split; [reflexivity|].
    rewrite !render_type_ref, S1, S2. split; reflexivity.
Qed.

(** The reference to a const-qualified and to a volatile const-qualified
    form of the type at address 4096, from the state the constructor
    leaves. *)
Lemma PrintTypeIdRef_reference_witness :
  let s := ASTVisitor_init in
  let s1 := snd (PrintTypeIdRef (const_qualified 4096) true s) in
  let s2 := snd (PrintTypeIdRef (volatile_const_qualified 4096) true s1) in
  let i := Index (deref (KindType 4096) s2) in
  i <> 0 /\
  (exists ref1 ref2,
     OS s1 = OS s ++ ref1 /\ OS s2 = OS s1 ++ ref2 /\
     render (fun x => x) ref1 = ("_" ++ decimal i ++ "c")%string /\
     render (fun x => x) ref2 = ("_" ++ decimal i ++ "cv")%string).
Proof.
  apply (proj2 (proj2 (proj2 (proj2
    (PrintTypeIdRef_reference (fun x => x) 4096 true ASTVisitor_init)))) 4096 true true).
  - reflexivity.
  - simpl. lia.
  - simpl. lia.
Defined.
From Stdlib Require Import ZArith List String Ascii Bool Lia Sorted Permutation.
Import ListNotations.
Local Open Scope string_scope.
Local Open Scope list_scope.
Local Open Scope Z_scope.

(* ------------------------------------------------------------------------- *)
(** ** The dispatcher *)

Lemma OutputUnimplementedDecl_out ast d dn s :
  OutputUnimplementedDecl ast d dn s =
  (tt, with_out (unimplemented_decl (Index (deref dn s)) (getDeclKindName ast d)) s).
Proof. reflexivity. Qed.

Lemma OutputUnimplementedType_out ast t dn s :
  OutputUnimplementedType ast t dn s =
  (tt, with_out (unimplemented_type (Index (deref dn s)) (getTypeClassName ast t)) s).
Proof. reflexivity. Qed.

Lemma ProcessQueue_step ast fuel qe rest s :
  Queue s = qe :: rest ->
  ProcessQueue ast (S fuel) s =
  ProcessQueue ast fuel (snd (ProcessQueue_entry ast qe rest s)).
Proof. intros H. simpl. rewrite H. reflexivity. Qed.

Lemma ProcessQueue_entry_eq ast qe rest s :
  ProcessQueue_entry ast qe rest s =
  match qe with
  | KindDecl d => OutputDecl ast d qe (with_Queue rest s)
  | KindType t => OutputType ast t qe (with_Queue rest s)
  end.
Proof. unfold ProcessQueue_entry. rewrite bind_eq. destruct qe; reflexivity. Qed.

(** C8 (as amended).  A declaration whose kind has no output routine of
    its own in [ASTVisitor], and a type without local qualifiers,
    whatever its type class, are dispatched to the routine that writes the
    placeholder element [Unimplemented], whose attributes are the id of
    the node, made of its index, and the name of its kind (or of its type
    class); nothing else of the state changes, and the loop of
    [ProcessQueue] goes on with the rest of the queue.  A type with local
    qualifiers is dispatched to [OutputCvQualifiedType], which writes
    nothing: the loop takes it from the queue, leaves the state as it is
    and goes on with the rest of the queue. *)
Theorem unimplemented_kind_placeholder (ast : ASTContext) (encodeXML : string -> string) :
  (forall d dn s,
     no_dedicated_routine (getKind ast d) = true ->
     OutputDecl ast d dn s =
     (tt, with_out (unimplemented_decl (Index (deref dn s)) (getDeclKindName ast d)) s)) /\
  (forall t dn s,
     hasLocalQualifiers t = false ->
     OutputType ast t dn s =
     (tt, with_out (unimplemented_type (Index (deref dn s))
                      (getTypeClassName ast (getTypePtr t))) s)) /\
  (forall fuel d rest s,
     Queue s = KindDecl d :: rest ->
     no_dedicated_routine (getKind ast d) = true ->
     ProcessQueue ast (S fuel) s =
     ProcessQueue ast fuel
       (with_out (unimplemented_decl (Index (deref (KindDecl d) s)) (getDeclKindName ast d))
          (with_Queue rest s))) /\
  (forall fuel t rest s,
     Queue s = KindType t :: rest ->
     hasLocalQualifiers t = false ->
     ProcessQueue ast (S fuel) s =
     ProcessQueue ast fuel
       (with_out (unimplemented_type (Index (deref (KindType t) s))
                    (getTypeClassName ast (getTypePtr t)))
          (with_Queue rest s))) /\
  (forall i kind,
     render encodeXML (unimplemented_decl i kind) =
     ("  <Unimplemented id=" ++ dq ++ "_" ++ decimal i ++ dq ++
      " kind=" ++ dq ++ encodeXML kind ++ dq ++ "/>" ++ nl)%string) /\
  (forall i type_class,
     render encodeXML (unimplemented_type i type_class) =
     ("  <Unimplemented id=" ++ dq ++ "_" ++ decimal i ++ dq ++
      " type_class=" ++ dq ++ encodeXML type_class ++ dq ++ "/>" ++ nl)%string) /\
  (forall t dn s,
     hasLocalQualifiers t = true ->
     OutputType ast t dn s = (tt, s)) /\
  (forall fuel t rest s,
     Queue s = KindType t :: rest ->
     hasLocalQualifiers t = true ->
     ProcessQueue ast (S fuel) s = ProcessQueue ast fuel (with_Queue rest s)).
Proof.
  assert (HD : forall d dn s,
     no_dedicated_routine (getKind ast d) = true ->
     OutputDecl ast d dn s =
     (tt, with_out (unimplemented_decl (Index (deref dn s)) (getDeclKindName ast d)) s)).
  { intros d dn s H. unfold OutputDecl.
    destruct (getKind ast d); try discriminate H; apply OutputUnimplementedDecl_out. }
  assert (HT : forall t dn s,
     hasLocalQualifiers t = false ->
     OutputType ast t dn s =
     (tt, with_out (unimplemented_type (Index (deref dn s))
                      (getTypeClassName ast (getTypePtr t))) s)).
  { intros t dn s H. unfold OutputType. rewrite H. apply OutputUnimplementedType_out. }
  assert (HQ : forall t dn s,
     hasLocalQualifiers t = true -> OutputType ast t dn s = (tt, s)).
  { intros t dn s H. unfold OutputType. rewrite H. reflexivity. }
  split; [exact HD|]. split; [exact HT|].
  split; [|split; [|split; [|split; [|split; [exact HQ|]]]]].
  - intros fuel d rest s Hs Hk.
    rewrite (ProcessQueue_step ast fuel _ _ s Hs), ProcessQueue_entry_eq, (HD _ _ _ Hk).
    cbn [snd]. rewrite deref_with_Queue. reflexivity.
  - intros fuel t rest s Hs Hq.
    rewrite (ProcessQueue_step ast fuel _ _ s Hs), ProcessQueue_entry_eq, (HT _ _ _ Hq).
    cbn [snd]. rewrite deref_with_Queue. reflexivity.
  - intros i kind. unfold render, unimplemented_decl. cbn [fold_right render_chunk].
    rewrite append_nil_r, !append_assoc. reflexivity.
  - intros i tc. unfold render, unimplemented_type. cbn [fold_right render_chunk].
    rewrite append_nil_r, !append_assoc. reflexivity.
  - intros fuel t rest s Hs Hq.
    rewrite (ProcessQueue_step ast fuel _ _ s Hs), ProcessQueue_entry_eq, (HQ _ _ _ Hq).
    reflexivity.
Qed.

(** The class at address 300 of [ex_ast], registered with a full
    completeness request: it has the index 1 and is the only entry of the
    queue, and the loop writes the placeholder with the id 1 for it; the
    type [int] of [ex_ast], registered in the same way, likewise. *)
Lemma unimplemented_kind_placeholder_witness :
  (Queue unimplemented_decl_state = [KindDecl 300] /\
   Index (deref (KindDecl 300) unimplemented_decl_state) = 1 /\
   ProcessQueue ex_ast 1 unimplemented_decl_state =
   ProcessQueue ex_ast 0
     (with_out (unimplemented_decl 1 "CXXRecord")
        (with_Queue [] unimplemented_decl_state))) /\
  (Queue unimplemented_type_state = [KindType 4096] /\
   Index (deref (KindType 4096) unimplemented_type_state) = 1 /\
   ProcessQueue ex_ast 1 unimplemented_type_state =
   ProcessQueue ex_ast 0
     (with_out (unimplemented_type 1 "Builtin")
        (with_Queue [] unimplemented_type_state))).
Proof.
  pose proof (unimplemented_kind_placeholder ex_ast (fun x => x))
    as (_ & _ & HD & HT & _).
  split; (split; [reflexivity|]); (split; [reflexivity|]).
  - apply (HD 0%nat 300 [] unimplemented_decl_state); reflexivity.
  - apply (HT 0%nat 4096 [] unimplemented_type_state); reflexivity.
Defined.

(** C8, as the specification words it, fails for a type with local
    qualifiers: [const int] of [ex_ast] (opaque value 4097), registered
    with the index 1 and queued before [int], is taken from the queue
    and nothing is written for it; the document of the whole queue holds
    the placeholder of [int], with the id 2, and no element with the
    id 1. *)
Lemma dequeued_qualified_type_writes_nothing :
  let s := snd (GetTypeIdRef 4097 true ASTVisitor_init) in
  Queue s = [KindType 4097; KindType 4096] /\
  hasLocalQualifiers 4097 = true /\
  Index (deref (KindType 4097) s) = 1 /\
  OS s = [] /\
  OS (snd (ProcessQueue_entry ex_ast (KindType 4097) [KindType 4096] s)) = [] /\
  match ProcessQueue ex_ast 2 s with
  | Some s' => OS s' = unimplemented_type 2 "Builtin" /\ ids_of (OS s') = [2]
  | None => False
  end.
Proof. vm_compute. repeat split; reflexivity. Qed.

(* ------------------------------------------------------------------------- *)
(** ** The members attribute *)

Lemma collect_register_all ast ds acc s :
  PrintMembersAttribute_collect ast ds acc s =
  (fold_left insert_id
     (fst (register_all ast (filter (fun d => negb (ignored_member ast d)) ds) s)) acc,
   snd (register_all ast (filter (fun d => negb (ignored_member ast d)) ds) s)).
Proof.
  revert acc s. induction ds as [|d ds IH]; intros acc s; simpl; [reflexivity|].
  destruct (ignored_member ast d); simpl.
  - apply IH.
  - rewrite bind_eq, IH. reflexivity.
Qed.

Lemma print_members_chunks emitted sep s :
  PrintMembersAttribute_print emitted sep s = (tt, with_out (members_chunks emitted sep) s).
Proof.
  revert sep s. induction emitted as [|i rest IH]; intros sep s; simpl.
  - rewrite with_out_nil. reflexivity.
  - rewrite bind_eq, out_with_out. cbn [snd]. rewrite IH, with_out_app. reflexivity.
Qed.

Lemma fold_insert_sorted ids acc :
  StronglySorted Z.lt acc -> StronglySorted Z.lt (fold_left insert_id ids acc).
Proof.
  revert acc. induction ids as [|i ids IH]; intros acc H; simpl; [exact H|].
  apply IH. unfold insert_id. destruct (negb (i =? 0)); [apply set_insert_sorted|]; exact H.
Qed.

Lemma fold_insert_In ids acc x :
  In x (fold_left insert_id ids acc) <-> In x acc \/ (In x ids /\ x <> 0).
Proof.
  revert acc. induction ids as [|i ids IH]; intros acc; simpl; [tauto|].
  rewrite IH. unfold insert_id. destruct (i =? 0) eqn:Hi; simpl.
  - apply Z.eqb_eq in Hi. subst. intuition lia.
  - apply Z.eqb_neq in Hi. rewrite set_insert_In. intuition (subst; auto; lia).
Qed.

Lemma render_members_chunks encodeXML ids sep :
  render encodeXML (members_chunks ids sep) =
  match ids with [] => "" | _ :: _ => (sep ++ members_text ids)%string end.
Proof.
  revert sep. induction ids as [|i rest IH]; intros sep; [reflexivity|].
  cbn [members_chunks render fold_right render_chunk].
  change (fold_right (fun c acc => (render_chunk encodeXML c ++ acc)%string) ""
            (members_chunks rest " ")) with (render encodeXML (members_chunks rest " ")).
  rewrite IH. destruct rest as [|j rest]; simpl; [rewrite append_nil_r|]; reflexivity.
Qed.

Lemma register_all_nonzero ast ds s :
  0 <= NodeCount s -> NodeCount s + Z.of_nat (List.length ds) < 2 ^ 32 ->
  forall i, In i (fst (register_all ast ds s)) -> i <> 0.
Proof.
  revert s. induction ds as [|d ds IH]; intros s H0 H1 i Hi; [destruct Hi|].
  cbn [register_all fst snd List.length] in *. rewrite Nat2Z.inj_succ in H1.
  unfold AddDumpNode_Decl in *. rewrite AddDumpNodeImpl_Register in *.
  assert (H1' : NodeCount s + 1 < 2 ^ 32) by lia.
  destruct (Register_room (KindDecl (getCanonicalDecl ast d)) true s H0 H1') as (Hs & Hn).
  destruct Hi as [<-|Hi].
  - rewrite Register_returns. unfold seen in Hs. apply negb_true_iff, Z.eqb_neq in Hs. exact Hs.
  - apply (IH (snd (Register (KindDecl (getCanonicalDecl ast d)) true s))); [lia|lia|exact Hi].
Qed.

Lemma PrintMembersAttribute_eq ast dc s :
  let r := register_all ast (kept_members ast dc) s in
  PrintMembersAttribute ast dc s =
    (tt, match id_set (fst r) with
         | [] => snd r
         | _ :: _ =>
             with_out (Str (" members=" ++ dq) :: members_chunks (id_set (fst r)) "" ++ [Str dq])
               (snd r)
         end).
Proof.
  cbv zeta. unfold kept_members, id_set.
  unfold PrintMembersAttribute. rewrite bind_eq, collect_register_all.
  cbn [fst snd].
  destruct (fold_left insert_id _ []) as [|i l] eqn:He.
  - reflexivity.
  - rewrite !bind_eq, out_with_out. cbn [snd]. rewrite print_members_chunks. cbn [snd].
    rewrite out_with_out, !with_out_app. cbn [snd]. rewrite !with_out_app. reflexivity.
Qed.

(** What [PrintMembersAttribute] does, in terms of the children that
    its [switch] lets through. *)
Lemma PrintMembersAttribute_kept
  (encodeXML : string -> string) (ast : ASTContext) (dc : DeclContext) (s : ASTVisitor) :
  let kept := kept_members ast dc in
  let r := register_all ast kept s in
  let emitted := id_set (fst r) in
  PrintMembersAttribute ast dc s =
    (tt, match emitted with
         | [] => snd r
         | _ :: _ =>
             with_out (Str (" members=" ++ dq) :: members_chunks emitted "" ++ [Str dq])
               (snd r)
         end) /\
  StronglySorted Z.lt emitted /\
  (forall i, In i emitted <-> In i (fst r) /\ i <> 0) /\
  render encodeXML (members_chunks emitted "") = members_text emitted /\
  (0 <= NodeCount s -> NodeCount s + Z.of_nat (List.length kept) < 2 ^ 32 ->
   forall i, In i emitted <-> In i (fst r)).
Proof.
  cbv zeta. unfold kept_members.
  set (r := register_all ast _ s).
  assert (Hset : id_set (fst r) = fold_left insert_id (fst r) []) by reflexivity.
  split; [|split; [|split; [|split]]].
  - apply PrintMembersAttribute_eq.
  - rewrite Hset. apply fold_insert_sorted. constructor.
  - intros i. rewrite Hset, fold_insert_In. simpl. tauto.
  - rewrite render_members_chunks. destruct (id_set (fst r)); reflexivity.
  - intros H0 H1 i. rewrite Hset, fold_insert_In. simpl. split; [tauto|].
    intros Hi. right. split; [exact Hi|].
    apply (register_all_nonzero ast _ s H0 H1 i Hi).
Qed.

(** The children that the specification has skipped are the injected
    names and the access-specifier markers. *)
Lemma skipped_member_spec (ast : ASTContext) (d : Decl) :
  skipped_member ast d = true <-> injected_name ast d \/ access_marker ast d.
Proof.
  unfold skipped_member, injected_name, access_marker.
  destruct (DeclKind_eq_dec (getKind ast d) CXXRecord) as [E1|E1];
    destruct (DeclKind_eq_dec (getKind ast d) AccessSpec) as [E2|E2];
    rewrite ?orb_true_r, ?orb_false_r; split; intros H;
    try (right; assumption); try reflexivity; try congruence.
  - left. split; assumption.
  - destruct H as [[_ H]|H]; [exact H|congruence].
  - destruct H as [[H _]|H]; contradiction.
Qed.

(** The [switch] of [PrintMembersAttribute] reaches [continue] for the
    children that the specification has skipped, and for no other. *)
Lemma ignored_member_skipped (ast : ASTContext) (d : Decl) :
  ignored_member ast d = skipped_member ast d.
Proof.
  unfold ignored_member, skipped_member.
  destruct (DeclKind_eq_dec (getKind ast d) CXXRecord) as [E1|E1];
    destruct (DeclKind_eq_dec (getKind ast d) AccessSpec) as [E2|E2];
    try congruence.
  - rewrite E1, orb_false_r. reflexivity.
  - rewrite E2. reflexivity.
  - destruct (getKind ast d); try reflexivity; congruence.
Qed.

Lemma listed_members_kept (ast : ASTContext) (dc : DeclContext) :
  listed_members ast dc = kept_members ast dc.
Proof.
  unfold listed_members, kept_members. apply filter_ext.
  intros d. rewrite ignored_member_skipped. reflexivity.
Qed.

(** C7.  The children that [PrintMembersAttribute] lists are the direct
    children of the container, in its order, that are neither the
    injected name of a class (a class declaration for which
    [isInjectedClassName] holds) nor an access-specifier marker; every other
    child is listed, whatever its kind.  [PrintMembersAttribute]
    registers the listed children, in order and each with a full
    completeness request, and writes the ids so obtained as a set, that is
    without repetition and in ascending order whatever order the children
    have, each after an underscore and separated by single spaces, as the
    value of the members attribute.  (An id 0, which only a counter that
    has wrapped can return, is left out; with room in the counter no id
    is 0.) *)
Theorem PrintMembersAttribute_members
  (encodeXML : string -> string) (ast : ASTContext) (dc : DeclContext) (s : ASTVisitor) :
  let listed := listed_members ast dc in
  let r := register_all ast listed s in
  let emitted := id_set (fst r) in
  (forall d, In d listed <->
             In d (decls ast dc) /\ ~ injected_name ast d /\ ~ access_marker ast d) /\
  (forall d, In d (decls ast dc) ->
             getKind ast d <> AccessSpec ->
             (getKind ast d = CXXRecord -> isInjectedClassName ast d = false) ->
             In d listed) /\
  PrintMembersAttribute ast dc s =
    (tt, match emitted with
         | [] => snd r
         | _ :: _ =>
             with_out (Str (" members=" ++ dq) :: members_chunks emitted "" ++ [Str dq])
               (snd r)
         end) /\
  StronglySorted Z.lt emitted /\
  (forall i, In i emitted <-> In i (fst r) /\ i <> 0) /\
  render encodeXML (members_chunks emitted "") = members_text emitted /\
  (0 <= NodeCount s -> NodeCount s + Z.of_nat (List.length listed) < 2 ^ 32 ->
   forall i, In i emitted <-> In i (fst r)).
Proof.
  cbv zeta.
  assert (HL : forall d, In d (listed_members ast dc) <->
             In d (decls ast dc) /\ ~ injected_name ast d /\ ~ access_marker ast d).
  { intros d. unfold listed_members. rewrite filter_In, negb_true_iff.
    pose proof (skipped_member_spec ast d) as Hs.
    destruct (skipped_member ast d).
    - split; [intros [_ H]; discriminate H|].
      intros (_ & H1 & H2). destruct (proj1 Hs eq_refl); contradiction.
    - split; [|intros [H _]; split; [exact H|reflexivity]].
      intros [H _]. split; [exact H|].
      split; intros H'; [assert (X : false = true) by (apply Hs; left; exact H')
                        |assert (X : false = true) by (apply Hs; right; exact H')];
        discriminate X. }
  split; [exact HL|]. split.
  { intros d Hd Ha Hi. apply HL. split; [exact Hd|]. split.
    - intros [Hk Hj]. rewrite (Hi Hk) in Hj. discriminate Hj.
    - exact Ha. }
  destruct (PrintMembersAttribute_kept encodeXML ast dc s) as (H1 & H2 & H3 & H4 & H5).
  cbv zeta in *. rewrite listed_members_kept.
  split; [exact H1|split; [exact H2|split; [exact H3|split; [exact H4|exact H5]]]].
Qed.

(** The members of the class of [members_ast], with its field already
    registered: the injected name and the access specifier are skipped,
    the nested class gets the id 2 for both of its declarations, and the
    field, listed between them, keeps its id 1. *)
Lemma PrintMembersAttribute_members_witness :
  listed_members members_ast 300 = [320; 310; 321] /\
  fst (register_all members_ast (listed_members members_ast 300) members_state) = [2; 1; 2] /\
  OS (snd (PrintMembersAttribute members_ast 300 members_state)) =
    [Str (" members=" ++ dq); Str ""; Str "_"; Num 1; Str " "; Str "_"; Num 2; Str dq] /\
  render (fun x => x)
    (members_chunks
       (id_set (fst (register_all members_ast (listed_members members_ast 300) members_state)))
       "") = "_1 _2" /\
  (forall i, In i (id_set (fst (register_all members_ast (listed_members members_ast 300)
                                  members_state))) <->
             In i [2; 1; 2]).
Proof.
  pose proof (PrintMembersAttribute_members (fun x => x) members_ast 300 members_state) as H.
  cbv zeta in H. destruct H as (_ & _ & H1 & _ & _ & H2 & H3).
  split; [reflexivity|]. split; [reflexivity|].
  split; [rewrite H1; reflexivity|]. split; [rewrite H2; reflexivity|].
  apply H3; vm_compute; [discriminate|reflexivity].
Defined.

(** C10.  When no direct child of the container is kept (each one is the
    injected name of a class or an access specifier, or there is none),
    [PrintMembersAttribute] writes nothing, and leaves the whole state as
    it is. *)
Theorem PrintMembersAttribute_omitted (ast : ASTContext) (dc : DeclContext)
  (s : ASTVisitor) :
  kept_members ast dc = [] ->
  PrintMembersAttribute ast dc s = (tt, s).
Proof.
  intros H. rewrite PrintMembersAttribute_eq. cbv zeta. rewrite H. reflexivity.
Qed.

(** The class at address 300 of [ex_ast] has its injected name and an
    access specifier as only children. *)
Lemma PrintMembersAttribute_omitted_witness :
  PrintMembersAttribute ex_ast 300 ASTVisitor_init = (tt, ASTVisitor_init).
Proof.
  apply (PrintMembersAttribute_omitted ex_ast 300 ASTVisitor_init).
  reflexivity.
Defined.
From Stdlib Require Import ZArith List String Ascii Bool Lia Sorted Permutation.
Import ListNotations.
Local Open Scope string_scope.
Local Open Scope list_scope.
Local Open Scope Z_scope.

(* ------------------------------------------------------------------------- *)
(** ** Start names *)

Lemma substring_length (n m : nat) (s : string) :
  String.length (substring n m s) = Nat.min m (String.length s - n).
Proof.
  revert n m. induction s as [|c s IH]; intros n m.
  - destruct n, m; reflexivity.
  - destruct n as [|n].
    + destruct m as [|m]; [reflexivity|]. simpl. rewrite IH, Nat.sub_0_r. reflexivity.
    + simpl. apply IH.
Qed.

Lemma find_scope_bound (name : string) (pos : nat) :
  find_scope name = Some pos -> (pos + 2 <= String.length name)%nat.
Proof.
  unfold find_scope. intros H. apply index_correct1 in H.
  apply (f_equal String.length) in H. rewrite substring_length in H.
  change (String.length "::") with 2%nat in H. lia.
Qed.

Lemma LookupStart_rec_S ast fuel dc name :
  LookupStart_rec ast (S fuel) dc name =
  match find_scope name with
  | None => for_each (lookup ast dc name) (fun i => AddDumpNode_Decl ast i true ;;; ret tt)
  | Some pos =>
      for_each (lookup ast dc (substring 0 pos name)) (fun i =>
        match dyn_cast_DeclContext ast i with
        | Some idc =>
            LookupStart_rec ast fuel idc
              (substring (pos + 2) (String.length name - (pos + 2)) name)
        | None => ret tt
        end)
  end.
Proof. reflexivity. Qed.

Lemma LookupStart_rec_None ast fuel dc name :
  find_scope name = None ->
  LookupStart_rec ast fuel dc name =
  for_each (lookup ast dc name) (fun i => AddDumpNode_Decl ast i true ;;; ret tt).
Proof. intros H. destruct fuel; simpl; rewrite H; reflexivity. Qed.



Lemma LookupStart_rec_fuel ast (fuel : nat) :
  forall dc name s, (String.length name <= fuel)%nat ->
  LookupStart_rec ast fuel dc name s = LookupStart_rec ast (String.length name) dc name s.
Proof.
  induction fuel as [fuel IH] using lt_wf_ind. intros dc name s Hle.
  destruct (find_scope name) as [pos|] eqn:Hf.
  - pose proof (find_scope_bound name pos Hf) as Hb.
    destruct fuel as [|fuel]; [lia|].
    remember (String.length name) as n eqn:Hlen. destruct n as [|len]; [lia|].
    rewrite !LookupStart_rec_S, Hf. apply for_each_ext. intros i s' _.
    destruct (dyn_cast_DeclContext ast i) as [idc|]; [|reflexivity].
    pose proof (substring_length (pos + 2) (String.length name - (pos + 2)) name) as Hr.
    rewrite (IH fuel) by lia.
    rewrite (IH len) by lia. reflexivity.
  - rewrite !LookupStart_rec_None by exact Hf. reflexivity.
Qed.


Lemma LookupStart_rec_StartSet_rec ast (fuel : nat) :
  forall dc name s,
  LookupStart_rec ast fuel dc name s =
  for_each (StartSet_rec ast fuel dc name)
    (fun i => AddDumpNode_Decl ast i true ;;; ret tt) s.
Proof.
  induction fuel as [|fuel IH]; intros dc name s; simpl;
    destruct (find_scope name) as [pos|]; try reflexivity.
  rewrite for_each_flat_map. apply for_each_ext. intros i s' _.
  destruct (dyn_cast_DeclContext ast i) as [idc|]; [apply IH|reflexivity].
Qed.

Lemma LookupStart_StartSet ast dc name s :
  LookupStart ast dc name s =
  for_each (StartSet ast dc name) (fun i => AddDumpNode_Decl ast i true ;;; ret tt) s.
Proof. apply LookupStart_rec_StartSet_rec. Qed.










Lemma for_each_nil_state {A : Type} (b : A -> M unit) s : for_each [] b s = (tt, s).
Proof. reflexivity. Qed.

Lemma ProcessQueue_empty ast fuel s : Queue s = [] -> ProcessQueue ast fuel s = Some s.
Proof. intros H. destruct fuel; simpl; rewrite H; reflexivity. Qed.



From Stdlib Require Import ZArith List String Ascii Bool Lia Sorted Permutation.
Import ListNotations.
Local Open Scope string_scope.
Local Open Scope list_scope.
Local Open Scope Z_scope.

(* ------------------------------------------------------------------------- *)
(** ** Methods as sequences of events *)

Lemma run_app es1 es2 s : run (es1 ++ es2) s = run es2 (run es1 s).
Proof. unfold run. apply fold_left_app. Qed.

Section Traced.
Variables (PK : QueueEntry -> Prop) (PF : FileEntry -> Prop) (allow : bool).

Lemma traced_refl s : traced PK PF allow s s.
Proof. exists []. split; [reflexivity|constructor]. Qed.

Lemma traced_trans s1 s2 s3 :
  traced PK PF allow s1 s2 -> traced PK PF allow s2 s3 -> traced PK PF allow s1 s3.
Proof.
  intros (es1 & -> & H1) (es2 & -> & H2). exists (es1 ++ es2).
  split; [symmetry; apply run_app|apply Forall_app; split; assumption].
Qed.

Lemma traced_event e s : event_ok PK PF allow e -> traced PK PF allow s (step e s).
Proof. intros H. exists [e]. split; [reflexivity|constructor; [exact H|constructor]]. Qed.

Lemma traced_out cs s :
  block cs -> ids_of cs = [] -> file_ids_of cs = [] ->
  traced PK PF allow s (with_out cs s).
Proof. intros H1 H2 H3. apply (traced_event (EOut cs)). simpl. auto. Qed.

Lemma traced_register k c s :
  PK k -> (c = true -> allow = true) ->
  traced PK PF allow s (snd (AddDumpNodeImpl k c s)).
Proof.
  intros H1 H2. rewrite AddDumpNodeImpl_Register.
  apply (traced_event (ERegister k c)). simpl. auto.
Qed.

Lemma traced_file f s : PF f -> traced PK PF allow s (snd (AddDumpFile f s)).
Proof.
  intros H. rewrite AddDumpFile_RegisterFile. apply (traced_event (ERegisterFile f)). exact H.
Qed.

End Traced.

Lemma event_ok_weaken (PK PK' : QueueEntry -> Prop) (PF PF' : FileEntry -> Prop)
  (allow allow' : bool) e :
  (forall k, PK k -> PK' k) -> (forall f, PF f -> PF' f) ->
  (allow = true -> allow' = true) ->
  event_ok PK PF allow e -> event_ok PK' PF' allow' e.
Proof.
  intros HK HF HA. destruct e as [cs|k c|f]; simpl; [tauto| |apply HF].
  intros (H1 & H2). split; [apply HK; exact H1|]. intros Hc. apply HA, H2, Hc.
Qed.

Lemma traced_weaken (PK PK' : QueueEntry -> Prop) (PF PF' : FileEntry -> Prop)
  (allow allow' : bool) s s' :
  (forall k, PK k -> PK' k) -> (forall f, PF f -> PF' f) ->
  (allow = true -> allow' = true) ->
  traced PK PF allow s s' -> traced PK' PF' allow' s s'.
Proof.
  intros HK HF HA (es & E & H). exists es. split; [exact E|].
  eapply Forall_impl; [|exact H]. intros e. apply event_ok_weaken; assumption.
Qed.

(** Reading through events that request nothing complete. *)
Lemma Register_false_Complete k k' s :
  Complete (deref k' (snd (Register k false s))) = true -> Complete (deref k' s) = true.
Proof.
  destruct (QueueEntry_eq_dec k k') as [<-|Hne].
  - destruct (seen k s) eqn:Hs.
    + destruct (Register_seen k false s Hs) as (_ & -> & _). simpl.
      rewrite orb_false_r. auto.
    + destruct (Register_unseen k false s Hs) as (_ & -> & _). simpl. discriminate.
  - rewrite (Register_other k k' false s Hne). auto.
Qed.

Section Methods.
Variable ast : ASTContext.
Variables (PK : QueueEntry -> Prop) (PF : FileEntry -> Prop) (allow : bool).

Lemma after_out cs s x :
  traced PK PF allow s x ->
  block cs -> ids_of cs = [] -> file_ids_of cs = [] ->
  traced PK PF allow s (with_out cs x).
Proof. intros H H1 H2 H3. eapply traced_trans; [exact H|apply traced_out; assumption]. Qed.

Lemma after_register k c s x :
  traced PK PF allow s x -> PK k -> (c = true -> allow = true) ->
  traced PK PF allow s (snd (Register k c x)).
Proof.
  intros H H1 H2. eapply traced_trans; [exact H|].
  apply (traced_event PK PF allow (ERegister k c)). simpl. auto.
Qed.

Lemma after_file f s x :
  traced PK PF allow s x -> PF f -> traced PK PF allow s (snd (RegisterFile f x)).
Proof.
  intros H H1. eapply traced_trans; [exact H|].
  apply (traced_event PK PF allow (ERegisterFile f)). exact H1.
Qed.

Lemma PrintNameAttribute_traced name s x :
  traced PK PF allow s x ->
  traced PK PF allow s (snd (PrintNameAttribute name x)).
Proof. intros H. apply after_out; [exact H|exact I|reflexivity|reflexivity]. Qed.

Lemma PrintContextAttribute_traced d s x :
  (forall p, dyn_cast_Decl ast (getDeclContext ast d) = Some p ->
             PK (KindDecl (getCanonicalDecl ast p))) ->
  traced PK PF allow s x ->
  traced PK PF allow s (snd (PrintContextAttribute ast d x)).
Proof.
  intros HP H. unfold PrintContextAttribute, GetContextIdRef. rewrite bind_eq.
  destruct (dyn_cast_Decl ast (getDeclContext ast d)) as [p|].
  - unfold AddDumpNode_Decl. rewrite AddDumpNodeImpl_Register.
    assert (H1 : traced PK PF allow s
                   (snd (Register (KindDecl (getCanonicalDecl ast p)) false x)))
      by (apply after_register; [exact H|apply HP; reflexivity|discriminate]).
    destruct (negb (fst (Register (KindDecl (getCanonicalDecl ast p)) false x) =? 0));
      [|exact H1].
    rewrite bind_eq, out_with_out. cbn [snd].
    destruct (isRecord ast (getDeclContext ast d)).
    + destruct (getAccess ast d); rewrite out_with_out; cbn [snd];
        (apply after_out; [|exact I|reflexivity|reflexivity]);
        (apply after_out; [exact H1|exact I|reflexivity|reflexivity]).
    + cbn [ret snd]. apply after_out; [exact H1|exact I|reflexivity|reflexivity].
  - exact H.
Qed.

Lemma PrintTypeAttribute_traced t c s x :
  PK (KindType t) -> PK (KindType (getLocalUnqualifiedType t)) ->
  (c = true -> allow = true) ->
  traced PK PF allow s x ->
  traced PK PF allow s (snd (PrintTypeAttribute t c x)).
Proof.
  intros H1 H2 Hc H. unfold PrintTypeAttribute. rewrite !bind_eq, out_with_out. cbn [snd].
  rewrite PrintTypeIdRef_out. cbv zeta. cbn [snd]. rewrite out_with_out. cbn [snd].
  rewrite GetTypeIdRef_Register. cbv zeta. cbn [snd].
  apply after_out; [|exact I|reflexivity|reflexivity].
  apply after_out; [|exact I|reflexivity|reflexivity].
  assert (H3 : traced PK PF allow s
                 (snd (Register (KindType t) c (with_out [Str (" type=" ++ dq)] x)))).
  { apply after_register; [|exact H1|exact Hc].
    apply after_out; [exact H|exact I|reflexivity|reflexivity]. }
  destruct (hasLocalQualifiers t); [|exact H3].
  apply after_register; [exact H3|exact H2|exact Hc].
Qed.

Lemma PrintLocationAttribute_traced d s x :
  (forall f, getFileEntry ast d = Some f -> PF f) ->
  traced PK PF allow s x ->
  traced PK PF allow s (snd (PrintLocationAttribute ast d x)).
Proof.
  intros HF H. unfold PrintLocationAttribute.
  destruct (negb (locationIsValid ast d)); [exact H|].
  destruct (getFileEntry ast d) as [f|]; [|exact H].
  rewrite bind_eq, out_with_out, AddDumpFile_RegisterFile. cbn [snd].
  apply after_out; [|exact I|reflexivity|reflexivity].
  apply after_file; [exact H|apply HF; reflexivity].
Qed.

Lemma ids_of_app a b : block b -> ids_of (a ++ b) = ids_of a ++ ids_of b.
Proof.
  intros Hb. induction a as [|c a IH]; [reflexivity|].
  destruct a as [|c' a].
  - simpl. destruct c as [x| |]; try reflexivity.
    destruct b as [|[ | |] b]; try reflexivity. destruct Hb.
  - change ((c :: c' :: a) ++ b) with (c :: (c' :: a) ++ b).
    cbn [ids_of]. change ((c' :: a) ++ b) with (c' :: a ++ b) in *.
    destruct c as [x| |]; try exact IH.
    destruct c' as [|n|]; try exact IH.
    destruct (ends_with id_open x); [|exact IH].
    rewrite <- app_comm_cons. f_equal. exact IH.
Qed.

Lemma file_ids_of_app a b : block b -> file_ids_of (a ++ b) = file_ids_of a ++ file_ids_of b.
Proof.
  intros Hb. induction a as [|c a IH]; [reflexivity|].
  destruct a as [|c' a].
  - simpl. destruct c as [x| |]; try reflexivity.
    destruct b as [|[ | |] b]; try reflexivity. destruct Hb.
  - change ((c :: c' :: a) ++ b) with (c :: (c' :: a) ++ b).
    cbn [file_ids_of]. change ((c' :: a) ++ b) with (c' :: a ++ b) in *.
    destruct c as [x| |]; try exact IH.
    destruct c' as [|n|]; try exact IH.
    destruct (String.eqb x file_open); [|exact IH].
    rewrite <- app_comm_cons. f_equal. exact IH.
Qed.

Lemma ids_of_members_chunks ids sep : ids_of (members_chunks ids sep) = [].
Proof.
  revert sep. induction ids as [|i ids IH]; intros sep; simpl; [reflexivity|apply IH].
Qed.

Lemma file_ids_of_members_chunks ids sep : file_ids_of (members_chunks ids sep) = [].
Proof.
  revert sep. induction ids as [|i ids IH]; intros sep; simpl; [reflexivity|apply IH].
Qed.

Lemma register_all_traced ds s x :
  allow = true ->
  (forall y, In y ds -> PK (KindDecl (getCanonicalDecl ast y))) ->
  traced PK PF allow s x ->
  traced PK PF allow s (snd (register_all ast ds x)).
Proof.
  intros Ha. revert x. induction ds as [|d ds IH]; intros x HP H; [exact H|].
  cbn [register_all snd]. apply IH; [intros y Hy; apply HP; right; exact Hy|].
  unfold AddDumpNode_Decl. rewrite AddDumpNodeImpl_Register.
  apply after_register; [exact H|apply HP; left; reflexivity|auto].
Qed.

Lemma PrintMembersAttribute_traced dc s x :
  allow = true ->
  (forall y, In y (decls ast dc) -> PK (KindDecl (getCanonicalDecl ast y))) ->
  traced PK PF allow s x ->
  traced PK PF allow s (snd (PrintMembersAttribute ast dc x)).
Proof.
  intros Ha HP H. rewrite PrintMembersAttribute_eq. cbv zeta. cbn [snd].
  assert (Hr : traced PK PF allow s (snd (register_all ast (kept_members ast dc) x))).
  { apply register_all_traced; [exact Ha| |exact H]. intros y Hy. apply HP.
    unfold kept_members in Hy. apply filter_In in Hy. tauto. }
  destruct (id_set _) as [|i l]; [exact Hr|].
  apply after_out; [exact Hr|exact I| |].
  - change (Str (" members=" ++ dq) :: members_chunks (i :: l) "" ++ [Str dq])
      with ([Str (" members=" ++ dq)] ++ members_chunks (i :: l) "" ++ [Str dq]).
    rewrite ids_of_app by exact I.
    rewrite ids_of_app by exact I. rewrite ids_of_members_chunks. reflexivity.
  - change (Str (" members=" ++ dq) :: members_chunks (i :: l) "" ++ [Str dq])
      with ([Str (" members=" ++ dq)] ++ members_chunks (i :: l) "" ++ [Str dq]).
    rewrite file_ids_of_app by exact I.
    rewrite file_ids_of_app by exact I. rewrite file_ids_of_members_chunks. reflexivity.
Qed.

End Methods.

(* ------------------------------------------------------------------------- *)
(** ** The dispatch of one queue entry *)

Lemma entry_header_block ast qe i : block (entry_header ast qe i).
Proof.
  destruct qe as [d|t]; simpl.
  - destruct (getKind ast d); exact I.
  - destruct (hasLocalQualifiers t); exact I.
Qed.

Lemma entry_header_ids ast qe i :
  ids_of (entry_header ast qe i) = if emitting qe then [i] else [].
Proof.
  destruct qe as [d|t]; simpl.
  - destruct (getKind ast d); reflexivity.
  - destruct (hasLocalQualifiers t); reflexivity.
Qed.

Lemma entry_header_file_ids ast qe i : file_ids_of (entry_header ast qe i) = [].
Proof.
  destruct qe as [d|t]; simpl.
  - destruct (getKind ast d); reflexivity.
  - destruct (hasLocalQualifiers t); reflexivity.
Qed.

Lemma PrintIdAttribute_out dn s :
  PrintIdAttribute dn s = (tt, with_out [Str id_open; Num (Index (deref dn s)); Str dq] s).
Proof. reflexivity. Qed.

Section Dispatch.
Variable ast : ASTContext.

Lemma OutputTranslationUnitDecl_traced d dn s :
  getKind ast d = TranslationUnit ->
  traced (requests ast (KindDecl d)) (file_requests ast (KindDecl d))
    (Complete (deref dn s))
    (with_out (entry_header ast (KindDecl d) (Index (deref dn s))) s)
    (snd (OutputTranslationUnitDecl ast d dn s)).
Proof.
  intros Hk. unfold OutputTranslationUnitDecl, entry_header. rewrite Hk.
  rewrite !bind_eq, !out_with_out. cbn [snd fst gets].
  rewrite PrintIdAttribute_out. cbn [snd]. rewrite !deref_with_out, with_out_app.
  cbn [app]. unfold PrintNameAttribute. rewrite !out_with_out. cbn [snd].
  rewrite ?deref_with_out.
  apply after_out; [|exact I|reflexivity|reflexivity].
  destruct (Complete (deref dn s)) eqn:Hc.
  - apply PrintMembersAttribute_traced; [reflexivity| |].
    + intros y Hy. simpl. right. left. exists y. auto.
    + apply after_out; [apply traced_refl|exact I|reflexivity|reflexivity].
  - cbn [ret snd]. apply after_out; [apply traced_refl|exact I|reflexivity|reflexivity].
Qed.

Lemma PrintContextAttribute_Complete d dn s :
  Complete (deref dn (snd (PrintContextAttribute ast d s))) = true ->
  Complete (deref dn s) = true.
Proof.
  unfold PrintContextAttribute, GetContextIdRef. rewrite bind_eq.
  destruct (dyn_cast_Decl ast (getDeclContext ast d)) as [p|]; [|auto].
  unfold AddDumpNode_Decl. rewrite AddDumpNodeImpl_Register.
  destruct (negb (fst (Register (KindDecl (getCanonicalDecl ast p)) false s) =? 0)).
  - rewrite bind_eq, out_with_out. cbn [snd].
    destruct (isRecord ast (getDeclContext ast d)).
    + destruct (getAccess ast d); rewrite out_with_out; cbn [snd];
        rewrite !deref_with_out; apply Register_false_Complete.
    + cbn [ret snd]. rewrite deref_with_out. apply Register_false_Complete.
  - cbn [ret snd]. apply Register_false_Complete.
Qed.

Lemma OutputNamespaceDecl_traced d dn s :
  getKind ast d = Namespace ->
  traced (requests ast (KindDecl d)) (file_requests ast (KindDecl d))
    (Complete (deref dn s))
    (with_out (entry_header ast (KindDecl d) (Index (deref dn s))) s)
    (snd (OutputNamespaceDecl ast d dn s)).
Proof.
  intros Hk. unfold OutputNamespaceDecl, entry_header. rewrite Hk.
  rewrite !bind_eq, !out_with_out. cbn [snd fst gets].
  rewrite PrintIdAttribute_out. cbn [snd]. rewrite !deref_with_out, with_out_app.
  cbn [app].
  set (s1 := with_out _ s).
  assert (H1 : traced (requests ast (KindDecl d)) (file_requests ast (KindDecl d))
                 (Complete (deref dn s)) s1
                 (snd (PrintContextAttribute ast d (snd (PrintNameAttribute (getName ast d) s1))))).
  { apply PrintContextAttribute_traced.
    - intros p Hp. simpl. left. exists p. auto.
    - apply PrintNameAttribute_traced, traced_refl. }
  apply after_out; [|exact I|reflexivity|reflexivity].
  destruct (Complete (deref dn (snd (PrintContextAttribute ast d _)))) eqn:Hc.
  - apply PrintContextAttribute_Complete in Hc.
    unfold PrintNameAttribute in Hc. rewrite out_with_out in Hc. cbn [snd] in Hc.
    unfold s1 in Hc. rewrite !deref_with_out in Hc.
    apply PrintMembersAttribute_traced; [exact Hc| |exact H1].
    intros y Hy. simpl. right. left. exists y. auto.
  - cbn [ret snd]. exact H1.
Qed.

Lemma OutputTypedefDecl_traced d dn s :
  getKind ast d = Typedef ->
  traced (requests ast (KindDecl d)) (file_requests ast (KindDecl d))
    (Complete (deref dn s))
    (with_out (entry_header ast (KindDecl d) (Index (deref dn s))) s)
    (snd (OutputTypedefDecl ast d dn s)).
Proof.
  intros Hk. unfold OutputTypedefDecl, entry_header. rewrite Hk.
  rewrite !bind_eq, !out_with_out. cbn [snd fst gets].
  rewrite PrintIdAttribute_out. cbn [snd]. rewrite !deref_with_out, with_out_app.
  cbn [app]. unfold PrintNameAttribute. rewrite !out_with_out. cbn [snd].
  rewrite ?deref_with_out.
  apply after_out; [|exact I|reflexivity|reflexivity].
  apply PrintLocationAttribute_traced; [intros f Hf; exact Hf|].
  apply PrintContextAttribute_traced; [intros p Hp; simpl; left; exists p; auto|].
  apply PrintTypeAttribute_traced.
  - simpl. right. right. left. reflexivity.
  - simpl. right. right. right. reflexivity.
  - auto.
  - apply after_out; [apply traced_refl|exact I|reflexivity|reflexivity].
Qed.

Lemma ProcessQueue_entry_traced qe rest s :
  traced (requests ast qe) (file_requests ast qe) (Complete (deref qe s))
    (with_out (entry_header ast qe (Index (deref qe s))) (with_Queue rest s))
    (snd (ProcessQueue_entry ast qe rest s)).
Proof.
  rewrite ProcessQueue_entry_eq.
  rewrite <- (deref_with_Queue qe rest s). generalize (with_Queue rest s). clear s.
  intros s. destruct qe as [d|t].
  - unfold OutputDecl. destruct (getKind ast d) eqn:Hk.
    + apply OutputTranslationUnitDecl_traced, Hk.
    + apply OutputNamespaceDecl_traced, Hk.
    + apply OutputTypedefDecl_traced, Hk.
    + unfold entry_header. rewrite Hk, OutputUnimplementedDecl_out. apply traced_refl.
    + unfold entry_header. rewrite Hk, OutputUnimplementedDecl_out. apply traced_refl.
    + unfold entry_header. rewrite Hk, OutputUnimplementedDecl_out. apply traced_refl.
  - unfold OutputType, entry_header. destruct (hasLocalQualifiers t).
    + unfold OutputCvQualifiedType. cbn [ret snd]. rewrite with_out_nil. apply traced_refl.
    + rewrite OutputUnimplementedType_out. apply traced_refl.
Qed.

End Dispatch.
From Stdlib Require Import ZArith List String Ascii Bool Lia Sorted Permutation.
Import ListNotations.
Local Open Scope string_scope.
Local Open Scope list_scope.
Local Open Scope Z_scope.

(* ------------------------------------------------------------------------- *)
(** ** The node registries under a registration *)

Lemma deref_registered k s n :
  deref k s = n -> registered k s = true ->
  match k with
  | KindDecl d => ZMap.find d (DeclNodes s) = Some n
  | KindType t => ZMap.find t (TypeNodes s) = Some n
  end.
Proof.
  unfold deref, registered. destruct k as [d|t].
  - destruct (ZMap.find d (DeclNodes s)); [intros ->; reflexivity|discriminate].
  - destruct (ZMap.find t (TypeNodes s)); [intros ->; reflexivity|discriminate].
Qed.

Lemma Register_DeclNodes k c s :
  DeclNodes (snd (Register k c s)) =
  match k with
  | KindDecl d => ZMap.add d (deref k (snd (Register k c s))) (DeclNodes s)
  | KindType _ => DeclNodes s
  end.
Proof.
  unfold Register. destruct (seen k s) eqn:Hs.
  - pose proof (seen_registered k s Hs) as Hr.
    destruct (c && negb (Complete (deref k s))); cbn [snd].
    + rewrite deref_with_Queue, deref_with_node_eq. destruct k; reflexivity.
    + destruct k as [d|t]; [|reflexivity].
      symmetry. apply add_find_same. apply (deref_registered (KindDecl d) s _ eq_refl Hr).
  - destruct (c || negb (RequireComplete s)); cbn [snd];
      rewrite ?deref_with_Queue, deref_with_node_eq; destruct k; reflexivity.
Qed.

Lemma Register_TypeNodes k c s :
  TypeNodes (snd (Register k c s)) =
  match k with
  | KindDecl _ => TypeNodes s
  | KindType t => ZMap.add t (deref k (snd (Register k c s))) (TypeNodes s)
  end.
Proof.
  unfold Register. destruct (seen k s) eqn:Hs.
  - pose proof (seen_registered k s Hs) as Hr.
    destruct (c && negb (Complete (deref k s))); cbn [snd].
    + rewrite deref_with_Queue, deref_with_node_eq. destruct k; reflexivity.
    + destruct k as [d|t]; [reflexivity|].
      symmetry. apply add_find_same. apply (deref_registered (KindType t) s _ eq_refl Hr).
  - destruct (c || negb (RequireComplete s)); cbn [snd];
      rewrite ?deref_with_Queue, deref_with_node_eq; destruct k; reflexivity.
Qed.

Lemma registered_Register k c s k' :
  registered k' (snd (Register k c s)) =
  if QueueEntry_eq_dec k k' then true else registered k' s.
Proof.
  unfold registered at 1. rewrite Register_DeclNodes, Register_TypeNodes.
  destruct (QueueEntry_eq_dec k k') as [<-|Hne].
  - destruct k; rewrite find_add_eq; reflexivity.
  - destruct k as [d|t], k' as [d'|t']; try reflexivity;
      rewrite find_add_neq by congruence; reflexivity.
Qed.

Lemma registered_keys k s :
  ZMap.sorted (DeclNodes s) -> ZMap.sorted (TypeNodes s) ->
  (registered k s = true <->
   match k with
   | KindDecl d => In d (ZMap.keys (DeclNodes s))
   | KindType t => In t (ZMap.keys (TypeNodes s))
   end).
Proof.
  intros Hd Ht. unfold registered. destruct k as [d|t].
  - destruct (ZMap.find d (DeclNodes s)) eqn:Hf.
    + split; [intros _|reflexivity].
      destruct (in_dec Z.eq_dec d (ZMap.keys (DeclNodes s))) as [Hi|Hn]; [exact Hi|].
      apply (find_None_not_in d _ Hd) in Hn. congruence.
    + split; [discriminate|]. intros Hi. apply (find_None_not_in d _ Hd) in Hf. tauto.
  - destruct (ZMap.find t (TypeNodes s)) eqn:Hf.
    + split; [intros _|reflexivity].
      destruct (in_dec Z.eq_dec t (ZMap.keys (TypeNodes s))) as [Hi|Hn]; [exact Hi|].
      apply (find_None_not_in t _ Ht) in Hn. congruence.
    + split; [discriminate|]. intros Hi. apply (find_None_not_in t _ Ht) in Hf. tauto.
Qed.

Lemma registered_length k c s :
  (List.length (DeclNodes (snd (Register k c s))) +
   List.length (TypeNodes (snd (Register k c s))))%nat =
  (List.length (DeclNodes s) + List.length (TypeNodes s) +
   (if registered k s then 0 else 1))%nat.
Proof.
  rewrite Register_DeclNodes, Register_TypeNodes. unfold registered.
  destruct k as [d|t].
  - destruct (ZMap.find d (DeclNodes s)) eqn:Hf.
    + rewrite (length_add_found _ _ _ _ Hf). lia.
    + rewrite (length_add_new _ _ _ Hf). lia.
  - destruct (ZMap.find t (TypeNodes s)) eqn:Hf.
    + rewrite (length_add_found _ _ _ _ Hf). lia.
    + rewrite (length_add_new _ _ _ Hf). lia.
Qed.

Section Universe.
Variables D T : list Z.
Hypothesis room : Z.of_nat (List.length D + List.length T) < 2 ^ 32 - 1.

Lemma NodeInv_seen s k : NodeInv D T s -> seen k s = registered k s.
Proof.
  intros HI. destruct (registered k s) eqn:Hr.
  - pose proof (inv_index D T s HI k Hr). unfold seen. apply negb_true_iff, Z.eqb_neq. lia.
  - destruct (seen k s) eqn:Hs; [|reflexivity].
    apply seen_registered in Hs. congruence.
Qed.

Lemma NodeInv_room s : NodeInv D T s -> 0 <= NodeCount s /\ NodeCount s + 1 < 2 ^ 32.
Proof.
  intros HI. rewrite (inv_count D T s HI).
  assert (Hd : (List.length (DeclNodes s) <= List.length D)%nat).
  { rewrite <- (length_map fst (DeclNodes s)). apply NoDup_incl_length.
    - apply (sorted_NoDup (DeclNodes s)), (inv_sorted_decl D T s HI).
    - intros d Hd. apply (inv_universe D T s HI (KindDecl d)).
      apply registered_keys; [apply HI|apply HI|exact Hd]. }
  assert (Ht : (List.length (TypeNodes s) <= List.length T)%nat).
  { rewrite <- (length_map fst (TypeNodes s)). apply NoDup_incl_length.
    - apply (sorted_NoDup (TypeNodes s)), (inv_sorted_type D T s HI).
    - intros t Ht. apply (inv_universe D T s HI (KindType t)).
      apply registered_keys; [apply HI|apply HI|exact Ht]. }
  lia.
Qed.

(** What a registration does to a well-formed state. *)
Lemma Register_NodeInv_cases k c s :
  NodeInv D T s ->
  let s' := snd (Register k c s) in
  (registered k s = true /\ NodeCount s' = NodeCount s /\
   Index (deref k s') = Index (deref k s) /\
   Complete (deref k s') = Complete (deref k s) || c /\
   Queue s' = Queue s ++ (if c && negb (Complete (deref k s)) then [k] else [])) \/
  (registered k s = false /\ NodeCount s' = NodeCount s + 1 /\
   Index (deref k s') = NodeCount s + 1 /\
   Complete (deref k s') = c /\
   Queue s' = Queue s ++ (if c || negb (RequireComplete s) then [k] else [])).
Proof.
  intros HI. cbv zeta. pose proof (NodeInv_seen s k HI) as Hs.
  destruct (NodeInv_room s HI) as (H0 & H1).
  destruct (registered k s) eqn:Hr.
  - left. destruct (Register_seen k c s Hs) as (_ & Hd & Hn & Hq).
    rewrite Hd, Hn, Hq. simpl. auto.
  - right. destruct (Register_unseen k c s Hs) as (_ & Hd & Hn & Hq).
    rewrite Hd, Hn, Hq. unfold wrap32. rewrite Z.mod_small by lia. simpl. auto.
Qed.

Lemma Register_NodeInv k c s :
  NodeInv D T s -> in_universe D T k -> NodeInv D T (snd (Register k c s)).
Proof.
  intros HI Hk. pose proof (Register_NodeInv_cases k c s HI) as Hc. cbv zeta in Hc.
  set (s' := snd (Register k c s)) in *.
  assert (Hreg : forall k', registered k' s' = true -> k' = k \/ (k' <> k /\ registered k' s = true)).
  { intros k' H. unfold s' in H. rewrite registered_Register in H.
    destruct (QueueEntry_eq_dec k k') as [->|Hne]; [left; reflexivity|right; split; congruence]. }
  assert (Hother : forall k', k' <> k -> deref k' s' = deref k' s).
  { intros k' Hne. apply Register_other. congruence. }
  assert (Hcount : NodeCount s' =
                   NodeCount s + (if registered k s then 0 else 1)).
  { destruct Hc as [(-> & -> & _)|(-> & -> & _)]; lia. }
  assert (Hidx : 1 <= Index (deref k s') <= NodeCount s').
  { destruct Hc as [(Hr & -> & -> & _)|(Hr & -> & -> & _)].
    - apply (inv_index D T s HI k Hr).
    - destruct (NodeInv_room s HI). lia. }
  constructor.
  - unfold s'. rewrite Register_DeclNodes. destruct k; [apply sorted_add|]; apply HI.
  - unfold s'. rewrite Register_TypeNodes. destruct k; [|apply sorted_add]; apply HI.
  - intros k' H. apply Hreg in H. destruct H as [->|(_ & H)]; [exact Hk|].
    apply (inv_universe D T s HI k' H).
  - unfold s'. rewrite registered_length. fold s'. rewrite Hcount, (inv_count D T s HI).
    destruct (registered k s); lia.
  - intros k' H. apply Hreg in H. destruct H as [->|(Hne & H)]; [exact Hidx|].
    rewrite (Hother k' Hne). pose proof (inv_index D T s HI k' H).
    destruct (registered k s); lia.
  - intros k1 k2 H1 H2 E. apply Hreg in H1, H2.
    assert (Hfresh : forall k', k' <> k -> registered k' s = true ->
                     Index (deref k' s) = Index (deref k s') -> k' = k).
    { intros k' Hne Hr' E'. destruct Hc as [(Hr & _ & Hi & _)|(Hr & _ & Hi & _)].
      - rewrite Hi in E'. apply (inv_inj D T s HI k' k Hr' Hr E').
      - rewrite Hi in E'. pose proof (inv_index D T s HI k' Hr'). lia. }
    destruct H1 as [->|(N1 & H1)], H2 as [->|(N2 & H2)].
    + reflexivity.
    + rewrite (Hother k2 N2) in E. symmetry. apply Hfresh; auto.
    + rewrite (Hother k1 N1) in E. apply Hfresh; auto.
    + rewrite (Hother k1 N1), (Hother k2 N2) in E. apply (inv_inj D T s HI k1 k2 H1 H2 E).
  - intros k' Hin. unfold s'. rewrite registered_Register.
    destruct (QueueEntry_eq_dec k k') as [|Hne]; [reflexivity|].
    apply (inv_queue D T s HI).
    assert (Hq : exists l, Queue s' = Queue s ++ l /\ forall x, In x l -> x = k).
    { destruct Hc as [(_ & _ & _ & _ & ->)|(_ & _ & _ & _ & ->)].
      - eexists. split; [reflexivity|]. intros x Hx.
        destruct (c && negb (Complete (deref k s))); [destruct Hx as [<-|[]]; auto|destruct Hx].
      - eexists. split; [reflexivity|]. intros x Hx.
        destruct (c || negb (RequireComplete s)); [destruct Hx as [<-|[]]; auto|destruct Hx]. }
    destruct Hq as (l & Hq & Hl). fold s' in Hin. rewrite Hq in Hin.
    apply in_app_or in Hin. destruct Hin as [Hin|Hin]; [exact Hin|].
    apply Hl in Hin. congruence.
Qed.

End Universe.

(* ------------------------------------------------------------------------- *)
(** ** The work left, under a registration *)

Lemma list_sum_le {A : Type} (f g : A -> nat) (l : list A) :
  (forall x, In x l -> (g x <= f x)%nat) ->
  (list_sum (map g l) <= list_sum (map f l))%nat.
Proof.
  induction l as [|x l IH]; intros H; simpl; [lia|].
  pose proof (H x (or_introl eq_refl)).
  assert ((list_sum (map g l) <= list_sum (map f l))%nat)
    by (apply IH; intros y Hy; apply H; right; exact Hy).
  lia.
Qed.

Lemma list_sum_lt {A : Type} (f g : A -> nat) (l : list A) (k : A) (n : nat) :
  (forall x, In x l -> (g x <= f x)%nat) ->
  In k l -> (g k + n <= f k)%nat ->
  (list_sum (map g l) + n <= list_sum (map f l))%nat.
Proof.
  induction l as [|x l IH]; intros H Hk Hn; [destruct Hk|].
  simpl. destruct Hk as [->|Hk].
  - assert ((list_sum (map g l) <= list_sum (map f l))%nat)
      by (apply list_sum_le; intros y Hy; apply H; right; exact Hy).
    lia.
  - pose proof (H x (or_introl eq_refl)).
    assert ((list_sum (map g l) + n <= list_sum (map f l))%nat)
      by (apply IH; [intros y Hy; apply H; right; exact Hy|exact Hk|exact Hn]).
    lia.
Qed.

Lemma in_universe_In D T k : in_universe D T k -> In k (universe D T).
Proof.
  unfold universe. destruct k as [d|t]; simpl; intros H; apply in_or_app.
  - left. apply in_map. exact H.
  - right. apply in_map. exact H.
Qed.

Section Work.
Variables D T : list Z.
Hypothesis room : Z.of_nat (List.length D + List.length T) < 2 ^ 32 - 1.

Lemma Register_pending_work k c s :
  NodeInv D T s -> in_universe D T k ->
  (pending_work D T (snd (Register k c s)) <= pending_work D T s)%nat.
Proof.
  intros HI Hk. pose proof (Register_NodeInv_cases D T room k c s HI) as Hc.
  cbv zeta in Hc. set (s' := snd (Register k c s)) in *.
  assert (Hw : forall k', k' <> k -> weight s' k' = weight s k').
  { intros k' Hne. unfold weight, s'. rewrite registered_Register.
    destruct (QueueEntry_eq_dec k k') as [|_]; [congruence|].
    rewrite Register_other by congruence. reflexivity. }
  assert (Hr' : registered k s' = true).
  { unfold s'. rewrite registered_Register.
    destruct (QueueEntry_eq_dec k k); [reflexivity|congruence]. }
  unfold pending_work.
  assert (Hex : exists n : nat,
             List.length (Queue s') = (List.length (Queue s) + n)%nat /\
             (weight s' k + n <= weight s k)%nat).
  { unfold weight. rewrite Hr'.
    destruct Hc as [(Hr & _ & _ & Hcm & Hq)|(Hr & _ & _ & Hcm & Hq)];
      rewrite Hr, Hcm, Hq, length_app.
    - destruct (Complete (deref k s)), c; simpl; eexists; split; try reflexivity; simpl; lia.
    - destruct c, (RequireComplete s); simpl; eexists; split; try reflexivity; simpl; lia. }
  destruct Hex as (n & Hq & Hn). rewrite Hq.
  assert ((list_sum (map (weight s') (universe D T)) + n <=
           list_sum (map (weight s) (universe D T)))%nat).
  { apply (list_sum_lt (weight s) (weight s') (universe D T) k n).
    - intros x _. destruct (QueueEntry_eq_dec x k) as [->|Hne]; [lia|].
      rewrite (Hw x Hne). lia.
    - apply in_universe_In, Hk.
    - exact Hn. }
  lia.
Qed.

End Work.

(* ------------------------------------------------------------------------- *)
(** ** The emitted ids, under a registration *)

Lemma count_occ_app_single (l : list QueueEntry) (k x : QueueEntry) :
  count_occ QueueEntry_eq_dec (l ++ [k]) x =
  (count_occ QueueEntry_eq_dec l x + if QueueEntry_eq_dec k x then 1 else 0)%nat.
Proof.
  rewrite count_occ_app. simpl. destruct (QueueEntry_eq_dec k x); reflexivity.
Qed.

Section Emit.
Variables D T : list Z.
Hypothesis room : Z.of_nat (List.length D + List.length T) < 2 ^ 32 - 1.

Lemma Register_EmitInv k c s :
  NodeInv D T s -> EmitInv s -> in_universe D T k ->
  (c = true -> RequireComplete s = true) ->
  EmitInv (snd (Register k c s)).
Proof.
  intros HI HE Hk Hallow.
  pose proof (Register_NodeInv_cases D T room k c s HI) as Hc. cbv zeta in Hc.
  destruct (Register_frame k c s) as (HOS & _ & _ & _ & HRC). cbv zeta in HOS, HRC.
  set (s' := snd (Register k c s)) in *.
  assert (Hother : forall k', k' <> k -> deref k' s' = deref k' s)
    by (intros k' Hne; apply Register_other; congruence).
  assert (Hreg : forall k', registered k' s' = true ->
                            k' = k \/ (k' <> k /\ registered k' s = true)).
  { intros k' H. unfold s' in H. rewrite registered_Register in H.
    destruct (QueueEntry_eq_dec k k') as [->|Hne]; [left; reflexivity|right; split; congruence]. }
  assert (Hq0 : registered k s = false -> count_occ QueueEntry_eq_dec (Queue s) k = 0%nat).
  { intros Hr. apply count_occ_not_In. intros Hin.
    apply (inv_queue D T s HI) in Hin. congruence. }
  constructor.
  - intros i Hi. rewrite HOS in Hi. pose proof (emit_bound s HE i Hi).
    destruct Hc as [(_ & -> & _)|(_ & -> & _)]; lia.
  - intros k' Hr' He'. rewrite HOS, HRC. apply Hreg in Hr'.
    destruct Hr' as [->|(Hne & Hr')].
    + destruct Hc as [(Hr & _ & Hi & Hcm & Hq)|(Hr & _ & Hi & Hcm & Hq)];
        rewrite Hi, Hcm, Hq.
      * pose proof (emit_once s HE k Hr He') as E.
        destruct (Complete (deref k s)) eqn:Hcs, c; simpl;
          rewrite ?app_nil_r, ?count_occ_app_single; try exact E.
        rewrite (Hallow eq_refl) in *.
        destruct (QueueEntry_eq_dec k k); [lia|congruence].
      * assert (Hids : count_occ Z.eq_dec (ids_of (OS s)) (NodeCount s + 1) = 0%nat).
        { apply count_occ_not_In. intros Hin. pose proof (emit_bound s HE _ Hin). lia. }
        rewrite Hids, Nat.add_0_r.
        destruct c; simpl.
        -- rewrite count_occ_app_single, (Hq0 Hr), (Hallow eq_refl).
           destruct (QueueEntry_eq_dec k k); [reflexivity|congruence].
        -- destruct (RequireComplete s); simpl.
           ++ rewrite app_nil_r. apply Hq0, Hr.
           ++ rewrite count_occ_app_single, (Hq0 Hr).
              destruct (QueueEntry_eq_dec k k); [reflexivity|congruence].
    + rewrite (Hother k' Hne).
      assert (Hq : count_occ QueueEntry_eq_dec (Queue s') k' =
                   count_occ QueueEntry_eq_dec (Queue s) k').
      { destruct Hc as [(_ & _ & _ & _ & ->)|(_ & _ & _ & _ & ->)].
        - destruct (c && negb (Complete (deref k s))); rewrite ?app_nil_r; [|reflexivity].
          rewrite count_occ_app_single.
          destruct (QueueEntry_eq_dec k k'); [congruence|lia].
        - destruct (c || negb (RequireComplete s)); rewrite ?app_nil_r; [|reflexivity].
          rewrite count_occ_app_single.
          destruct (QueueEntry_eq_dec k k'); [congruence|lia]. }
      rewrite Hq. apply (emit_once s HE k' Hr' He').
  - rewrite HRC. intros k' Hin.
    assert (Hq : exists l, Queue s' = Queue s ++ l /\
                 forall x, In x l -> x = k /\ Complete (deref k s') = RequireComplete s).
    { destruct Hc as [(_ & _ & _ & Hcm & ->)|(_ & _ & _ & Hcm & ->)]; rewrite Hcm.
      - eexists. split; [reflexivity|]. intros x Hx.
        destruct c, (Complete (deref k s)); simpl in Hx; try tauto.
        destruct Hx as [<-|[]]. split; [reflexivity|]. rewrite Hallow; reflexivity.
      - eexists. split; [reflexivity|]. intros x Hx.
        destruct c; simpl in Hx.
        + destruct Hx as [<-|[]]. split; [reflexivity|]. rewrite Hallow; reflexivity.
        + destruct (RequireComplete s); simpl in Hx; [tauto|].
          destruct Hx as [<-|[]]. split; reflexivity. }
    destruct Hq as (l & Hq & Hl). rewrite Hq in Hin.
    apply in_app_or in Hin. destruct Hin as [Hin|Hin].
    + pose proof (emit_complete s HE k' Hin) as Hk'.
      destruct (QueueEntry_eq_dec k' k) as [->|Hne]; [|rewrite (Hother k' Hne); exact Hk'].
      destruct Hc as [(_ & _ & _ & Hcm & _)|(Hr & _)].
      * rewrite Hcm, Hk'. destruct c; [|apply orb_false_r].
        rewrite Hallow by reflexivity. apply orb_true_r.
      * apply (inv_queue D T s HI) in Hin. congruence.
    + apply Hl in Hin. destruct Hin as (-> & Hin). exact Hin.
Qed.

End Emit.
From Stdlib Require Import ZArith List String Ascii Bool Lia Sorted Permutation.
Import ListNotations.
Local Open Scope string_scope.
Local Open Scope list_scope.
Local Open Scope Z_scope.

(* ------------------------------------------------------------------------- *)
(** ** What every event keeps *)

Lemma block_app a b : block a -> block b -> block (a ++ b).
Proof. destruct a as [|[ | | ] a]; simpl; auto. Qed.

Lemma Stable_refl s : Stable s s.
Proof.
  constructor; auto.
  - exists []. rewrite app_nil_r. repeat split; reflexivity.
  - exists []. rewrite app_nil_r. reflexivity.
Qed.

Lemma Stable_trans s1 s2 s3 : Stable s1 s2 -> Stable s2 s3 -> Stable s1 s3.
Proof.
  intros H1 H2. constructor.
  - rewrite (st_rc _ _ H2). apply (st_rc _ _ H1).
  - destruct (st_os _ _ H1) as (b1 & E1 & B1 & I1 & F1).
    destruct (st_os _ _ H2) as (b2 & E2 & B2 & I2 & F2).
    exists (b1 ++ b2). rewrite E2, E1, app_assoc. split; [reflexivity|].
    split; [apply block_app; assumption|].
    rewrite ids_of_app, file_ids_of_app, I1, I2, F1, F2 by assumption. auto.
  - intros k Hk. destruct (st_seen _ _ H1 k Hk) as (S2 & E2).
    destruct (st_seen _ _ H2 k S2) as (S3 & E3). split; [exact S3|congruence].
  - destruct (st_queue _ _ H1) as (p1 & E1). destruct (st_queue _ _ H2) as (p2 & E2).
    exists (p1 ++ p2). rewrite E2, E1, app_assoc. reflexivity.
Qed.

Lemma RegisterFile_frame f s :
  let s' := snd (RegisterFile f s) in
  OS s' = OS s /\ NodeCount s' = NodeCount s /\ DeclNodes s' = DeclNodes s /\
  TypeNodes s' = TypeNodes s /\ Queue s' = Queue s /\
  RequireComplete s' = RequireComplete s.
Proof.
  unfold RegisterFile. destruct (file_index f s =? 0); simpl; repeat split; reflexivity.
Qed.

Lemma deref_RegisterFile k f s : deref k (snd (RegisterFile f s)) = deref k s.
Proof.
  destruct (RegisterFile_frame f s) as (_ & _ & Hd & Ht & _). cbv zeta in Hd, Ht.
  unfold deref. rewrite Hd, Ht. reflexivity.
Qed.

Lemma registered_RegisterFile k f s : registered k (snd (RegisterFile f s)) = registered k s.
Proof.
  destruct (RegisterFile_frame f s) as (_ & _ & Hd & Ht & _). cbv zeta in Hd, Ht.
  unfold registered. rewrite Hd, Ht. reflexivity.
Qed.

Lemma registered_with_out k cs s : registered k (with_out cs s) = registered k s.
Proof. destruct k; reflexivity. Qed.

Lemma registered_with_Queue k q s : registered k (with_Queue q s) = registered k s.
Proof. destruct k; reflexivity. Qed.

Lemma step_Stable PK PF allow e s : event_ok PK PF allow e -> Stable s (step e s).
Proof.
  intros He. destruct e as [cs|k c|f]; cbn [step].
  - destruct He as (B & I & F). constructor.
    + reflexivity.
    + exists cs. rewrite OS_with_out. auto.
    + intros k Hk. unfold seen in *. rewrite deref_with_out. auto.
    + exists []. rewrite app_nil_r. reflexivity.
  - destruct (Register_frame k c s) as (HOS & _ & _ & _ & HRC). constructor.
    + exact HRC.
    + exists []. rewrite app_nil_r. cbv zeta in HOS. rewrite HOS. repeat split; reflexivity.
    + intros k' Hk'. destruct (Register_stable k c s k' Hk') as (H1 & H2 & _). auto.
    + destruct (seen k s) eqn:Hs.
      * destruct (Register_seen k c s Hs) as (_ & _ & _ & ->). eexists. reflexivity.
      * destruct (Register_unseen k c s Hs) as (_ & _ & _ & ->). eexists. reflexivity.
  - destruct (RegisterFile_frame f s) as (HOS & _ & _ & _ & HQ & HRC). constructor.
    + exact HRC.
    + exists []. rewrite app_nil_r. cbv zeta in HOS. rewrite HOS. repeat split; reflexivity.
    + intros k Hk. unfold seen in *. rewrite deref_RegisterFile. auto.
    + exists []. rewrite app_nil_r. exact HQ.
Qed.

Lemma traced_Stable PK PF allow s s' : traced PK PF allow s s' -> Stable s s'.
Proof.
  intros (es & -> & H). revert s. induction H as [|e es He _ IH]; intros s.
  - apply Stable_refl.
  - cbn [run fold_left]. eapply Stable_trans; [apply (step_Stable PK PF allow e s He)|apply IH].
Qed.

(* ------------------------------------------------------------------------- *)
(** ** The file registry *)

Lemma FileInv_same F s s' :
  FileNodes s' = FileNodes s -> FileCount s' = FileCount s ->
  FileQueue s' = FileQueue s -> FileInv F s -> FileInv F s'.
Proof.
  intros H1 H2 H3 HI. constructor; unfold file_index; rewrite ?H1, ?H2, ?H3; apply HI.
Qed.

Section Files.
Variable F : list Z.
Hypothesis room : Z.of_nat (List.length F) < 2 ^ 32 - 1.

Lemma RegisterFile_FileInv f s :
  FileInv F s -> In f F -> FileInv F (snd (RegisterFile f s)).
Proof.
  intros HI Hf. unfold RegisterFile.
  destruct (file_index f s =? 0) eqn:Hz; [|exact HI].
  apply Z.eqb_eq in Hz. cbn [snd].
  assert (Hnot : ~ In f (ZMap.keys (FileNodes s))).
  { intros Hin. apply (finv_index F s HI f Hin). exact Hz. }
  assert (Hnone : ZMap.find f (FileNodes s) = None)
    by (apply (find_None_not_in f _ (finv_sorted F s HI)); exact Hnot).
  assert (Hlen : (List.length (FileNodes s) <= List.length F)%nat).
  { rewrite <- (length_map fst (FileNodes s)). apply NoDup_incl_length.
    - apply (sorted_NoDup (FileNodes s)), (finv_sorted F s HI).
    - intros x Hx. apply (finv_universe F s HI x Hx). }
  assert (Hw : wrap32 (FileCount s + 1) = Z.of_nat (S (List.length (FileNodes s)))).
  { unfold wrap32. rewrite (finv_count F s HI), Z.mod_small by lia. lia. }
  constructor; cbn [FileNodes FileCount FileQueue].
  - apply sorted_add, HI.
  - intros x Hx. apply in_keys_add in Hx. destruct Hx as [->|Hx]; [exact Hf|].
    apply (finv_universe F s HI x Hx).
  - rewrite (length_add_new _ _ _ Hnone). exact Hw.
  - intros x Hx. unfold file_index. cbn [FileNodes].
    destruct (Z.eq_dec f x) as [->|Hne].
    + rewrite find_add_eq, Hw. lia.
    + rewrite (find_add_neq _ _ _ _ Hne). apply in_keys_add in Hx.
      destruct Hx as [->|Hx]; [congruence|]. apply (finv_index F s HI x Hx).
  - rewrite map_app, (length_add_new _ _ _ Hnone), seq_S, map_app. f_equal.
    + rewrite <- (finv_queue F s HI). apply map_ext_in. intros x Hx.
      unfold file_index. cbn [FileNodes].
      destruct (Z.eq_dec f x) as [->|Hne]; [|rewrite (find_add_neq _ _ _ _ Hne); reflexivity].
      exfalso. apply (in_map (fun f => file_index f s)) in Hx.
      rewrite (finv_queue F s HI), Hz in Hx. apply in_map_iff in Hx.
      destruct Hx as (n & Hn & Hin). apply in_seq in Hin. lia.
    + cbn [map]. unfold file_index. cbn [FileNodes]. rewrite find_add_eq, Hw.
      repeat f_equal; lia.
Qed.

End Files.

(* ------------------------------------------------------------------------- *)
(** ** The invariants under the events of a method *)

Lemma NodeInv_same D T s s' :
  DeclNodes s' = DeclNodes s -> TypeNodes s' = TypeNodes s ->
  NodeCount s' = NodeCount s -> (forall k, In k (Queue s') -> In k (Queue s)) ->
  NodeInv D T s -> NodeInv D T s'.
Proof.
  intros H1 H2 H3 H4 HI.
  assert (Hr : forall k, registered k s' = registered k s)
    by (intros k; unfold registered; rewrite H1, H2; reflexivity).
  assert (Hd : forall k, deref k s' = deref k s)
    by (intros k; unfold deref; rewrite H1, H2; reflexivity).
  constructor; rewrite ?H1, ?H2, ?H3.
  - apply HI.
  - apply HI.
  - intros k. rewrite Hr. apply HI.
  - apply HI.
  - intros k. rewrite Hr, Hd. apply HI.
  - intros k k'. rewrite !Hr, !Hd. apply HI.
  - intros k Hk. rewrite Hr. apply (inv_queue D T s HI), H4, Hk.
Qed.

Lemma pending_work_same D T s s' :
  DeclNodes s' = DeclNodes s -> TypeNodes s' = TypeNodes s ->
  Queue s' = Queue s -> pending_work D T s' = pending_work D T s.
Proof.
  intros H1 H2 H3. unfold pending_work. rewrite H3. f_equal. f_equal.
  apply map_ext. intros k. unfold weight, registered, deref. rewrite H1, H2. reflexivity.
Qed.

Lemma EmitInv_same s s' :
  DeclNodes s' = DeclNodes s -> TypeNodes s' = TypeNodes s ->
  NodeCount s' = NodeCount s -> Queue s' = Queue s ->
  RequireComplete s' = RequireComplete s -> ids_of (OS s') = ids_of (OS s) ->
  EmitInv s -> EmitInv s'.
Proof.
  intros H1 H2 H3 H4 H5 H6 HE.
  assert (Hr : forall k, registered k s' = registered k s)
    by (intros k; unfold registered; rewrite H1, H2; reflexivity).
  assert (Hd : forall k, deref k s' = deref k s)
    by (intros k; unfold deref; rewrite H1, H2; reflexivity).
  constructor; rewrite ?H3, ?H4, ?H5, ?H6.
  - apply HE.
  - intros k. rewrite Hr, Hd. apply HE.
  - intros k. rewrite Hd. apply HE.
Qed.

Section Events.
Variables D T F : list Z.
Hypothesis node_room : Z.of_nat (List.length D + List.length T) < 2 ^ 32 - 1.
Hypothesis file_room : Z.of_nat (List.length F) < 2 ^ 32 - 1.

Lemma step_DumpInv allow e s :
  DumpInv D T F s ->
  event_ok (in_universe D T) (fun f => In f F) allow e ->
  (allow = true -> RequireComplete s = true) ->
  DumpInv D T F (step e s) /\
  (pending_work D T (step e s) <= pending_work D T s)%nat.
Proof.
  intros [HN HF HE] He Ha. destruct e as [cs|k c|f]; cbn [step].
  - destruct He as (B & I & Fi).
    split; [|rewrite (pending_work_same D T s (with_out cs s)); reflexivity].
    constructor.
    + apply (NodeInv_same D T s); auto.
    + apply (FileInv_same F s); auto.
    + apply (EmitInv_same s); auto. rewrite OS_with_out, ids_of_app, I, app_nil_r by exact B.
      reflexivity.
  - destruct He as (Hk & Hc).
    destruct (Register_frame k c s) as (_ & H2 & H3 & H4 & _). cbv zeta in H2, H3, H4.
    split; [|apply Register_pending_work; assumption].
    constructor.
    + apply Register_NodeInv; assumption.
    + apply (FileInv_same F s); auto.
    + apply (Register_EmitInv D T node_room); auto.
  - destruct (RegisterFile_frame f s) as (H1 & H2 & H3 & H4 & H5 & H6).
    cbv zeta in H1, H2, H3, H4, H5, H6.
    split; [|rewrite (pending_work_same D T s (snd (RegisterFile f s))) by assumption;
              reflexivity].
    constructor.
    + apply (NodeInv_same D T s); auto. rewrite H5. auto.
    + apply RegisterFile_FileInv; assumption.
    + apply (EmitInv_same s); auto. rewrite H1. reflexivity.
Qed.

Lemma run_DumpInv allow es s :
  DumpInv D T F s ->
  Forall (event_ok (in_universe D T) (fun f => In f F) allow) es ->
  (allow = true -> RequireComplete s = true) ->
  DumpInv D T F (run es s) /\
  (pending_work D T (run es s) <= pending_work D T s)%nat.
Proof.
  intros HI H. revert s HI. induction H as [|e es He _ IH]; intros s HI Ha.
  - split; [exact HI|reflexivity].
  - cbn [run fold_left]. destruct (step_DumpInv allow e s HI He Ha) as (H1 & H2).
    destruct (IH (step e s) H1) as (H3 & H4).
    + intros A. rewrite (st_rc _ _ (step_Stable _ _ _ e s He)). apply Ha, A.
    + split; [exact H3|]. unfold run in H4. lia.
Qed.

End Events.
From Stdlib Require Import ZArith List String Ascii Bool Lia Sorted Permutation.
Import ListNotations.
Local Open Scope string_scope.
Local Open Scope list_scope.
Local Open Scope Z_scope.

(* ------------------------------------------------------------------------- *)
(** ** One iteration of [ProcessQueue] *)

Lemma ProcessQueue_invariant ast (P : ASTVisitor -> Prop) :
  (forall s qe rest, P s -> Queue s = qe :: rest ->
                     P (snd (ProcessQueue_entry ast qe rest s))) ->
  forall fuel s s', P s -> ProcessQueue ast fuel s = Some s' -> P s' /\ Queue s' = [].
Proof.
  intros Hstep. induction fuel as [|fuel IH]; intros s s' HP H; simpl in H.
  - destruct (Queue s) eqn:HQ; [|discriminate]. injection H as <-. auto.
  - destruct (Queue s) as [|qe rest] eqn:HQ; [injection H as <-; auto|].
    apply (IH _ _ (Hstep s qe rest HP HQ) H).
Qed.

Lemma ProcessQueue_more_fuel ast fuel fuel' s s' :
  ProcessQueue ast fuel s = Some s' -> (fuel <= fuel')%nat ->
  ProcessQueue ast fuel' s = Some s'.
Proof.
  revert fuel' s. induction fuel as [|fuel IH]; intros fuel' s H Hle; simpl in H.
  - destruct (Queue s) eqn:HQ; [|discriminate]. rewrite ProcessQueue_empty by exact HQ.
    exact H.
  - destruct (Queue s) as [|qe rest] eqn:HQ.
    + rewrite ProcessQueue_empty by exact HQ. exact H.
    + destruct fuel' as [|fuel']; [lia|]. simpl. rewrite HQ. apply IH; [exact H|lia].
Qed.

Section Loop.
Variables (ast : ASTContext) (tu : Decl) (D T F : list Z).
Hypothesis fin : ASTFinite ast tu D T F.

Lemma requests_in_universe qe k :
  in_universe D T qe -> requests ast qe k -> in_universe D T k.
Proof.
  destruct qe as [d|t]; [|intros _ []]. simpl. intros Hd [H|[H|[H|H]]].
  - destruct H as (p & Hp & ->). simpl.
    apply (fin_canonical ast tu D T F fin), (fin_context ast tu D T F fin d p Hd Hp).
  - destruct H as (x & Hx & ->). simpl.
    apply (fin_canonical ast tu D T F fin), (fin_decls ast tu D T F fin d x Hd Hx).
  - subst k. simpl. apply (fin_type ast tu D T F fin d Hd).
  - subst k. simpl.
    apply (fin_unqualified ast tu D T F fin), (fin_type ast tu D T F fin d Hd).
Qed.

Lemma file_requests_in_universe qe f :
  in_universe D T qe -> file_requests ast qe f -> In f F.
Proof.
  destruct qe as [d|t]; [|intros _ []]. simpl. intros Hd H.
  apply (fin_file ast tu D T F fin d f Hd H).
Qed.

(** The state after the entry was taken from the queue and the opening
    of its element, with the id attribute, was written. *)
Lemma pop_header_DumpInv qe rest s :
  DumpInv D T F s -> Queue s = qe :: rest ->
  let s0 := with_out (entry_header ast qe (Index (deref qe s))) (with_Queue rest s) in
  DumpInv D T F s0 /\ S (pending_work D T s0) = pending_work D T s.
Proof.
  intros [HN HF HE] HQ. cbv zeta.
  assert (Hqe : registered qe s = true)
    by (apply (inv_queue D T s HN); rewrite HQ; left; reflexivity).
  set (s0 := with_out (entry_header ast qe (Index (deref qe s))) (with_Queue rest s)).
  assert (Hr0 : forall k, registered k s0 = registered k s)
    by (intros k; unfold s0; rewrite registered_with_out, registered_with_Queue; reflexivity).
  assert (Hd0 : forall k, deref k s0 = deref k s)
    by (intros k; unfold s0; rewrite deref_with_out, deref_with_Queue; reflexivity).
  assert (Hq0 : Queue s0 = rest) by reflexivity.
  assert (Hn0 : NodeCount s0 = NodeCount s) by reflexivity.
  assert (Hc0 : RequireComplete s0 = RequireComplete s) by reflexivity.
  assert (Hids : ids_of (OS s0) =
                 ids_of (OS s) ++ (if emitting qe then [Index (deref qe s)] else [])).
  { unfold s0. rewrite OS_with_out.
    change (OS (with_Queue rest s)) with (OS s).
    rewrite ids_of_app by apply entry_header_block. rewrite entry_header_ids. reflexivity. }
  split.
  - constructor.
    + apply (NodeInv_same D T s); auto. rewrite Hq0. intros k Hk. rewrite HQ. right. exact Hk.
    + apply (FileInv_same F s); auto.
    + constructor; rewrite ?Hids, ?Hq0, ?Hn0, ?Hc0.
      * intros i Hi. apply in_app_or in Hi. destruct Hi as [Hi|Hi].
        -- apply (emit_bound s HE i Hi).
        -- destruct (emitting qe); [|destruct Hi]. destruct Hi as [<-|[]].
           apply (inv_index D T s HN qe Hqe).
      * intros k. rewrite Hr0, Hd0. intros Hr He.
        pose proof (emit_once s HE k Hr He) as E. rewrite HQ in E.
        rewrite count_occ_app. rewrite <- E. cbn [count_occ].
        destruct (QueueEntry_eq_dec qe k) as [->|Hne].
        -- rewrite He. cbn [count_occ]. destruct (Z.eq_dec _ _); [lia|congruence].
        -- destruct (emitting qe); cbn [count_occ]; [|lia].
           destruct (Z.eq_dec (Index (deref qe s)) (Index (deref k s))) as [E'|]; [|lia].
           exfalso. apply Hne. apply (inv_inj D T s HN qe k Hqe Hr E').
      * intros k Hk. rewrite Hd0.
        apply (emit_complete s HE). rewrite HQ. right. exact Hk.
  - unfold pending_work. rewrite HQ, Hq0. cbn [List.length].
    replace (map (weight s0) (universe D T)) with (map (weight s) (universe D T)); [lia|].
    apply map_ext. intros k. unfold weight. rewrite Hr0, Hd0. reflexivity.
Qed.

Hypothesis node_room : Z.of_nat (List.length D + List.length T) < 2 ^ 32 - 1.
Hypothesis file_room : Z.of_nat (List.length F) < 2 ^ 32 - 1.

Lemma entry_DumpInv qe rest s :
  DumpInv D T F s -> Queue s = qe :: rest ->
  let s' := snd (ProcessQueue_entry ast qe rest s) in
  DumpInv D T F s' /\ (S (pending_work D T s') <= pending_work D T s)%nat /\
  RequireComplete s' = RequireComplete s.
Proof.
  intros HI HQ. cbv zeta.
  destruct (pop_header_DumpInv qe rest s HI HQ) as (H0 & W0). cbv zeta in H0, W0.
  assert (Hin : In qe (Queue s)) by (rewrite HQ; left; reflexivity).
  assert (Hqe : in_universe D T qe).
  { apply (inv_universe D T s (dinv_node D T F s HI)), (inv_queue D T s (dinv_node D T F s HI)).
    exact Hin. }
  pose proof (emit_complete s (dinv_emit D T F s HI) qe Hin) as Hc.
  pose proof (ProcessQueue_entry_traced ast qe rest s) as Htr.
  apply (traced_weaken _ (in_universe D T) _ (fun f => In f F) _ (Complete (deref qe s)))
    in Htr; [|intros k; apply requests_in_universe; exact Hqe
             |intros f; apply file_requests_in_universe; exact Hqe|auto].
  pose proof (traced_Stable _ _ _ _ _ Htr) as Hst.
  destruct Htr as (es & E & Hes). rewrite E.
  destruct (run_DumpInv D T F node_room file_room (Complete (deref qe s)) es _ H0 Hes)
    as (H1 & H2).
  - rewrite Hc. auto.
  - split; [exact H1|]. split; [lia|].
    rewrite <- E. rewrite (st_rc _ _ Hst). reflexivity.
Qed.

(** [ProcessQueue] empties the queue when its bound is at least the work
    left, and keeps the invariants. *)
Lemma ProcessQueue_total fuel s :
  DumpInv D T F s -> (pending_work D T s <= fuel)%nat ->
  exists s', ProcessQueue ast fuel s = Some s' /\ DumpInv D T F s' /\
             Queue s' = [] /\ RequireComplete s' = RequireComplete s.
Proof.
  revert s. induction fuel as [|fuel IH]; intros s HI Hw.
  - assert (HQ : Queue s = []).
    { unfold pending_work in Hw. destruct (Queue s); [reflexivity|simpl in Hw; lia]. }
    exists s. rewrite ProcessQueue_empty by exact HQ. auto.
  - destruct (Queue s) as [|qe rest] eqn:HQ.
    + exists s. rewrite ProcessQueue_empty by exact HQ. auto.
    + destruct (entry_DumpInv qe rest s HI HQ) as (H1 & H2 & H3). cbv zeta in H1, H2, H3.
      destruct (IH _ H1 ltac:(lia)) as (s' & E & H4 & H5 & H6).
      exists s'. rewrite (ProcessQueue_step ast fuel qe rest s HQ).
      split; [exact E|]. split; [exact H4|]. split; [exact H5|congruence].
Qed.

End Loop.
From Stdlib Require Import ZArith List String Ascii Bool Lia Sorted Permutation.
Import ListNotations.
Local Open Scope string_scope.
Local Open Scope list_scope.
Local Open Scope Z_scope.

(* ------------------------------------------------------------------------- *)
(** ** The sweep of the registries *)

Lemma with_Queue_twice q1 q2 s : with_Queue q2 (with_Queue q1 s) = with_Queue q2 s.
Proof. reflexivity. Qed.

Lemma with_Queue_same s : with_Queue (Queue s) s = s.
Proof. destruct s. reflexivity. Qed.

Lemma for_each_push (K : Z -> QueueEntry) (l : ZMap.t DumpNode) s :
  snd (for_each l (fun i =>
         if negb (Complete (snd i)) then Queue_push (K (fst i)) else ret tt) s) =
  with_Queue (Queue s ++ map K (incomplete_keys l)) s.
Proof.
  revert s. induction l as [|[k n] l IH]; intros s.
  - unfold incomplete_keys. simpl. rewrite app_nil_r, with_Queue_same. reflexivity.
  - cbn [for_each]. rewrite bind_eq, IH. unfold incomplete_keys. cbn [filter snd fst].
    destruct (negb (Complete n)).
    + unfold Queue_push. rewrite bind_eq. cbn [gets fst snd map].
      change (snd (set_Queue (Queue s ++ [K k]) s)) with (with_Queue (Queue s ++ [K k]) s).
      rewrite with_Queue_twice. cbn [with_Queue set_Queue snd Queue].
      rewrite <- app_assoc. reflexivity.
    + reflexivity.
Qed.

Lemma QueueIncompleteDumpNodes_eq s :
  snd (QueueIncompleteDumpNodes s) = with_Queue (Queue s ++ sweep_queue s) s.
Proof.
  unfold QueueIncompleteDumpNodes, sweep_queue. rewrite !bind_eq. cbn [gets fst snd].
  rewrite !for_each_push. rewrite with_Queue_twice.
  cbn [with_Queue set_Queue snd Queue TypeNodes]. rewrite <- app_assoc. reflexivity.
Qed.

Lemma HandleTranslationUnit_incomplete_eq s :
  snd (HandleTranslationUnit_incomplete s) =
  with_Queue (Queue s ++ sweep_queue s) (snd (set_RequireComplete false s)).
Proof.
  unfold HandleTranslationUnit_incomplete. rewrite bind_eq, QueueIncompleteDumpNodes_eq.
  reflexivity.
Qed.

Lemma in_incomplete_keys (m : ZMap.t DumpNode) k :
  ZMap.sorted m ->
  (In k (incomplete_keys m) <->
   exists n, ZMap.find k m = Some n /\ Complete n = false).
Proof.
  intros Hs. unfold incomplete_keys. rewrite in_map_iff. split.
  - intros ([k' n] & E & Hin). simpl in E. subst k'. apply filter_In in Hin.
    destruct Hin as (Hin & Hc). exists n. split; [apply find_Some_in; assumption|].
    simpl in Hc. apply negb_true_iff in Hc. exact Hc.
  - intros (n & Hf & Hc). exists (k, n). split; [reflexivity|]. apply filter_In.
    split; [apply find_Some_in; assumption|]. simpl. rewrite Hc. reflexivity.
Qed.

Lemma incomplete_keys_NoDup (m : ZMap.t DumpNode) :
  ZMap.sorted m -> NoDup (incomplete_keys m).
Proof.
  intros Hs. apply sorted_NoDup in Hs. unfold incomplete_keys, ZMap.keys in *.
  induction m as [|[k n] m IH]; simpl; [constructor|].
  inversion Hs as [|? ? Hn Hs']; subst.
  destruct (negb (Complete n)); simpl; [|apply IH; exact Hs'].
  constructor; [|apply IH; exact Hs'].
  intros Hin. apply Hn. apply in_map_iff in Hin. destruct Hin as (x & E & Hx).
  apply filter_In in Hx. apply in_map_iff. exists x. tauto.
Qed.

Lemma incomplete_keys_sorted (m : ZMap.t DumpNode) :
  ZMap.sorted m -> StronglySorted Z.lt (incomplete_keys m).
Proof.
  unfold ZMap.sorted, incomplete_keys, ZMap.keys.
  induction m as [|[k n] m IH]; simpl; intros Hs; [constructor|].
  inversion Hs as [|? ? Hs' Hall]; subst.
  destruct (negb (Complete n)); simpl; [|apply IH; exact Hs'].
  constructor; [apply IH; exact Hs'|].
  rewrite Forall_forall in *. intros x Hx. apply Hall.
  apply in_map_iff in Hx. destruct Hx as (y & E & Hy). apply filter_In in Hy.
  apply in_map_iff. exists y. tauto.
Qed.

Lemma length_incomplete_keys (m : ZMap.t DumpNode) :
  (List.length (incomplete_keys m) <= List.length m)%nat.
Proof.
  unfold incomplete_keys. rewrite length_map. apply filter_length_le.
Qed.

Lemma sweep_queue_In s k :
  ZMap.sorted (DeclNodes s) -> ZMap.sorted (TypeNodes s) ->
  (In k (sweep_queue s) <-> registered k s = true /\ Complete (deref k s) = false).
Proof.
  intros Hd Ht. unfold sweep_queue. rewrite in_app_iff, !in_map_iff.
  unfold registered, deref. split.
  - intros [(d & <- & Hin)|(t & <- & Hin)].
    + apply (in_incomplete_keys _ _ Hd) in Hin. destruct Hin as (n & -> & Hc). auto.
    + apply (in_incomplete_keys _ _ Ht) in Hin. destruct Hin as (n & -> & Hc). auto.
  - destruct k as [d|t]; intros (Hr & Hc).
    + left. exists d. split; [reflexivity|]. apply (in_incomplete_keys _ _ Hd).
      destruct (ZMap.find d (DeclNodes s)) as [n|]; [|discriminate]. exists n. auto.
    + right. exists t. split; [reflexivity|]. apply (in_incomplete_keys _ _ Ht).
      destruct (ZMap.find t (TypeNodes s)) as [n|]; [|discriminate]. exists n. auto.
Qed.

Lemma Injective_map_NoDup_local {A B : Type} (f : A -> B) (l : list A) :
  (forall a b, f a = f b -> a = b) -> NoDup l -> NoDup (map f l).
Proof.
  intros Hf. induction 1 as [|x l Hx _ IH]; simpl; constructor; [|exact IH].
  intros Hin. apply in_map_iff in Hin. destruct Hin as (y & E & Hy).
  apply Hf in E. subst y. exact (Hx Hy).
Qed.

Lemma sweep_queue_NoDup s :
  ZMap.sorted (DeclNodes s) -> ZMap.sorted (TypeNodes s) -> NoDup (sweep_queue s).
Proof.
  intros Hd Ht. unfold sweep_queue. apply NoDup_app.
  - apply Injective_map_NoDup_local; [intros a b [= ->]; reflexivity|].
    apply incomplete_keys_NoDup, Hd.
  - apply Injective_map_NoDup_local; [intros a b [= ->]; reflexivity|].
    apply incomplete_keys_NoDup, Ht.
  - intros k H1 H2. apply in_map_iff in H1, H2.
    destruct H1 as (d & <- & _). destruct H2 as (t & E & _). discriminate.
Qed.

Lemma sweep_queue_count s k :
  ZMap.sorted (DeclNodes s) -> ZMap.sorted (TypeNodes s) ->
  count_occ QueueEntry_eq_dec (sweep_queue s) k =
  if registered k s && negb (Complete (deref k s)) then 1%nat else 0%nat.
Proof.
  intros Hd Ht.
  destruct (registered k s && negb (Complete (deref k s))) eqn:Hb.
  - apply andb_prop in Hb. destruct Hb as (Hr & Hc). apply negb_true_iff in Hc.
    apply NoDup_count_occ'; [apply sweep_queue_NoDup; assumption|].
    apply sweep_queue_In; auto.
  - apply count_occ_not_In. intros Hin. apply sweep_queue_In in Hin; [|assumption..].
    destruct Hin as (Hr & Hc). rewrite Hr, Hc in Hb. discriminate.
Qed.

(* ------------------------------------------------------------------------- *)
(** ** The start of the dump *)

Lemma registered_init k : registered k ASTVisitor_init = false.
Proof. destruct k; reflexivity. Qed.

Lemma DumpInv_init D T F : DumpInv D T F ASTVisitor_init.
Proof.
  constructor.
  - constructor.
    + constructor.
    + constructor.
    + intros k H. rewrite registered_init in H. discriminate.
    + reflexivity.
    + intros k H. rewrite registered_init in H. discriminate.
    + intros k k' H. rewrite registered_init in H. discriminate.
    + intros k [].
  - constructor.
    + constructor.
    + intros f [].
    + reflexivity.
    + intros f [].
    + reflexivity.
  - constructor.
    + intros i [].
    + intros k H. rewrite registered_init in H. discriminate.
    + intros k [].
Qed.

Lemma pending_work_init D T :
  pending_work D T ASTVisitor_init = (2 * (List.length D + List.length T))%nat.
Proof.
  unfold pending_work.
  assert (H : forall l : list QueueEntry,
             list_sum (map (weight ASTVisitor_init) l) = (2 * List.length l)%nat).
  { induction l as [|k l IH]; [reflexivity|].
    change (list_sum (map (weight ASTVisitor_init) (k :: l)))
      with (weight ASTVisitor_init k + list_sum (map (weight ASTVisitor_init) l))%nat.
    rewrite IH. cbn [List.length].
    assert (weight ASTVisitor_init k = 2%nat) by (destruct k; reflexivity). lia. }
  rewrite H. unfold universe. rewrite length_app, !length_map.
  change (List.length (Queue ASTVisitor_init)) with 0%nat.
  rewrite Nat.add_0_r. reflexivity.
Qed.

Section Start.
Variables (ast : ASTContext) (tu : Decl) (D T F : list Z).
Hypothesis fin : ASTFinite ast tu D T F.

Lemma StartSet_rec_in fuel dc name x :
  In dc D -> In x (StartSet_rec ast fuel dc name) -> In x D.
Proof.
  revert dc name. induction fuel as [|fuel IH]; intros dc name Hdc Hx; simpl in Hx;
    destruct (find_scope name) as [pos|].
  - destruct Hx.
  - apply (fin_lookup ast tu D T F fin dc name x Hdc Hx).
  - apply in_flat_map in Hx. destruct Hx as (i & Hi & Hx).
    destruct (dyn_cast_DeclContext ast i) as [idc|] eqn:Hc; [|destruct Hx].
    eapply IH; [|exact Hx].
    apply (fin_container ast tu D T F fin i idc); [|exact Hc].
    apply (fin_lookup ast tu D T F fin dc _ i Hdc Hi).
  - apply (fin_lookup ast tu D T F fin dc name x Hdc Hx).
Qed.

Lemma register_list_traced (l : list Decl) s x :
  (forall d, In d l -> In d D) ->
  traced (in_universe D T) (fun f => In f F) true s x ->
  traced (in_universe D T) (fun f => In f F) true s
    (snd (for_each l (fun i => AddDumpNode_Decl ast i true ;;; ret tt) x)).
Proof.
  revert x. induction l as [|d l IH]; intros x Hl H; [exact H|].
  cbn [for_each]. rewrite !bind_eq. cbn [ret snd].
  apply IH; [intros y Hy; apply Hl; right; exact Hy|].
  unfold AddDumpNode_Decl. rewrite AddDumpNodeImpl_Register.
  apply after_register; [exact H| |auto].
  simpl. apply (fin_canonical ast tu D T F fin), Hl. left. reflexivity.
Qed.

Lemma start_names_traced names s x :
  traced (in_universe D T) (fun f => In f F) true s x ->
  traced (in_universe D T) (fun f => In f F) true s
    (snd (for_each names (fun i => LookupStart ast tu i) x)).
Proof.
  revert x. induction names as [|n names IH]; intros x H; [exact H|].
  cbn [for_each]. rewrite bind_eq. apply IH.
  rewrite LookupStart_StartSet. apply register_list_traced; [|exact H].
  intros d Hd. apply (StartSet_rec_in _ tu n d (fin_tu ast tu D T F fin) Hd).
Qed.

Lemma HandleTranslationUnit_start_traced names s :
  traced (in_universe D T) (fun f => In f F) true s
    (snd (HandleTranslationUnit_start ast names tu s)).
Proof.
  unfold HandleTranslationUnit_start. rewrite bind_eq, out_with_out. cbn [snd].
  apply after_out; [|exact I|reflexivity|reflexivity].
  destruct names as [|n names].
  - rewrite bind_eq. cbn [ret snd]. unfold AddDumpNode_Decl.
    rewrite AddDumpNodeImpl_Register. apply after_register; [apply traced_refl| |auto].
    simpl. apply (fin_canonical ast tu D T F fin), (fin_tu ast tu D T F fin).
  - apply start_names_traced, traced_refl.
Qed.

End Start.

(* ------------------------------------------------------------------------- *)
(** ** The end of the dump *)

Lemma touch_index (f g : FileEntry) (m : ZMap.t Z) :
  match ZMap.find g (touch f m) with Some i => i | None => 0 end =
  match ZMap.find g m with Some i => i | None => 0 end.
Proof.
  unfold touch. destruct (ZMap.find f m) eqn:E; [reflexivity|].
  destruct (Z.eq_dec f g) as [<-|Hne].
  - rewrite find_add_eq, E. reflexivity.
  - rewrite (find_add_neq _ _ _ _ Hne). reflexivity.
Qed.

Lemma file_element_ext ast s s' (q : list FileEntry) :
  (forall f, file_index f s' = file_index f s) ->
  flat_map (file_element ast s') q = flat_map (file_element ast s) q.
Proof.
  intros H. induction q as [|f q IH]; [reflexivity|].
  cbn [flat_map]. rewrite IH. unfold file_element. rewrite H. reflexivity.
Qed.

Lemma ProcessFileQueue_loop ast (q : list FileEntry) s :
  FileQueue s = q ->
  let s' := snd (for_each q (fun f =>
      q' <- gets FileQueue ;;
      set_FileQueue (tl q') ;;;
      m <- gets FileNodes ;;
      (match ZMap.find f m with
       | Some _ => ret tt
       | None => set_FileNodes (ZMap.add f 0 m)
       end) ;;;
      m <- gets FileNodes ;;
      out [Str ("  <File id=" ++ dq ++ "f");
           Num (match ZMap.find f m with Some i => i | None => 0 end);
           Str (dq ++ " name=" ++ dq); Xml (getFileName ast f);
           Str (dq ++ "/>" ++ nl)]) s) in
  s' = snd (set_FileQueue []
              (with_FileNodes (touch_all q (FileNodes s))
                 (with_out (flat_map (file_element ast s) q) s))).
Proof.
  revert s. induction q as [|f q IH]; intros s HQ; cbv zeta.
  - cbn [for_each flat_map ret snd touch_all fold_left]. rewrite with_out_nil.
    destruct s. simpl in HQ. subst. reflexivity.
  - cbn [for_each]. rewrite !bind_eq. cbn [gets fst snd].
    set (s0 := snd (set_FileQueue (tl (FileQueue s)) s)).
    assert (E1 : snd ((match ZMap.find f (FileNodes s0) with
                       | Some _ => ret tt
                       | None => set_FileNodes (ZMap.add f 0 (FileNodes s0))
                       end) s0) = with_FileNodes (touch f (FileNodes s)) s0).
    { unfold touch, with_FileNodes. change (FileNodes s0) with (FileNodes s).
      destruct (ZMap.find f (FileNodes s)) eqn:E; [|reflexivity].
      destruct s. reflexivity. }
    rewrite E1. rewrite out_with_out. cbn [snd].
    set (s1 := with_out _ (with_FileNodes (touch f (FileNodes s)) s0)).
    assert (HQ1 : FileQueue s1 = q) by (unfold s1, s0; simpl; rewrite HQ; reflexivity).
    specialize (IH s1 HQ1). cbv zeta in IH. rewrite IH.
    assert (Hidx : forall g, file_index g s1 = file_index g s).
    { intros g. unfold file_index. change (FileNodes s1) with (touch f (FileNodes s)).
      apply touch_index. }
    rewrite (file_element_ext ast s s1 q Hidx).
    unfold s1, s0, with_out, with_FileNodes, file_element. simpl.
    rewrite touch_index, <- app_assoc. reflexivity.
Qed.

Lemma HandleTranslationUnit_finish_eq ast s :
  snd (HandleTranslationUnit_finish ast s) =
  with_out [Str epilog]
    (snd (set_FileQueue []
            (with_FileNodes (touch_all (FileQueue s) (FileNodes s))
               (with_out (flat_map (file_element ast s) (FileQueue s)) s)))).
Proof.
  unfold HandleTranslationUnit_finish, ProcessFileQueue. rewrite !bind_eq.
  cbn [gets fst snd]. rewrite out_with_out. cbn [snd].
  rewrite (ProcessFileQueue_loop ast (FileQueue s) s eq_refl). reflexivity.
Qed.

Lemma file_elements_block ast s q : block (flat_map (file_element ast s) q).
Proof. destruct q; exact I. Qed.

Lemma file_elements_ids ast s q : ids_of (flat_map (file_element ast s) q) = [].
Proof.
  induction q as [|f q IH]; [reflexivity|].
  cbn [flat_map]. rewrite ids_of_app by apply file_elements_block. rewrite IH. reflexivity.
Qed.

Lemma file_elements_file_ids ast s q :
  file_ids_of (flat_map (file_element ast s) q) = map (fun f => file_index f s) q.
Proof.
  induction q as [|f q IH]; [reflexivity|].
  cbn [flat_map map]. rewrite file_ids_of_app by apply file_elements_block.
  rewrite IH. reflexivity.
Qed.
From Stdlib Require Import ZArith List String Ascii Bool Lia Sorted Permutation.
Import ListNotations.
Local Open Scope string_scope.
Local Open Scope list_scope.
Local Open Scope Z_scope.

(* ------------------------------------------------------------------------- *)
(** ** The two phases *)

Lemma weight_le_2 s k : (weight s k <= 2)%nat.
Proof. unfold weight. destruct (registered k s), (Complete (deref k s)); lia. Qed.

Lemma list_sum_weight_bound s (l : list QueueEntry) :
  (list_sum (map (weight s) l) <= 2 * List.length l)%nat.
Proof.
  induction l as [|k l IH]; [simpl; lia|].
  change (list_sum (map (weight s) (k :: l)))
    with (weight s k + list_sum (map (weight s) l))%nat.
  cbn [List.length]. pose proof (weight_le_2 s k). lia.
Qed.

Lemma length_universe D T : List.length (universe D T) = (List.length D + List.length T)%nat.
Proof. unfold universe. rewrite length_app, !length_map. reflexivity. Qed.

Section Phases.
Variables (ast : ASTContext) (tu : Decl) (D T F : list Z).
Hypothesis fin : ASTFinite ast tu D T F.

Lemma NodeInv_lengths s :
  NodeInv D T s ->
  (List.length (DeclNodes s) <= List.length D)%nat /\
  (List.length (TypeNodes s) <= List.length T)%nat.
Proof.
  intros HI. split.
  - rewrite <- (length_map fst (DeclNodes s)). apply NoDup_incl_length.
    + apply (sorted_NoDup (DeclNodes s)), (inv_sorted_decl D T s HI).
    + intros d Hd. apply (inv_universe D T s HI (KindDecl d)).
      apply registered_keys; [apply HI|apply HI|exact Hd].
  - rewrite <- (length_map fst (TypeNodes s)). apply NoDup_incl_length.
    + apply (sorted_NoDup (TypeNodes s)), (inv_sorted_type D T s HI).
    + intros t Ht. apply (inv_universe D T s HI (KindType t)).
      apply registered_keys; [apply HI|apply HI|exact Ht].
Qed.

(** The state between the two phases. *)
Lemma sweep_DumpInv s :
  DumpInv D T F s -> Queue s = [] -> RequireComplete s = true ->
  let sw := snd (HandleTranslationUnit_incomplete s) in
  DumpInv D T F sw /\ RequireComplete sw = false /\ Queue sw = sweep_queue s /\
  OS sw = OS s /\ NodeCount sw = NodeCount s /\
  (forall k, deref k sw = deref k s) /\ (forall k, registered k sw = registered k s) /\
  (pending_work D T sw <= enough_fuel D T)%nat.
Proof.
  intros [HN HF HE] HQ HRC. cbv zeta. rewrite HandleTranslationUnit_incomplete_eq, HQ.
  cbn [app]. set (sw := with_Queue (sweep_queue s) (snd (set_RequireComplete false s))).
  assert (Hd : forall k, deref k sw = deref k s) by (intros [d|t]; reflexivity).
  assert (Hr : forall k, registered k sw = registered k s) by (intros [d|t]; reflexivity).
  assert (Hq : Queue sw = sweep_queue s) by reflexivity.
  assert (Hin : forall k, In k (sweep_queue s) ->
                          registered k s = true /\ Complete (deref k s) = false).
  { intros k Hk.
    apply (sweep_queue_In s k (inv_sorted_decl D T s HN) (inv_sorted_type D T s HN)).
    exact Hk. }
  split; [|split; [reflexivity|split; [reflexivity|split; [reflexivity|split; [reflexivity|
           split; [exact Hd|split; [exact Hr|]]]]]]].
  - constructor.
    + constructor.
      * exact (inv_sorted_decl D T s HN).
      * exact (inv_sorted_type D T s HN).
      * intros k. rewrite Hr. exact (inv_universe D T s HN k).
      * exact (inv_count D T s HN).
      * intros k. rewrite Hr, Hd. exact (inv_index D T s HN k).
      * intros k k'. rewrite !Hr, !Hd. exact (inv_inj D T s HN k k').
      * intros k. rewrite Hq, Hr. intros Hk. apply Hin, Hk.
    + apply (FileInv_same F s); auto.
    + constructor.
      * exact (emit_bound s HE).
      * intros k. rewrite Hr, Hd, Hq. intros Hk He.
        pose proof (emit_once s HE k Hk He) as E. rewrite HQ, HRC in E. cbn [count_occ] in E.
        change (OS sw) with (OS s). change (RequireComplete sw) with false.
        rewrite (sweep_queue_count s k (inv_sorted_decl D T s HN) (inv_sorted_type D T s HN)).
        rewrite Hk. cbn [andb]. cbn [Nat.add] in E. rewrite E.
        destruct (Complete (deref k s)); reflexivity.
      * intros k. rewrite Hq, Hd. intros Hk. apply Hin, Hk.
  - unfold pending_work, enough_fuel. rewrite Hq.
    pose proof (list_sum_weight_bound sw (universe D T)) as Hw. rewrite length_universe in Hw.
    destruct (NodeInv_lengths s HN) as (L1 & L2).
    unfold sweep_queue. rewrite length_app, !length_map.
    pose proof (length_incomplete_keys (DeclNodes s)).
    pose proof (length_incomplete_keys (TypeNodes s)).
    unfold Decl, QualType in *. lia.
Qed.

Lemma start_DumpInv names :
  let s0 := snd (HandleTranslationUnit_start ast names tu ASTVisitor_init) in
  DumpInv D T F s0 /\ RequireComplete s0 = true /\
  (pending_work D T s0 <= enough_fuel D T)%nat /\
  Stable ASTVisitor_init s0.
Proof.
  cbv zeta. pose proof (HandleTranslationUnit_start_traced ast tu D T F fin names
                          ASTVisitor_init) as Htr.
  pose proof (traced_Stable _ _ _ _ _ Htr) as Hst.
  destruct Htr as (es & E & Hes). rewrite E in *.
  destruct (run_DumpInv D T F (fin_nodes ast tu D T F fin) (fin_files ast tu D T F fin)
              true es ASTVisitor_init (DumpInv_init D T F) Hes) as (H1 & H2); [reflexivity|].
  split; [exact H1|]. split; [apply (st_rc _ _ Hst)|]. split; [|exact Hst].
  rewrite pending_work_init in H2. unfold enough_fuel. lia.
Qed.

(** The dump of a finite translation unit runs to its end, through the
    states that the invariants describe. *)
Lemma dump_total names :
  let s0 := snd (HandleTranslationUnit_start ast names tu ASTVisitor_init) in
  exists s1 s2,
    DumpInv D T F s0 /\ RequireComplete s0 = true /\
    ProcessQueue ast (enough_fuel D T) s0 = Some s1 /\
    DumpInv D T F s1 /\ Queue s1 = [] /\ RequireComplete s1 = true /\
    DumpInv D T F (snd (HandleTranslationUnit_incomplete s1)) /\
    ProcessQueue ast (enough_fuel D T) (snd (HandleTranslationUnit_incomplete s1)) = Some s2 /\
    DumpInv D T F s2 /\ Queue s2 = [] /\ RequireComplete s2 = false /\
    HandleTranslationUnit ast (enough_fuel D T) names tu ASTVisitor_init =
    Some (snd (HandleTranslationUnit_finish ast s2)).
Proof.
  cbv zeta. destruct (start_DumpInv names) as (H0 & R0 & W0 & _). cbv zeta in H0, R0, W0.
  destruct (ProcessQueue_total ast tu D T F fin (fin_nodes ast tu D T F fin)
              (fin_files ast tu D T F fin) _ _ H0 W0) as (s1 & E1 & H1 & Q1 & R1).
  rewrite R0 in R1.
  destruct (sweep_DumpInv s1 H1 Q1 R1) as (Hw & Rw & Qw & _ & _ & _ & _ & Ww).
  cbv zeta in Hw, Rw, Qw, Ww.
  destruct (ProcessQueue_total ast tu D T F fin (fin_nodes ast tu D T F fin)
              (fin_files ast tu D T F fin) _ _ Hw Ww) as (s2 & E2 & H2 & Q2 & R2).
  rewrite Rw in R2.
  exists s1, s2. repeat (split; [assumption|]).
  unfold HandleTranslationUnit. rewrite E1, E2. reflexivity.
Qed.

End Phases.
From Stdlib Require Import ZArith List String Ascii Bool Lia Sorted Permutation.
Import ListNotations.
Local Open Scope string_scope.
Local Open Scope list_scope.
Local Open Scope Z_scope.

(* ------------------------------------------------------------------------- *)
(** ** The two small translation units are finite *)

Ltac in_list H := simpl in H; repeat (destruct H as [<-|H]); try contradiction.

Lemma ex_ast_finite : ASTFinite ex_ast 100 ex_decls ex_types ex_files.
Proof.
  constructor.
  - simpl. auto.
  - intros d H. exact H.
  - intros d x H Hx. in_list H; in_list Hx; simpl; auto 10.
  - intros d n x H Hx. in_list H; simpl in Hx; try contradiction.
    destruct (String.eqb n "CI"); [in_list Hx; simpl; auto|].
    destruct (String.eqb n "C"); [in_list Hx; simpl; auto 10|contradiction].
  - intros d p H Hp. in_list H; simpl in Hp; injection Hp as <-; simpl; auto 10.
  - intros d dc H Hdc. in_list H; simpl in Hdc; try discriminate;
      injection Hdc as <-; simpl; auto 10.
  - intros d H. simpl. auto.
  - intros t H. in_list H; simpl; auto.
  - intros d f H Hf. simpl in Hf. injection Hf as <-. simpl. auto.
  - vm_compute. reflexivity.
  - vm_compute. reflexivity.
Qed.

Lemma order_ast_finite : ASTFinite order_ast 100 order_decls order_types ex_files.
Proof.
  constructor.
  - simpl. auto.
  - intros d H. exact H.
  - intros d x H Hx. in_list H; in_list Hx; simpl; auto 10.
  - intros d n x H Hx. in_list H; simpl in Hx; try contradiction.
    + destruct (String.eqb n "A"); [in_list Hx; simpl; auto|].
      destruct (String.eqb n "B"); [in_list Hx; simpl; auto 10|contradiction].
    + destruct (String.eqb n "x"); [in_list Hx; simpl; auto 10|contradiction].
    + destruct (String.eqb n "y"); [in_list Hx; simpl; auto 10|contradiction].
  - intros d p H Hp. in_list H; simpl in Hp; injection Hp as <-; simpl; auto 10.
  - intros d dc H Hdc. in_list H; simpl in Hdc; try discriminate;
      injection Hdc as <-; simpl; auto 10.
  - intros d H. simpl. auto.
  - intros t H. in_list H; simpl; auto.
  - intros d f H Hf. simpl in Hf. injection Hf as <-. simpl. auto.
  - vm_compute. reflexivity.
  - vm_compute. reflexivity.
Qed.

(* ------------------------------------------------------------------------- *)
(** ** The dump as a state machine *)

Lemma HandleTranslationUnit_more_fuel ast fuel fuel' names tu s s1 s2 :
  ProcessQueue ast fuel (snd (HandleTranslationUnit_start ast names tu s)) = Some s1 ->
  ProcessQueue ast fuel (snd (HandleTranslationUnit_incomplete s1)) = Some s2 ->
  (fuel <= fuel')%nat ->
  HandleTranslationUnit ast fuel' names tu s = Some (snd (HandleTranslationUnit_finish ast s2)).
Proof.
  intros E1 E2 Hle. unfold HandleTranslationUnit.
  rewrite (ProcessQueue_more_fuel ast fuel fuel' _ _ E1 Hle).
  rewrite (ProcessQueue_more_fuel ast fuel fuel' _ _ E2 Hle). reflexivity.
Qed.

(** C3.  The dump of a finite translation unit is a machine with two
    phases.  Phase 1 starts with [RequireComplete] set and a queue of
    complete nodes, and [ProcessQueue] drains the queue.  The transition
    clears [RequireComplete] and queues, once each, exactly the
    registered identities whose node is still incomplete, without touching
    a node or the stream.  Phase 2 drains the queue again, with
    [RequireComplete] still cleared, and the dump ends after it with the
    file list and the closing tag, for every bound on the loops from
    [enough_fuel] on. *)
Theorem two_phase_dump (ast : ASTContext) (tu : Decl) (D T F : list Z)
  (StartNames : list string) :
  ASTFinite ast tu D T F -> two_phase_run ast tu D T StartNames.
Proof.
  intros fin. unfold two_phase_run.
  destruct (dump_total ast tu D T F fin StartNames)
    as (s1 & s2 & H0 & R0 & E1 & H1 & Q1 & R1 & Hw & E2 & H2 & Q2 & R2 & E).
  destruct (sweep_DumpInv D T F s1 H1 Q1 R1) as (_ & Rw & Qw & Ow & _ & Dw & _).
  cbv zeta in Rw, Qw, Ow, Dw.
  exists s1, s2. split; [exact R0|]. split.
  { intros k Hk. rewrite (emit_complete _ (dinv_emit D T F _ H0) k Hk). exact R0. }
  split; [exact E1|]. split; [exact Q1|]. split; [exact R1|]. split.
  { split; [exact Rw|]. split; [exact Qw|]. rewrite Qw. split.
    - apply sweep_queue_NoDup; apply (dinv_node D T F s1 H1).
    - split; [|split; [exact Dw|split; [exact Ow|exact E2]]].
      intros k. apply sweep_queue_In; apply (dinv_node D T F s1 H1). }
  split; [exact Q2|]. split; [exact R2|].
  intros fuel Hle. apply (HandleTranslationUnit_more_fuel ast _ fuel _ _ _ _ _ E1 E2 Hle).
Qed.

(** The dump of [ex_ast] without start names. *)
Lemma two_phase_dump_witness : two_phase_run ex_ast 100 ex_decls ex_types [].
Proof.
  apply (two_phase_dump ex_ast 100 ex_decls ex_types ex_files []).
  apply ex_ast_finite.
Defined.

(* ------------------------------------------------------------------------- *)
(** ** One element for each identity *)


Lemma finish_frame ast s :
  let sf := snd (HandleTranslationUnit_finish ast s) in
  (forall k, registered k sf = registered k s) /\
  (forall k, deref k sf = deref k s) /\
  NodeCount sf = NodeCount s /\
  OS sf = OS s ++ flat_map (file_element ast s) (FileQueue s) ++ [Str epilog].
Proof.
  cbv zeta. rewrite HandleTranslationUnit_finish_eq.
  split; [intros [d|t]; reflexivity|]. split; [intros [d|t]; reflexivity|].
  split; [reflexivity|]. rewrite OS_with_out.
  cbn [set_FileQueue with_FileNodes set_FileNodes snd OS].
  rewrite OS_with_out, <- app_assoc. reflexivity.
Qed.

Lemma finish_ids ast s :
  ids_of (OS (snd (HandleTranslationUnit_finish ast s))) = ids_of (OS s).
Proof.
  destruct (finish_frame ast s) as (_ & _ & _ & ->).
  rewrite ids_of_app.
  - rewrite ids_of_app by exact I. rewrite file_elements_ids. cbn. apply app_nil_r.
  - apply block_app; [apply file_elements_block|exact I].
Qed.



From Stdlib Require Import ZArith List String Ascii Bool Lia Sorted Permutation.
Import ListNotations.
Local Open Scope string_scope.
Local Open Scope list_scope.
Local Open Scope Z_scope.

(* ------------------------------------------------------------------------- *)
(** ** First in, first out *)

Lemma queue_ids_app q1 q2 s : queue_ids (q1 ++ q2) s = queue_ids q1 s ++ queue_ids q2 s.
Proof. unfold queue_ids. rewrite filter_app, map_app. reflexivity. Qed.

Lemma queue_ids_ext q s s' :
  (forall k, In k q -> Index (deref k s') = Index (deref k s)) ->
  queue_ids q s' = queue_ids q s.
Proof.
  intros H. unfold queue_ids. apply map_ext_in. intros k Hk.
  apply filter_In in Hk. apply H, Hk.
Qed.

Lemma queue_ids_cons k q s :
  queue_ids (k :: q) s =
  (if emitting k then [Index (deref k s)] else []) ++ queue_ids q s.
Proof. unfold queue_ids. cbn [filter]. destruct (emitting k); reflexivity. Qed.

(** What the dispatch of one entry does, for any state. *)
Lemma entry_Stable ast qe rest s :
  let s' := snd (ProcessQueue_entry ast qe rest s) in
  RequireComplete s' = RequireComplete s /\
  (exists blk, OS s' = OS s ++ blk /\ block blk /\ file_ids_of blk = [] /\
               ids_of blk = if emitting qe then [Index (deref qe s)] else []) /\
  (forall k, seen k s = true ->
             seen k s' = true /\ Index (deref k s') = Index (deref k s)) /\
  (exists pushed, Queue s' = rest ++ pushed).
Proof.
  cbv zeta. pose proof (traced_Stable _ _ _ _ _ (ProcessQueue_entry_traced ast qe rest s)) as H.
  destruct H as [Hrc (b & Hos & Hb & Hi & Hf) Hseen (p & Hq)].
  split; [exact Hrc|]. split; [|split].
  - exists (entry_header ast qe (Index (deref qe s)) ++ b).
    rewrite Hos, OS_with_out, <- app_assoc. split; [reflexivity|].
    split; [apply block_app; [apply entry_header_block|exact Hb]|].
    rewrite file_ids_of_app, ids_of_app, entry_header_file_ids, entry_header_ids, Hi, Hf
      by exact Hb.
    rewrite !app_nil_r. auto.
  - intros k Hk. apply Hseen. unfold seen in *.
    rewrite deref_with_out, deref_with_Queue. exact Hk.
  - exists p. exact Hq.
Qed.

Lemma ProcessQueue_OS ast fuel s s' :
  ProcessQueue ast fuel s = Some s' ->
  exists blk, OS s' = OS s ++ blk /\ block blk /\ file_ids_of blk = [].
Proof.
  intros H.
  assert (Hstep : forall x qe rest,
             (exists blk, OS x = OS s ++ blk /\ block blk /\ file_ids_of blk = []) ->
             Queue x = qe :: rest ->
             exists blk, OS (snd (ProcessQueue_entry ast qe rest x)) = OS s ++ blk /\
                         block blk /\ file_ids_of blk = []).
  { intros x qe rest (b & E & B & Fi) HQ.
    destruct (entry_Stable ast qe rest x) as (_ & (b' & E' & B' & F' & _) & _).
    exists (b ++ b'). rewrite E', E, app_assoc. split; [reflexivity|].
    split; [apply block_app; assumption|].
    rewrite file_ids_of_app, Fi, F' by exact B'. reflexivity. }
  assert (H0 : exists blk, OS s = OS s ++ blk /\ block blk /\ file_ids_of blk = []).
  { exists []. rewrite app_nil_r. repeat split; reflexivity. }
  destruct (ProcessQueue_invariant ast _ Hstep fuel s s' H0 H) as (HP & _). exact HP.
Qed.

(** The entries that the queue holds are emitted in queue order before
    anything that is queued later. *)
Lemma ProcessQueue_fifo_prefix ast fuel :
  forall s s' pre post,
  Queue s = pre ++ post ->
  (forall k, In k pre -> seen k s = true) ->
  ProcessQueue ast fuel s = Some s' ->
  exists later, ids_of (OS s') = ids_of (OS s) ++ queue_ids pre s ++ later.
Proof.
  induction fuel as [|fuel IH]; intros s s' pre post HQ Hseen H.
  - simpl in H. destruct (Queue s) eqn:E; [|discriminate]. injection H as <-.
    symmetry in HQ. apply app_eq_nil in HQ. destruct HQ as (-> & _).
    exists []. rewrite !app_nil_r. reflexivity.
  - destruct pre as [|k pre].
    + destruct (ProcessQueue_OS ast _ _ _ H) as (b & E & B & _).
      exists (ids_of b). rewrite E, ids_of_app by exact B. reflexivity.
    + simpl in HQ. rewrite (ProcessQueue_step ast fuel k (pre ++ post) s HQ) in H.
      destruct (entry_Stable ast k (pre ++ post) s) as (_ & (b & E & B & _ & Hi) & Hst & (p & Hq)).
      rewrite <- app_assoc in Hq.
      destruct (IH _ s' pre (post ++ p) Hq) as (later & Hl).
      * intros k' Hk'. apply Hst, Hseen. right. exact Hk'.
      * exact H.
      * exists later. rewrite Hl, E, ids_of_app, Hi by exact B.
        rewrite queue_ids_cons, <- !app_assoc. f_equal. f_equal.
        f_equal. apply queue_ids_ext. intros k' Hk'. apply Hst, Hseen. right. exact Hk'.
Qed.

(* ------------------------------------------------------------------------- *)
(** ** The order of the second phase *)

Lemma sorted_snoc (l : list Z) (x : Z) :
  StronglySorted Z.lt l -> (forall i, In i l -> i < x) -> StronglySorted Z.lt (l ++ [x]).
Proof.
  induction 1 as [|a l Hs IH Hall]; intros Hx; simpl.
  - repeat constructor.
  - constructor.
    + apply IH. intros i Hi. apply Hx. right. exact Hi.
    + apply Forall_app. split; [exact Hall|]. constructor; [|constructor].
      apply Hx. left. reflexivity.
Qed.

Section Order.
Variables D T F : list Z.
Hypothesis node_room : Z.of_nat (List.length D + List.length T) < 2 ^ 32 - 1.
Hypothesis file_room : Z.of_nat (List.length F) < 2 ^ 32 - 1.
Variables (base : list Z) (n1 : Z).

Lemma Phase2Order_same s s' :
  ids_of (OS s') = ids_of (OS s) -> Queue s' = Queue s ->
  (forall k, deref k s' = deref k s) -> NodeCount s' = NodeCount s ->
  Phase2Order base n1 s -> Phase2Order base n1 s'.
Proof.
  intros H1 H2 H3 H4 (Hn & news & E & Hs & Hb). split; [rewrite H4; exact Hn|].
  exists news.
  rewrite H1, H2, H4, (queue_ids_ext (Queue s) s s') by (intros k _; rewrite H3; reflexivity).
  auto.
Qed.

Lemma step_Phase2Order e s :
  DumpInv D T F s -> RequireComplete s = false ->
  event_ok (in_universe D T) (fun f => In f F) false e ->
  Phase2Order base n1 s -> Phase2Order base n1 (step e s).
Proof.
  intros HI HRC He HP. destruct e as [cs|k c|f]; cbn [step].
  - destruct He as (B & I & _). apply (Phase2Order_same s).
    + rewrite OS_with_out, ids_of_app, I, app_nil_r by exact B. reflexivity.
    + reflexivity.
    + intros k. apply deref_with_out.
    + reflexivity.
    + exact HP.
  - destruct He as (Hk & Hc).
    assert (c = false) by (destruct c; [discriminate (Hc eq_refl)|reflexivity]). subst c.
    pose proof (Register_NodeInv_cases D T node_room k false s (dinv_node D T F s HI)) as Hcs.
    cbv zeta in Hcs. rewrite HRC in Hcs. cbn [andb orb negb] in Hcs.
    destruct (Register_frame k false s) as (HOS & _). cbv zeta in HOS.
    destruct HP as (Hn1 & news & E & Hs & Hb).
    destruct Hcs as [(Hr & Hn & Hi & Hcm & Hq)|(Hr & Hn & Hi & Hcm & Hq)].
    + split; [rewrite Hn; exact Hn1|]. exists news.
      rewrite HOS, Hq, app_nil_r, Hn.
      rewrite (queue_ids_ext (Queue s) s); [auto|].
      intros k' _. destruct (QueueEntry_eq_dec k k') as [<-|Hne]; [exact Hi|].
      rewrite Register_other by exact Hne. reflexivity.
    + split; [rewrite Hn; lia|].
      exists (news ++ (if emitting k then [NodeCount s + 1] else [])).
      rewrite HOS, Hq, Hn, queue_ids_app.
      rewrite (queue_ids_ext (Queue s) s).
      * rewrite queue_ids_cons, Hi. unfold queue_ids at 2. cbn [filter map].
        rewrite app_nil_r, !app_assoc, E. split; [reflexivity|].
        destruct (emitting k).
        -- split.
           ++ apply sorted_snoc; [exact Hs|]. intros i Hin. apply Hb in Hin. lia.
           ++ intros i Hin. apply in_app_or in Hin. destruct Hin as [Hin|[<-|[]]].
              ** apply Hb in Hin. lia.
              ** lia.
        -- rewrite app_nil_r. split; [exact Hs|]. intros i Hin. apply Hb in Hin. lia.
      * intros k' Hk'. rewrite Register_other; [reflexivity|]. intros ->.
        apply (inv_queue D T s (dinv_node D T F s HI)) in Hk'. congruence.
  - destruct (RegisterFile_frame f s) as (H1 & H2 & _ & _ & H5 & _).
    cbv zeta in H1, H2, H5.
    apply (Phase2Order_same s).
    + rewrite H1. reflexivity.
    + exact H5.
    + intros k. apply deref_RegisterFile.
    + exact H2.
    + exact HP.
Qed.

Lemma run_Phase2Order es s :
  DumpInv D T F s -> RequireComplete s = false ->
  Forall (event_ok (in_universe D T) (fun f => In f F) false) es ->
  Phase2Order base n1 s -> Phase2Order base n1 (run es s).
Proof.
  intros HI HRC H. revert s HI HRC. induction H as [|e es He Hes IH]; intros s HI HRC HP.
  - exact HP.
  - cbn [run fold_left].
    destruct (step_DumpInv D T F node_room file_room false e s HI He) as (H1 & _);
      [discriminate|].
    apply IH.
    + exact H1.
    + rewrite (st_rc _ _ (step_Stable _ _ _ e s He)). exact HRC.
    + apply step_Phase2Order; assumption.
Qed.

End Order.

Section Phase2.
Variables (ast : ASTContext) (tu : Decl) (D T F : list Z).
Hypothesis fin : ASTFinite ast tu D T F.
Variables (base : list Z) (n1 : Z).

Lemma entry_Phase2Order qe rest s :
  DumpInv D T F s -> RequireComplete s = false -> Queue s = qe :: rest ->
  Phase2Order base n1 s ->
  Phase2Order base n1 (snd (ProcessQueue_entry ast qe rest s)).
Proof.
  intros HI HRC HQ (Hn & news & E & Hs & Hb).
  destruct (pop_header_DumpInv ast D T F qe rest s HI HQ) as (H0 & _). cbv zeta in H0.
  assert (Hin : In qe (Queue s)) by (rewrite HQ; left; reflexivity).
  assert (Hqe : in_universe D T qe).
  { apply (inv_universe D T s (dinv_node D T F s HI)), (inv_queue D T s (dinv_node D T F s HI)).
    exact Hin. }
  pose proof (emit_complete s (dinv_emit D T F s HI) qe Hin) as Hc. rewrite HRC in Hc.
  pose proof (ProcessQueue_entry_traced ast qe rest s) as Htr.
  apply (traced_weaken _ (in_universe D T) _ (fun f => In f F) _ false) in Htr;
    [|intros k; apply (requests_in_universe ast tu D T F fin); exact Hqe
     |intros f; apply (file_requests_in_universe ast tu D T F fin); exact Hqe
     |rewrite Hc; discriminate].
  destruct Htr as (es & -> & Hes).
  apply (run_Phase2Order D T F (fin_nodes ast tu D T F fin) (fin_files ast tu D T F fin)
           base n1 es); [exact H0|exact HRC|exact Hes|].
  split; [exact Hn|]. exists news.
  split; [|split; [exact Hs|exact Hb]].
  rewrite OS_with_out. change (OS (with_Queue rest s)) with (OS s).
  rewrite ids_of_app by apply entry_header_block. rewrite entry_header_ids.
  change (Queue (with_out (entry_header ast qe (Index (deref qe s))) (with_Queue rest s)))
    with rest.
  rewrite (queue_ids_ext rest s); [|intros k _; rewrite deref_with_out, deref_with_Queue;
                                     reflexivity].
  rewrite <- E, HQ, queue_ids_cons, <- !app_assoc. reflexivity.
Qed.

Lemma ProcessQueue_Phase2Order fuel s s' :
  DumpInv D T F s -> RequireComplete s = false -> Phase2Order base n1 s ->
  ProcessQueue ast fuel s = Some s' ->
  Phase2Order base n1 s'.
Proof.
  intros HI HRC HP H.
  assert (Hstep : forall x qe rest,
            (DumpInv D T F x /\ RequireComplete x = false /\ Phase2Order base n1 x) ->
            Queue x = qe :: rest ->
            DumpInv D T F (snd (ProcessQueue_entry ast qe rest x)) /\
            RequireComplete (snd (ProcessQueue_entry ast qe rest x)) = false /\
            Phase2Order base n1 (snd (ProcessQueue_entry ast qe rest x))).
  { intros x qe rest (H1 & H2 & H3) HQ.
    destruct (entry_DumpInv ast tu D T F fin (fin_nodes ast tu D T F fin)
                (fin_files ast tu D T F fin) qe rest x H1 HQ) as (H4 & _ & H5).
    cbv zeta in H4, H5. split; [exact H4|]. split; [congruence|].
    apply entry_Phase2Order; assumption. }
  destruct (ProcessQueue_invariant ast _ Hstep fuel s s' (conj HI (conj HRC HP)) H)
    as ((_ & _ & HP') & _).
  exact HP'.
Qed.

End Phase2.

(* ------------------------------------------------------------------------- *)
(** ** The order of the document *)

Lemma OS_register_list ast (l : list Decl) s :
  OS (snd (for_each l (fun i => AddDumpNode_Decl ast i true ;;; ret tt) s)) = OS s.
Proof.
  revert s. induction l as [|d l IH]; intros s; [reflexivity|].
  cbn [for_each]. rewrite !bind_eq. cbn [ret snd]. rewrite IH.
  unfold AddDumpNode_Decl. rewrite AddDumpNodeImpl_Register. apply OS_Register.
Qed.

Lemma HandleTranslationUnit_start_OS ast names tu s :
  OS (snd (HandleTranslationUnit_start ast names tu s)) = OS s ++ [Str prolog].
Proof.
  unfold HandleTranslationUnit_start. rewrite bind_eq, out_with_out. cbn [snd].
  rewrite OS_with_out. f_equal. destruct names as [|n names].
  - rewrite bind_eq. cbn [ret snd]. unfold AddDumpNode_Decl.
    rewrite AddDumpNodeImpl_Register. apply OS_Register.
  - generalize (n :: names). intros l. revert s. induction l as [|x l IH]; intros s;
      [reflexivity|].
    cbn [for_each]. rewrite bind_eq, IH, LookupStart_StartSet. apply OS_register_list.
Qed.

(** C6 (as amended).  [ProcessQueue] is first in, first out: the nodes
    that the queue holds are emitted in queue order, before every node
    that is queued later.  In the dump of a finite translation unit the
    document is the opening, the elements of phase 1, the elements of
    phase 2, the [File] elements and the closing, in this order.  Phase 1
    emits the start nodes first, in the order of their registration.
    Phase 2 emits first the nodes that phase 1 left incomplete, in the
    order of the sweep, which is the order of the registry keys
    (declarations before types) and not the order of discovery, and then
    the nodes that it discovers itself, in ascending order of their
    indices.  The [File] elements carry the file indices 1, 2, ... in
    this order, the order of discovery of the files. *)
Theorem output_in_queue_order :
  (forall (ast : ASTContext) (fuel : nat) (s s' : ASTVisitor),
     (forall k, In k (Queue s) -> seen k s = true) ->
     ProcessQueue ast fuel s = Some s' ->
     exists later, ids_of (OS s') = ids_of (OS s) ++ queue_ids (Queue s) s ++ later) /\
  (forall (ast : ASTContext) (tu : Decl) (D T F : list Z) (StartNames : list string),
     ASTFinite ast tu D T F -> output_order ast tu D T StartNames).
Proof.
  split.
  - intros ast fuel s s' Hseen H.
    apply (ProcessQueue_fifo_prefix ast fuel s s' (Queue s) []); auto.
    rewrite app_nil_r. reflexivity.
  - intros ast tu D T F names fin. unfold output_order.
    destruct (dump_total ast tu D T F fin names)
      as (s1 & s2 & H0 & R0 & E1 & H1 & Q1 & R1 & Hw & E2 & H2 & Q2 & R2 & E).
    destruct (sweep_DumpInv D T F s1 H1 Q1 R1) as (_ & Rw & Qw & Ow & Nw & Dw & _).
    cbv zeta in Rw, Qw, Ow, Nw, Dw.
    pose proof (HandleTranslationUnit_start_OS ast names tu ASTVisitor_init) as O0.
    cbn [OS ASTVisitor_init app] in O0.
    destruct (ProcessQueue_OS ast _ _ _ E1) as (out1 & O1 & B1 & F1).
    destruct (ProcessQueue_OS ast _ _ _ E2) as (out2 & O2 & B2 & F2).
    rewrite Ow in O2. rewrite O0 in O1.
    assert (S0 : forall k,
               In k (Queue (snd (HandleTranslationUnit_start ast names tu ASTVisitor_init))) ->
               seen k (snd (HandleTranslationUnit_start ast names tu ASTVisitor_init)) = true).
    { intros k Hk. rewrite (NodeInv_seen D T (fin_nodes ast tu D T F fin) _ k (dinv_node D T F _ H0)).
      apply (inv_queue D T _ (dinv_node D T F _ H0)). exact Hk. }
    destruct (ProcessQueue_fifo_prefix ast _ _ _ (Queue _) [] (eq_sym (app_nil_r _)) S0 E1)
      as (later & L1).
    rewrite O0, O1 in L1. rewrite ids_of_app in L1 by exact B1. cbn [ids_of app] in L1.
    assert (P2 : Phase2Order (ids_of (OS s1) ++ queue_ids (sweep_queue s1) s1)
                   (NodeCount s1) (snd (HandleTranslationUnit_incomplete s1))).
    { split; [rewrite Nw; lia|]. exists []. rewrite app_nil_r, Ow, Qw.
      rewrite (queue_ids_ext (sweep_queue s1) s1) by (intros k _; rewrite Dw; reflexivity).
      split; [reflexivity|]. split; [constructor|intros i []]. }
    destruct (ProcessQueue_Phase2Order ast tu D T F fin _ _ _ _ s2 Hw Rw P2 E2)
      as (_ & news & P3 & Sn & Bn).
    clear P2. rename P3 into P2.
    rewrite Q2 in P2. unfold queue_ids at 1 in P2. cbn [filter map] in P2.
    rewrite app_nil_r, O2, ids_of_app, <- app_assoc in P2 by exact B2.
    apply app_inv_head in P2.
    destruct (finish_frame ast s2) as (_ & _ & _ & Of). cbv zeta in Of.
    exists s1, s2, (snd (HandleTranslationUnit_finish ast s2)), out1, out2, later, news.
    split; [exact E1|]. split; [exact E2|]. split; [exact E|]. cbv zeta.
    split; [exact O1|]. split; [exact O2|].
    split; [rewrite Of, O2, O1, <- !app_assoc; reflexivity|].
    split; [exact L1|]. split; [exact P2|].
    split; [apply incomplete_keys_sorted, (dinv_node D T F s1 H1)|].
    split; [apply incomplete_keys_sorted, (dinv_node D T F s1 H1)|].
    split; [exact Sn|]. split; [exact Bn|].
    split; [rewrite finish_ids, O2, ids_of_app, O1, ids_of_app by assumption; reflexivity|].
    split; [exact F1|]. split; [exact F2|]. split; [apply file_elements_ids|].
    rewrite Of, O2, O1. rewrite !file_ids_of_app;
      try assumption; try apply block_app; try apply file_elements_block; try exact I.
    rewrite F1, F2, file_elements_file_ids. cbn [file_ids_of app]. rewrite app_nil_r.
    rewrite (finv_queue F s2 (dinv_file D T F s2 H2)),
      (finv_count F s2 (dinv_file D T F s2 H2)), Nat2Z.id. reflexivity.
Qed.

(** The dump of [order_ast] from the start names [A::x] and [B::y]:
    phase 1 emits the two start nodes first, and the whole dump has the
    order of the theorem. *)
Lemma output_in_queue_order_witness :
  (exists later,
     ids_of (OS order_phase1) =
     ids_of (OS order_start) ++ queue_ids (Queue order_start) order_start ++ later) /\
  output_order order_ast 100 order_decls order_types order_names.
Proof.
  split.
  - apply (proj1 output_in_queue_order order_ast (enough_fuel order_decls order_types)
             order_start order_phase1).
    + intros k Hk. vm_compute in Hk.
      repeat (destruct Hk as [<-|Hk]; [vm_compute; reflexivity|]). destruct Hk.
    + vm_compute. reflexivity.
  - apply (proj2 output_in_queue_order order_ast 100 order_decls order_types ex_files
             order_names).
    apply order_ast_finite.
Defined.

(** C6, as the specification words it, fails on [order_ast]: from the
    start names [A::x] and [B::y] phase 1 emits the nodes 1, 2, 3 and
    discovers the namespace [A] (index 4) before the namespace [B] (index
    5); phase 2 emits [B] before [A], because [B] has the lower address,
    and the translation unit (index 6) after them. *)
Lemma sweep_order_is_not_discovery_order :
  ids_of (OS order_phase1) = [1; 2; 3] /\
  Index (deref (KindDecl 300) order_phase1) = 4 /\
  Index (deref (KindDecl 250) order_phase1) = 5 /\
  match HandleTranslationUnit order_ast (enough_fuel order_decls order_types)
          order_names 100 ASTVisitor_init with
  | Some sf =>
      ids_of (OS sf) = [1; 2; 3; 5; 4; 6] /\
      Index (deref (KindDecl 300) sf) = 4 /\ Index (deref (KindDecl 250) sf) = 5
  | None => False
  end.
Proof. vm_compute. repeat split; reflexivity. Qed.
From Stdlib Require Import ZArith List String Ascii Bool Lia Sorted Permutation.
Import ListNotations.
Local Open Scope string_scope.
Local Open Scope list_scope.
Local Open Scope Z_scope.

(* ------------------------------------------------------------------------- *)
(** * Further properties of the code *)

(** ** The compiler stand-in *)

Lemma nat_of_ascii_inj c1 c2 : nat_of_ascii c1 = nat_of_ascii c2 -> c1 = c2.
Proof.
  intros H. rewrite <- (ascii_nat_embedding c1), <- (ascii_nat_embedding c2), H.
  reflexivity.
Qed.

Lemma strncmp_prefix (lit : string) :
  (forall c, In c (list_ascii_of_string lit) -> nat_of_ascii c <> 0%nat) ->
  forall a, (cc_msvc.strncmp a lit (String.length lit) =? 0) = prefix lit a.
Proof.
  induction lit as [|c2 lit IH]; intros Hnul a; [destruct a; reflexivity|].
  cbn [String.length cc_msvc.strncmp]. destruct a as [|c1 a]; cbn [prefix].
  - apply Z.eqb_neq. pose proof (Hnul c2 (or_introl eq_refl)). lia.
  - destruct (Ascii.eqb_spec c1 c2) as [->|Hne].
    + destruct (ascii_dec c2 c2) as [_|n]; [|contradiction].
      apply IH. intros c Hc. apply Hnul. right. exact Hc.
    + destruct (ascii_dec c2 c1) as [e|_]; [congruence|].
      apply Z.eqb_neq. intros H. apply Hne, nat_of_ascii_inj. lia.
Qed.

Lemma strncmp_define (a : string) :
  (cc_msvc.strncmp a "--cc-define=" 12 =? 0) = prefix "--cc-define=" a.
Proof.
  apply (strncmp_prefix "--cc-define=").
  intros c Hc. cbn in Hc.
  repeat (destruct Hc as [<-|Hc]; [cbn; discriminate|]). destruct Hc.
Qed.

Lemma main_body_define (name stdout : string) :
  cc_msvc.main_body (cc_define name) stdout = (stdout ++ define_line name)%string.
Proof. reflexivity. Qed.

Lemma main_body_other (a stdout : string) :
  prefix "--cc-define=" a = false -> cc_msvc.main_body a stdout = stdout.
Proof. intros H. unfold cc_msvc.main_body. rewrite strncmp_define, H. reflexivity. Qed.

Lemma main_loop_app (l1 l2 : list string) (stdout : string) :
  cc_msvc.main_loop (l1 ++ l2) stdout = cc_msvc.main_loop l2 (cc_msvc.main_loop l1 stdout).
Proof. revert stdout. induction l1 as [|a l1 IH]; intros stdout; [reflexivity|apply IH]. Qed.

Lemma main_loop_defines (names : list string) (stdout : string) :
  cc_msvc.main_loop (map cc_define names) stdout = (stdout ++ define_lines names)%string.
Proof.
  revert stdout. induction names as [|n names IH]; intros stdout.
  - cbn. rewrite append_nil_r. reflexivity.
  - cbn [map cc_msvc.main_loop define_lines]. rewrite main_body_define, IH.
    apply append_assoc.
Qed.

(** X1.  The stand-in turns its options into macro definitions: run with
    one [--cc-define=NAME] option for each name of a list, it writes one
    line [#define NAME 1] for each name, in the order of the options,
    then its own predefined macros, and returns 0, whatever [argv[0]]
    is.  With no option, and with an empty argument vector, only the
    predefined macros are written. *)
Theorem cc_msvc_defines_requested_macros :
  (forall (argv0 : string) (names : list string),
     cc_msvc.main (argv0 :: map cc_define names) =
     ((define_lines names ++ cc_msvc.predefined)%string, 0)) /\
  (forall (argv0 : string) (names1 names2 : list string),
     fst (cc_msvc.main (argv0 :: map cc_define (names1 ++ names2))) =
     (define_lines names1 ++ fst (cc_msvc.main (argv0 :: map cc_define names2)))%string) /\
  (forall argv0 : string, cc_msvc.main [argv0] = (cc_msvc.predefined, 0)) /\
  cc_msvc.main [] = (cc_msvc.predefined, 0).
Proof.
  assert (H : forall argv0 names,
             cc_msvc.main (argv0 :: map cc_define names) =
             ((define_lines names ++ cc_msvc.predefined)%string, 0)).
  { intros argv0 names. unfold cc_msvc.main. cbn [tl]. rewrite main_loop_defines.
    reflexivity. }
  split; [exact H|]. split; [|split; reflexivity].
  intros argv0 names1 names2. rewrite !H. cbn [fst].
  rewrite <- append_assoc. f_equal.
  induction names1 as [|n names1 IH]; [reflexivity|].
  cbn [app define_lines]. rewrite IH. symmetry. apply append_assoc.
Qed.

(** X2.  An argument that does not begin with [--cc-define=] has no
    effect on what the stand-in writes and returns, wherever it stands
    among the arguments. *)
Theorem cc_msvc_ignores_other_arguments
  (argv0 a : string) (before after : list string) :
  prefix "--cc-define=" a = false ->
  cc_msvc.main (argv0 :: before ++ a :: after) = cc_msvc.main (argv0 :: before ++ after).
Proof.
  intros H. unfold cc_msvc.main. cbn [tl]. rewrite !main_loop_app.
  cbn [cc_msvc.main_loop]. rewrite (main_body_other a _ H). reflexivity.
Qed.

Lemma cc_msvc_ignores_other_arguments_witness :
  cc_msvc.main ["cc-msvc"; cc_define "_WIN32"; "-E"; "empty.c"] =
  cc_msvc.main ["cc-msvc"; cc_define "_WIN32"; "empty.c"].
Proof.
  apply (cc_msvc_ignores_other_arguments "cc-msvc" "-E" [cc_define "_WIN32"] ["empty.c"]).
  reflexivity.
Defined.
From Stdlib Require Import ZArith List String Ascii Bool Lia Sorted Permutation.
Import ListNotations.
Local Open Scope string_scope.
Local Open Scope list_scope.
Local Open Scope Z_scope.

(* ------------------------------------------------------------------------- *)
(** ** The registries *)

Lemma wrap32_small (n : Z) : 0 <= n -> n < 2 ^ 32 -> wrap32 n = n.
Proof. intros H0 H1. unfold wrap32. apply Z.mod_small. lia. Qed.

Lemma seen_find_decl d s :
  seen (KindDecl d) s = true -> exists n, ZMap.find d (DeclNodes s) = Some n.
Proof.
  intros H. apply seen_registered in H. unfold registered in H.
  destruct (ZMap.find d (DeclNodes s)) as [n|]; [exists n; reflexivity|discriminate].
Qed.

(** X3.  All declarations of one entity share one node: when two
    declarations have the same canonical declaration, [AddDumpNode]
    returns the same non-zero index for both, the second call allocates
    no index and adds no registry entry, and the node is complete after
    it when it was complete before or the second call asks for it. *)
Theorem redeclarations_share_one_node
  (ast : ASTContext) (d1 d2 : Decl) (c1 c2 : bool) (s : ASTVisitor) :
  getCanonicalDecl ast d1 = getCanonicalDecl ast d2 ->
  0 <= NodeCount s -> NodeCount s + 1 < 2 ^ 32 ->
  let r1 := AddDumpNode_Decl ast d1 c1 s in
  let r2 := AddDumpNode_Decl ast d2 c2 (snd r1) in
  let k := KindDecl (getCanonicalDecl ast d1) in
  fst r1 <> 0 /\ fst r2 = fst r1 /\
  NodeCount (snd r2) = NodeCount (snd r1) /\
  ZMap.keys (DeclNodes (snd r2)) = ZMap.keys (DeclNodes (snd r1)) /\
  TypeNodes (snd r2) = TypeNodes (snd r1) /\
  Complete (deref k (snd r2)) = Complete (deref k (snd r1)) || c2.
Proof.
  intros Hc H0 H1. cbv zeta. unfold AddDumpNode_Decl. rewrite <- Hc.
  rewrite !AddDumpNodeImpl_Register.
  set (k := KindDecl (getCanonicalDecl ast d1)).
  destruct (Register_room k c1 s H0 H1) as (Hs & _). cbv zeta in Hs.
  set (s1 := snd (Register k c1 s)) in *.
  destruct (Register_seen k c2 s1 Hs) as (Hf & Hd & Hn & _). cbv zeta in Hd, Hn.
  split.
  { rewrite Register_returns. fold s1. unfold seen in Hs.
    apply negb_true_iff, Z.eqb_neq in Hs. exact Hs. }
  split; [rewrite Hf, (Register_returns k c1 s); reflexivity|].
  split; [exact Hn|].
  split.
  { rewrite Register_DeclNodes. unfold k at 1.
    destruct (seen_find_decl _ _ Hs) as (n & Hfind).
    apply (keys_add_found _ _ n). exact Hfind. }
  split; [rewrite Register_TypeNodes; reflexivity|].
  rewrite Hd. reflexivity.
Qed.

Lemma redeclarations_share_one_node_witness :
  let r1 := AddDumpNode_Decl redecl_ast 200 false ASTVisitor_init in
  let r2 := AddDumpNode_Decl redecl_ast 201 true (snd r1) in
  let k := KindDecl (getCanonicalDecl redecl_ast 200) in
  fst r1 <> 0 /\ fst r2 = fst r1 /\
  NodeCount (snd r2) = NodeCount (snd r1) /\
  ZMap.keys (DeclNodes (snd r2)) = ZMap.keys (DeclNodes (snd r1)) /\
  TypeNodes (snd r2) = TypeNodes (snd r1) /\
  Complete (deref k (snd r2)) = Complete (deref k (snd r1)) || true.
Proof.
  apply (redeclarations_share_one_node redecl_ast 200 201 false true ASTVisitor_init).
  - reflexivity.
  - cbn. lia.
  - cbn. lia.
Defined.

Lemma RegisterFile_index f s :
  0 <= FileCount s -> FileCount s + 1 < 2 ^ 32 ->
  file_index f (snd (RegisterFile f s)) = fst (RegisterFile f s) /\
  fst (RegisterFile f s) <> 0.
Proof.
  intros H0 H1. unfold RegisterFile.
  destruct (file_index f s =? 0) eqn:Hz; cbn [fst snd].
  - rewrite (wrap32_small (FileCount s + 1)) by lia.
    unfold file_index. cbn [FileNodes]. rewrite find_add_eq. split; [reflexivity|lia].
  - split; [reflexivity|apply Z.eqb_neq; exact Hz].
Qed.

Lemma RegisterFile_other f g s :
  g <> f -> file_index g (snd (RegisterFile f s)) = file_index g s.
Proof.
  intros Hg. unfold RegisterFile.
  destruct (file_index f s =? 0); cbn [snd]; [|reflexivity].
  unfold file_index. cbn [FileNodes]. rewrite find_add_neq by congruence. reflexivity.
Qed.

Lemma RegisterFile_known f s :
  file_index f s <> 0 -> RegisterFile f s = (file_index f s, s).
Proof.
  intros H. unfold RegisterFile. apply Z.eqb_neq in H. rewrite H. reflexivity.
Qed.

Lemma RegisterFile_FileQueue f s :
  FileQueue (snd (RegisterFile f s)) =
  FileQueue s ++ (if file_index f s =? 0 then [f] else []).
Proof.
  unfold RegisterFile. destruct (file_index f s =? 0); cbn [snd FileQueue];
    [reflexivity|rewrite app_nil_r; reflexivity].
Qed.

(** X4.  [AddDumpFile] numbers a file once: it returns a non-zero index
    that the file registry then holds for the file, a second call
    returns the same index and changes nothing, the indices of the other
    files stay as they are, and the file joins the file queue exactly
    when it had no index before. *)
Theorem AddDumpFile_numbers_a_file_once (f : FileEntry) (s : ASTVisitor) :
  0 <= FileCount s -> FileCount s + 1 < 2 ^ 32 ->
  let r := AddDumpFile f s in
  fst r <> 0 /\ file_index f (snd r) = fst r /\
  AddDumpFile f (snd r) = r /\
  (forall g, g <> f -> file_index g (snd r) = file_index g s) /\
  FileQueue (snd r) = FileQueue s ++ (if file_index f s =? 0 then [f] else []).
Proof.
  intros H0 H1. cbv zeta. rewrite !AddDumpFile_RegisterFile.
  destruct (RegisterFile_index f s H0 H1) as (Hi & Hz).
  split; [exact Hz|]. split; [exact Hi|]. split.
  - rewrite RegisterFile_known by (rewrite Hi; exact Hz). rewrite Hi.
    symmetry. apply surjective_pairing.
  - split; [intros g Hg; apply RegisterFile_other; exact Hg|].
    apply RegisterFile_FileQueue.
Qed.

Lemma AddDumpFile_numbers_a_file_once_witness :
  let r := AddDumpFile 50 ASTVisitor_init in
  fst r <> 0 /\ file_index 50 (snd r) = fst r /\
  AddDumpFile 50 (snd r) = r /\
  (forall g, g <> 50 -> file_index g (snd r) = file_index g ASTVisitor_init) /\
  FileQueue (snd r) =
  FileQueue ASTVisitor_init ++ (if file_index 50 ASTVisitor_init =? 0 then [50] else []).
Proof.
  apply (AddDumpFile_numbers_a_file_once 50 ASTVisitor_init); cbn; lia.
Defined.
From Stdlib Require Import ZArith List String Ascii Bool Lia Sorted Permutation.
Import ListNotations.
Local Open Scope string_scope.
Local Open Scope list_scope.
Local Open Scope Z_scope.

(* ------------------------------------------------------------------------- *)
(** ** Types with qualifiers *)

Lemma qualified_differs (t : QualType) :
  hasLocalQualifiers t = true -> getLocalUnqualifiedType t <> t.
Proof.
  intros H E. pose proof (getLocalUnqualifiedType_unqualified t) as Hu.
  rewrite E in Hu. congruence.
Qed.

Lemma seen_other k k' c s : k <> k' -> seen k' (snd (Register k c s)) = seen k' s.
Proof. intros H. unfold seen. rewrite (Register_other k k' c s H). reflexivity. Qed.

(** X5.  A type with local qualifiers takes two indices.  When neither
    the type nor its unqualified form has been seen, [GetTypeIdRef]
    gives the next index to the qualified type and the one after it to
    the unqualified form, returns the latter with the three qualifier
    flags of the type, and queues both, in this order, exactly when the
    request is complete or the dump is in its second phase.  For a type
    without local qualifiers [GetTypeIdRef] is one registration, and the
    three flags are false. *)
Theorem GetTypeIdRef_registers_both_forms (t : QualType) (complete : bool)
  (s : ASTVisitor) :
  0 <= NodeCount s -> NodeCount s + 2 < 2 ^ 32 ->
  let r := GetTypeIdRef t complete s in
  let u := getLocalUnqualifiedType t in
  (hasLocalQualifiers t = true ->
   seen (KindType t) s = false -> seen (KindType u) s = false ->
   fst r = (NodeCount s + 2, isLocalConstQualified t, isLocalVolatileQualified t,
            isLocalRestrictQualified t) /\
   deref (KindType t) (snd r) = {| Index := NodeCount s + 1; Complete := complete |} /\
   deref (KindType u) (snd r) = {| Index := NodeCount s + 2; Complete := complete |} /\
   NodeCount (snd r) = NodeCount s + 2 /\
   Queue (snd r) =
   Queue s ++ (if complete || negb (RequireComplete s)
               then [KindType t; KindType u] else [])) /\
  (hasLocalQualifiers t = false ->
   r = (let r1 := AddDumpNodeImpl (KindType t) complete s in
        ((fst r1, false, false, false), snd r1))).
Proof.
  intros H0 H1. cbv zeta. rewrite GetTypeIdRef_Register. cbv zeta. split.
  - intros Hq Ht Hu. rewrite Hq.
    pose proof (qualified_differs t Hq) as Hne.
    assert (Hk : KindType t <> KindType (getLocalUnqualifiedType t)) by congruence.
    destruct (Register_unseen (KindType t) complete s Ht) as (_ & Hd1 & Hn1 & Hq1).
    cbv zeta in Hd1, Hn1, Hq1.
    rewrite (wrap32_small (NodeCount s + 1)) in Hd1, Hn1 by lia.
    set (s1 := snd (Register (KindType t) complete s)) in *.
    assert (Hu1 : seen (KindType (getLocalUnqualifiedType t)) s1 = false)
      by (unfold s1; rewrite seen_other by exact Hk; exact Hu).
    destruct (Register_unseen _ complete s1 Hu1) as (Hf2 & Hd2 & Hn2 & Hq2).
    cbv zeta in Hd2, Hn2, Hq2.
    rewrite Hn1 in Hf2, Hd2, Hn2.
    replace (NodeCount s + 1 + 1) with (NodeCount s + 2) in Hf2, Hd2, Hn2 by lia.
    rewrite (wrap32_small (NodeCount s + 2)) in Hf2, Hd2, Hn2 by lia.
    cbn [fst snd]. rewrite Hf2. split; [reflexivity|]. split.
    { rewrite Register_other by congruence. exact Hd1. }
    split; [exact Hd2|]. split; [exact Hn2|].
    rewrite Hq2, Hq1.
    destruct (Register_frame (KindType t) complete s) as (_ & _ & _ & _ & Hrc).
    cbv zeta in Hrc. fold s1 in Hrc. rewrite Hrc.
    destruct (complete || negb (RequireComplete s));
      rewrite <- app_assoc; reflexivity.
  - intros Hq. rewrite Hq. destruct (unqualified_bits t Hq) as (-> & -> & ->).
    rewrite AddDumpNodeImpl_Register. reflexivity.
Qed.

Lemma GetTypeIdRef_registers_both_forms_witness :
  let r := GetTypeIdRef 4097 true ASTVisitor_init in
  fst r = (2, true, false, false) /\
  deref (KindType 4097) (snd r) = {| Index := 1; Complete := true |} /\
  deref (KindType 4096) (snd r) = {| Index := 2; Complete := true |} /\
  NodeCount (snd r) = 2 /\
  Queue (snd r) = [KindType 4097; KindType 4096].
Proof.
  apply (proj1 (GetTypeIdRef_registers_both_forms 4097 true ASTVisitor_init
                  ltac:(cbn; lia) ltac:(cbn; lia)));
    reflexivity.
Defined.

(* ------------------------------------------------------------------------- *)
(** ** The attributes that register what they name *)

Lemma render_app encodeXML (a b : list Chunk) :
  render encodeXML (a ++ b) = (render encodeXML a ++ render encodeXML b)%string.
Proof.
  induction a as [|c a IH]; [reflexivity|].
  cbn [app render fold_right]. fold (render encodeXML (a ++ b)).
  fold (render encodeXML a). rewrite IH. symmetry. apply append_assoc.
Qed.

Lemma PrintLocationAttribute_eq ast d s :
  PrintLocationAttribute ast d s =
  (tt, match (if locationIsValid ast d then getFileEntry ast d else None) with
       | None => s
       | Some f =>
           with_out
             [Str (" location=" ++ dq ++ "f"); Num (fst (RegisterFile f s)); Str ":";
              Num (getExpansionLineNumber ast d);
              Str (dq ++ " file=" ++ dq ++ "f"); Num (fst (RegisterFile f s));
              Str (dq ++ " line=" ++ dq); Num (getExpansionLineNumber ast d); Str dq]
             (snd (RegisterFile f s))
       end).
Proof.
  unfold PrintLocationAttribute. destruct (locationIsValid ast d); cbn [negb];
    [|reflexivity].
  destruct (getFileEntry ast d) as [f|]; [|reflexivity].
  rewrite bind_eq, AddDumpFile_RegisterFile, out_with_out. reflexivity.
Qed.

(** X6.  [PrintLocationAttribute] writes nothing and registers nothing
    for a declaration without a valid location or without a file entry.
    Otherwise it registers the file and writes the attributes
    [location], [file] and [line], where the file id in [location] and
    in [file] is the index that the file registry holds for the file
    afterwards, and the line in [location] and in [line] is the
    expansion line number. *)
Theorem PrintLocationAttribute_names_the_registered_file
  (encodeXML : string -> string) (ast : ASTContext) (d : Decl) (s : ASTVisitor) :
  let s' := snd (PrintLocationAttribute ast d s) in
  (locationIsValid ast d = false -> s' = s) /\
  (getFileEntry ast d = None -> s' = s) /\
  (forall f, locationIsValid ast d = true -> getFileEntry ast d = Some f ->
     exists blk,
       s' = with_out blk (snd (AddDumpFile f s)) /\
       render encodeXML blk =
       location_text (file_index f s') (getExpansionLineNumber ast d) /\
       (0 <= FileCount s -> FileCount s + 1 < 2 ^ 32 -> file_index f s' <> 0)).
Proof.
  cbv zeta. rewrite PrintLocationAttribute_eq. cbn [snd]. split; [|split].
  - intros ->. reflexivity.
  - intros ->. destruct (locationIsValid ast d); reflexivity.
  - intros f -> ->. eexists. rewrite AddDumpFile_RegisterFile.
    split; [reflexivity|].
    assert (Hi : file_index f (snd (RegisterFile f s)) = fst (RegisterFile f s)).
    { unfold RegisterFile. destruct (file_index f s =? 0) eqn:Hz; cbn [fst snd];
        [|reflexivity].
      unfold file_index. cbn [FileNodes]. rewrite find_add_eq. reflexivity. }
    change (file_index f (with_out ?cs ?x)) with (file_index f x).
    rewrite Hi. split; [reflexivity|].
    intros H0 H1. apply (RegisterFile_index f s H0 H1).
Qed.

Lemma PrintContextAttribute_eq ast d s :
  PrintContextAttribute ast d s =
  (tt, match dyn_cast_Decl ast (getDeclContext ast d) with
       | None => s
       | Some p =>
           let r := Register (KindDecl (getCanonicalDecl ast p)) false s in
           if fst r =? 0 then snd r
           else with_out (context_chunks (fst r) (isRecord ast (getDeclContext ast d))
                            (getAccess ast d)) (snd r)
       end).
Proof.
  unfold PrintContextAttribute, GetContextIdRef. cbv zeta. rewrite bind_eq.
  destruct (dyn_cast_Decl ast (getDeclContext ast d)) as [p|]; [|reflexivity].
  unfold AddDumpNode_Decl. rewrite AddDumpNodeImpl_Register.
  destruct (fst (Register (KindDecl (getCanonicalDecl ast p)) false s) =? 0);
    cbn [negb]; [reflexivity|].
  rewrite bind_eq, out_with_out. cbn [fst snd]. unfold context_chunks.
  destruct (isRecord ast (getDeclContext ast d)).
  - destruct (getAccess ast d); rewrite out_with_out, with_out_app; reflexivity.
  - rewrite app_nil_r. reflexivity.
Qed.

Lemma render_context_chunks encodeXML id record a :
  render encodeXML (context_chunks id record a) = context_text id record a.
Proof.
  unfold context_chunks, context_text. destruct record; [destruct a|]; reflexivity.
Qed.

(** X7.  [PrintContextAttribute] writes nothing and registers nothing
    when the context of the declaration is not itself a declaration.
    Otherwise it registers the canonical declaration of the context with
    an incomplete request, so that a node seen before keeps its
    completeness, a new node is incomplete and is queued only in the
    second phase; and it writes the [context] attribute with the index of
    that node, followed, inside a record, by the [access] attribute,
    which reads [private], [protected], or [public] for every other
    access. *)
Theorem PrintContextAttribute_names_the_context
  (encodeXML : string -> string) (ast : ASTContext) (d : Decl) (s : ASTVisitor) :
  0 <= NodeCount s -> NodeCount s + 1 < 2 ^ 32 ->
  let dc := getDeclContext ast d in
  let s' := snd (PrintContextAttribute ast d s) in
  match dyn_cast_Decl ast dc with
  | None => s' = s
  | Some p =>
      let k := KindDecl (getCanonicalDecl ast p) in
      exists blk,
        s' = with_out blk (snd (AddDumpNodeImpl k false s)) /\
        render encodeXML blk =
        context_text (Index (deref k s')) (isRecord ast dc) (getAccess ast d) /\
        Index (deref k s') <> 0 /\
        Complete (deref k s') = seen k s && Complete (deref k s) /\
        Queue s' = Queue s ++ (if negb (seen k s) && negb (RequireComplete s)
                               then [k] else [])
  end.
Proof.
  intros H0 H1. cbv zeta. rewrite PrintContextAttribute_eq. cbn [snd].
  destruct (dyn_cast_Decl ast (getDeclContext ast d)) as [p|]; [|reflexivity].
  cbv zeta. set (k := KindDecl (getCanonicalDecl ast p)).
  destruct (Register_room k false s H0 H1) as (Hs & _). cbv zeta in Hs.
  pose proof (Register_returns k false s) as Hr.
  assert (Hnz : fst (Register k false s) <> 0).
  { rewrite Hr. unfold seen in Hs. apply negb_true_iff, Z.eqb_neq in Hs. exact Hs. }
  apply Z.eqb_neq in Hnz. rewrite Hnz. apply Z.eqb_neq in Hnz.
  eexists. rewrite AddDumpNodeImpl_Register. split; [reflexivity|].
  rewrite !deref_with_out. rewrite <- Hr.
  split; [apply render_context_chunks|]. split; [exact Hnz|].
  change (Queue (with_out ?cs ?x)) with (Queue x).
  destruct (seen k s) eqn:Hk.
  - destruct (Register_seen k false s Hk) as (_ & Hd & _ & Hq). cbv zeta in Hd, Hq.
    rewrite Hd, Hq. cbn. rewrite orb_false_r, app_nil_r. split; reflexivity.
  - destruct (Register_unseen k false s Hk) as (_ & Hd & _ & Hq). cbv zeta in Hd, Hq.
    rewrite Hd, Hq. cbn. split; reflexivity.
Qed.

Lemma PrintContextAttribute_names_the_context_witness :
  let s' := snd (PrintContextAttribute ex_ast 301 ASTVisitor_init) in
  exists blk,
    s' = with_out blk (snd (AddDumpNodeImpl (KindDecl 300) false ASTVisitor_init)) /\
    render (fun x => x) blk = context_text (Index (deref (KindDecl 300) s')) true AS_public /\
    Index (deref (KindDecl 300) s') <> 0 /\
    Complete (deref (KindDecl 300) s') =
    seen (KindDecl 300) ASTVisitor_init && Complete (deref (KindDecl 300) ASTVisitor_init) /\
    Queue s' = Queue ASTVisitor_init ++
               (if negb (seen (KindDecl 300) ASTVisitor_init) &&
                   negb (RequireComplete ASTVisitor_init)
                then [KindDecl 300] else []).
Proof.
  apply (PrintContextAttribute_names_the_context (fun x => x) ex_ast 301 ASTVisitor_init);
    cbn; lia.
Defined.

(* ------------------------------------------------------------------------- *)
(** ** The file list *)

Lemma render_file_element encodeXML ast s f :
  render encodeXML (file_element ast s f) =
  file_text encodeXML (file_index f s) (getFileName ast f).
Proof. reflexivity. Qed.

Lemma touch_all_find (q : list FileEntry) (m : ZMap.t Z) (f : FileEntry) :
  ZMap.find f (touch_all q m) =
  match ZMap.find f m with
  | Some i => Some i
  | None => if existsb (Z.eqb f) q then Some 0 else None
  end.
Proof.
  revert m. induction q as [|g q IH]; intros m.
  - cbn [touch_all fold_left existsb]. destruct (ZMap.find f m); reflexivity.
  - change (touch_all (g :: q) m) with (touch_all q (touch g m)). rewrite IH.
    cbn [existsb]. unfold touch. destruct (ZMap.find g m) eqn:Eg.
    + destruct (ZMap.find f m) eqn:Ef; [reflexivity|].
      destruct (f =? g) eqn:E; [|reflexivity].
      apply Z.eqb_eq in E. congruence.
    + destruct (Z.eq_dec g f) as [->|Hne].
      * rewrite find_add_eq, Eg, Z.eqb_refl. reflexivity.
      * rewrite (find_add_neq _ _ _ _ Hne).
        destruct (f =? g) eqn:E; [apply Z.eqb_eq in E; congruence|].
        reflexivity.
Qed.

Lemma touch_all_registered (q : list FileEntry) (m : ZMap.t Z) :
  (forall f, In f q -> ZMap.find f m <> None) -> touch_all q m = m.
Proof.
  induction q as [|g q IH]; intros H; [reflexivity|].
  change (touch_all (g :: q) m) with (touch_all q (touch g m)).
  assert (E : touch g m = m).
  { unfold touch. destruct (ZMap.find g m) eqn:Eg; [reflexivity|].
    exfalso. exact (H g (or_introl eq_refl) Eg). }
  rewrite E. apply IH. intros f Hf. apply H. right. exact Hf.
Qed.

Lemma touch_all_index (q : list FileEntry) (m : ZMap.t Z) (f : FileEntry) :
  match ZMap.find f (touch_all q m) with Some i => i | None => 0 end =
  match ZMap.find f m with Some i => i | None => 0 end.
Proof.
  rewrite touch_all_find. destruct (ZMap.find f m); [reflexivity|].
  destruct (existsb (Z.eqb f) q); reflexivity.
Qed.

(** In a dump every queued file has an entry of the file registry. *)
Lemma FileInv_queue_registered (F : list Z) (s : ASTVisitor) :
  FileInv F s ->
  forall f, In f (FileQueue s) -> ZMap.find f (FileNodes s) <> None.
Proof.
  intros HF f Hf E.
  assert (H0 : In (file_index f s) (map (fun f => file_index f s) (FileQueue s)))
    by (apply (in_map (fun f => file_index f s)); exact Hf).
  rewrite (finv_queue _ _ HF) in H0. apply in_map_iff in H0.
  destruct H0 as (n & Hn & Hin). apply in_seq in Hin.
  unfold file_index in Hn. rewrite E in Hn. lia.
Qed.

(** X8.  [ProcessFileQueue] writes one [File] element for each file of
    the file queue, in queue order, with the index that the file registry
    holds for the file (0 for a file without entry) and its encoded
    name, and leaves the file queue empty.  Reading the index of a
    queued file that has no entry of the file registry enters the index
    0 for it, and the file registry changes in nothing else: the index of
    every file is as before, and where every queued file has an entry,
    as in every dump, the file registry is as before.  The counters, the
    node registries and the node queue are as before. *)
Theorem ProcessFileQueue_writes_the_file_list
  (encodeXML : string -> string) (ast : ASTContext) (s : ASTVisitor) :
  let s' := snd (ProcessFileQueue ast s) in
  let files := flat_map (file_element ast s) (FileQueue s) in
  OS s' = OS s ++ files /\ FileQueue s' = [] /\
  (forall f, ZMap.find f (FileNodes s') =
             match ZMap.find f (FileNodes s) with
             | Some i => Some i
             | None => if existsb (Z.eqb f) (FileQueue s) then Some 0 else None
             end) /\
  (forall f, file_index f s' = file_index f s) /\
  ((forall f, In f (FileQueue s) -> ZMap.find f (FileNodes s) <> None) ->
   FileNodes s' = FileNodes s) /\
  (forall F, FileInv F s -> FileNodes s' = FileNodes s) /\
  FileCount s' = FileCount s /\
  NodeCount s' = NodeCount s /\ DeclNodes s' = DeclNodes s /\
  TypeNodes s' = TypeNodes s /\ Queue s' = Queue s /\
  file_ids_of files = map (fun f => file_index f s) (FileQueue s) /\
  render encodeXML files =
  String.concat ""
    (map (fun f => file_text encodeXML (file_index f s) (getFileName ast f)) (FileQueue s)).
Proof.
  cbv zeta. unfold ProcessFileQueue. rewrite bind_eq. cbn [gets fst snd].
  rewrite (ProcessFileQueue_loop ast (FileQueue s) s eq_refl).
  split; [reflexivity|]. split; [reflexivity|].
  split; [intros f; apply touch_all_find|].
  split; [intros f; apply touch_all_index|].
  split; [intros H; apply touch_all_registered; exact H|].
  split; [intros F HF; apply touch_all_registered;
          exact (FileInv_queue_registered F s HF)|].
  repeat (split; [reflexivity|]).
  split; [apply file_elements_file_ids|].
  induction (FileQueue s) as [|f q IH]; [reflexivity|].
  cbn [flat_map map]. rewrite render_app, IH, render_file_element.
  destruct q as [|g q]; [cbn [map String.concat]; apply append_nil_r|].
  reflexivity.
Qed.

Lemma ProcessFileQueue_writes_the_file_list_witness :
  let s := snd (AddDumpFile 7 ASTVisitor_init) in
  (FileNodes (snd (ProcessFileQueue ex_ast s)) = FileNodes s /\
   FileNodes s = [(7, 1)] /\ FileQueue s = [7]) /\
  (FileNodes (snd (ProcessFileQueue ex_ast files_state)) = [(7, 1); (9, 0)] /\
   file_ids_of (OS (snd (ProcessFileQueue ex_ast files_state))) = [1; 0]).
Proof.
  cbv zeta. split.
  - split; [|split; reflexivity].
    apply (ProcessFileQueue_writes_the_file_list (fun x => x) ex_ast
             (snd (AddDumpFile 7 ASTVisitor_init))).
    intros f [<-|[]]. discriminate.
  - split; reflexivity.
Defined.

From Stdlib Require Import ZArith List String Ascii Bool Lia Sorted Permutation.
Import ListNotations.
Local Open Scope string_scope.
Local Open Scope list_scope.
Local Open Scope Z_scope.

(* ------------------------------------------------------------------------- *)
(** ** The indices have no gap *)

Lemma in_numbers (n i : Z) : In i (numbers n) <-> 1 <= i <= n.
Proof.
  unfold numbers. rewrite in_map_iff. split.
  - intros (x & <- & Hx). apply in_seq in Hx. lia.
  - intros H. exists (Z.to_nat i). split; [lia|]. apply in_seq. lia.
Qed.

Lemma numbers_NoDup (n : Z) : NoDup (numbers n).
Proof.
  unfold numbers. apply Injective_map_NoDup_local; [|apply seq_NoDup].
  intros a b H. lia.
Qed.

Lemma length_numbers (n : Z) : List.length (numbers n) = Z.to_nat n.
Proof. unfold numbers. rewrite length_map, length_seq. reflexivity. Qed.

Section Dense.
Variables D T : list Z.
Hypothesis room : Z.of_nat (List.length D + List.length T) < 2 ^ 32 - 1.

Lemma NodeInv_dense s i :
  NodeInv D T s -> 1 <= i <= NodeCount s ->
  exists k, registered k s = true /\ Index (deref k s) = i.
Proof.
  intros HN Hi.
  set (keysL := map KindDecl (ZMap.keys (DeclNodes s)) ++
                map KindType (ZMap.keys (TypeNodes s))).
  assert (Hreg : forall k, In k keysL <-> registered k s = true).
  { intros k. rewrite (registered_keys k s (inv_sorted_decl D T s HN)
                         (inv_sorted_type D T s HN)).
    unfold keysL. rewrite in_app_iff, !in_map_iff. destruct k as [d|t]; split.
    - intros [(x & E & Hx)|(x & E & Hx)]; [injection E as <-; exact Hx|discriminate].
    - intros H. left. exists d. auto.
    - intros [(x & E & Hx)|(x & E & Hx)]; [discriminate|injection E as <-; exact Hx].
    - intros H. right. exists t. auto. }
  assert (Hnd : NoDup keysL).
  { unfold keysL. apply NoDup_app.
    - apply Injective_map_NoDup_local; [intros a b E; congruence|].
      apply sorted_NoDup, (inv_sorted_decl D T s HN).
    - apply Injective_map_NoDup_local; [intros a b E; congruence|].
      apply sorted_NoDup, (inv_sorted_type D T s HN).
    - intros a Ha Hb. apply in_map_iff in Ha. apply in_map_iff in Hb.
      destruct Ha as (x & <- & _). destruct Hb as (y & E & _). discriminate. }
  assert (Hlen : List.length keysL = Z.to_nat (NodeCount s)).
  { unfold keysL. rewrite length_app, !length_map. unfold ZMap.keys.
    rewrite !length_map. rewrite (inv_count D T s HN). lia. }
  set (idx := map (fun k => Index (deref k s)) keysL).
  assert (Hidx : NoDup idx).
  { apply NoDup_map_NoDup_ForallPairs; [|exact Hnd].
    intros a b Ha Hb E. apply (inv_inj D T s HN a b); [apply Hreg, Ha|apply Hreg, Hb|exact E]. }
  assert (Hincl : incl idx (numbers (NodeCount s))).
  { intros x Hx. apply in_map_iff in Hx. destruct Hx as (k & <- & Hk).
    apply in_numbers, (inv_index D T s HN k), Hreg, Hk. }
  assert (Hback : incl (numbers (NodeCount s)) idx).
  { apply NoDup_length_incl; [exact Hidx| |exact Hincl].
    rewrite length_numbers. unfold idx. rewrite (length_map _ keysL), Hlen. lia. }
  assert (Hin : In i idx) by (apply Hback, in_numbers; exact Hi).
  apply in_map_iff in Hin. destruct Hin as (k & E & Hk).
  exists k. split; [apply Hreg, Hk|exact E].
Qed.

End Dense.

Lemma finish_registries ast s :
  let sf := snd (HandleTranslationUnit_finish ast s) in
  DeclNodes sf = DeclNodes s /\ TypeNodes sf = TypeNodes s.
Proof. cbv zeta. rewrite HandleTranslationUnit_finish_eq. split; reflexivity. Qed.

(** X9.  The indices of a dump have no gap.  In the dump of a finite
    translation unit [NodeCount] is the number of registered identities,
    every number from 1 to [NodeCount] is the index of one of them, the
    document carries no id outside this range, and every number of the
    range is the id of exactly one element unless it is the index of a
    type with local qualifiers.  When the translation unit has no such
    type, the ids of the document are a permutation of 1, ...,
    [NodeCount]. *)
Theorem node_indices_have_no_gap (ast : ASTContext) (tu : Decl) (D T F : list Z)
  (StartNames : list string) :
  ASTFinite ast tu D T F -> dense_ids ast tu D T StartNames.
Proof.
  intros fin. unfold dense_ids.
  destruct (dump_total ast tu D T F fin StartNames)
    as (s1 & s2 & _ & _ & _ & _ & _ & _ & _ & _ & H2 & Q2 & R2 & E).
  pose proof (fin_nodes ast tu D T F fin) as room.
  destruct (finish_frame ast s2) as (Hreg & Hder & Hnc & _). cbv zeta in Hreg, Hder, Hnc.
  destruct (finish_registries ast s2) as (HD & HT). cbv zeta in HD, HT.
  pose proof (finish_ids ast s2) as Hids.
  pose proof (dinv_node D T F s2 H2) as HN. pose proof (dinv_emit D T F s2 H2) as HE.
  set (sf := snd (HandleTranslationUnit_finish ast s2)) in *.
  assert (Hone : forall k, registered k s2 = true -> emitting k = true ->
            count_occ Z.eq_dec (ids_of (OS s2)) (Index (deref k s2)) = 1%nat).
  { intros k Hk Hem. pose proof (emit_once s2 HE k Hk Hem) as Ho.
    rewrite R2, Q2 in Ho. cbn in Ho. exact Ho. }
  assert (Hcase : forall i, 1 <= i <= NodeCount s2 ->
            count_occ Z.eq_dec (ids_of (OS s2)) i = 1%nat \/
            exists t, hasLocalQualifiers t = true /\ registered (KindType t) s2 = true /\
                      Index (deref (KindType t) s2) = i).
  { intros i Hi. destruct (NodeInv_dense D T room s2 i HN Hi) as (k & Hk & <-).
    destruct (emitting k) eqn:Hem; [left; apply Hone; assumption|].
    right. destruct k as [d|t]; [discriminate|]. exists t.
    cbn in Hem. apply negb_false_iff in Hem. auto. }
  exists sf. split; [exact E|].
  split; [rewrite Hnc, HD, HT; apply (inv_count D T s2 HN)|].
  split.
  { intros i Hi. rewrite Hnc in Hi.
    destruct (NodeInv_dense D T room s2 i HN Hi) as (k & Hk & Hx).
    exists k. rewrite Hreg, Hder. auto. }
  split; [intros i Hi; rewrite Hids in Hi; rewrite Hnc; apply (emit_bound s2 HE i Hi)|].
  split.
  { intros i Hi. rewrite Hnc in Hi. rewrite Hids.
    destruct (Hcase i Hi) as [H|(t & Hq & Hr & Hx)]; [left; exact H|].
    right. exists t. rewrite Hreg, Hder. auto. }
  intros Hunq. rewrite Hids, Hnc.
  assert (Hall : forall i, 1 <= i <= NodeCount s2 ->
            count_occ Z.eq_dec (ids_of (OS s2)) i = 1%nat).
  { intros i Hi. destruct (Hcase i Hi) as [H|(t & Hq & Hr & _)]; [exact H|].
    pose proof (inv_universe D T s2 HN (KindType t) Hr) as Hu. cbn in Hu.
    rewrite (Hunq t Hu) in Hq. discriminate. }
  apply NoDup_Permutation.
  - apply (NoDup_count_occ' Z.eq_dec). intros x Hx.
    apply Hall, (emit_bound s2 HE x Hx).
  - apply numbers_NoDup.
  - intros x. rewrite in_numbers. split; [apply (emit_bound s2 HE)|].
    intros Hx. apply (count_occ_In Z.eq_dec). rewrite (Hall x Hx). lia.
Qed.

Lemma node_indices_have_no_gap_witness :
  dense_ids ex_ast 100 ex_decls ex_types [].
Proof.
  apply (node_indices_have_no_gap ex_ast 100 ex_decls ex_types ex_files []).
  apply ex_ast_finite.
Defined.
From Stdlib Require Import ZArith List String Ascii Bool Lia Sorted Permutation.
Import ListNotations.
Local Open Scope string_scope.
Local Open Scope list_scope.
Local Open Scope Z_scope.

(* ------------------------------------------------------------------------- *)
(** ** The start nodes *)

Lemma numbers_S (n : nat) :
  numbers (Z.of_nat (S n)) = numbers (Z.of_nat n) ++ [Z.of_nat n + 1].
Proof.
  unfold numbers. rewrite !Nat2Z.id, seq_S, map_app. cbn [map]. f_equal. f_equal. lia.
Qed.

Lemma existsb_eqb_In (x : Z) (l : list Z) : existsb (Z.eqb x) l = true <-> In x l.
Proof.
  rewrite existsb_exists. split.
  - intros (y & Hy & E). apply Z.eqb_eq in E. subst. exact Hy.
  - intros H. exists x. split; [exact H|apply Z.eqb_refl].
Qed.

Lemma HandleTranslationUnit_start_eq ast names tu s :
  snd (HandleTranslationUnit_start ast names tu s) =
  with_out [Str prolog]
    (snd (for_each (start_decls ast names tu)
            (fun i => AddDumpNode_Decl ast i true ;;; ret tt) s)).
Proof.
  unfold HandleTranslationUnit_start. rewrite bind_eq, out_with_out. cbn [snd].
  f_equal. destruct names as [|n names].
  - cbn [start_decls for_each]. rewrite !bind_eq. reflexivity.
  - unfold start_decls. rewrite for_each_flat_map. f_equal.
    apply for_each_ext. intros x s' _. apply LookupStart_StartSet.
Qed.

Lemma for_each_register_cons ast (d : Decl) (l : list Decl) s :
  snd (for_each (d :: l) (fun i => AddDumpNode_Decl ast i true ;;; ret tt) s) =
  snd (for_each l (fun i => AddDumpNode_Decl ast i true ;;; ret tt)
         (snd (Register (KindDecl (getCanonicalDecl ast d)) true s))).
Proof.
  cbn [for_each]. rewrite !bind_eq. cbn [ret snd].
  unfold AddDumpNode_Decl. rewrite AddDumpNodeImpl_Register. reflexivity.
Qed.

Section StartNodes.
Variables (ast : ASTContext) (D : list Z).
Hypothesis room : Z.of_nat (List.length D) < 2 ^ 32 - 1.

Lemma StartInv_register (d : Decl) (q : list Decl) (s : ASTVisitor) :
  In (getCanonicalDecl ast d) D -> StartInv D q s ->
  let x := getCanonicalDecl ast d in
  StartInv D (q ++ (if existsb (Z.eqb x) q then [] else [x]))
    (snd (Register (KindDecl x) true s)) /\
  OS (snd (Register (KindDecl x) true s)) = OS s.
Proof.
  intros Hd HI. cbv zeta. split; [|apply OS_Register].
  set (x := getCanonicalDecl ast d) in *. set (k := KindDecl x).
  destruct (Register_frame k true s) as (_ & _ & _ & _ & Hrc). cbv zeta in Hrc.
  assert (Hstab : forall d', In d' q ->
            Index (deref (KindDecl d') (snd (Register k true s))) =
            Index (deref (KindDecl d') s) /\
            Complete (deref (KindDecl d') (snd (Register k true s))) = true /\
            seen (KindDecl d') (snd (Register k true s)) = true).
  { intros d' Hd'. apply (sti_seen D q s HI) in Hd' as Hs.
    destruct (Register_stable k true s (KindDecl d') Hs) as (H1 & H2 & H3).
    cbv zeta in H1, H2, H3. split; [exact H2|]. split; [|exact H1].
    apply H3, (sti_complete D q s HI d' Hd'). }
  destruct (existsb (Z.eqb x) q) eqn:Hex.
  - apply existsb_eqb_In in Hex. rewrite app_nil_r.
    apply (sti_seen D q s HI) in Hex as Hs.
    destruct (Register_seen k true s Hs) as (_ & _ & Hn & Hq). cbv zeta in Hn, Hq.
    pose proof (sti_complete D q s HI x Hex) as Hc. fold k in Hc.
    rewrite Hc in Hq. cbn in Hq. rewrite app_nil_r in Hq.
    constructor.
    + apply (sti_nodup D q s HI).
    + apply (sti_incl D q s HI).
    + rewrite Hrc. apply (sti_rc D q s HI).
    + rewrite Hq. apply (sti_queue D q s HI).
    + rewrite Hn. apply (sti_count D q s HI).
    + intros d'. split; [|intros H; apply (Hstab d' H)].
      intros H. destruct (Z.eq_dec x d') as [<-|Hne]; [exact Hex|].
      unfold k in H. rewrite seen_other in H by congruence.
      apply (sti_seen D q s HI), H.
    + intros d' H. apply (Hstab d' H).
    + rewrite <- (sti_index D q s HI). apply map_ext_in. intros d' H. apply (Hstab d' H).
  - assert (Hnot : ~ In x q).
    { intros H. apply existsb_eqb_In in H. congruence. }
    assert (Hs : seen k s = false).
    { destruct (seen k s) eqn:E; [|reflexivity].
      apply (sti_seen D q s HI) in E. contradiction. }
    assert (Hlen : (S (List.length q) <= List.length D)%nat).
    { change (S (List.length q)) with (List.length (x :: q)).
      apply NoDup_incl_length.
      - constructor; [exact Hnot|apply (sti_nodup D q s HI)].
      - intros y [<-|Hy]; [exact Hd|apply (sti_incl D q s HI y Hy)]. }
    destruct (Register_unseen k true s Hs) as (_ & Hdr & Hn & Hq). cbv zeta in Hdr, Hn, Hq.
    rewrite (sti_count D q s HI) in Hdr, Hn.
    rewrite (wrap32_small (Z.of_nat (List.length q) + 1)) in Hdr, Hn by lia.
    cbn [orb] in Hq.
    constructor.
    + apply NoDup_app; [apply (sti_nodup D q s HI)|repeat constructor; intros []|].
      intros a Ha [<-|[]]. contradiction.
    + intros y Hy. apply in_app_iff in Hy. destruct Hy as [Hy|[<-|[]]];
        [apply (sti_incl D q s HI y Hy)|exact Hd].
    + rewrite Hrc. apply (sti_rc D q s HI).
    + rewrite Hq, (sti_queue D q s HI), map_app. reflexivity.
    + rewrite Hn, length_app. cbn [List.length]. lia.
    + intros d'. rewrite in_app_iff. split.
      * intros H. destruct (Z.eq_dec x d') as [<-|Hne]; [right; left; reflexivity|].
        left. unfold k in H. rewrite seen_other in H by congruence.
        apply (sti_seen D q s HI), H.
      * intros [H|[<-|[]]]; [apply (Hstab d' H)|].
        unfold seen. fold k. rewrite Hdr. cbn [Index].
        apply negb_true_iff, Z.eqb_neq. lia.
    + intros d' H. apply in_app_iff in H. destruct H as [H|[<-|[]]];
        [apply (Hstab d' H)|]. fold k. rewrite Hdr. reflexivity.
    + rewrite map_app, length_app. cbn [List.length map].
      replace (List.length q + 1)%nat with (S (List.length q)) by lia.
      rewrite numbers_S, <- (sti_index D q s HI). f_equal.
      * apply map_ext_in. intros d' H. apply (Hstab d' H).
      * fold k. rewrite Hdr. reflexivity.
Qed.

Lemma StartInv_register_list (l : list Decl) :
  forall q s,
  (forall d, In d l -> In (getCanonicalDecl ast d) D) -> StartInv D q s ->
  let s' := snd (for_each l (fun i => AddDumpNode_Decl ast i true ;;; ret tt) s) in
  StartInv D (q ++ first_occurrences q (map (getCanonicalDecl ast) l)) s' /\
  OS s' = OS s.
Proof.
  induction l as [|d l IH]; intros q s Hl HI; cbv zeta.
  - cbn. rewrite app_nil_r. auto.
  - rewrite for_each_register_cons. cbn [map first_occurrences].
    destruct (StartInv_register d q s (Hl d (or_introl eq_refl)) HI) as (H1 & HO).
    cbv zeta in H1, HO.
    destruct (IH _ _ (fun y Hy => Hl y (or_intror Hy)) H1) as (H2 & HO2).
    cbv zeta in H2, HO2. rewrite HO2, HO. split; [|reflexivity].
    destruct (existsb (Z.eqb (getCanonicalDecl ast d)) q).
    + rewrite app_nil_r in H2. exact H2.
    + rewrite <- app_assoc in H2. exact H2.
Qed.

End StartNodes.

Lemma StartInv_init D : StartInv D [] ASTVisitor_init.
Proof.
  constructor; try reflexivity.
  - constructor.
  - intros x [].
  - intros d. split; [discriminate|intros []].
  - intros d [].
Qed.

Lemma start_decls_in ast tu D T F names d :
  ASTFinite ast tu D T F -> In d (start_decls ast names tu) ->
  In (getCanonicalDecl ast d) D.
Proof.
  intros fin Hd. apply (fin_canonical ast tu D T F fin).
  destruct names as [|n names]; [destruct Hd as [<-|[]]; apply (fin_tu ast tu D T F fin)|].
  unfold start_decls in Hd. apply in_flat_map in Hd. destruct Hd as (m & _ & Hd).
  apply (StartSet_rec_in ast tu D T F fin _ tu m d (fin_tu ast tu D T F fin) Hd).
Qed.

Lemma queue_ids_decls (q : list Decl) s :
  queue_ids (map KindDecl q) s = map (fun d => Index (deref (KindDecl d) s)) q.
Proof.
  induction q as [|d q IH]; [reflexivity|].
  cbn [map]. rewrite queue_ids_cons, IH. reflexivity.
Qed.

(** X10.  The document begins with the start nodes.  In the dump of a
    finite translation unit the declarations that the start names select
    (the translation unit itself when there is no start name) are queued
    once each, as their canonical declarations and in the order of their
    first lookup; they are complete and carry the indices 1, 2, ... in
    this order; and their elements are the first node elements of the
    document, in this order. *)
Theorem start_nodes_are_numbered_and_emitted_first
  (ast : ASTContext) (tu : Decl) (D T F : list Z) (StartNames : list string) :
  ASTFinite ast tu D T F -> start_nodes_first ast tu D T StartNames.
Proof.
  intros fin. unfold start_nodes_first.
  assert (room : Z.of_nat (List.length D) < 2 ^ 32 - 1).
  { pose proof (fin_nodes ast tu D T F fin). lia. }
  destruct (StartInv_register_list ast D room (start_decls ast StartNames tu) []
              ASTVisitor_init
              (fun d Hd => start_decls_in ast tu D T F StartNames d fin Hd)
              (StartInv_init D)) as (HI & HO).
  cbv zeta in HI, HO. cbn [app] in HI. fold (start_nodes ast StartNames tu) in HI.
  set (starts := start_nodes ast StartNames tu) in *.
  pose proof (HandleTranslationUnit_start_eq ast StartNames tu ASTVisitor_init) as Hs0.
  set (s0 := snd (HandleTranslationUnit_start ast StartNames tu ASTVisitor_init)) in *.
  set (sr := snd (for_each (start_decls ast StartNames tu)
                    (fun i => AddDumpNode_Decl ast i true ;;; ret tt) ASTVisitor_init)) in *.
  assert (Hder : forall k, deref k s0 = deref k sr)
    by (intros k; rewrite Hs0; apply deref_with_out).
  assert (HQ : Queue s0 = map KindDecl starts)
    by (rewrite Hs0; apply (sti_queue D starts sr HI)).
  assert (HN : NodeCount s0 = Z.of_nat (List.length starts))
    by (rewrite Hs0; apply (sti_count D starts sr HI)).
  assert (Hidx : map (fun d => Index (deref (KindDecl d) s0)) starts = numbers (NodeCount s0)).
  { rewrite HN, <- (sti_index D starts sr HI). apply map_ext. intros d. rewrite Hder.
    reflexivity. }
  split; [exact HQ|]. split; [exact HN|]. split; [exact Hidx|].
  split; [intros d Hd; rewrite Hder; apply (sti_complete D starts sr HI d Hd)|].
  destruct (dump_total ast tu D T F fin StartNames)
    as (s1 & s2 & H0 & _ & E1 & H1 & Q1 & R1 & _ & E2 & _ & _ & _ & E).
  fold s0 in H0, E1.
  destruct (sweep_DumpInv D T F s1 H1 Q1 R1) as (_ & _ & _ & Ow & _). cbv zeta in Ow.
  assert (S0 : forall k, In k (Queue s0) -> seen k s0 = true).
  { intros k Hk. rewrite HQ in Hk. apply in_map_iff in Hk. destruct Hk as (d & <- & Hd).
    unfold seen. rewrite Hder. apply (sti_seen D starts sr HI d), Hd. }
  destruct (ProcessQueue_fifo_prefix ast _ s0 s1 (Queue s0) [] (eq_sym (app_nil_r _)) S0 E1)
    as (later & L1).
  destruct (ProcessQueue_OS ast _ _ _ E2) as (out2 & O2 & B2 & _).
  exists (snd (HandleTranslationUnit_finish ast s2)), (later ++ ids_of out2).
  split; [exact E|].
  rewrite finish_ids, O2, ids_of_app, Ow, L1 by exact B2.
  assert (Hos : ids_of (OS s0) = []).
  { rewrite Hs0, OS_with_out, HO. reflexivity. }
  rewrite Hos, HQ, queue_ids_decls, Hidx. cbn [app]. rewrite <- app_assoc. reflexivity.
Qed.

Lemma start_nodes_are_numbered_and_emitted_first_witness :
  start_nodes_first order_ast 100 order_decls order_types order_names.
Proof.
  apply (start_nodes_are_numbered_and_emitted_first order_ast 100 order_decls order_types
           ex_files order_names).
  apply order_ast_finite.
Defined.
From Stdlib Require Import ZArith List String Ascii Bool Lia Sorted Permutation.
Import ListNotations.
Local Open Scope string_scope.
Local Open Scope list_scope.
Local Open Scope Z_scope.

(* ------------------------------------------------------------------------- *)
(** ** References *)

Lemma node_refs_of_app a b :
  block b -> node_refs_of (a ++ b) = node_refs_of a ++ node_refs_of b.
Proof.
  intros Hb. induction a as [|c a IH]; [reflexivity|].
  destruct a as [|c' a].
  - simpl. destruct c as [x| |]; try reflexivity.
    destruct b as [|[ | |] b]; try reflexivity. destruct Hb.
  - change ((c :: c' :: a) ++ b) with (c :: (c' :: a) ++ b).
    cbn [node_refs_of]. change ((c' :: a) ++ b) with (c' :: a ++ b) in *.
    destruct c as [x| |]; try exact IH.
    destruct c' as [|n|]; try exact IH.
    destruct (String.eqb x "_" || String.eqb x context_open); [|exact IH].
    rewrite <- app_comm_cons. f_equal. exact IH.
Qed.

Lemma file_refs_of_app a b :
  block b -> file_refs_of (a ++ b) = file_refs_of a ++ file_refs_of b.
Proof.
  intros Hb. induction a as [|c a IH]; [reflexivity|].
  destruct a as [|c' a].
  - simpl. destruct c as [x| |]; try reflexivity.
    destruct b as [|[ | |] b]; try reflexivity. destruct Hb.
  - change ((c :: c' :: a) ++ b) with (c :: (c' :: a) ++ b).
    cbn [file_refs_of]. change ((c' :: a) ++ b) with (c' :: a ++ b) in *.
    destruct c as [x| |]; try exact IH.
    destruct c' as [|n|]; try exact IH.
    destruct (String.eqb x location_open || String.eqb x file_attr_open); [|exact IH].
    rewrite <- app_comm_cons. f_equal. exact IH.
Qed.

Lemma node_refs_of_members_chunks ids sep :
  (sep = "" \/ sep = " ") -> node_refs_of (members_chunks ids sep) = ids.
Proof.
  revert sep. induction ids as [|i ids IH]; intros sep Hsep; [reflexivity|].
  cbn [members_chunks]. destruct Hsep as [-> | ->]; cbn; f_equal; apply IH; auto.
Qed.

Lemma file_refs_of_members_chunks ids sep :
  (sep = "" \/ sep = " ") -> file_refs_of (members_chunks ids sep) = [].
Proof.
  revert sep. induction ids as [|i ids IH]; intros sep Hsep; [reflexivity|].
  cbn [members_chunks]. destruct Hsep as [-> | ->]; cbn; apply IH; auto.
Qed.

Lemma members_chunks_block ids sep : block (members_chunks ids sep).
Proof. destruct ids; exact I. Qed.

Lemma valid_ref_ext s s' i :
  (forall k, deref k s' = deref k s) -> valid_ref s i -> valid_ref s' i.
Proof.
  intros H (k & Hs & He & Hi). exists k. unfold seen in *. rewrite H. auto.
Qed.

Lemma valid_ref_Register k c s i :
  valid_ref s i -> valid_ref (snd (Register k c s)) i.
Proof.
  intros (k' & Hs & He & Hi).
  destruct (Register_stable k c s k' Hs) as (H1 & H2 & _). cbv zeta in H1, H2.
  exists k'. rewrite H2. auto.
Qed.

Lemma file_index_ext f s s' : FileNodes s' = FileNodes s -> file_index f s' = file_index f s.
Proof. intros H. unfold file_index. rewrite H. reflexivity. Qed.

Lemma RefInv_same s s' :
  OS s' = OS s -> (forall k, deref k s' = deref k s) ->
  FileNodes s' = FileNodes s -> FileQueue s' = FileQueue s ->
  RefInv s -> RefInv s'.
Proof.
  intros HO Hd HF HQ HR. constructor.
  - intros i Hi. rewrite HO in Hi. apply (valid_ref_ext s s' i Hd), (ref_node s HR i Hi).
  - intros i Hi. rewrite HO in Hi. destruct (ref_file s HR i Hi) as (Hz & f & Hf).
    split; [exact Hz|]. exists f. rewrite (file_index_ext f s s' HF). exact Hf.
  - intros f Hf. rewrite (file_index_ext f s s' HF) in Hf. rewrite HQ.
    apply (ref_queued s HR f Hf).
Qed.

Lemma RefInv_with_out cs s :
  block cs ->
  (forall i, In i (node_refs_of cs) -> valid_ref s i) ->
  (forall i, In i (file_refs_of cs) -> valid_file_ref s i) ->
  RefInv s -> RefInv (with_out cs s).
Proof.
  intros Hb Hn Hf HR. constructor.
  - intros i Hi. rewrite OS_with_out, node_refs_of_app in Hi by exact Hb.
    apply (valid_ref_ext s); [intros k; apply deref_with_out|].
    apply in_app_iff in Hi.
    destruct Hi as [Hi|Hi]; [apply (ref_node s HR i Hi)|exact (Hn i Hi)].
  - intros i Hi. rewrite OS_with_out, file_refs_of_app in Hi by exact Hb.
    apply in_app_iff in Hi.
    destruct Hi as [Hi|Hi]; [exact (ref_file s HR i Hi)|exact (Hf i Hi)].
  - intros f Hq. exact (ref_queued s HR f Hq).
Qed.

Lemma RefInv_Register k c s : RefInv s -> RefInv (snd (Register k c s)).
Proof.
  intros HR.
  destruct (Register_frame k c s) as (HO & _ & HF & HQ & _). cbv zeta in HO, HF, HQ.
  constructor.
  - intros i Hi. rewrite HO in Hi. apply valid_ref_Register, (ref_node s HR i Hi).
  - intros i Hi. rewrite HO in Hi. destruct (ref_file s HR i Hi) as (Hz & f & Hf).
    split; [exact Hz|]. exists f. rewrite (file_index_ext f s _ HF). exact Hf.
  - intros f Hf. rewrite (file_index_ext f s _ HF) in Hf. rewrite HQ.
    apply (ref_queued s HR f Hf).
Qed.

Lemma valid_file_ref_RegisterFile f s i :
  valid_file_ref s i -> valid_file_ref (snd (RegisterFile f s)) i.
Proof.
  intros (Hz & g & Hg). split; [exact Hz|]. exists g.
  destruct (Z.eq_dec g f) as [->|Hne].
  - rewrite RegisterFile_known by (rewrite Hg; exact Hz). exact Hg.
  - rewrite RegisterFile_other by exact Hne. exact Hg.
Qed.

Lemma RefInv_RegisterFile f s : RefInv s -> RefInv (snd (RegisterFile f s)).
Proof.
  intros HR.
  destruct (RegisterFile_frame f s) as (HO & _ & _ & _ & _ & _). cbv zeta in HO.
  constructor.
  - intros i Hi. rewrite HO in Hi.
    apply (valid_ref_ext s); [intros k; apply deref_RegisterFile|].
    apply (ref_node s HR i Hi).
  - intros i Hi. rewrite HO in Hi.
    apply valid_file_ref_RegisterFile, (ref_file s HR i Hi).
  - intros g Hg. rewrite RegisterFile_FileQueue. apply in_app_iff.
    destruct (Z.eq_dec g f) as [->|Hne].
    + destruct (file_index f s =? 0) eqn:Hz; [right; left; reflexivity|].
      left. apply (ref_queued s HR f). apply Z.eqb_neq. exact Hz.
    + rewrite RegisterFile_other in Hg by exact Hne. left. apply (ref_queued s HR g Hg).
Qed.

Lemma RefInv_init : RefInv ASTVisitor_init.
Proof.
  constructor.
  - intros i [].
  - intros i [].
  - intros f Hf. exfalso. apply Hf. reflexivity.
Qed.
From Stdlib Require Import ZArith List String Ascii Bool Lia Sorted Permutation.
Import ListNotations.
Local Open Scope string_scope.
Local Open Scope list_scope.
Local Open Scope Z_scope.

(* ------------------------------------------------------------------------- *)
(** ** The references that the methods write *)

Lemma AddDumpNode_Decl_Register ast d c s :
  AddDumpNode_Decl ast d c s = Register (KindDecl (getCanonicalDecl ast d)) c s.
Proof. unfold AddDumpNode_Decl. apply AddDumpNodeImpl_Register. Qed.

Lemma valid_ref_register_all ast ds s i :
  valid_ref s i -> valid_ref (snd (register_all ast ds s)) i.
Proof.
  revert s. induction ds as [|d ds IH]; intros s H; [exact H|].
  cbn [register_all snd]. apply IH. unfold AddDumpNode_Decl.
  rewrite AddDumpNodeImpl_Register. apply valid_ref_Register, H.
Qed.

Lemma id_set_In ids i : In i (id_set ids) -> In i ids.
Proof.
  unfold id_set. intros H. apply fold_insert_In in H. destruct H as [[]|[H _]]. exact H.
Qed.

Lemma context_chunks_refs id record a :
  block (context_chunks id record a) /\
  ids_of (context_chunks id record a) = [] /\
  file_ids_of (context_chunks id record a) = [] /\
  node_refs_of (context_chunks id record a) = [id] /\
  file_refs_of (context_chunks id record a) = [].
Proof. destruct record; repeat split; reflexivity. Qed.

Section Refs.
Variables (ast : ASTContext) (tu : Decl) (D T F : list Z).
Hypothesis fin : ASTFinite ast tu D T F.
Variable allow : bool.

Lemma finite_node_room : Z.of_nat (List.length D + List.length T) < 2 ^ 32 - 1.
Proof. exact (fin_nodes ast tu D T F fin). Qed.

Lemma finite_file_room : Z.of_nat (List.length F) < 2 ^ 32 - 1.
Proof. exact (fin_files ast tu D T F fin). Qed.

Lemma FileInv_room s : FileInv F s -> 0 <= FileCount s /\ FileCount s + 1 < 2 ^ 32.
Proof.
  intros HI.
  assert (Hlen : (List.length (FileNodes s) <= List.length F)%nat).
  { rewrite <- (length_map fst (FileNodes s)). apply NoDup_incl_length.
    - apply (sorted_NoDup (FileNodes s)), (finv_sorted F s HI).
    - intros x Hx. apply (finv_universe F s HI x Hx). }
  rewrite (finv_count F s HI). pose proof finite_file_room. lia.
Qed.

Lemma Good_out cs x :
  Good D T F allow x -> block cs -> ids_of cs = [] -> file_ids_of cs = [] ->
  (forall i, In i (node_refs_of cs) -> valid_ref x i) ->
  (forall i, In i (file_refs_of cs) -> valid_file_ref x i) ->
  Good D T F allow (with_out cs x).
Proof.
  intros (HD & HR & Hrc) Hb Hi Hf Hn Hfr. split; [|split].
  - apply (step_DumpInv D T F finite_node_room finite_file_room allow (EOut cs) x HD); [|exact Hrc].
    cbn. auto.
  - apply RefInv_with_out; assumption.
  - exact Hrc.
Qed.

Lemma Good_plain cs x :
  Good D T F allow x -> block cs -> ids_of cs = [] -> file_ids_of cs = [] ->
  node_refs_of cs = [] -> file_refs_of cs = [] ->
  Good D T F allow (with_out cs x).
Proof.
  intros HG Hb Hi Hf Hn Hfr. apply Good_out; try assumption.
  - rewrite Hn. intros i [].
  - rewrite Hfr. intros i [].
Qed.

Lemma Good_register k c x :
  Good D T F allow x -> in_universe D T k -> (c = true -> allow = true) ->
  Good D T F allow (snd (Register k c x)) /\
  (emitting k = true -> valid_ref (snd (Register k c x)) (fst (Register k c x))).
Proof.
  intros (HD & HR & Hrc) Hk Hc. split; [split; [|split]|].
  - apply (step_DumpInv D T F finite_node_room finite_file_room allow (ERegister k c) x HD); [|exact Hrc].
    cbn. auto.
  - apply RefInv_Register, HR.
  - destruct (Register_frame k c x) as (_ & _ & _ & _ & E). cbv zeta in E.
    rewrite E. exact Hrc.
  - intros He. exists k.
    destruct (NodeInv_room D T finite_node_room x (dinv_node D T F x HD)) as (H0 & H1).
    destruct (Register_room k c x H0 H1) as (Hs & _). cbv zeta in Hs.
    split; [exact Hs|]. split; [exact He|]. symmetry. apply Register_returns.
Qed.

Lemma Good_file f x :
  Good D T F allow x -> In f F ->
  Good D T F allow (snd (RegisterFile f x)) /\
  valid_file_ref (snd (RegisterFile f x)) (fst (RegisterFile f x)).
Proof.
  intros (HD & HR & Hrc) Hf. split; [split; [|split]|].
  - apply (step_DumpInv D T F finite_node_room finite_file_room allow (ERegisterFile f) x HD);
      [exact Hf|exact Hrc].
  - apply RefInv_RegisterFile, HR.
  - destruct (RegisterFile_frame f x) as (_ & _ & _ & _ & _ & E). cbv zeta in E.
    rewrite E. exact Hrc.
  - destruct (FileInv_room x (dinv_file D T F x HD)) as (H0 & H1).
    destruct (RegisterFile_index f x H0 H1) as (Hi & Hz).
    split; [exact Hz|]. exists f. exact Hi.
Qed.

Lemma PrintNameAttribute_good name x :
  Good D T F allow x -> Good D T F allow (snd (PrintNameAttribute name x)).
Proof.
  intros HG. unfold PrintNameAttribute. rewrite out_with_out. cbn [snd].
  apply Good_plain; [exact HG|exact I|reflexivity..].
Qed.

Lemma PrintTypeAttribute_good t c x :
  in_universe D T (KindType t) ->
  in_universe D T (KindType (getLocalUnqualifiedType t)) ->
  (c = true -> allow = true) ->
  Good D T F allow x -> Good D T F allow (snd (PrintTypeAttribute t c x)).
Proof.
  intros Ht Hu Hc HG. unfold PrintTypeAttribute.
  rewrite !bind_eq, !out_with_out. cbn [snd]. rewrite PrintTypeIdRef_out. cbn [snd].
  apply Good_plain; [|exact I|reflexivity..].
  set (x1 := with_out _ x).
  assert (H1 : Good D T F allow x1)
    by (apply Good_plain; [exact HG|exact I|reflexivity..]).
  assert (H2 : Good D T F allow (snd (GetTypeIdRef t c x1)) /\
               valid_ref (snd (GetTypeIdRef t c x1))
                 (Index (deref (KindType (getLocalUnqualifiedType t))
                           (snd (GetTypeIdRef t c x1))))).
  { rewrite GetTypeIdRef_Register. cbv zeta.
    destruct (Good_register (KindType t) c x1 H1 Ht Hc) as (Ha & Hva).
    destruct (hasLocalQualifiers t) eqn:Hq.
    - destruct (Good_register (KindType (getLocalUnqualifiedType t)) c _ Ha Hu Hc)
        as (Hb & Hvb).
      cbn [snd]. split; [exact Hb|]. rewrite <- Register_returns. apply Hvb.
      cbn. rewrite getLocalUnqualifiedType_unqualified. reflexivity.
    - cbn [snd]. split; [exact Ha|]. rewrite (unqualified_fixed t Hq).
      rewrite <- Register_returns. apply Hva. cbn. rewrite Hq. reflexivity. }
  destruct H2 as (H2 & Hv).
  apply Good_out; [exact H2|exact I|reflexivity|reflexivity| |].
  - cbn. intros i [<-|[]]. exact Hv.
  - cbn. intros i [].
Qed.

Lemma PrintContextAttribute_good d x :
  (forall p, dyn_cast_Decl ast (getDeclContext ast d) = Some p ->
             in_universe D T (KindDecl (getCanonicalDecl ast p))) ->
  Good D T F allow x -> Good D T F allow (snd (PrintContextAttribute ast d x)).
Proof.
  intros Hp HG. rewrite PrintContextAttribute_eq. cbn [snd].
  destruct (dyn_cast_Decl ast (getDeclContext ast d)) as [p|]; [|exact HG].
  cbv zeta.
  destruct (Good_register (KindDecl (getCanonicalDecl ast p)) false x HG (Hp p eq_refl)
              ltac:(discriminate)) as (H1 & Hv).
  destruct (fst (Register (KindDecl (getCanonicalDecl ast p)) false x) =? 0); [exact H1|].
  destruct (context_chunks_refs
              (fst (Register (KindDecl (getCanonicalDecl ast p)) false x))
              (isRecord ast (getDeclContext ast d)) (getAccess ast d))
    as (Hb & Hi & Hf & Hn & Hfr).
  apply Good_out; [exact H1|exact Hb|exact Hi|exact Hf| |].
  - rewrite Hn. intros i [<-|[]]. apply Hv. reflexivity.
  - rewrite Hfr. intros i [].
Qed.

Lemma PrintLocationAttribute_good d x :
  (forall f, getFileEntry ast d = Some f -> In f F) ->
  Good D T F allow x -> Good D T F allow (snd (PrintLocationAttribute ast d x)).
Proof.
  intros Hf HG. rewrite PrintLocationAttribute_eq. cbn [snd].
  destruct (locationIsValid ast d); [|exact HG].
  destruct (getFileEntry ast d) as [f|]; [|exact HG].
  destruct (Good_file f x HG (Hf f eq_refl)) as (H1 & Hv).
  apply Good_out; [exact H1|exact I|reflexivity|reflexivity| |].
  - cbn. intros i [].
  - cbn. intros i [<-|[<-|[]]]; exact Hv.
Qed.

Lemma register_all_good ds x :
  allow = true ->
  (forall y, In y ds -> in_universe D T (KindDecl (getCanonicalDecl ast y))) ->
  Good D T F allow x ->
  Good D T F allow (snd (register_all ast ds x)) /\
  (forall i, In i (fst (register_all ast ds x)) ->
             valid_ref (snd (register_all ast ds x)) i).
Proof.
  intros Ha. revert x. induction ds as [|d ds IH]; intros x Hds HG.
  - cbn. split; [exact HG|intros i []].
  - cbn [register_all fst snd]. rewrite !AddDumpNode_Decl_Register.
    destruct (Good_register (KindDecl (getCanonicalDecl ast d)) true x HG
                (Hds d (or_introl eq_refl)) (fun _ => Ha)) as (H1 & Hv).
    destruct (IH _ (fun y Hy => Hds y (or_intror Hy)) H1) as (H2 & Hvs).
    split; [exact H2|]. intros i [<-|Hi]; [|apply Hvs, Hi].
    apply valid_ref_register_all, Hv. reflexivity.
Qed.

Lemma PrintMembersAttribute_good dc x :
  allow = true ->
  (forall y, In y (decls ast dc) -> in_universe D T (KindDecl (getCanonicalDecl ast y))) ->
  Good D T F allow x -> Good D T F allow (snd (PrintMembersAttribute ast dc x)).
Proof.
  intros Ha Hds HG. rewrite PrintMembersAttribute_eq. cbv zeta. cbn [snd].
  destruct (register_all_good (kept_members ast dc) x Ha) as (H1 & Hv); [|exact HG|].
  { intros y Hy. apply Hds. unfold kept_members in Hy. apply filter_In in Hy. tauto. }
  destruct (id_set (fst (register_all ast (kept_members ast dc) x))) as [|i l] eqn:E;
    [exact H1|].
  change (Str (" members=" ++ dq) :: members_chunks (i :: l) "" ++ [Str dq])
    with ([Str (" members=" ++ dq)] ++ members_chunks (i :: l) "" ++ [Str dq]).
  apply Good_out; [exact H1|exact I| | | |].
  - rewrite !ids_of_app by exact I. rewrite ids_of_members_chunks. reflexivity.
  - rewrite !file_ids_of_app by exact I. rewrite file_ids_of_members_chunks. reflexivity.
  - rewrite !node_refs_of_app by exact I.
    rewrite node_refs_of_members_chunks by auto. cbn [node_refs_of app].
    rewrite app_nil_r. intros j Hj. apply Hv, id_set_In. rewrite E. exact Hj.
  - rewrite !file_refs_of_app by exact I.
    rewrite file_refs_of_members_chunks by auto. intros j [].
Qed.

End Refs.
From Stdlib Require Import ZArith List String Ascii Bool Lia Sorted Permutation.
Import ListNotations.
Local Open Scope string_scope.
Local Open Scope list_scope.
Local Open Scope Z_scope.

(* ------------------------------------------------------------------------- *)
(** ** No reference dangles *)

Lemma entry_header_refs ast qe i :
  node_refs_of (entry_header ast qe i) = [] /\ file_refs_of (entry_header ast qe i) = [].
Proof.
  destruct qe as [d|t]; simpl.
  - destruct (getKind ast d); split; reflexivity.
  - destruct (hasLocalQualifiers t); split; reflexivity.
Qed.

Lemma file_elements_refs ast s q :
  node_refs_of (flat_map (file_element ast s) q) = [] /\
  file_refs_of (flat_map (file_element ast s) q) = [].
Proof.
  induction q as [|f q (IH1 & IH2)]; [split; reflexivity|].
  cbn [flat_map]. rewrite node_refs_of_app, file_refs_of_app by apply file_elements_block.
  rewrite IH1, IH2. split; reflexivity.
Qed.

Section Dispatch.
Variables (ast : ASTContext) (tu : Decl) (D T F : list Z).
Hypothesis fin : ASTFinite ast tu D T F.

Lemma members_in_universe d y :
  In d D -> In y (decls ast d) -> in_universe D T (KindDecl (getCanonicalDecl ast y)).
Proof.
  intros Hd Hy. apply (fin_canonical ast tu D T F fin), (fin_decls ast tu D T F fin d y Hd Hy).
Qed.

Lemma context_in_universe d p :
  In d D -> dyn_cast_Decl ast (getDeclContext ast d) = Some p ->
  in_universe D T (KindDecl (getCanonicalDecl ast p)).
Proof.
  intros Hd Hp.
  apply (fin_canonical ast tu D T F fin), (fin_context ast tu D T F fin d p Hd Hp).
Qed.

Lemma OutputTranslationUnitDecl_good d dn s :
  getKind ast d = TranslationUnit -> In d D ->
  Good D T F (Complete (deref dn s))
    (with_out (entry_header ast (KindDecl d) (Index (deref dn s))) s) ->
  Good D T F (Complete (deref dn s)) (snd (OutputTranslationUnitDecl ast d dn s)).
Proof.
  intros Hk Hd. unfold OutputTranslationUnitDecl, entry_header. rewrite Hk.
  rewrite !bind_eq, !out_with_out. cbn [snd fst gets].
  rewrite PrintIdAttribute_out. cbn [snd]. rewrite !deref_with_out, with_out_app.
  cbn [app]. unfold PrintNameAttribute. rewrite !out_with_out. cbn [snd].
  rewrite ?deref_with_out. intros HG.
  apply (Good_plain ast tu D T F fin); [|exact I|reflexivity..].
  destruct (Complete (deref dn s)) eqn:Hc.
  - apply (PrintMembersAttribute_good ast tu D T F fin); [reflexivity| |].
    + intros y Hy. apply (members_in_universe d y Hd Hy).
    + apply (Good_plain ast tu D T F fin); [exact HG|exact I|reflexivity..].
  - cbn [ret snd]. apply (Good_plain ast tu D T F fin); [exact HG|exact I|reflexivity..].
Qed.

Lemma OutputNamespaceDecl_good d dn s :
  getKind ast d = Namespace -> In d D ->
  Good D T F (Complete (deref dn s))
    (with_out (entry_header ast (KindDecl d) (Index (deref dn s))) s) ->
  Good D T F (Complete (deref dn s)) (snd (OutputNamespaceDecl ast d dn s)).
Proof.
  intros Hk Hd. unfold OutputNamespaceDecl, entry_header. rewrite Hk.
  rewrite !bind_eq, !out_with_out. cbn [snd fst gets].
  rewrite PrintIdAttribute_out. cbn [snd]. rewrite !deref_with_out, with_out_app.
  cbn [app]. intros HG.
  set (s1 := with_out _ s) in *.
  assert (H1 : Good D T F (Complete (deref dn s))
                 (snd (PrintContextAttribute ast d
                         (snd (PrintNameAttribute (getName ast d) s1))))).
  { apply (PrintContextAttribute_good ast tu D T F fin).
    - intros p Hp. apply (context_in_universe d p Hd Hp).
    - apply (PrintNameAttribute_good ast tu D T F fin), HG. }
  apply (Good_plain ast tu D T F fin); [|exact I|reflexivity..].
  destruct (Complete (deref dn (snd (PrintContextAttribute ast d _)))) eqn:Hc.
  - apply PrintContextAttribute_Complete in Hc.
    unfold PrintNameAttribute in Hc. rewrite out_with_out in Hc. cbn [snd] in Hc.
    unfold s1 in Hc. rewrite !deref_with_out in Hc.
    apply (PrintMembersAttribute_good ast tu D T F fin); [exact Hc| |exact H1].
    intros y Hy. apply (members_in_universe d y Hd Hy).
  - cbn [ret snd]. exact H1.
Qed.

Lemma OutputTypedefDecl_good d dn s :
  getKind ast d = Typedef -> In d D ->
  Good D T F (Complete (deref dn s))
    (with_out (entry_header ast (KindDecl d) (Index (deref dn s))) s) ->
  Good D T F (Complete (deref dn s)) (snd (OutputTypedefDecl ast d dn s)).
Proof.
  intros Hk Hd. unfold OutputTypedefDecl, entry_header. rewrite Hk.
  rewrite !bind_eq, !out_with_out. cbn [snd fst gets].
  rewrite PrintIdAttribute_out. cbn [snd]. rewrite !deref_with_out, with_out_app.
  cbn [app]. unfold PrintNameAttribute. rewrite !out_with_out. cbn [snd].
  rewrite ?deref_with_out. intros HG.
  apply (Good_plain ast tu D T F fin); [|exact I|reflexivity..].
  apply (PrintLocationAttribute_good ast tu D T F fin);
    [intros f Hf; apply (fin_file ast tu D T F fin d f Hd Hf)|].
  apply (PrintContextAttribute_good ast tu D T F fin);
    [intros p Hp; apply (context_in_universe d p Hd Hp)|].
  apply (PrintTypeAttribute_good ast tu D T F fin).
  - apply (fin_type ast tu D T F fin d Hd).
  - apply (fin_unqualified ast tu D T F fin), (fin_type ast tu D T F fin d Hd).
  - auto.
  - apply (Good_plain ast tu D T F fin); [exact HG|exact I|reflexivity..].
Qed.

Lemma dispatch_good qe s :
  in_universe D T qe ->
  Good D T F (Complete (deref qe s))
    (with_out (entry_header ast qe (Index (deref qe s))) s) ->
  Good D T F (Complete (deref qe s))
    (snd (match qe with
          | KindDecl d => OutputDecl ast d qe s
          | KindType t => OutputType ast t qe s
          end)).
Proof.
  intros Hu. destruct qe as [d|t].
  - cbn in Hu. unfold OutputDecl. destruct (getKind ast d) eqn:Hk.
    + apply OutputTranslationUnitDecl_good; assumption.
    + apply OutputNamespaceDecl_good; assumption.
    + apply OutputTypedefDecl_good; assumption.
    + unfold entry_header. rewrite Hk, OutputUnimplementedDecl_out. auto.
    + unfold entry_header. rewrite Hk, OutputUnimplementedDecl_out. auto.
    + unfold entry_header. rewrite Hk, OutputUnimplementedDecl_out. auto.
  - unfold OutputType, entry_header. destruct (hasLocalQualifiers t).
    + unfold OutputCvQualifiedType. cbn [ret snd]. rewrite with_out_nil. auto.
    + rewrite OutputUnimplementedType_out. auto.
Qed.

Lemma entry_good qe rest s :
  DumpInv D T F s /\ RefInv s -> Queue s = qe :: rest ->
  DumpInv D T F (snd (ProcessQueue_entry ast qe rest s)) /\
  RefInv (snd (ProcessQueue_entry ast qe rest s)).
Proof.
  intros (HD & HR) HQ.
  destruct (pop_header_DumpInv ast D T F qe rest s HD HQ) as (H0 & _). cbv zeta in H0.
  assert (Hin : In qe (Queue s)) by (rewrite HQ; left; reflexivity).
  assert (Hu : in_universe D T qe).
  { apply (inv_universe D T s (dinv_node D T F s HD)),
      (inv_queue D T s (dinv_node D T F s HD)), Hin. }
  pose proof (emit_complete s (dinv_emit D T F s HD) qe Hin) as Hc.
  destruct (entry_header_refs ast qe (Index (deref qe s))) as (Hn & Hf).
  assert (HG : Good D T F (Complete (deref qe (with_Queue rest s)))
                 (with_out (entry_header ast qe (Index (deref qe (with_Queue rest s))))
                    (with_Queue rest s))).
  { rewrite deref_with_Queue. split; [exact H0|]. split.
    - apply RefInv_with_out; [apply entry_header_block| | |].
      + rewrite Hn. intros i [].
      + rewrite Hf. intros i [].
      + apply (RefInv_same s); try reflexivity. exact HR.
    - intros Ha. rewrite Ha in Hc. symmetry. exact Hc. }
  rewrite ProcessQueue_entry_eq.
  destruct (dispatch_good qe (with_Queue rest s) Hu HG) as (H1 & H2 & _).
  split; assumption.
Qed.

Lemma ProcessQueue_good fuel s s' :
  DumpInv D T F s -> RefInv s -> ProcessQueue ast fuel s = Some s' -> RefInv s'.
Proof.
  intros HD HR H.
  destruct (ProcessQueue_invariant ast (fun x => DumpInv D T F x /\ RefInv x)
              (fun x qe rest HP HQ => entry_good qe rest x HP HQ) fuel s s'
              (conj HD HR) H) as ((_ & HR') & _).
  exact HR'.
Qed.

End Dispatch.

Lemma RefInv_register_list ast (l : list Decl) s :
  RefInv s ->
  RefInv (snd (for_each l (fun i => AddDumpNode_Decl ast i true ;;; ret tt) s)).
Proof.
  revert s. induction l as [|d l IH]; intros s HR; [exact HR|].
  rewrite for_each_register_cons. apply IH, RefInv_Register, HR.
Qed.

Lemma count_occ_numbers (n i : Z) :
  In i (numbers n) -> count_occ Z.eq_dec (numbers n) i = 1%nat.
Proof. apply (NoDup_count_occ' Z.eq_dec), numbers_NoDup. Qed.

(** X11.  No reference of the document dangles.  In the dump of a
    finite translation unit every number written in a [type], [members]
    or [context] attribute is the id of exactly one node element of the
    document, and every number written in a [location] or [file]
    attribute is the id of exactly one [File] element. *)
Theorem every_reference_resolves (ast : ASTContext) (tu : Decl) (D T F : list Z)
  (StartNames : list string) :
  ASTFinite ast tu D T F -> references_resolve ast tu D T StartNames.
Proof.
  intros fin. unfold references_resolve.
  destruct (dump_total ast tu D T F fin StartNames)
    as (s1 & s2 & H0 & R0 & E1 & H1 & Q1 & R1 & Hw & E2 & H2 & Q2 & R2 & E).
  destruct (sweep_DumpInv D T F s1 H1 Q1 R1) as (_ & _ & _ & Ow & _ & Dw & _).
  cbv zeta in Ow, Dw.
  assert (HR0 : RefInv (snd (HandleTranslationUnit_start ast StartNames tu ASTVisitor_init))).
  { rewrite HandleTranslationUnit_start_eq.
    apply RefInv_with_out; [exact I|intros i []|intros i []|].
    apply RefInv_register_list, RefInv_init. }
  pose proof (ProcessQueue_good ast tu D T F fin _ _ s1 H0 HR0 E1) as HR1.
  assert (HRw : RefInv (snd (HandleTranslationUnit_incomplete s1))).
  { apply (RefInv_same s1); [exact Ow|exact Dw| | |exact HR1];
      rewrite HandleTranslationUnit_incomplete_eq; reflexivity. }
  pose proof (ProcessQueue_good ast tu D T F fin _ _ s2 Hw HRw E2) as HR2.
  destruct (finish_frame ast s2) as (_ & _ & _ & Of). cbv zeta in Of.
  destruct (file_elements_refs ast s2 (FileQueue s2)) as (Fn & Ff).
  pose proof (HandleTranslationUnit_start_OS ast StartNames tu ASTVisitor_init) as O0.
  cbn [OS ASTVisitor_init app] in O0.
  destruct (ProcessQueue_OS ast _ _ _ E1) as (out1 & O1 & B1 & F1).
  destruct (ProcessQueue_OS ast _ _ _ E2) as (out2 & O2 & B2 & F2).
  rewrite Ow in O2. rewrite O0 in O1.
  assert (Hblock : block (flat_map (file_element ast s2) (FileQueue s2) ++ [Str epilog])).
  { apply block_app; [apply file_elements_block|exact I]. }
  exists (snd (HandleTranslationUnit_finish ast s2)). split; [exact E|]. split.
  - intros i Hi. rewrite finish_ids. rewrite Of, node_refs_of_app in Hi by exact Hblock.
    rewrite node_refs_of_app, Fn in Hi by exact I. cbn [node_refs_of app] in Hi.
    rewrite app_nil_r in Hi.
    destruct (ref_node s2 HR2 i Hi) as (k & Hs & He & <-).
    pose proof (emit_once s2 (dinv_emit D T F s2 H2) k (seen_registered k s2 Hs) He) as Ho.
    rewrite R2, Q2 in Ho. exact Ho.
  - intros i Hi. rewrite Of, file_refs_of_app in Hi by exact Hblock.
    rewrite file_refs_of_app, Ff in Hi by exact I. cbn [file_refs_of app] in Hi.
    rewrite app_nil_r in Hi.
    destruct (ref_file s2 HR2 i Hi) as (Hz & f & <-).
    pose proof (ref_queued s2 HR2 f Hz) as Hq.
    assert (Hids : file_ids_of (OS (snd (HandleTranslationUnit_finish ast s2))) =
                   numbers (FileCount s2)).
    { rewrite Of, O2, O1. rewrite !file_ids_of_app;
        try assumption; try apply block_app; try apply file_elements_block; try exact I.
      rewrite F1, F2, file_elements_file_ids. cbn [file_ids_of app]. rewrite app_nil_r.
      rewrite (finv_queue F s2 (dinv_file D T F s2 H2)),
        (finv_count F s2 (dinv_file D T F s2 H2)). unfold numbers.
      rewrite Nat2Z.id. reflexivity. }
    rewrite Hids. apply count_occ_numbers.
    unfold numbers. rewrite (finv_count F s2 (dinv_file D T F s2 H2)), Nat2Z.id.
    rewrite <- (finv_queue F s2 (dinv_file D T F s2 H2)).
    apply in_map_iff. exists f. auto.
Qed.

Lemma every_reference_resolves_witness :
  references_resolve ex_ast 100 ex_decls ex_types [] /\
  match HandleTranslationUnit ex_ast (enough_fuel ex_decls ex_types) [] 100
          ASTVisitor_init with
  | Some sf => node_refs_of (OS sf) = [2; 3; 5; 1] /\ file_refs_of (OS sf) = [1; 1]
  | None => False
  end.
Proof.
  split.
  - apply (every_reference_resolves ex_ast 100 ex_decls ex_types ex_files []).
    apply ex_ast_finite.
  - vm_compute. split; reflexivity.
Defined.
From Stdlib Require Import ZArith List String Ascii Bool Lia Sorted Permutation.
Import ListNotations.
Local Open Scope string_scope.
Local Open Scope list_scope.
Local Open Scope Z_scope.

(* ------------------------------------------------------------------------- *)
(** ** The text of the elements *)

Lemma keeps_refl s : keeps_indices s s.
Proof. intros k H. auto. Qed.

Lemma keeps_trans s1 s2 s3 :
  keeps_indices s1 s2 -> keeps_indices s2 s3 -> keeps_indices s1 s3.
Proof.
  intros H12 H23 k H. destruct (H12 k H) as (Ha & Hb). destruct (H23 k Ha) as (Hc & Hd).
  split; [exact Hc|congruence].
Qed.

Lemma keeps_with_out cs s : keeps_indices s (with_out cs s).
Proof. intros k H. unfold seen in *. rewrite deref_with_out. auto. Qed.

Lemma keeps_Register k c s : keeps_indices s (snd (Register k c s)).
Proof.
  intros k' H. destruct (Register_stable k c s k' H) as (H1 & H2 & _). auto.
Qed.

Lemma keeps_RegisterFile f s : keeps_indices s (snd (RegisterFile f s)).
Proof. intros k H. unfold seen in *. rewrite deref_RegisterFile. auto. Qed.

Lemma keeps_register_all ast ds s : keeps_indices s (snd (register_all ast ds s)).
Proof.
  revert s. induction ds as [|d ds IH]; intros s; [apply keeps_refl|].
  cbn [register_all snd]. rewrite AddDumpNode_Decl_Register.
  apply (keeps_trans s _ _ (keeps_Register (KindDecl (getCanonicalDecl ast d)) true s)), IH.
Qed.

Lemma register_all_OS ast ds s : OS (snd (register_all ast ds s)) = OS s.
Proof.
  revert s. induction ds as [|d ds IH]; intros s; [reflexivity|].
  cbn [register_all snd]. rewrite IH, AddDumpNode_Decl_Register. apply OS_Register.
Qed.

Lemma register_all_NodeCount ast ds s :
  0 <= NodeCount s -> NodeCount s + Z.of_nat (List.length ds) < 2 ^ 32 ->
  NodeCount s <= NodeCount (snd (register_all ast ds s)) <=
  NodeCount s + Z.of_nat (List.length ds).
Proof.
  revert s. induction ds as [|d ds IH]; intros s H0 H1; [cbn; lia|].
  cbn [register_all snd]. rewrite AddDumpNode_Decl_Register.
  cbn [List.length] in *.
  destruct (Register_room (KindDecl (getCanonicalDecl ast d)) true s H0 ltac:(lia))
    as (_ & Hn). cbv zeta in Hn.
  specialize (IH (snd (Register (KindDecl (getCanonicalDecl ast d)) true s))
                ltac:(lia) ltac:(lia)).
  lia.
Qed.

Lemma register_all_ids ast ds s :
  0 <= NodeCount s -> NodeCount s + Z.of_nat (List.length ds) < 2 ^ 32 ->
  fst (register_all ast ds s) =
  map (fun y => Index (deref (KindDecl (getCanonicalDecl ast y))
                         (snd (register_all ast ds s)))) ds.
Proof.
  revert s. induction ds as [|d ds IH]; intros s H0 H1; [reflexivity|].
  cbn [register_all fst snd map]. rewrite !AddDumpNode_Decl_Register.
  cbn [List.length] in H1.
  set (k := KindDecl (getCanonicalDecl ast d)).
  destruct (Register_room k true s H0 ltac:(lia)) as (Hs & Hn). cbv zeta in Hs, Hn.
  f_equal.
  - destruct (keeps_register_all ast ds _ k Hs) as (_ & E). rewrite E.
    apply Register_returns.
  - apply IH; lia.
Qed.

Ltac string_norm := repeat rewrite append_assoc.

Section Text.
Variables (encodeXML : string -> string) (ast : ASTContext).

Lemma PrintTypeAttribute_text t c x :
  0 <= NodeCount x -> NodeCount x + 2 < 2 ^ 32 ->
  let x' := snd (PrintTypeAttribute t c x) in
  exists blk,
    OS x' = OS x ++ blk /\ render encodeXML blk = type_attribute t x' /\
    keeps_indices x x' /\ seen (KindType (getLocalUnqualifiedType t)) x' = true /\
    NodeCount x <= NodeCount x' <= NodeCount x + 2 /\ FileNodes x' = FileNodes x.
Proof.
  intros H0 H1. cbv zeta. unfold PrintTypeAttribute.
  rewrite !bind_eq, !out_with_out. cbn [snd]. rewrite PrintTypeIdRef_out. cbn [snd].
  set (x1 := with_out [Str (" type=" ++ dq)] x).
  set (x2 := snd (GetTypeIdRef t c x1)).
  assert (Hs : seen (KindType (getLocalUnqualifiedType t)) x2 = true)
    by (apply GetTypeIdRef_room; assumption).
  assert (Hk : keeps_indices x1 x2) by (intros k Hk; apply GetTypeIdRef_stable, Hk).
  assert (Hn : NodeCount x <= NodeCount x2 <= NodeCount x + 2 /\ FileNodes x2 = FileNodes x).
  { unfold x2. rewrite GetTypeIdRef_Register. cbv zeta.
    destruct (Register_room (KindType t) c x1 H0 ltac:(change (NodeCount x1) with (NodeCount x); lia))
      as (_ & Ha). cbv zeta in Ha. change (NodeCount x1) with (NodeCount x) in Ha.
    destruct (Register_frame (KindType t) c x1) as (_ & _ & Hf1 & _). cbv zeta in Hf1.
    destruct (hasLocalQualifiers t); cbn [snd]; [|split; [lia|exact Hf1]].
    destruct (Register_room (KindType (getLocalUnqualifiedType t)) c
                (snd (Register (KindType t) c x1)) ltac:(lia) ltac:(lia)) as (_ & Hb).
    cbv zeta in Hb.
    destruct (Register_frame (KindType (getLocalUnqualifiedType t)) c
                (snd (Register (KindType t) c x1))) as (_ & _ & Hf2 & _).
    cbv zeta in Hf2. split; [lia|]. rewrite Hf2. exact Hf1. }
  eexists. split; [|split; [|split; [|split; [|split]]]].
  - rewrite !OS_with_out. unfold x2. rewrite OS_GetTypeIdRef. unfold x1.
    rewrite OS_with_out, <- !app_assoc. reflexivity.
  - unfold type_attribute. rewrite !deref_with_out. fold x2.
    cbn [app render fold_right render_chunk]. unfold cvr_suffix. string_norm.
    reflexivity.
  - apply (keeps_trans _ x1); [apply keeps_with_out|].
    apply (keeps_trans _ x2); [exact Hk|].
    eapply keeps_trans; apply keeps_with_out.
  - unfold seen in *. rewrite !deref_with_out. exact Hs.
  - apply Hn.
  - apply Hn.
Qed.

Lemma PrintContextAttribute_text d x :
  0 <= NodeCount x -> NodeCount x + 1 < 2 ^ 32 ->
  let x' := snd (PrintContextAttribute ast d x) in
  exists blk,
    OS x' = OS x ++ blk /\ render encodeXML blk = context_attribute ast d x' /\
    keeps_indices x x' /\
    (forall p, dyn_cast_Decl ast (getDeclContext ast d) = Some p ->
               seen (KindDecl (getCanonicalDecl ast p)) x' = true) /\
    NodeCount x <= NodeCount x' <= NodeCount x + 1 /\ FileNodes x' = FileNodes x.
Proof.
  intros H0 H1. cbv zeta. rewrite PrintContextAttribute_eq. cbn [snd].
  unfold context_attribute.
  destruct (dyn_cast_Decl ast (getDeclContext ast d)) as [p|].
  - cbv zeta. set (k := KindDecl (getCanonicalDecl ast p)).
    destruct (Register_room k false x H0 H1) as (Hs & Hn). cbv zeta in Hs, Hn.
    pose proof (Register_returns k false x) as Hr.
    destruct (Register_frame k false x) as (_ & _ & Hf & _). cbv zeta in Hf.
    assert (Hnz : fst (Register k false x) <> 0).
    { rewrite Hr. unfold seen in Hs. apply negb_true_iff, Z.eqb_neq in Hs. exact Hs. }
    apply Z.eqb_neq in Hnz. rewrite Hnz.
    eexists. split; [|split; [|split; [|split; [|split]]]].
    + rewrite OS_with_out, OS_Register. reflexivity.
    + rewrite deref_with_out, <- Hr. apply render_context_chunks.
    + apply (keeps_trans _ (snd (Register k false x)));
        [apply keeps_Register|apply keeps_with_out].
    + intros p' E. injection E as <-. unfold seen in *. rewrite deref_with_out. exact Hs.
    + exact Hn.
    + exact Hf.
  - exists []. rewrite app_nil_r.
    split; [reflexivity|]. split; [reflexivity|]. split; [apply keeps_refl|].
    split; [intros p E; discriminate|]. split; [lia|reflexivity].
Qed.

Lemma PrintLocationAttribute_text d x :
  let x' := snd (PrintLocationAttribute ast d x) in
  exists blk,
    OS x' = OS x ++ blk /\ render encodeXML blk = location_attribute ast d x' /\
    keeps_indices x x' /\ NodeCount x' = NodeCount x.
Proof.
  cbv zeta. rewrite PrintLocationAttribute_eq. cbn [snd]. unfold location_attribute.
  destruct (if locationIsValid ast d then getFileEntry ast d else None) as [f|].
  - assert (Hi : file_index f (snd (RegisterFile f x)) = fst (RegisterFile f x)).
    { unfold RegisterFile. destruct (file_index f x =? 0) eqn:Hz; cbn [fst snd];
        [|reflexivity].
      unfold file_index. cbn [FileNodes]. rewrite find_add_eq. reflexivity. }
    destruct (RegisterFile_frame f x) as (HO & Hn & _). cbv zeta in HO, Hn.
    eexists. split; [|split; [|split]].
    + rewrite OS_with_out, HO. reflexivity.
    + change (file_index f (with_out ?cs ?y)) with (file_index f y). rewrite Hi.
      reflexivity.
    + apply (keeps_trans _ (snd (RegisterFile f x)));
        [apply keeps_RegisterFile|apply keeps_with_out].
    + exact Hn.
  - exists []. rewrite app_nil_r.
    split; [reflexivity|]. split; [reflexivity|]. split; [apply keeps_refl|reflexivity].
Qed.

Lemma PrintMembersAttribute_text dc x :
  0 <= NodeCount x ->
  NodeCount x + Z.of_nat (List.length (kept_members ast dc)) < 2 ^ 32 ->
  let x' := snd (PrintMembersAttribute ast dc x) in
  exists blk,
    OS x' = OS x ++ blk /\ render encodeXML blk = members_attribute ast dc x' /\
    keeps_indices x x'.
Proof.
  intros H0 H1. cbv zeta. rewrite PrintMembersAttribute_eq. cbv zeta. cbn [snd].
  unfold members_attribute.
  pose proof (register_all_ids ast (kept_members ast dc) x H0 H1) as Hids.
  pose proof (register_all_OS ast (kept_members ast dc) x) as HO.
  pose proof (keeps_register_all ast (kept_members ast dc) x) as Hk.
  set (r := register_all ast (kept_members ast dc) x) in *.
  destruct (id_set (fst r)) as [|i ids] eqn:E.
  - exists []. rewrite app_nil_r, HO, <- Hids, E.
    split; [reflexivity|]. split; [reflexivity|exact Hk].
  - eexists. split; [|split].
    + rewrite OS_with_out, HO. reflexivity.
    + erewrite (map_ext _ (fun y => Index (deref (KindDecl (getCanonicalDecl ast y)) (snd r))));
        [|intros y; rewrite deref_with_out; reflexivity].
      rewrite <- Hids, E.
      change (Str (" members=" ++ dq) :: members_chunks (i :: ids) "" ++ [Str dq])
        with ([Str (" members=" ++ dq)] ++ members_chunks (i :: ids) "" ++ [Str dq]).
      rewrite !render_app, render_members_chunks.
      cbn [render fold_right render_chunk]. string_norm. reflexivity.
    + apply (keeps_trans _ (snd r)); [exact Hk|apply keeps_with_out].
Qed.

End Text.

Lemma type_attribute_keeps t x x' :
  keeps_indices x x' -> seen (KindType (getLocalUnqualifiedType t)) x = true ->
  type_attribute t x' = type_attribute t x.
Proof.
  intros Hk Hs. unfold type_attribute. destruct (Hk _ Hs) as (_ & ->). reflexivity.
Qed.

Lemma context_attribute_keeps ast d x x' :
  keeps_indices x x' ->
  (forall p, dyn_cast_Decl ast (getDeclContext ast d) = Some p ->
             seen (KindDecl (getCanonicalDecl ast p)) x = true) ->
  context_attribute ast d x' = context_attribute ast d x.
Proof.
  intros Hk Hs. unfold context_attribute.
  destruct (dyn_cast_Decl ast (getDeclContext ast d)) as [p|]; [|reflexivity].
  destruct (Hk _ (Hs p eq_refl)) as (_ & ->). reflexivity.
Qed.

Lemma PrintContextAttribute_keeps_Complete ast d dn x :
  seen dn x = true ->
  Complete (deref dn (snd (PrintContextAttribute ast d x))) = Complete (deref dn x).
Proof.
  intros Hs.
  destruct (Complete (deref dn (snd (PrintContextAttribute ast d x)))) eqn:E.
  - symmetry. apply (PrintContextAttribute_Complete ast d dn x E).
  - destruct (Complete (deref dn x)) eqn:E'; [|reflexivity].
    rewrite PrintContextAttribute_eq in E. cbn [snd] in E.
    destruct (dyn_cast_Decl ast (getDeclContext ast d)) as [p|]; [|congruence].
    cbv zeta in E.
    destruct (Register_stable (KindDecl (getCanonicalDecl ast p)) false x dn Hs)
      as (_ & _ & Hc). cbv zeta in Hc. specialize (Hc E').
    destruct (fst (Register (KindDecl (getCanonicalDecl ast p)) false x) =? 0);
      [|rewrite deref_with_out in E]; congruence.
Qed.

(** X12.  The element of a typedef.  [OutputTypedefDecl] appends one
    [Typedef] element to the stream: the id of the node, the encoded
    name, the [type] attribute with the index of the unqualified form of
    the type and the qualifier letters, the [context] and [access]
    attributes of the context when it is a declaration, the location
    attributes when the declaration has a file, and the closing of the
    element; every index in it is the one that the registries hold when
    the element is complete. *)
Theorem OutputTypedefDecl_element
  (encodeXML : string -> string) (ast : ASTContext) (d : Decl) (dn : DumpNodePtr)
  (s : ASTVisitor) :
  0 <= NodeCount s -> NodeCount s + 3 < 2 ^ 32 ->
  let s' := snd (OutputTypedefDecl ast d dn s) in
  exists blk,
    OS s' = OS s ++ blk /\
    render encodeXML blk =
    ("  <Typedef" ++ id_name_text encodeXML (Index (deref dn s)) (getName ast d) ++
     type_attribute (getTypedefType ast d) s' ++
     context_attribute ast d s' ++ location_attribute ast d s' ++ "/>" ++ nl)%string.
Proof.
  intros H0 H1. cbv zeta. unfold OutputTypedefDecl.
  rewrite !bind_eq, !out_with_out. cbn [snd fst gets].
  rewrite PrintIdAttribute_out. cbn [snd]. rewrite !deref_with_out, with_out_app.
  cbn [app]. unfold PrintNameAttribute. rewrite !out_with_out. cbn [snd].
  rewrite ?deref_with_out.
  set (x0 := with_out [Str (" name=" ++ dq); Xml (getName ast d); Str dq] (with_out _ s)).
  destruct (PrintTypeAttribute_text encodeXML (getTypedefType ast d)
              (Complete (deref dn s)) x0 H0 ltac:(change (NodeCount x0) with (NodeCount s); lia))
    as (b1 & O1 & R1 & K1 & S1 & N1 & _). cbv zeta in O1, R1, K1, S1, N1.
  change (NodeCount x0) with (NodeCount s) in N1.
  set (x1 := snd (PrintTypeAttribute (getTypedefType ast d) (Complete (deref dn s)) x0)) in *.
  destruct (PrintContextAttribute_text encodeXML ast d x1 ltac:(lia) ltac:(lia))
    as (b2 & O2 & R2 & K2 & S2 & _). cbv zeta in O2, R2, K2, S2.
  set (x2 := snd (PrintContextAttribute ast d x1)) in *.
  destruct (PrintLocationAttribute_text encodeXML ast d x2) as (b3 & O3 & R3 & K3 & _).
  cbv zeta in O3, R3, K3.
  set (x3 := snd (PrintLocationAttribute ast d x2)) in *.
  exists ([Str "  <Typedef"; Str id_open; Num (Index (deref dn s)); Str dq] ++
          [Str (" name=" ++ dq); Xml (getName ast d); Str dq] ++
          b1 ++ b2 ++ b3 ++ [Str ("/>" ++ nl)]).
  split.
  - rewrite OS_with_out, O3, O2, O1. unfold x0. rewrite !OS_with_out, <- !app_assoc.
    reflexivity.
  - assert (K3' : keeps_indices x2 (with_out [Str ("/>" ++ nl)] x3))
      by (apply (keeps_trans _ x3); [exact K3|apply keeps_with_out]).
    rewrite (type_attribute_keeps _ x1 _ (keeps_trans _ _ _ K2 K3') S1).
    rewrite (context_attribute_keeps ast d x2 _ K3' S2).
    change (location_attribute ast d (with_out [Str ("/>" ++ nl)] x3))
      with (location_attribute ast d x3).
    rewrite !render_app, R1, R2, R3. unfold id_name_text.
    cbn [render fold_right render_chunk]. string_norm. reflexivity.
Qed.

Lemma OutputTypedefDecl_element_witness :
  let s := snd (AddDumpNode_Decl ex_ast 200 true ASTVisitor_init) in
  let s' := snd (OutputTypedefDecl ex_ast 200 (KindDecl 200) s) in
  exists blk,
    OS s' = OS s ++ blk /\
    render (fun x => x) blk =
    ("  <Typedef" ++ id_name_text (fun x => x) (Index (deref (KindDecl 200) s)) "CI" ++
     type_attribute 4097 s' ++
     context_attribute ex_ast 200 s' ++ location_attribute ex_ast 200 s' ++ "/>" ++ nl)%string.
Proof.
  apply (OutputTypedefDecl_element (fun x => x) ex_ast 200 (KindDecl 200)
           (snd (AddDumpNode_Decl ex_ast 200 true ASTVisitor_init)));
    cbn; lia.
Defined.

(** X13.  The elements of a namespace and of the translation unit.
    For a node that has been seen, [OutputNamespaceDecl] appends one
    [Namespace] element: the id of the node, the encoded name, the
    [context] attribute, the [members] attribute exactly when the node is
    complete and has kept members, and the closing of the element.
    [OutputTranslationUnitDecl] appends the same element with the name
    [::] and without [context]. *)
Theorem Namespace_elements
  (encodeXML : string -> string) (ast : ASTContext) (d : Decl) (dn : DumpNodePtr)
  (s : ASTVisitor) :
  seen dn s = true ->
  0 <= NodeCount s ->
  NodeCount s + 1 + Z.of_nat (List.length (kept_members ast d)) < 2 ^ 32 ->
  (let s' := snd (OutputNamespaceDecl ast d dn s) in
   exists blk,
     OS s' = OS s ++ blk /\
     render encodeXML blk =
     ("  <Namespace" ++ id_name_text encodeXML (Index (deref dn s)) (getName ast d) ++
      context_attribute ast d s' ++
      (if Complete (deref dn s) then members_attribute ast d s' else "") ++
      "/>" ++ nl)%string) /\
  (let s' := snd (OutputTranslationUnitDecl ast d dn s) in
   exists blk,
     OS s' = OS s ++ blk /\
     render encodeXML blk =
     ("  <Namespace" ++ id_name_text encodeXML (Index (deref dn s)) "::" ++
      (if Complete (deref dn s) then members_attribute ast d s' else "") ++
      "/>" ++ nl)%string).
Proof.
  intros Hs H0 H1. split; cbv zeta.
  - unfold OutputNamespaceDecl.
    rewrite !bind_eq, !out_with_out. cbn [snd fst gets].
    rewrite PrintIdAttribute_out. cbn [snd]. rewrite !deref_with_out, with_out_app.
    cbn [app]. unfold PrintNameAttribute. rewrite !out_with_out. cbn [snd].
    set (x0 := with_out [Str (" name=" ++ dq); Xml (getName ast d); Str dq] (with_out _ s)).
    assert (Hs0 : seen dn x0 = true).
    { unfold seen, x0 in *. rewrite !deref_with_out. exact Hs. }
    assert (Hc0 : Complete (deref dn x0) = Complete (deref dn s))
      by (unfold x0; rewrite !deref_with_out; reflexivity).
    rewrite (PrintContextAttribute_keeps_Complete ast d dn x0 Hs0), Hc0.
    destruct (PrintContextAttribute_text encodeXML ast d x0 H0
                ltac:(change (NodeCount x0) with (NodeCount s); lia))
      as (b2 & O2 & R2 & K2 & S2 & N2 & _). cbv zeta in O2, R2, K2, S2, N2.
    change (NodeCount x0) with (NodeCount s) in N2.
    set (x2 := snd (PrintContextAttribute ast d x0)) in *.
    destruct (Complete (deref dn s)).
    + destruct (PrintMembersAttribute_text encodeXML ast d x2 ltac:(lia) ltac:(lia))
        as (b3 & O3 & R3 & K3). cbv zeta in O3, R3, K3.
      set (x3 := snd (PrintMembersAttribute ast d x2)) in *.
      exists ([Str "  <Namespace"; Str id_open; Num (Index (deref dn s)); Str dq] ++
              [Str (" name=" ++ dq); Xml (getName ast d); Str dq] ++
              b2 ++ b3 ++ [Str ("/>" ++ nl)]).
      split.
      * rewrite OS_with_out, O3, O2. unfold x0. rewrite !OS_with_out, <- !app_assoc.
        reflexivity.
      * assert (K3' : keeps_indices x2 (with_out [Str ("/>" ++ nl)] x3))
          by (apply (keeps_trans _ x3); [exact K3|apply keeps_with_out]).
        rewrite (context_attribute_keeps ast d x2 _ K3' S2).
        change (members_attribute ast d (with_out [Str ("/>" ++ nl)] x3))
          with (members_attribute ast d x3).
        rewrite !render_app, R2, R3. unfold id_name_text.
        cbn [render fold_right render_chunk]. string_norm. reflexivity.
    + cbn [ret snd].
      exists ([Str "  <Namespace"; Str id_open; Num (Index (deref dn s)); Str dq] ++
              [Str (" name=" ++ dq); Xml (getName ast d); Str dq] ++
              b2 ++ [Str ("/>" ++ nl)]).
      split.
      * rewrite OS_with_out, O2. unfold x0. rewrite !OS_with_out, <- !app_assoc.
        reflexivity.
      * rewrite (context_attribute_keeps ast d x2 _ (keeps_with_out _ x2) S2).
        rewrite !render_app, R2. unfold id_name_text.
        cbn [render fold_right render_chunk]. string_norm. reflexivity.
  - unfold OutputTranslationUnitDecl.
    rewrite !bind_eq, !out_with_out. cbn [snd fst gets].
    rewrite PrintIdAttribute_out. cbn [snd]. rewrite !deref_with_out, with_out_app.
    cbn [app]. unfold PrintNameAttribute. rewrite !out_with_out. cbn [snd].
    rewrite ?deref_with_out.
    set (x0 := with_out [Str (" name=" ++ dq); Xml "::"; Str dq] (with_out _ s)).
    destruct (Complete (deref dn s)).
    + destruct (PrintMembersAttribute_text encodeXML ast d x0 H0
                  ltac:(change (NodeCount x0) with (NodeCount s); lia))
        as (b3 & O3 & R3 & K3). cbv zeta in O3, R3, K3.
      set (x3 := snd (PrintMembersAttribute ast d x0)) in *.
      exists ([Str "  <Namespace"; Str id_open; Num (Index (deref dn s)); Str dq] ++
              [Str (" name=" ++ dq); Xml "::"; Str dq] ++ b3 ++ [Str ("/>" ++ nl)]).
      split.
      * rewrite OS_with_out, O3. unfold x0. rewrite !OS_with_out, <- !app_assoc.
        reflexivity.
      * change (members_attribute ast d (with_out [Str ("/>" ++ nl)] x3))
          with (members_attribute ast d x3).
        rewrite !render_app, R3. unfold id_name_text.
        cbn [render fold_right render_chunk]. string_norm. reflexivity.
    + cbn [ret snd].
      exists ([Str "  <Namespace"; Str id_open; Num (Index (deref dn s)); Str dq] ++
              [Str (" name=" ++ dq); Xml "::"; Str dq] ++ [Str ("/>" ++ nl)]).
      split.
      * rewrite OS_with_out. unfold x0. rewrite !OS_with_out, <- !app_assoc. reflexivity.
      * unfold id_name_text. cbn [app render fold_right render_chunk]. string_norm.
        reflexivity.
Qed.

Lemma Namespace_elements_witness :
  let s := snd (AddDumpNode_Decl order_ast 300 true ASTVisitor_init) in
  (let s' := snd (OutputNamespaceDecl order_ast 300 (KindDecl 300) s) in
   exists blk,
     OS s' = OS s ++ blk /\
     render (fun x => x) blk =
     ("  <Namespace" ++ id_name_text (fun x => x) (Index (deref (KindDecl 300) s)) "A" ++
      context_attribute order_ast 300 s' ++
      (if Complete (deref (KindDecl 300) s) then members_attribute order_ast 300 s' else "") ++
      "/>" ++ nl)%string) /\
  (let s' := snd (OutputTranslationUnitDecl order_ast 300 (KindDecl 300) s) in
   exists blk,
     OS s' = OS s ++ blk /\
     render (fun x => x) blk =
     ("  <Namespace" ++ id_name_text (fun x => x) (Index (deref (KindDecl 300) s)) "::" ++
      (if Complete (deref (KindDecl 300) s) then members_attribute order_ast 300 s' else "") ++
      "/>" ++ nl)%string).
Proof.
  apply (Namespace_elements (fun x => x) order_ast 300 (KindDecl 300)
           (snd (AddDumpNode_Decl order_ast 300 true ASTVisitor_init)));
    [reflexivity|cbn; lia|cbn; lia].
Defined.
From Stdlib Require Import ZArith List String Ascii Bool Lia Sorted Permutation.
Import ListNotations.
Local Open Scope string_scope.
Local Open Scope list_scope.
Local Open Scope Z_scope.

(* ------------------------------------------------------------------------- *)
(** ** Complete nodes and the two phases *)

Lemma deref_unregistered k s : registered k s = false -> deref k s = DumpNode0.
Proof.
  unfold registered, deref. destruct k as [d|t].
  - destruct (ZMap.find d (DeclNodes s)); [discriminate|reflexivity].
  - destruct (ZMap.find t (TypeNodes s)); [discriminate|reflexivity].
Qed.

Lemma ProcessQueue_keeps ast fuel s s' :
  ProcessQueue ast fuel s = Some s' -> keeps_indices s s'.
Proof.
  intros H.
  assert (Hstep : forall x qe rest, keeps_indices s x -> Queue x = qe :: rest ->
                    keeps_indices s (snd (ProcessQueue_entry ast qe rest x))).
  { intros x qe rest Hk HQ. apply (keeps_trans _ x); [exact Hk|].
    destruct (entry_Stable ast qe rest x) as (_ & _ & Hs & _). exact Hs. }
  destruct (ProcessQueue_invariant ast _ Hstep fuel s s' (keeps_refl s) H) as (HP & _).
  exact HP.
Qed.

Section SecondPhase.
Variables D T F : list Z.
Hypothesis node_room : Z.of_nat (List.length D + List.length T) < 2 ^ 32 - 1.
Hypothesis file_room : Z.of_nat (List.length F) < 2 ^ 32 - 1.
Variable base : ASTVisitor.

Lemma step_same_completeness e s :
  DumpInv D T F s ->
  event_ok (in_universe D T) (fun f => In f F) false e ->
  same_completeness base s -> same_completeness base (step e s).
Proof.
  intros HI He HS k'. destruct e as [cs|k c|f]; cbn [step].
  - rewrite deref_with_out. apply HS.
  - destruct He as (Hk & Hc).
    assert (c = false) by (destruct c; [discriminate (Hc eq_refl)|reflexivity]). subst c.
    destruct (QueueEntry_eq_dec k k') as [<-|Hne];
      [|rewrite Register_other by exact Hne; apply HS].
    rewrite <- (HS k).
    pose proof (Register_NodeInv_cases D T node_room k false s (dinv_node D T F s HI)) as Hcs.
    cbv zeta in Hcs.
    destruct Hcs as [(_ & _ & _ & Hcm & _)|(Hr & _ & _ & Hcm & _)].
    + rewrite Hcm. apply orb_false_r.
    + rewrite Hcm, (deref_unregistered k s Hr). reflexivity.
  - rewrite deref_RegisterFile. apply HS.
Qed.

Lemma run_same_completeness es s :
  DumpInv D T F s ->
  Forall (event_ok (in_universe D T) (fun f => In f F) false) es ->
  same_completeness base s -> same_completeness base (run es s).
Proof.
  revert s. induction es as [|e es IH]; intros s HI Hes HS; [exact HS|].
  inversion Hes as [|? ? He Hes']; subst. cbn [run fold_left].
  apply IH; [|exact Hes'|apply step_same_completeness; assumption].
  apply (step_DumpInv D T F node_room file_room false e s HI He). discriminate.
Qed.

End SecondPhase.

Section Completeness.
Variables (ast : ASTContext) (tu : Decl) (D T F : list Z).
Hypothesis fin : ASTFinite ast tu D T F.
Variable base : ASTVisitor.

Lemma entry_same_completeness qe rest s :
  DumpInv D T F s -> RequireComplete s = false -> Queue s = qe :: rest ->
  same_completeness base s ->
  same_completeness base (snd (ProcessQueue_entry ast qe rest s)).
Proof.
  intros HI HRC HQ HS.
  destruct (pop_header_DumpInv ast D T F qe rest s HI HQ) as (H0 & _). cbv zeta in H0.
  assert (Hin : In qe (Queue s)) by (rewrite HQ; left; reflexivity).
  assert (Hqe : in_universe D T qe).
  { apply (inv_universe D T s (dinv_node D T F s HI)), (inv_queue D T s (dinv_node D T F s HI)).
    exact Hin. }
  pose proof (emit_complete s (dinv_emit D T F s HI) qe Hin) as Hc. rewrite HRC in Hc.
  pose proof (ProcessQueue_entry_traced ast qe rest s) as Htr.
  apply (traced_weaken _ (in_universe D T) _ (fun f => In f F) _ false) in Htr;
    [|intros k; apply (requests_in_universe ast tu D T F fin); exact Hqe
     |intros f; apply (file_requests_in_universe ast tu D T F fin); exact Hqe
     |rewrite Hc; discriminate].
  destruct Htr as (es & -> & Hes).
  apply (run_same_completeness D T F (fin_nodes ast tu D T F fin) (fin_files ast tu D T F fin)
           base es); [exact H0|exact Hes|].
  intros k. rewrite deref_with_out, deref_with_Queue. apply HS.
Qed.

Lemma ProcessQueue_same_completeness fuel s s' :
  DumpInv D T F s -> RequireComplete s = false -> same_completeness base s ->
  ProcessQueue ast fuel s = Some s' -> same_completeness base s'.
Proof.
  intros HI HRC HS H.
  assert (Hstep : forall x qe rest,
            (DumpInv D T F x /\ RequireComplete x = false /\ same_completeness base x) ->
            Queue x = qe :: rest ->
            DumpInv D T F (snd (ProcessQueue_entry ast qe rest x)) /\
            RequireComplete (snd (ProcessQueue_entry ast qe rest x)) = false /\
            same_completeness base (snd (ProcessQueue_entry ast qe rest x))).
  { intros x qe rest (H1 & H2 & H3) HQ.
    destruct (entry_DumpInv ast tu D T F fin (fin_nodes ast tu D T F fin)
                (fin_files ast tu D T F fin) qe rest x H1 HQ) as (H4 & _ & H5).
    cbv zeta in H4, H5. split; [exact H4|]. split; [congruence|].
    apply entry_same_completeness; assumption. }
  destruct (ProcessQueue_invariant ast _ Hstep fuel s s' (conj HI (conj HRC HS)) H)
    as ((_ & _ & HS') & _).
  exact HS'.
Qed.

End Completeness.

(** X14.  The first phase writes the complete nodes, the second phase
    the others.  In the dump of a finite translation unit no node
    becomes complete after the first phase; the element of every node
    that is complete at the end is written exactly once in the first
    phase and not in the second, and the element of every other node
    (a declaration, or a type without local qualifiers) is written
    exactly once in the second phase and not in the first. *)
Theorem complete_nodes_are_written_in_the_first_phase
  (ast : ASTContext) (tu : Decl) (D T F : list Z) (StartNames : list string) :
  ASTFinite ast tu D T F -> complete_nodes_in_first_phase ast tu D T StartNames.
Proof.
  intros fin. unfold complete_nodes_in_first_phase.
  pose proof (fin_nodes ast tu D T F fin) as room.
  destruct (dump_total ast tu D T F fin StartNames)
    as (s1 & s2 & H0 & R0 & E1 & H1 & Q1 & R1 & Hw & E2 & H2 & Q2 & R2 & E).
  destruct (sweep_DumpInv D T F s1 H1 Q1 R1) as (_ & Rw & _ & Ow & _ & Dw & _).
  cbv zeta in Rw, Ow, Dw.
  pose proof (HandleTranslationUnit_start_OS ast StartNames tu ASTVisitor_init) as O0.
  cbn [OS ASTVisitor_init app] in O0.
  destruct (ProcessQueue_OS ast _ _ _ E1) as (out1 & O1 & B1 & F1).
  destruct (ProcessQueue_OS ast _ _ _ E2) as (out2 & O2 & B2 & F2).
  rewrite Ow in O2. rewrite O0 in O1.
  destruct (finish_frame ast s2) as (Hreg & Hder & _ & Of). cbv zeta in Hreg, Hder, Of.
  set (sf := snd (HandleTranslationUnit_finish ast s2)) in *.
  set (files := flat_map (file_element ast s2) (FileQueue s2)) in *.
  assert (HS : same_completeness s1 s2).
  { apply (ProcessQueue_same_completeness ast tu D T F fin s1 (enough_fuel D T)
             (snd (HandleTranslationUnit_incomplete s1)) s2 Hw Rw); [|exact E2].
    intros k. rewrite Dw. reflexivity. }
  assert (HK : keeps_indices s1 s2).
  { apply (keeps_trans _ (snd (HandleTranslationUnit_incomplete s1))).
    - intros k Hk. unfold seen in *. rewrite Dw. auto.
    - apply (ProcessQueue_keeps ast _ _ _ E2). }
  assert (Hfb : block (files ++ [Str epilog]))
    by (apply block_app; [apply file_elements_block|exact I]).
  assert (Hfi : ids_of (files ++ [Str epilog]) = []).
  { rewrite ids_of_app by exact I. unfold files. rewrite file_elements_ids. reflexivity. }
  assert (Hids1 : ids_of (OS s1) = ids_of out1)
    by (rewrite O1, ids_of_app by exact B1; reflexivity).
  assert (Hids2 : ids_of (OS s2) = ids_of out1 ++ ids_of out2)
    by (rewrite O2, ids_of_app, Hids1 by exact B2; reflexivity).
  exists s1, sf, out1, (out2 ++ files ++ [Str epilog]).
  split; [exact E1|]. split; [exact E|]. split; [exact O1|].
  split; [rewrite Of, O2, <- app_assoc; reflexivity|].
  split; [intros k; rewrite Hder; apply HS|].
  intros k Hk Hem. rewrite Hreg in Hk. rewrite Hder.
  pose proof (dinv_node D T F s1 H1) as HN1. pose proof (dinv_node D T F s2 H2) as HN2.
  assert (Hc1 : count_occ Z.eq_dec (ids_of out1) (Index (deref k s2)) =
                (if Complete (deref k s2) then 1 else 0)%nat).
  { rewrite (HS k), <- Hids1. destruct (registered k s1) eqn:Hr1.
    - pose proof (emit_once s1 (dinv_emit D T F s1 H1) k Hr1 Hem) as Ho.
      rewrite R1, Q1 in Ho. cbn [count_occ Nat.add] in Ho.
      rewrite <- (NodeInv_seen D T room s1 k HN1) in Hr1.
      destruct (HK k Hr1) as (_ & ->). exact Ho.
    - rewrite (deref_unregistered k s1 Hr1). cbn [Complete DumpNode0].
      apply count_occ_not_In. intros Hin.
      pose proof (emit_bound s1 (dinv_emit D T F s1 H1) _ Hin) as Hb.
      destruct (NodeInv_dense D T room s1 _ HN1 Hb) as (k' & Hk' & Hi').
      rewrite <- (NodeInv_seen D T room s1 k' HN1) in Hk'.
      destruct (HK k' Hk') as (Hs2 & Hi2).
      assert (k' = k).
      { apply (inv_inj D T s2 HN2); [apply seen_registered, Hs2|exact Hk|congruence]. }
      subst k'. rewrite (NodeInv_seen D T room s1 k HN1) in Hk'. congruence. }
  split; [exact Hc1|].
  pose proof (emit_once s2 (dinv_emit D T F s2 H2) k Hk Hem) as Ho.
  rewrite R2, Q2, Hids2, count_occ_app, Hc1 in Ho. cbn [count_occ Nat.add] in Ho.
  rewrite (ids_of_app out2 _ Hfb), Hfi, app_nil_r.
  destruct (Complete (deref k s2)); lia.
Qed.

Lemma complete_nodes_are_written_in_the_first_phase_witness :
  complete_nodes_in_first_phase order_ast 100 order_decls order_types order_names.
Proof.
  apply (complete_nodes_are_written_in_the_first_phase order_ast 100 order_decls
           order_types ex_files order_names).
  apply order_ast_finite.
Defined.
From Stdlib Require Import ZArith List String Ascii Bool Lia Sorted Permutation.
Import ListNotations.
Local Open Scope string_scope.
Local Open Scope list_scope.
Local Open Scope Z_scope.

(* ------------------------------------------------------------------------- *)
(** ** Completeness reaches the members *)

Lemma grows_refl s : grows s s.
Proof. intros k H. auto. Qed.

Lemma grows_trans s1 s2 s3 : grows s1 s2 -> grows s2 s3 -> grows s1 s3.
Proof.
  intros H12 H23 k H. destruct (H12 k H) as (Ha & Hb). destruct (H23 k Ha) as (Hc & Hd).
  auto.
Qed.

Lemma grows_ext s s' : (forall k, deref k s' = deref k s) -> grows s s'.
Proof. intros H k Hk. unfold seen in *. rewrite H. auto. Qed.

Lemma grows_Register k c s : grows s (snd (Register k c s)).
Proof.
  intros k' H. destruct (Register_stable k c s k' H) as (H1 & _ & H3). auto.
Qed.

Lemma step_grows e s : grows s (step e s).
Proof.
  destruct e as [cs|k c|f]; cbn [step].
  - apply grows_ext. intros k. apply deref_with_out.
  - apply grows_Register.
  - apply grows_ext. intros k. apply deref_RegisterFile.
Qed.

Lemma run_grows es s : grows s (run es s).
Proof.
  revert s. induction es as [|e es IH]; intros s; [apply grows_refl|].
  cbn [run fold_left]. apply (grows_trans _ (step e s)); [apply step_grows|apply IH].
Qed.

Lemma members_done_grows ast d s s' : grows s s' -> members_done ast d s -> members_done ast d s'.
Proof.
  intros Hg Hd y Hy. destruct (Hd y Hy) as (Hs & Hc). destruct (Hg _ Hs) as (Hs' & Hc').
  auto.
Qed.

Lemma ClosedBut_same ast E s s' :
  (forall k, deref k s' = deref k s) -> Queue s' = Queue s ->
  ClosedBut ast E s -> ClosedBut ast E s'.
Proof.
  intros Hd HQ HC d Hk Hs Hc. unfold seen in Hs. rewrite Hd in Hs, Hc.
  destruct (HC d Hk Hs Hc) as [H|[H|H]]; [auto|rewrite HQ; auto|].
  right. right. apply (members_done_grows ast d s s' (grows_ext s s' Hd) H).
Qed.

Section Closed.
Variables (ast : ASTContext) (D T F : list Z).
Hypothesis node_room : Z.of_nat (List.length D + List.length T) < 2 ^ 32 - 1.
Hypothesis file_room : Z.of_nat (List.length F) < 2 ^ 32 - 1.
Variable E : QueueEntry -> Prop.

Lemma step_ClosedBut allow e s :
  DumpInv D T F s ->
  event_ok (in_universe D T) (fun f => In f F) allow e ->
  ClosedBut ast E s -> ClosedBut ast E (step e s).
Proof.
  intros HI He HC. destruct e as [cs|k c|f]; cbn [step].
  - apply (ClosedBut_same ast E s); [intros k; apply deref_with_out|reflexivity|exact HC].
  - intros d Hk Hs Hc.
    pose proof (Register_NodeInv_cases D T node_room k c s (dinv_node D T F s HI)) as Hcs.
    cbv zeta in Hcs.
    assert (Hold : seen (KindDecl d) s = true -> Complete (deref (KindDecl d) s) = true ->
                   E (KindDecl d) \/ In (KindDecl d) (Queue (snd (Register k c s))) \/
                   members_done ast d (snd (Register k c s))).
    { intros Hs0 Hc0. destruct (HC d Hk Hs0 Hc0) as [H|[H|H]]; [auto| |].
      - right. left.
        destruct Hcs as [(_ & _ & _ & _ & ->)|(_ & _ & _ & _ & ->)];
          apply in_app_iff; auto.
      - right. right. apply (members_done_grows ast d s _ (grows_Register k c s) H). }
    destruct (QueueEntry_eq_dec k (KindDecl d)) as [->|Hne].
    + destruct Hcs as [(Hr & _ & _ & Hcm & Hq)|(Hr & _ & _ & Hcm & Hq)].
      * rewrite Hcm in Hc.
        destruct (Complete (deref (KindDecl d) s)) eqn:Hc0.
        -- apply Hold; [|reflexivity].
           rewrite (NodeInv_seen D T node_room s _ (dinv_node D T F s HI)). exact Hr.
        -- cbn in Hc. subst c. right. left. rewrite Hq. cbn. apply in_app_iff.
           right. left. reflexivity.
      * rewrite Hcm in Hc. subst c. right. left. rewrite Hq. cbn. apply in_app_iff.
        right. left. reflexivity.
    + unfold seen in Hs. rewrite Register_other in Hs, Hc by exact Hne.
      apply Hold; assumption.
  - apply (ClosedBut_same ast E s);
      [intros k; apply deref_RegisterFile| |exact HC].
    destruct (RegisterFile_frame f s) as (_ & _ & _ & _ & HQ & _). exact HQ.
Qed.

Lemma run_ClosedBut allow es s :
  DumpInv D T F s -> (allow = true -> RequireComplete s = true) ->
  Forall (event_ok (in_universe D T) (fun f => In f F) allow) es ->
  ClosedBut ast E s -> ClosedBut ast E (run es s).
Proof.
  revert s. induction es as [|e es IH]; intros s HI Hrc Hes HC; [exact HC|].
  inversion Hes as [|? ? He Hes']; subst. cbn [run fold_left].
  destruct (step_DumpInv D T F node_room file_room allow e s HI He Hrc) as (HI' & _).
  apply IH; [exact HI'| |exact Hes'|apply (step_ClosedBut allow); assumption].
  intros Ha. destruct (step_Stable _ _ _ e s He) as [Hr _ _ _]. rewrite Hr. auto.
Qed.

End Closed.

Lemma grows_register_all ast ds s : grows s (snd (register_all ast ds s)).
Proof.
  revert s. induction ds as [|d ds IH]; intros s; [apply grows_refl|].
  cbn [register_all snd]. rewrite AddDumpNode_Decl_Register.
  apply (grows_trans s _ _ (grows_Register (KindDecl (getCanonicalDecl ast d)) true s)), IH.
Qed.

Section Members.
Variables (ast : ASTContext) (tu : Decl) (D T F : list Z).
Hypothesis fin : ASTFinite ast tu D T F.

Lemma register_all_done ds x :
  Good D T F true x ->
  (forall y, In y ds -> in_universe D T (KindDecl (getCanonicalDecl ast y))) ->
  forall y, In y ds ->
    seen (KindDecl (getCanonicalDecl ast y)) (snd (register_all ast ds x)) = true /\
    Complete (deref (KindDecl (getCanonicalDecl ast y)) (snd (register_all ast ds x))) = true.
Proof.
  revert x. induction ds as [|d ds IH]; intros x HG Hds y Hy; [destruct Hy|].
  cbn [register_all snd]. rewrite AddDumpNode_Decl_Register.
  set (k := KindDecl (getCanonicalDecl ast d)).
  destruct (Good_register ast tu D T F fin true k true x HG (Hds d (or_introl eq_refl))
              (fun _ => eq_refl)) as (H1 & _).
  destruct Hy as [<-|Hy]; [|apply (IH _ H1 (fun z Hz => Hds z (or_intror Hz)) y Hy)].
  fold k. destruct HG as (HD & _ & _).
  pose proof (fin_nodes ast tu D T F fin) as room.
  destruct (NodeInv_room D T room x (dinv_node D T F x HD)) as (Ha & Hb).
  destruct (Register_room k true x Ha Hb) as (Hs & _). cbv zeta in Hs.
  assert (Hc : Complete (deref k (snd (Register k true x))) = true).
  { destruct (Register_NodeInv_cases D T room k true x (dinv_node D T F x HD))
      as [(_ & _ & _ & -> & _)|(_ & _ & _ & -> & _)]; [apply orb_true_r|reflexivity]. }
  destruct (grows_register_all ast ds _ k Hs) as (Hs' & Hc'). auto.
Qed.

Lemma members_after_print d cs x :
  Good D T F true x -> In d D ->
  members_done ast d (with_out cs (snd (PrintMembersAttribute ast d x))).
Proof.
  intros HG Hd y Hy. unfold seen. rewrite deref_with_out.
  rewrite PrintMembersAttribute_eq. cbv zeta. cbn [snd].
  assert (H : seen (KindDecl (getCanonicalDecl ast y))
                (snd (register_all ast (kept_members ast d) x)) = true /\
              Complete (deref (KindDecl (getCanonicalDecl ast y))
                          (snd (register_all ast (kept_members ast d) x))) = true).
  { apply (register_all_done _ x HG); [|exact Hy].
    intros z Hz. unfold kept_members in Hz. apply filter_In in Hz.
    apply (members_in_universe ast tu D T F fin d z Hd (proj1 Hz)). }
  destruct (id_set _); [exact H|]. rewrite deref_with_out. exact H.
Qed.

Lemma OutputDecl_done d x :
  In d D -> container ast d = true ->
  seen (KindDecl d) x = true -> Complete (deref (KindDecl d) x) = true ->
  Good D T F true
    (with_out (entry_header ast (KindDecl d) (Index (deref (KindDecl d) x))) x) ->
  members_done ast d (snd (OutputDecl ast d (KindDecl d) x)).
Proof.
  intros Hd Hk Hs Hc HG. unfold OutputDecl.
  unfold container in Hk. unfold entry_header in HG.
  destruct (getKind ast d) eqn:Hkind; try discriminate.
  - unfold OutputTranslationUnitDecl.
    rewrite !bind_eq, !out_with_out. cbn [snd fst gets].
    rewrite PrintIdAttribute_out. cbn [snd]. rewrite !deref_with_out, with_out_app.
    cbn [app]. unfold PrintNameAttribute. rewrite !out_with_out. cbn [snd].
    rewrite ?deref_with_out, Hc.
    apply members_after_print; [|exact Hd].
    apply (Good_plain ast tu D T F fin); [exact HG|exact I|reflexivity..].
  - unfold OutputNamespaceDecl.
    rewrite !bind_eq, !out_with_out. cbn [snd fst gets].
    rewrite PrintIdAttribute_out. cbn [snd]. rewrite !deref_with_out, with_out_app.
    cbn [app].
    set (x1 := with_out _ x) in *.
    assert (Hs1 : seen (KindDecl d) (snd (PrintNameAttribute (getName ast d) x1)) = true).
    { unfold PrintNameAttribute. rewrite out_with_out. cbn [snd]. unfold seen, x1 in *.
      rewrite !deref_with_out. exact Hs. }
    assert (Hc1 : Complete (deref (KindDecl d)
                              (snd (PrintNameAttribute (getName ast d) x1))) = true).
    { unfold PrintNameAttribute. rewrite out_with_out. cbn [snd]. unfold x1.
      rewrite !deref_with_out. exact Hc. }
    rewrite (PrintContextAttribute_keeps_Complete ast d (KindDecl d) _ Hs1), Hc1.
    apply members_after_print; [|exact Hd].
    apply (PrintContextAttribute_good ast tu D T F fin).
    + intros p Hp. apply (context_in_universe ast tu D T F fin d p Hd Hp).
    + apply (PrintNameAttribute_good ast tu D T F fin), HG.
Qed.

Lemma dispatch_done d rest s :
  DumpInv D T F s -> RefInv s -> Queue s = KindDecl d :: rest ->
  container ast d = true -> Complete (deref (KindDecl d) s) = true ->
  members_done ast d (snd (ProcessQueue_entry ast (KindDecl d) rest s)).
Proof.
  intros HD HR HQ Hk Hc.
  destruct (pop_header_DumpInv ast D T F (KindDecl d) rest s HD HQ) as (H0 & _).
  cbv zeta in H0.
  assert (Hin : In (KindDecl d) (Queue s)) by (rewrite HQ; left; reflexivity).
  assert (Hd : In d D).
  { apply (inv_universe D T s (dinv_node D T F s HD) (KindDecl d)),
      (inv_queue D T s (dinv_node D T F s HD)), Hin. }
  assert (Hs : seen (KindDecl d) s = true).
  { rewrite (NodeInv_seen D T (fin_nodes ast tu D T F fin) s _ (dinv_node D T F s HD)).
    apply (inv_queue D T s (dinv_node D T F s HD)), Hin. }
  pose proof (emit_complete s (dinv_emit D T F s HD) _ Hin) as Hrc. rewrite Hc in Hrc.
  destruct (entry_header_refs ast (KindDecl d) (Index (deref (KindDecl d) s))) as (Hn & Hf).
  assert (HG : Good D T F true
                 (with_out (entry_header ast (KindDecl d) (Index (deref (KindDecl d) s)))
                    (with_Queue rest s))).
  { split; [exact H0|]. split; [|intros _; symmetry; exact Hrc].
    apply RefInv_with_out; [apply entry_header_block| | |].
    - rewrite Hn. intros i [].
    - rewrite Hf. intros i [].
    - apply (RefInv_same s); try reflexivity. exact HR. }
  rewrite ProcessQueue_entry_eq.
  apply OutputDecl_done; assumption.
Qed.

Lemma entry_Closed qe rest s :
  DumpInv D T F s /\ RefInv s /\ ClosedBut ast (fun _ => False) s ->
  Queue s = qe :: rest ->
  DumpInv D T F (snd (ProcessQueue_entry ast qe rest s)) /\
  RefInv (snd (ProcessQueue_entry ast qe rest s)) /\
  ClosedBut ast (fun _ => False) (snd (ProcessQueue_entry ast qe rest s)).
Proof.
  intros (HD & HR & HC) HQ.
  destruct (entry_good ast tu D T F fin qe rest s (conj HD HR) HQ) as (HD' & HR').
  split; [exact HD'|]. split; [exact HR'|].
  pose proof (fin_nodes ast tu D T F fin) as node_room.
  pose proof (fin_files ast tu D T F fin) as file_room.
  destruct (pop_header_DumpInv ast D T F qe rest s HD HQ) as (H0 & _). cbv zeta in H0.
  assert (Hin : In qe (Queue s)) by (rewrite HQ; left; reflexivity).
  assert (Hqe : in_universe D T qe).
  { apply (inv_universe D T s (dinv_node D T F s HD)), (inv_queue D T s (dinv_node D T F s HD)).
    exact Hin. }
  pose proof (emit_complete s (dinv_emit D T F s HD) qe Hin) as Hc.
  set (s0 := with_out (entry_header ast qe (Index (deref qe s))) (with_Queue rest s)) in *.
  assert (HC0 : ClosedBut ast (eq qe) s0).
  { intros d Hk Hs Hcm. unfold seen, s0 in Hs, Hcm.
    rewrite deref_with_out, deref_with_Queue in Hs, Hcm.
    destruct (HC d Hk Hs Hcm) as [[]|[H|H]].
    - rewrite HQ in H. destruct H as [H|H]; [left; exact H|right; left; exact H].
    - right. right. apply (members_done_grows ast d s); [|exact H].
      apply grows_ext. intros k. unfold s0. rewrite deref_with_out, deref_with_Queue.
      reflexivity. }
  pose proof (ProcessQueue_entry_traced ast qe rest s) as Htr. fold s0 in Htr.
  apply (traced_weaken _ (in_universe D T) _ (fun f => In f F) _ (Complete (deref qe s)))
    in Htr;
    [|intros k; apply (requests_in_universe ast tu D T F fin); exact Hqe
     |intros f; apply (file_requests_in_universe ast tu D T F fin); exact Hqe
     |auto].
  destruct Htr as (es & Hrun & Hes).
  assert (HC1 : ClosedBut ast (eq qe) (snd (ProcessQueue_entry ast qe rest s))).
  { rewrite Hrun.
    apply (run_ClosedBut ast D T F node_room file_room (eq qe) (Complete (deref qe s)) es s0
             H0); [|exact Hes|exact HC0].
    intros Ha. rewrite Ha in Hc. symmetry. exact Hc. }
  intros d Hk Hs Hcm. destruct (HC1 d Hk Hs Hcm) as [Heq|[H|H]]; [|auto|auto].
  right. right. subst qe.
  destruct (Complete (deref (KindDecl d) s)) eqn:Hc0.
  - apply dispatch_done; assumption.
  - exfalso. rewrite Hrun in Hcm.
    assert (HS : same_completeness s0 (run es s0)).
    { apply (run_same_completeness D T F node_room file_room s0 es s0 H0 Hes).
      intros k. reflexivity. }
    rewrite (HS (KindDecl d)) in Hcm. unfold s0 in Hcm.
    rewrite deref_with_out, deref_with_Queue in Hcm. congruence.
Qed.

Lemma ProcessQueue_Closed fuel s s' :
  DumpInv D T F s -> RefInv s -> ClosedBut ast (fun _ => False) s ->
  ProcessQueue ast fuel s = Some s' ->
  ClosedBut ast (fun _ => False) s'.
Proof.
  intros HD HR HC H.
  destruct (ProcessQueue_invariant ast
              (fun x => DumpInv D T F x /\ RefInv x /\ ClosedBut ast (fun _ => False) x)
              (fun x qe rest HP HQ => entry_Closed qe rest x HP HQ) fuel s s'
              (conj HD (conj HR HC)) H) as ((_ & _ & HC') & _).
  exact HC'.
Qed.

End Members.

(** X15.  Completeness reaches the members.  At the end of the dump of
    a finite translation unit every kept member (every direct child that
    is neither an injected class name nor an access specifier) of every
    complete namespace, and of the translation unit when it is complete,
    is registered and complete. *)
Theorem complete_containers_have_complete_members
  (ast : ASTContext) (tu : Decl) (D T F : list Z) (StartNames : list string) :
  ASTFinite ast tu D T F -> complete_members ast tu D T StartNames.
Proof.
  intros fin. unfold complete_members.
  pose proof (fin_nodes ast tu D T F fin) as room.
  assert (roomD : Z.of_nat (List.length D) < 2 ^ 32 - 1) by lia.
  destruct (dump_total ast tu D T F fin StartNames)
    as (s1 & s2 & H0 & R0 & E1 & H1 & Q1 & R1 & Hw & E2 & H2 & Q2 & R2 & E).
  destruct (sweep_DumpInv D T F s1 H1 Q1 R1) as (_ & _ & _ & Ow & _ & Dw & _).
  cbv zeta in Ow, Dw.
  pose proof (HandleTranslationUnit_start_eq ast StartNames tu ASTVisitor_init) as Hs0.
  destruct (StartInv_register_list ast D roomD (start_decls ast StartNames tu) []
              ASTVisitor_init
              (fun d Hd => start_decls_in ast tu D T F StartNames d fin Hd)
              (StartInv_init D)) as (HI & _).
  cbv zeta in HI. cbn [app] in HI.
  assert (HR0 : RefInv (snd (HandleTranslationUnit_start ast StartNames tu ASTVisitor_init))).
  { rewrite Hs0. apply RefInv_with_out; [exact I|intros i []|intros i []|].
    apply RefInv_register_list, RefInv_init. }
  assert (HC0 : ClosedBut ast (fun _ => False)
                  (snd (HandleTranslationUnit_start ast StartNames tu ASTVisitor_init))).
  { rewrite Hs0. intros d _ Hs _. right. left. unfold seen in Hs.
    rewrite deref_with_out in Hs.
    change (Queue (with_out ?cs ?x)) with (Queue x).
    rewrite (sti_queue D _ _ HI). apply in_map, (sti_seen D _ _ HI d), Hs. }
  pose proof (ProcessQueue_good ast tu D T F fin _ _ s1 H0 HR0 E1) as HR1.
  pose proof (ProcessQueue_Closed ast tu D T F fin _ _ s1 H0 HR0 HC0 E1) as HC1.
  assert (HRw : RefInv (snd (HandleTranslationUnit_incomplete s1))).
  { apply (RefInv_same s1); [exact Ow|exact Dw| | |exact HR1];
      rewrite HandleTranslationUnit_incomplete_eq; reflexivity. }
  assert (HCw : ClosedBut ast (fun _ => False) (snd (HandleTranslationUnit_incomplete s1))).
  { intros d Hk Hs Hc. unfold seen in Hs. rewrite Dw in Hs, Hc.
    destruct (HC1 d Hk Hs Hc) as [[]|[H|H]]; [rewrite Q1 in H; destruct H|].
    right. right. apply (members_done_grows ast d s1); [|exact H].
    apply grows_ext, Dw. }
  pose proof (ProcessQueue_Closed ast tu D T F fin _ _ s2 Hw HRw HCw E2) as HC2.
  destruct (finish_frame ast s2) as (Hreg & Hder & _). cbv zeta in Hreg, Hder.
  exists (snd (HandleTranslationUnit_finish ast s2)). split; [exact E|].
  intros d Hk Hr Hc y Hy. rewrite Hreg, Hder in *.
  pose proof (dinv_node D T F s2 H2) as HN.
  rewrite <- (NodeInv_seen D T room s2 _ HN) in Hr.
  destruct (HC2 d Hk Hr Hc) as [[]|[H|H]]; [rewrite Q2 in H; destruct H|].
  destruct (H y Hy) as (Hsy & Hcy). split; [|exact Hcy].
  rewrite <- (NodeInv_seen D T room s2 _ HN). exact Hsy.
Qed.

Lemma complete_containers_have_complete_members_witness :
  complete_members ex_ast 100 ex_decls ex_types [].
Proof.
  apply (complete_containers_have_complete_members ex_ast 100 ex_decls ex_types ex_files []).
  apply ex_ast_finite.
Defined.
